(* ===== verification/_CoqProject ===== *)
-Q . S2P
Prelude.v
Json.v
Base64.v
Utf8.v
JsonUnits.v
Http.v
Multipart.v
FanOut.v
Schedules.v
Ocr.v
TextBundle.v
BundleReader.v
Pdf.v
Handler.v
Contract.v
Platform.v
Effects.v
Artifacts.v
Logging.v
Client.v
CodeUnits.v
