(* ===== verification/Prelude.v ===== *)
(** * Verification of the image-to-PDF HTTP function

    The program ([src/functions/index.js]) is one HTTP handler,
    [convertImageToText]: it answers a CORS preflight, parses a multipart
    upload, keeps the image parts, runs OCR on all of them concurrently
    ([Promise.all]), renders one PDF and one text bundle from the results in
    upload order, and answers with both, base64-encoded, in a JSON object;
    every failure after the preflight is caught once and reported as a 500.

    ** Files, and the code each one models

    - [Prelude] (this file): what every component shares.  JavaScript values
      that the handler manipulates ([Thrown] for anything a [throw] or a
      rejected promise carries, [Exn] for a statement that returns or
      throws, with [bindE] and the notation [let! x := m in k] for the
      sequence of statements of the [try] block), the string primitives the
      handler calls ([startsWith], [join], the [||] default [js_or], string
      concatenation with [undefined] [to_String]), the exception-aware
      [filterE] for [parts.filter] with a callback that can throw, the
      interleavings of a list of lists ([interleaved]), the tactics
      [exn_case] and [exn_solve], and the hint database [js].
    - [Json]: [JSON.stringify] on the two flat objects the handler passes to
      [response.json] (lines 112-115 and 118-121), and a reader of such
      texts, which stands for the client.
    - [Base64]: [buffer.toString('base64')] (lines 113-114) on bytes as
      8-bit integers, with the shifts and masks of RFC 4648, and the
      decoder of a client.
    - [Utf8]: JavaScript strings as sequences of UTF-16 code units
      ([JsString]), their code points ([code_points]: surrogate pairs
      joined, U+FFFD for a surrogate without its partner) and
      [Buffer.from(s)] (line 114) with the shifts and masks of UTF-8
      ([utf8_code_point], [Buffer_from16]); [utf8] is the byte string
      that stands for a JavaScript string in the other files;
      [utf8_decode] is the decoder of a client.
    - [JsonUnits]: [JSON.stringify] on code units ([escape16],
      [quote16], [stringify16]): surrogate pairs are kept and a
      surrogate without its partner is escaped by its number;
      [decode_body] is the caller decoding the bytes of a body.
    - [Http]: the Express request and response.  [Response] is the state
      that [res_set], [res_status], [res_send] and [res_json] change
      (lines 13-15, 19, 109, 112, 118).  The same calls as data
      ([ResCall]) are run in sequence by [respond_all], and by
      [respond_all_checked] with the check Node makes before it writes a
      header or a body to a response whose body is sent ([headersSent]).
    - [Multipart]: the parts of an upload and the filter callback of lines
      38-40; [MultipartLib] is the interface of [getBoundary] and [parse]
      (lines 25 and 32).
    - [FanOut]: [await Promise.all(imageFiles.map(async ...))] (lines
      47-66) as a transition system.  A [Pool] holds one slot per call, the
      console and the promise of [Promise.all]; [step i] is one event of
      call [i] (a logger line, or its settlement); a schedule is the list of
      the calls the event loop picks, [run] executes it.
    - [Schedules]: the reference view of the same event loop: the state of
      a call after a schedule as a function of how often the schedule picks
      it ([advance1], [after_picks], [picks]), the schedules that are
      [fair] to every call, and the equivalence [pool_equiv] of pools up to
      the order of the console lines, with the [Proper] instances of the
      operations of [FanOut].
    - [Ocr]: the [async] callback on one image (lines 48-65): the call of
      the engine with the language ["eng"], the logger line of each progress
      report, the result object.  [OcrEngine] is the interface of
      [tesseract.recognize]; [recognised] says that the engine reads a text
      in every image of a list.
    - [TextBundle]: [textContent] (lines 104-106).
    - [BundleReader]: a reader of the text file, from the format the
      specification describes: the lines of the text ([split_lines]), one
      section per header line ([chunks]), the text of a section without
      its frame ([read_text]).
    - [Pdf]: the executor of the PDF promise (lines 69-101): the document as
      the state the chained calls change, [add_item] for the callback of
      [forEach], [settle_stream] for the three listeners.  [PdfRenderer] is
      the interface of pdfkit: the events the document emits.
      [texts_on] reads the texts of one page.
    - [Handler]: [convertImageToText] itself (lines 6-124), statement by
      statement, composed of the definitions above; the deployment options
      (lines 7-10); the contract [allowed] of the handler.
    - [Platform]: the timeout of the deployment, from the specification:
      the events of the OCR calls carry the second at which they happen
      ([TimedPick]), the platform runs those up to [timeoutSeconds]
      ([picks_until]) and delivers the answer the handler has given by
      then, or stops the call ([invoke]).
    - [Contract]: the converse of the contract (a schedule for every
      outcome it allows) and, from the two directions, that the progress
      reports of the engine do not change the answers.
    - [Effects]: the handler a second time, as an interaction tree
      ([handler_tree], lines 11-123) over the events of its statements
      ([HandlerE]: a call on the response, [console.error], [getBoundary],
      [parse], the [await] of [Promise.all] and the [await] of the PDF
      promise), with [try_tree] and [catch_tree] for the two blocks.  The
      environment [env] answers the events in the state [World]: it
      records the calls on the response and the console entries in the
      order they happen ([Obs]), asks the libraries through their
      interfaces, runs the OCR calls on the schedule, and answers an
      [await] on a promise that never settles with the event [Suspend],
      which has no continuation.  [serve] is the handler in its
      environment.  This is the only file that loads the ITree library.
    - [Artifacts]: the OCR results given to the PDF document and to the
      text bundle, image by image (composition of [Ocr], [Pdf] and
      [TextBundle]).
    - [Logging]: what [console.log] (lines 52-58) and [console.error] (line
      117) have printed when the handler stops ([log_lines], [log_errors]),
      against the progress lines of the images ([image_lines]).
    - [Client]: the caller's side, from the specification: the body parsed
      as JSON, the properties [pdf] and [text] decoded from base64
      ([read_success]), or [error] and [details] read ([read_failure]).
    - [CodeUnits]: the string expressions of the handler on UTF-16 code
      units, as the source has them: the prefix test of line 39
      ([is_image16]), the logger line of lines 53-57 ([logger16]), the
      result object of lines 60-63 ([extraction16]), the heading of line
      86 ([heading_text16]), the template literal and the [join] of
      lines 104-106 ([section16], [textContent16]), the objects of the
      two answers ([payload_object16], [error_object16]); [encoded_part] and
      [encoded_item] give the parts and results of the other files, and
      [text_code_points] is the caller decoding the text as UTF-8.

    The three libraries the handler calls are type classes, so every theorem
    of [Handler] holds for every parser, OCR engine and renderer; the
    witnesses instantiate them with small executable fakes.

    ** What is proved

    - [Handler.handler_refines_contract]: on every schedule the handler
      leaves the answer of an outcome its contract allows; the contract is
      stated on the request and on what the libraries return, with no pool
      and no schedule.  Around it, one theorem per path: preflight
      ([preflight_204]), each failure of the upload ([no_boundary_500],
      [no_files_500], [no_images_500], [untyped_part_500],
      [parser_exception_500]), the failure of an OCR call
      ([ocr_failure_500]) and of the PDF stream ([pdf_failure_500]), success
      ([success_200], [success_body], [payload_decodes]); invariants of
      every call ([cors_on_every_response], [answers_exactly_once],
      [answer_declares_json]); independence of the schedule but for the
      error reported ([answer_schedule_independent]); liveness
      ([returns_when_quiescent], [pdf_stream_stalls]); what later
      events change ([answer_is_final]: the console only grows and an
      answer stays as it is); and the size of the body of a success
      from the sizes of the artifacts ([success_body_length]).
    - [Platform.deadline_exact]: the deadline decides what the caller
      gets: the events up to [timeoutSeconds] are run as the handler
      runs them, those after it are never seen, the call is answered
      exactly when the handler returns on the former, and an answer
      within a deadline is the answer within every longer one;
      [three_minutes_not_nine] runs an upload that takes four minutes
      under the 180 seconds of the source and under the nine minutes of
      its comment.
    - [Contract]: the contract is exact ([contract_complete]: each allowed
      outcome is reached on the empty schedule, on the schedule that runs
      one call until it rejects, or on the sequential schedule), and an
      engine that reports differently and settles alike gives the same
      answers ([progress_reports_do_not_matter]).
    - [Effects]: the tree refines the function of [Handler]
      ([serve_refines]: it ends in one way only, returned or suspended as
      [returned_] says, with the calls and the lines of [response] and
      [logged]).  On the sequence of events, which the record of the
      response cannot express: the events follow the grammar [in_order]
      of the statements ([events_in_order]); the answer is the last call
      on the response and is made once, so no call fails the check of
      Node ([never_writes_after_answer]); and under a fair schedule, with
      a PDF stream that ends or fails, the handler returns with the
      response answered ([fair_schedule_returns]).
    - [FanOut]: the invariant [pool_inv] of every reachable pool, and from
      it the value of [Promise.all] whatever the schedule: the results in
      index order, the reason of a call that rejected, never a fulfilment
      when a call rejects; refinement of the specification [all_spec],
      which is exact ([promise_all_exactly_spec]: every result it allows
      is awaited on some schedule);
      schedule independence on success; every run consumes one event
      per step ([steps_bounded], by the measure [work]); the sequential
      schedule settles every call, and
      every schedule that leaves no event ends in the same state of the
      calls ([quiescent_pool_final]); the console lines of each call stay
      in order.
    - [Schedules]: the state of a call and the lines it has printed after
      any schedule, in closed form ([slot_by_picks]); a schedule leaves no
      event exactly when it is fair, every schedule extends to a fair one,
      and a fair schedule prints every line of every call once
      ([fair_schedule_settles]); the console interleaves the lines the
      calls have printed ([console_interleaved]); schedules that give
      every call the same number of events ([picks]), permutations of
      one another among them, leave the same slots, the same lines up
      to order and, when no call rejects, equivalent pools
      ([schedule_order_irrelevant]).
    - [Artifacts.artifacts_per_image]: image [i] of the upload has page
      [i + 1] of the document and section [i] of the bundle, with its file
      name or ["unknown"] and the text recognised in it.
    - [Logging]: the console holds only progress lines of the images, each
      at most once ([console_lines_bounded]); after a success it
      interleaves the lines of the images, those of one image in the
      order of its progress reports ([success_logs_every_line], from
      [Schedules.console_interleaved]); [console.error] is called once,
      exactly when the [try] block throws ([error_logged_once]).
    - [Client]: end to end, the caller reads from the body of a success the
      bytes of the PDF and the text bundle of the images in upload order
      ([client_reads_artifacts]) and, from the text bundle, the file name
      and the text of every image ([client_reads_results]); from the body
      of a failure the error and the message of what was thrown
      ([client_reads_failure]); and no body reads as both.
    - [Pdf]: one page per result, the calls on the document in order, each
      result drawn on its page in the fonts and sizes of the code, the
      settlement of the stream promise; every page holds the heading
      and the text of its result and nothing else
      ([page_holds_its_result]).
    - [Http]: a sequence of calls whose answer, if any, comes last passes
      the checks of Node and gives the response of the unchecked calls
      ([respond_all_checked_answer_last]); with the checks a response
      never carries two bodies ([respond_all_checked_one_body]).
    - [TextBundle]: the place of each section, the length of the bundle,
      and that the bundle cannot be parsed back in general.
    - [BundleReader.read_textContent]: the bundle reads back, names and
      texts in order, when the file names hold no line break and no line
      of a text is a header line; [textContent] is injective on such
      results.  [read_bundle_ambiguous] runs the reader on the bundle of
      [TextBundle.reparse_ambiguous].
    - [Json], [Base64]: round trips (a client reads back what the handler
      wrote), injectivity, and the form of the base64 text
      ([base64_encode_canonical]: the characters of the alphabet that
      hold the bits, then the pads of the last group), which
      [Handler.payload_well_formed] states of both properties of the
      answer.
    - [Utf8]: encoding commutes with concatenation where the second
      string does not begin with the second half of a pair or the first
      has no surrogates ([utf8_app], [utf8_app_plain]) and not in general
      ([surrogate_pair_split]); the shifts and masks are quotients and
      remainders ([utf8_code_point_eq]); decoding the bytes of
      [Buffer.from] gives the code points ([Buffer_from16_decodes],
      which [CodeUnits.text_artifact_decodes] states of the text
      artifact);
      every value written is a byte, one to three bytes per code unit
      ([Buffer_from16_size]); the prefix test on bytes is the one on
      code units ([startsWith_utf8]).
    - [JsonUnits.stringify16_sent], and [CodeUnits.answer_bodies_sent]
      for the bodies of the two answers: the text of [JSON.stringify] has no
      surrogate without its partner, whatever the strings of the object
      ([paired_stringify16]), so a caller that decodes the bytes sent
      has the text again; for strings without unpaired surrogates the
      bytes are those [Json.stringify] writes ([utf8_stringify16]), and
      not otherwise ([lone_surrogate_escaped]).
    - [CodeUnits.handler_strings_exact]: every string expression of the
      handler on the encoded strings is the encoding of the expression
      on code units, for all strings, because each interpolated string
      stands between literals of the source; so the byte strings of the
      other files lose nothing.  The bodies of the two answers are the
      texts of [stringify16], the body of a failure when the message
      of the error has no unpaired surrogate.  [client_reads_code_points]
      composes this with the handler and the caller.

    ** Bounds and fuel

    - [Json.parse_properties] takes fuel, one unit per property; the reader
      [parse_object] gives it the length of the text, which
      [parse_object_stringify] shows to be enough for every object.
    - The facts on the bit operations of base64 are checked exhaustively on
      the 64 sextets and the 65536 pairs of bytes ([sextet_facts_all],
      [pair_facts_all]), then used at every byte.
    - Schedules are finite lists.  A call is a finite list of progress
      lines and an outcome, so every run of the calls ends
      ([steps_bounded]) and finite schedules lose nothing; a call that
      reports progress without end is not expressible.  A pick that
      names a settled call or no call is skipped.
    - The tree of [Effects] has no loop: the fan-out is one event, which
      the environment answers by running the schedule, so the tree needs
      no fuel and its runs are compared up to silent steps (weak
      bisimulation, [eutt]).
    - Status codes, sizes and page numbers are natural numbers: the code
      does no arithmetic on them that could overflow.
    - Code units, code points and the bytes of UTF-8 are integers ([Z])
      with their ranges as hypotheses ([code_unit]: 16 bits; [scalar]:
      below 0x110000); [utf8_encode_bytes] shows that the encoder stays
      within 8 bits, so the conversion to bytes cuts nothing.
    - Time is counted in whole seconds from the start of the call; an
      event at the second of the deadline still happens.

    ** Modelling conventions

    - A JavaScript string is a [string] (the bytes of its UTF-8 encoding), so
      [Buffer.from(s)] is the list of its bytes.  [CodeUnits] justifies
      this for the strings the handler builds; a string with unpaired
      surrogates is stood for by its bytes with U+FFFD in their place.
    - [undefined] is [None]: a property that an object may lack has an
      [option] type.
    - A [throw] is the [Throw] case of [Exn]; [try]/[catch] is [try_catch].
      [error.message] of a thrown value that is not an [Error] object is
      [undefined].
    - A promise that never settles is [None]: the handler then has not
      returned ([returned_] is [false]).  In [Effects] the same is the
      event [Suspend w], whose answer type is empty: the tree stops there
      with the world [w] it has reached ([finish false w]).
    - A call of a library is modelled at the place of the call by what the
      library documents: [res_set] stores the value as given, [res_json]
      sets the content type only when none is set.
    - A built-in of the language or of Node that the source only calls
      ([Promise.all] and the event loop, [JSON.stringify],
      [Buffer.from], [toString('base64')]) is modelled from its
      standard, not from lines of the source: the manifest marks these
      definitions as modelled from the specification, and the theorems
      that are about them alone are facts of the model of the built-in;
      the theorems of [Handler], [Artifacts], [Logging], [Client] and
      [CodeUnits] are those about the code that calls them.
    - Every definition that translates source lines keeps the name the
      source gives the value it computes.

    ** Not modelled

    - The platform but for its timeout: the enforcement of [memory], the
      parsing of the request into headers and body, the network, and
      what the platform answers to a call it stopped.
    - The inside of the three libraries: how the parser cuts the body into
      parts, how the engine recognises text, how pdfkit lays text out and
      writes the bytes.  Their sources are not part of the repository, and
      the specification states of them only what the handler relies on, so
      a parser, an engine or a renderer written here would model no code of
      the program; instead every theorem is proved for every
      implementation of the three interfaces.  In particular the pages
      pdfkit adds by itself when a text does not fit on a page are not
      counted by [pages], and the charset suffix Express may add to a
      content type is not modelled.
    - The caller is modelled from the specification only ([Client],
      [BundleReader]); it reads flat JSON objects of strings, which is
      what the handler sends, and the text file line by line.
    - Exceptions thrown synchronously by a call on the document, and a
      [getBoundary] that throws: the interface has it return a string
      for every string, as the library does ([parse] may throw).
    - A thrown [null] or [undefined] in the handler as a whole:
      [Thrown] has [Error] objects and other values with properties
      only.  [Handler.catch_block] is the [catch] block on any caught
      value; [Handler.catch_block_undefined] shows that on [undefined]
      it sets the status, throws on reading [error.message] and never
      answers.
    - An OCR call that never settles by itself, retries or depends on
      timing: a call of the engine is a finite list of progress reports
      and an outcome.  A call that has not settled yet is a call the
      schedule has not picked often enough; the handler then waits
      ([returned_] is [false]).
    - The body of a failure whose message has a surrogate without its
      partner, in [Handler]: it has the bytes of U+FFFD where
      [JSON.stringify] writes the escape of the unit
      ([JsonUnits.lone_surrogate_escaped]); and how [console.error]
      prints the value thrown.
    - JSON values other than flat objects of strings. *)

From Stdlib Require Import String Ascii ZArith Lia List.
From Stdlib Require Import Strings.Byte.
From stdpp Require Import base option list strings.

Declare Scope js_scope.
Delimit Scope js_scope with js.

(** ** Thrown values and the exception monad *)

(** What a [throw] statement or a rejected promise carries: an [Error]
    object (with its [name] and [message]) or another value that has
    properties (a string, a number, a plain object).  [null] and
    [undefined], of which no property can be read, are not among them. *)
Inductive Thrown : Type :=
| ErrorObj (name message : string)
| NonError (value : string).

(** [new Error(msg)]. *)
Definition new_Error (msg : string) : Thrown := ErrorObj "Error" msg.

(** The [TypeError] the engine raises on a property read of [undefined]. *)
Definition TypeError_undefined (prop : string) : Thrown :=
  ErrorObj "TypeError"
    ("Cannot read properties of undefined (reading '" +:+ prop +:+ "')").

(** [error.message]: [undefined] on a value that is not an [Error] and
    has no such property. *)
Definition message (e : Thrown) : option string :=
  match e with
  | ErrorObj _ m => Some m
  | NonError _ => None
  end.

(** A computation that returns a value or throws. *)
Inductive Exn (A : Type) : Type :=
| Return (a : A)
| Throw (e : Thrown).
Arguments Return {A} a.
Arguments Throw {A} e.

(** Sequencing: the continuation runs on the returned value, a thrown value
    propagates. *)
Definition bindE {A B : Type} (m : Exn A) (k : A -> Exn B) : Exn B :=
  match m with
  | Return a => k a
  | Throw e => Throw e
  end.

Definition mapE {A B : Type} (f : A -> B) (m : Exn A) : Exn B :=
  match m with
  | Return a => Return (f a)
  | Throw e => Throw e
  end.

Notation "'let!' x ':=' m 'in' k" := (bindE m (fun x => k))
  (at level 10, x name, m at level 100, k at level 200,
   format "'[v' 'let!'  x  ':='  m  'in' '/' k ']'") : js_scope.
Local Open Scope js_scope.

(** [try { body } catch (error) { handler }]. *)
Definition try_catch {A : Type} (body : Exn A) (handler : Thrown -> A) : A :=
  match body with
  | Return a => a
  | Throw e => handler e
  end.

(** The thrown value of a computation, if it throws. *)
Definition thrown {A : Type} (m : Exn A) : option Thrown :=
  match m with
  | Return _ => None
  | Throw e => Some e
  end.

(** The returned value of a computation, if it returns. *)
Definition returned {A : Type} (m : Exn A) : option A :=
  match m with
  | Return a => Some a
  | Throw _ => None
  end.

Notation "'throw!' msg" := (Throw (new_Error msg))
  (at level 10, msg at level 9) : js_scope.

(** ** Buffers *)

(** A [Buffer] is the list of its bytes. *)
Abbreviation bytes := (list byte).

(** [Buffer.from(s)]: the bytes of the string. *)
Definition Buffer_from (s : string) : bytes := list_byte_of_string s.

(** [Buffer.concat(chunks)]. *)
Definition Buffer_concat (chunks : list bytes) : bytes := concat chunks.

(** The characters the handler and the serialisers spell by code. *)
Definition dquote : ascii := "034"%char.
Definition newline : ascii := "010"%char.
Definition nl : string := String newline "".

(** ** String primitives *)

(** A string is falsy exactly when it is empty. *)
Definition truthy (s : string) : bool := negb (String.eqb s "").

(** [v || d] on a possibly undefined string. *)
Definition js_or (v : option string) (d : string) : string :=
  match v with
  | Some s => if truthy s then s else d
  | None => d
  end.

(** What string concatenation makes of a possibly undefined operand. *)
Definition to_String (v : option string) : string :=
  match v with
  | Some s => s
  | None => "undefined"
  end.

(** [s.startsWith(p)]. *)
Definition startsWith (s p : string) : bool := String.prefix p s.

(** [xs.join(sep)] on an array of strings. *)
Fixpoint join (sep : string) (xs : list string) : string :=
  match xs with
  | [] => ""
  | [x] => x
  | x :: rest => x +:+ sep +:+ join sep rest
  end.

(** Occurrences of [p] as a substring of [s], overlapping ones included. *)
Fixpoint count_occ_str (p s : string) : nat :=
  match s with
  | EmptyString => if String.eqb p "" then 1 else 0
  | String c s' =>
      (if String.prefix p s then 1 else 0) + count_occ_str p s'
  end.

(** ** Arrays with a callback that may throw *)

(** [xs.filter(f)]: the callback runs on the elements in index order and
    the first exception aborts the call. *)
Fixpoint filterE {A : Type} (f : A -> Exn bool) (xs : list A) : Exn (list A) :=
  match xs with
  | [] => Return []
  | x :: rest =>
      let! b := f x in
      let! kept := filterE f rest in
      Return (if b : bool then x :: kept else kept)
  end.

(** All computations of a list in index order, stopping at the first that
    throws. *)
Fixpoint sequenceE {A : Type} (ms : list (Exn A)) : Exn (list A) :=
  match ms with
  | [] => Return []
  | m :: rest =>
      let! a := m in
      let! others := sequenceE rest in
      Return (a :: others)
  end.

(** ** Interleavings *)

(** [interleaved ls l]: the list [l] is made of the elements of the lists
    [ls], those of each list in their order: its head is the head of one
    of the lists, and its tail interleaves what is left. *)
Inductive interleaved {A : Type} : list (list A) -> list A -> Prop :=
| interleaved_nil (ls : list (list A)) :
    Forall (fun l => l = []) ls -> interleaved ls []
| interleaved_cons (i : nat) (x : A) (xs : list A) (ls : list (list A)) (l : list A) :
    ls !! i = Some (x :: xs) -> interleaved (<[i := xs]> ls) l ->
    interleaved ls (x :: l).

(** ** Tactics and hints *)

Create HintDb js discriminated.
Create Rewrite HintDb js.

(** Unfolds the monad operations of [Exn] so that [simpl] sees the match. *)
Ltac exn_unfold := unfold bindE, mapE, try_catch in *.

(** Case analysis on the first [Exn] scrutinee of the goal. *)
Ltac exn_case :=
  exn_unfold;
  match goal with
  | |- context [match ?m with Return _ => _ | Throw _ => _ end] =>
      let E := fresh "E" in destruct m eqn:E; simpl in *
  end.

(** Closes or simplifies goals about [Exn] values. *)
Ltac exn_solve :=
  exn_unfold; simpl in *; try congruence; try done;
  repeat (exn_case; try congruence; try done).

(** ** Lemmas on [Exn] *)

Lemma bind_Return {A B : Type} (a : A) (f : A -> Exn B) :
  bindE (Return a) f = f a.
Proof. reflexivity. Qed.

Lemma bind_Throw {A B : Type} (e : Thrown) (f : A -> Exn B) :
  bindE (Throw e) f = Throw e.
Proof. reflexivity. Qed.

Lemma bind_assoc_Exn {A B C : Type} (m : Exn A) (f : A -> Exn B) (g : B -> Exn C) :
  bindE (bindE m f) g = bindE m (fun a => bindE (f a) g).
Proof. by destruct m. Qed.

Lemma bind_Return_inv {A B : Type} (m : Exn A) (f : A -> Exn B) (b : B) :
  bindE m f = Return b -> exists a, m = Return a /\ f a = Return b.
Proof. destruct m; [eauto | discriminate]. Qed.

Lemma bind_Throw_inv {A B : Type} (m : Exn A) (f : A -> Exn B) (e : Thrown) :
  bindE m f = Throw e ->
  m = Throw e \/ exists a, m = Return a /\ f a = Throw e.
Proof. destruct m; simpl; intros H; [right; eauto | left; congruence]. Qed.

Lemma try_catch_Return {A : Type} (a : A) (h : Thrown -> A) :
  try_catch (Return a) h = a.
Proof. reflexivity. Qed.

Lemma try_catch_Throw {A : Type} (e : Thrown) (h : Thrown -> A) :
  try_catch (Throw e) h = h e.
Proof. reflexivity. Qed.

Lemma returned_or_thrown {A : Type} (m : Exn A) :
  (exists a, m = Return a) \/ (exists e, m = Throw e).
Proof. destruct m; eauto. Qed.

#[export] Hint Rewrite @bind_Return @bind_Throw @try_catch_Return
  @try_catch_Throw : js.

(** ** Lemmas on the string primitives *)

Lemma truthy_empty : truthy "" = false.
Proof. reflexivity. Qed.

Lemma truthy_String (c : ascii) (s : string) : truthy (String c s) = true.
Proof. reflexivity. Qed.

Lemma truthy_false_iff (s : string) : truthy s = false <-> s = "".
Proof. destruct s; split; (done || congruence). Qed.

Lemma js_or_truthy (v : option string) (d : string) :
  truthy d = true -> truthy (js_or v d) = true.
Proof.
  intros Hd. destruct v as [s|]; simpl; [|done].
  by destruct (truthy s) eqn:E.
Qed.

Lemma js_or_Some_truthy (s d : string) :
  truthy s = true -> js_or (Some s) d = s.
Proof. intros H. simpl. by rewrite H. Qed.

Lemma string_app_nil_l (a : string) : "" +:+ a = a.
Proof. reflexivity. Qed.

Lemma string_app_cons (c : ascii) (a b : string) :
  String c a +:+ b = String c (a +:+ b).
Proof. reflexivity. Qed.

Lemma string_app_assoc (a b c : string) : (a +:+ b) +:+ c = a +:+ (b +:+ c).
Proof.
  induction a as [|x a IH]; [done|]. by rewrite !string_app_cons, IH.
Qed.

Lemma string_app_nil_r (a : string) : a +:+ "" = a.
Proof. induction a as [|x a IH]; [done|]. by rewrite string_app_cons, IH. Qed.

Lemma string_length_app (a b : string) :
  String.length (a +:+ b) = String.length a + String.length b.
Proof.
  induction a as [|x a IH]; [done|]. rewrite string_app_cons. simpl.
  by rewrite IH.
Qed.

#[export] Hint Rewrite string_app_nil_l string_app_cons string_app_assoc
  string_app_nil_r string_length_app : js.

Lemma startsWith_app (p s : string) : startsWith (p +:+ s) p = true.
Proof.
  unfold startsWith. induction p as [|c p IH].
  - by destruct s.
  - rewrite string_app_cons. simpl.
    destruct (ascii_dec c c); [exact IH | done].
Qed.

Lemma startsWith_inv (s p : string) :
  startsWith s p = true -> exists rest, s = p +:+ rest.
Proof.
  unfold startsWith. revert s. induction p as [|c p IH]; intros s H.
  - by exists s.
  - destruct s as [|c' s]; simpl in H; [done|].
    destruct (ascii_dec c c') as [->|]; [|done].
    destruct (IH _ H) as [rest ->]. by exists rest.
Qed.

Lemma startsWith_iff (s p : string) :
  startsWith s p = true <-> exists rest, s = p +:+ rest.
Proof.
  split; [apply startsWith_inv|]. intros [rest ->]. apply startsWith_app.
Qed.

Lemma join_nil (sep : string) : join sep [] = "".
Proof. reflexivity. Qed.

Lemma join_singleton (sep x : string) : join sep [x] = x.
Proof. reflexivity. Qed.

Lemma join_cons_cons (sep x y : string) (rest : list string) :
  join sep (x :: y :: rest) = x +:+ sep +:+ join sep (y :: rest).
Proof. reflexivity. Qed.

(** [join] agrees with the Standard Library's [String.concat]. *)
Lemma join_concat (sep : string) (xs : list string) :
  join sep xs = String.concat sep xs.
Proof.
  induction xs as [|x [|y rest] IH]; [done..|].
  rewrite join_cons_cons, IH. reflexivity.
Qed.

Lemma join_app (sep : string) (xs ys : list string) :
  xs <> [] -> ys <> [] ->
  join sep (xs ++ ys) = join sep xs +:+ sep +:+ join sep ys.
Proof.
  intros Hx Hy. induction xs as [|x xs IH]; [done|].
  destruct xs as [|x' xs].
  - destruct ys; [done|]. reflexivity.
  - rewrite <- !app_comm_cons, !join_cons_cons, app_comm_cons, IH by done.
    by rewrite !string_app_assoc.
Qed.

(** The length of a joined array: the elements and one separator between
    each two. *)
Lemma join_length (sep : string) (xs : list string) :
  String.length (join sep xs) =
  list_sum (map String.length xs) + String.length sep * (length xs - 1).
Proof.
  induction xs as [|x xs IH]; [simpl; lia|].
  destruct xs as [|y rest]; [simpl; lia|].
  rewrite join_cons_cons, !string_length_app, IH. simpl. lia.
Qed.

(** ** Induction on a list three elements at a time *)

Lemma list_ind3 {A : Type} (P : list A -> Prop) :
  P [] -> (forall a, P [a]) -> (forall a b, P [a; b]) ->
  (forall a b c l, P l -> P (a :: b :: c :: l)) ->
  forall l, P l.
Proof.
  intros H0 H1 H2 H3. fix IH 1. intros [|a [|b [|c l]]].
  - exact H0.
  - apply H1.
  - apply H2.
  - apply H3, IH.
Qed.

(** ** Lemmas on [filterE] and [sequenceE] *)

Lemma filterE_Return {A : Type} (f : A -> Exn bool) (g : A -> bool) (xs : list A) :
  Forall (fun x => f x = Return (g x)) xs ->
  filterE f xs = Return (List.filter g xs).
Proof.
  induction 1 as [|x xs Hx _ IH]; [done|].
  simpl. rewrite Hx, IH. reflexivity.
Qed.

Lemma filterE_Return_inv {A : Type} (f : A -> Exn bool) (xs kept : list A) :
  filterE f xs = Return kept ->
  Forall (fun x => exists b, f x = Return b) xs.
Proof.
  revert kept. induction xs as [|x xs IH]; intros kept H; [constructor|].
  simpl in H. destruct (f x) as [b|] eqn:E; [|done].
  simpl in H. destruct (filterE f xs) as [k|] eqn:E'; [|done].
  constructor; eauto.
Qed.

(** [filter] throws exactly what the callback throws on the first element
    it throws on. *)
Lemma filterE_Throw {A : Type} (f : A -> Exn bool) (pre post : list A) (x : A) (e : Thrown) :
  Forall (fun y => exists b, f y = Return b) pre ->
  f x = Throw e ->
  filterE f (pre ++ x :: post) = Throw e.
Proof.
  intros Hpre Hx. induction Hpre as [|y pre [b Hy] _ IH]; simpl.
  - by rewrite Hx.
  - by rewrite Hy, IH.
Qed.

Lemma filterE_sublist {A : Type} (f : A -> Exn bool) (xs kept : list A) :
  filterE f xs = Return kept -> sublist kept xs.
Proof.
  revert kept. induction xs as [|x xs IH]; intros kept H; simpl in H.
  - injection H as <-. constructor.
  - destruct (f x) as [b|]; [|done]. simpl in H.
    destruct (filterE f xs) as [k|]; [|done]. simpl in H.
    injection H as <-. destruct b; [apply sublist_skip | apply sublist_cons];
      by apply IH.
Qed.

Lemma sequenceE_Return {A : Type} (xs : list A) :
  sequenceE (map Return xs) = Return xs.
Proof. induction xs as [|x xs IH]; [done|]. simpl. by rewrite IH. Qed.

Lemma sequenceE_Return_inv {A : Type} (ms : list (Exn A)) (xs : list A) :
  sequenceE ms = Return xs -> ms = map Return xs.
Proof.
  revert xs. induction ms as [|m ms IH]; intros xs H; simpl in H.
  - by injection H as <-.
  - destruct m as [a|]; [|done]. simpl in H.
    destruct (sequenceE ms) as [ys|] eqn:E; [|done]. simpl in H.
    injection H as <-. simpl. f_equal. by apply IH.
Qed.

Lemma sequenceE_Throw_In {A : Type} (ms : list (Exn A)) (e : Thrown) :
  sequenceE ms = Throw e -> In (Throw e) ms.
Proof.
  induction ms as [|m ms IH]; intros H; simpl in H; [done|].
  destruct m as [a|e']; simpl in H.
  - right. apply IH. by destruct (sequenceE ms).
  - left. congruence.
Qed.

Lemma sequenceE_length {A : Type} (ms : list (Exn A)) (xs : list A) :
  sequenceE ms = Return xs -> length xs = length ms.
Proof.
  intros H. apply sequenceE_Return_inv in H. subst. by rewrite length_map.
Qed.

Lemma sequenceE_Forall2 {A B : Type} (f : A -> Exn B) (xs : list A) (ys : list B) :
  Forall2 (fun x y => f x = Return y) xs ys ->
  sequenceE (f <$> xs) = Return ys.
Proof.
  induction 1 as [|x y xs ys Hx _ IH]; [done|].
  rewrite fmap_cons. simpl. by rewrite Hx, IH.
Qed.

(** A list of computations one of which throws does not return as a whole. *)
Lemma sequenceE_elem_Throw {A B : Type} (f : A -> Exn B) (xs : list A) (x : A) (e : Thrown) :
  x ∈ xs -> f x = Throw e -> exists e', sequenceE (f <$> xs) = Throw e'.
Proof.
  intros Hin Hx. induction Hin as [x xs|x y xs _ IH].
  - rewrite fmap_cons. simpl. rewrite Hx. eauto.
  - rewrite fmap_cons. simpl. destruct (f y) as [b|e1]; simpl; [|eauto].
    destruct (IH Hx) as [e' ->]. eauto.
Qed.

Lemma length_Buffer_from (s : string) : length (Buffer_from s) = String.length s.
Proof.
  unfold Buffer_from, list_byte_of_string. rewrite length_map.
  induction s as [|c s IH]; simpl; congruence.
Qed.

(** ** Interleavings *)

Section Interleaved.
Context {A : Type}.
Implicit Types (l : list A) (ls : list (list A)).

Lemma concat_insert_cons ls i (x : A) xs :
  ls !! i = Some (x :: xs) -> concat ls ≡ₚ x :: concat (<[i := xs]> ls).
Proof.
  intros Hi. rewrite <- (take_drop_middle ls i (x :: xs) Hi) at 1.
  rewrite insert_take_drop by (by eapply lookup_lt_Some).
  rewrite !concat_app, !concat_cons. simpl. by rewrite <- Permutation_middle.
Qed.

(** An interleaving holds the elements of the lists, each as often as the
    lists do. *)
Lemma interleaved_Permutation ls l : interleaved ls l -> l ≡ₚ concat ls.
Proof.
  induction 1 as [ls Hnil|i x xs ls l Hi _ IH].
  - induction Hnil as [|l' ls -> _ IH]; [done|]. by rewrite concat_cons.
  - by rewrite (concat_insert_cons ls i x xs Hi), IH.
Qed.

(** Each of the lists is in the interleaving, in its order. *)
Lemma interleaved_sublist ls l i li :
  interleaved ls l -> ls !! i = Some li -> li `sublist_of` l.
Proof.
  intros Hil. revert i li.
  induction Hil as [ls Hnil|j x xs ls l Hj _ IH]; intros i li Hi.
  - rewrite Forall_lookup in Hnil. rewrite (Hnil i li Hi). constructor.
  - destruct (decide (i = j)) as [->|Hne].
    + replace li with (x :: xs) by congruence. apply sublist_skip, (IH j).
      apply list_lookup_insert_eq. by eapply lookup_lt_Some.
    + apply sublist_cons, (IH i). by rewrite list_lookup_insert_ne.
Qed.

(** One more list that gives nothing. *)
Lemma interleaved_cons_nil ls l : interleaved ls l -> interleaved ([] :: ls) l.
Proof.
  induction 1 as [ls Hnil|i x xs ls l Hi _ IH]; [by repeat constructor|].
  by apply (interleaved_cons (S i) x xs).
Qed.

(** The lists one after the other are an interleaving. *)
Lemma interleaved_concat ls : interleaved ls (concat ls).
Proof.
  induction ls as [|l0 ls IH]; [by repeat constructor|].
  rewrite concat_cons. induction l0 as [|x l0 IH0]; simpl.
  - by apply interleaved_cons_nil.
  - by apply (interleaved_cons 0 x l0).
Qed.

End Interleaved.
