(* ===== verification/Json.v ===== *)
(** * Json: [JSON.stringify] on the objects the handler answers with

    [response.json(obj)] serialises [obj] with [JSON.stringify].  The handler
    only passes flat objects whose properties are strings or [undefined]
    ([{pdf, text}] and [{error, details}]), so an object is the list of its
    properties in insertion order, a property whose value is [undefined]
    being left out of the output.  [quote] is the string quotation of
    [JSON.stringify]; [unquote] is a reader of quoted strings and
    [parse_object] a reader of flat objects, which the round-trip theorems
    use to say that a client recovers what the handler sent. *)

From Stdlib Require Import String Ascii NArith Lia List.
From stdpp Require Import base option list strings.
From S2P Require Import Prelude.

(** ** Serialisation *)

(** A flat object: properties in insertion order, [None] for [undefined]. *)
Definition JsObject : Type := list (string * option string).

Definition backslash : ascii := "092"%char.

(** The lower-case hexadecimal digit of [n < 16]. *)
Definition hex_digit (n : N) : ascii :=
  match n with
  | 0 => "0" | 1 => "1" | 2 => "2" | 3 => "3" | 4 => "4" | 5 => "5"
  | 6 => "6" | 7 => "7" | 8 => "8" | 9 => "9" | 10 => "a" | 11 => "b"
  | 12 => "c" | 13 => "d" | 14 => "e" | _ => "f"
  end%N%char.

(** How [JSON.stringify] writes one character inside a string. *)
Definition escape_char (c : ascii) : string :=
  let n := N_of_ascii c in
  if (n =? 34)%N then String backslash (String dquote "")
  else if (n =? 92)%N then String backslash (String backslash "")
  else if (n =? 8)%N then String backslash "b"
  else if (n =? 12)%N then String backslash "f"
  else if (n =? 10)%N then String backslash "n"
  else if (n =? 13)%N then String backslash "r"
  else if (n =? 9)%N then String backslash "t"
  else if (n <? 32)%N then
    String backslash
      (String "u" (String "0" (String "0"
        (String (hex_digit (n / 16)) (String (hex_digit (n mod 16)) "")))))
  else String c "".

Fixpoint escape (s : string) : string :=
  match s with
  | EmptyString => ""
  | String c rest => escape_char c +:+ escape rest
  end.

(** A string as [JSON.stringify] writes it. *)
Definition quote (s : string) : string :=
  String dquote (escape s +:+ String dquote "").

(** One property, [None] when its value is [undefined]. *)
Definition stringify_property (kv : string * option string) : option string :=
  match kv.2 with
  | Some v => Some (quote kv.1 +:+ ":" +:+ quote v)
  | None => None
  end.

(** [JSON.stringify(obj)]. *)
Definition stringify (obj : JsObject) : string :=
  "{" +:+ join "," (omap stringify_property obj) +:+ "}".

(** A character that [JSON.stringify] writes as itself. *)
Definition plain_char (c : ascii) : bool :=
  let n := N_of_ascii c in
  negb (n <? 32)%N && negb (n =? 34)%N && negb (n =? 92)%N.

Fixpoint plain (s : string) : bool :=
  match s with
  | EmptyString => true
  | String c rest => plain_char c && plain rest
  end.

(** ** Reading back *)

(** The value of a hexadecimal digit. *)
Definition hex_value (c : ascii) : option N :=
  let n := N_of_ascii c in
  if (48 <=? n)%N && (n <=? 57)%N then Some (n - 48)%N
  else if (97 <=? n)%N && (n <=? 102)%N then Some (n - 87)%N
  else if (65 <=? n)%N && (n <=? 70)%N then Some (n - 55)%N
  else None.

(** The character an escape letter stands for. *)
Definition unescape_letter (c : ascii) : option ascii :=
  let n := N_of_ascii c in
  if (n =? 34)%N then Some dquote
  else if (n =? 92)%N then Some backslash
  else if (n =? 47)%N then Some "/"%char
  else if (n =? 98)%N then Some "008"%char
  else if (n =? 102)%N then Some "012"%char
  else if (n =? 110)%N then Some "010"%char
  else if (n =? 114)%N then Some "013"%char
  else if (n =? 116)%N then Some "009"%char
  else None.

(** Reads the inside of a quoted string up to its closing quote: the string
    read and what follows the closing quote.  Escapes of code points above
    255 are refused: [quote] never writes one. *)
Fixpoint unquote_body (s : string) : option (string * string) :=
  match s with
  | EmptyString => None
  | String c rest =>
      if Ascii.eqb c dquote then Some ("", rest)
      else if Ascii.eqb c backslash then
        match rest with
        | String "u" (String h1 (String h2 (String h3 (String h4 rest')))) =>
            match hex_value h1, hex_value h2, hex_value h3, hex_value h4 with
            | Some 0%N, Some 0%N, Some a, Some b =>
                match unquote_body rest' with
                | Some (r, tail) => Some (String (ascii_of_N (a * 16 + b)) r, tail)
                | None => None
                end
            | _, _, _, _ => None
            end
        | String e rest' =>
            match unescape_letter e, unquote_body rest' with
            | Some x, Some (r, tail) => Some (String x r, tail)
            | _, _ => None
            end
        | EmptyString => None
        end
      else if (N_of_ascii c <? 32)%N then None
      else
        match unquote_body rest with
        | Some (r, tail) => Some (String c r, tail)
        | None => None
        end
  end.

(** Reads a quoted string at the head of [s]. *)
Definition unquote (s : string) : option (string * string) :=
  match s with
  | String c rest => if Ascii.eqb c dquote then unquote_body rest else None
  | EmptyString => None
  end.

(** Reads [n] more properties [,"key":"value"] and the closing brace. *)
Fixpoint parse_properties (fuel : nat) (s : string) : option (list (string * string)) :=
  match s with
  | String "}" EmptyString => Some []
  | String "," rest =>
      match fuel with
      | O => None
      | S fuel' =>
          match unquote rest with
          | Some (k, String ":" rest1) =>
              match unquote rest1 with
              | Some (v, rest2) =>
                  match parse_properties fuel' rest2 with
                  | Some kvs => Some ((k, v) :: kvs)
                  | None => None
                  end
              | None => None
              end
          | _ => None
          end
      end
  | _ => None
  end.

(** Reads a flat object of string properties as [stringify] writes it.  The
    fuel is the length of the text, which bounds the number of properties. *)
Definition parse_object (s : string) : option (list (string * string)) :=
  match s with
  | String "{" (String "}" EmptyString) => Some []
  | String "{" rest => parse_properties (String.length s) (String "," rest)
  | _ => None
  end.

(** The defined properties of an object. *)
Definition defined_properties (obj : JsObject) : list (string * string) :=
  omap (fun kv => match kv.2 with Some v => Some (kv.1, v) | None => None end) obj.

(** ** Lemmas *)

Lemma escape_app (a b : string) : escape (a +:+ b) = escape a +:+ escape b.
Proof.
  induction a as [|c a IH]; [done|].
  rewrite string_app_cons. simpl. by rewrite IH, string_app_assoc.
Qed.

Lemma plain_app (a b : string) : plain (a +:+ b) = plain a && plain b.
Proof.
  induction a as [|c a IH]; [done|].
  rewrite string_app_cons. simpl. by rewrite IH, andb_assoc.
Qed.

Lemma escape_char_plain (c : ascii) :
  plain_char c = true -> escape_char c = String c "".
Proof.
  unfold plain_char, escape_char. intros H.
  repeat (apply andb_prop in H as [H ?]).
  repeat match goal with
         | H : negb ?b = true |- _ => apply negb_true_iff in H
         end.
  assert (N_of_ascii c <> 34 /\ N_of_ascii c <> 92 /\ ~ N_of_ascii c < 32)%N
    as (H34 & H92 & H32) by (rewrite <- ?N.eqb_neq, <- N.ltb_nlt; done).
  repeat match goal with
         | |- context [(?a =? ?b)%N] =>
             destruct (N.eqb_spec a b); [lia|]
         end.
  destruct (N.ltb_spec (N_of_ascii c) 32); [lia | done].
Qed.

(** A string of plain characters is written as itself. *)
Lemma escape_plain (s : string) : plain s = true -> escape s = s.
Proof.
  induction s as [|c s IH]; [done|]. simpl. intros [Hc Hs]%andb_prop.
  by rewrite escape_char_plain, IH.
Qed.

Lemma quote_plain (s : string) :
  plain s = true -> quote s = String dquote (s +:+ String dquote "").
Proof. intros H. unfold quote. by rewrite escape_plain. Qed.

(** Reading one written character gives it back. *)
Lemma unquote_body_escape_char (c : ascii) (rest : string) :
  unquote_body (escape_char c +:+ rest) =
  match unquote_body rest with
  | Some (r, tail) => Some (String c r, tail)
  | None => None
  end.
Proof. destruct c as [[] [] [] [] [] [] [] []]; reflexivity. Qed.

Lemma unquote_body_escape (s tail : string) :
  unquote_body (escape s +:+ String dquote tail) = Some (s, tail).
Proof.
  induction s as [|c s IH]; [done|]. simpl.
  by rewrite string_app_assoc, unquote_body_escape_char, IH.
Qed.

(** [unquote] reads back what [quote] wrote, and leaves what follows. *)
Lemma unquote_quote (s tail : string) :
  unquote (quote s +:+ tail) = Some (s, tail).
Proof.
  unfold quote. rewrite string_app_cons, string_app_assoc. simpl.
  apply unquote_body_escape.
Qed.

Lemma quote_length_ge (s : string) : 2 <= String.length (quote s).
Proof.
  unfold quote. simpl. rewrite string_length_app. simpl. lia.
Qed.

Lemma defined_properties_cons_Some (k v : string) (obj : JsObject) :
  defined_properties ((k, Some v) :: obj) = (k, v) :: defined_properties obj.
Proof. reflexivity. Qed.

Lemma defined_properties_cons_None (k : string) (obj : JsObject) :
  defined_properties ((k, None) :: obj) = defined_properties obj.
Proof. reflexivity. Qed.

Lemma stringify_properties_defined (obj : JsObject) :
  omap stringify_property obj =
  map (fun kv => quote kv.1 +:+ ":" +:+ quote kv.2) (defined_properties obj).
Proof.
  induction obj as [|[k [v|]] obj IH]; [done| |].
  - change (omap stringify_property ((k, Some v) :: obj))
      with ((quote k +:+ ":" +:+ quote v) :: omap stringify_property obj).
    by rewrite IH.
  - change (omap stringify_property ((k, None) :: obj))
      with (omap stringify_property obj).
    by rewrite IH.
Qed.

(** One property as [stringify] writes it. *)
Definition property_text (kv : string * string) : string :=
  quote kv.1 +:+ ":" +:+ quote kv.2.

Lemma stringify_defined (obj : JsObject) :
  stringify obj =
  "{" +:+ join "," (property_text <$> defined_properties obj) +:+ "}".
Proof. unfold stringify. by rewrite stringify_properties_defined. Qed.

(** The closing brace ends the properties, whatever fuel is left. *)
Lemma parse_properties_end (fuel : nat) : parse_properties fuel "}" = Some [].
Proof. by destruct fuel. Qed.

(** Reading one property and going on with one unit of fuel less. *)
Lemma parse_properties_step (fuel : nat) (k v tail : string) :
  parse_properties (S fuel) ("," +:+ property_text (k, v) +:+ tail) =
  match parse_properties fuel tail with
  | Some kvs => Some ((k, v) :: kvs)
  | None => None
  end.
Proof.
  unfold property_text. rewrite string_app_cons, string_app_nil_l.
  rewrite !string_app_assoc. cbn [parse_properties fst snd].
  rewrite unquote_quote, string_app_cons, string_app_nil_l.
  by rewrite unquote_quote.
Qed.

(** The reader on the properties [stringify] writes, with fuel for each. *)
Lemma parse_properties_join (kvs : list (string * string)) (kv : string * string) (fuel : nat) :
  length (kv :: kvs) <= fuel ->
  parse_properties fuel ("," +:+ join "," (property_text <$> kv :: kvs) +:+ "}")
  = Some (kv :: kvs).
Proof.
  revert kv fuel. induction kvs as [|kv' kvs IH]; intros [k v] fuel Hf;
    (destruct fuel as [|fuel]; [simpl in Hf; lia|]).
  - change (property_text <$> [(k, v)]) with [property_text (k, v)].
    rewrite join_singleton. by rewrite parse_properties_step, parse_properties_end.
  - rewrite !fmap_cons, join_cons_cons, !string_app_assoc, parse_properties_step.
    rewrite <- fmap_cons.
    rewrite IH; [done | simpl in *; lia].
Qed.

Lemma property_text_length (kv : string * string) :
  1 <= String.length (property_text kv).
Proof.
  unfold property_text. rewrite string_length_app.
  pose proof (quote_length_ge kv.1). lia.
Qed.

(** A joined array is at least as long as it has non-empty elements. *)
Lemma join_length_ge (sep : string) (xs : list string) :
  Forall (fun x => 1 <= String.length x) xs ->
  length xs <= String.length (join sep xs).
Proof.
  induction 1 as [|x xs Hx Hxs IH]; [done|].
  destruct xs as [|y xs]; [simpl; lia|].
  rewrite join_cons_cons, !string_length_app. simpl in *. lia.
Qed.

Lemma stringify_length_ge (obj : JsObject) :
  length (defined_properties obj) <= String.length (stringify obj).
Proof.
  rewrite stringify_defined, string_length_app.
  rewrite <- (length_fmap property_text), string_length_app.
  pose proof (join_length_ge "," (property_text <$> defined_properties obj)) as Hj.
  etrans; [apply Hj|lia].
  apply Forall_fmap, Forall_true. intros kv. apply property_text_length.
Qed.

(** What [stringify] writes after the opening brace of an object with a
    defined property starts with the quote of the first key. *)
Lemma join_property_head (kv : string * string) (kvs : list (string * string)) (tail : string) :
  exists r, join "," (property_text <$> kv :: kvs) +:+ tail = String dquote r.
Proof.
  destruct kvs as [|kv' kvs];
    rewrite ?fmap_cons, ?join_cons_cons; [rewrite join_singleton|];
    unfold property_text at 1, quote at 1;
    rewrite ?string_app_assoc, string_app_cons; by eexists.
Qed.

Lemma parse_object_open (rest r : string) :
  rest = String dquote r ->
  parse_object (String "{" rest) =
  parse_properties (String.length (String "{" rest)) ("," +:+ rest).
Proof. by intros ->. Qed.

(** A client that parses the body [response.json] sent reads the defined
    properties of the object, in order, with the values the handler gave
    them; the fuel of the reader is enough for every object. *)
Lemma parse_object_stringify (obj : JsObject) :
  parse_object (stringify obj) = Some (defined_properties obj).
Proof.
  pose proof (stringify_length_ge obj) as Hlen. revert Hlen.
  rewrite stringify_defined.
  destruct (defined_properties obj) as [|[k v] kvs]; [done|]. intros Hlen.
  rewrite string_app_cons, string_app_nil_l in *.
  destruct (join_property_head (k, v) kvs "}") as [r Hr].
  rewrite (parse_object_open _ r Hr). by apply parse_properties_join.
Qed.
