(* ===== verification/Base64.v ===== *)
(** * Base64: [buffer.toString('base64')]

    The handler sends both artifacts through Node's base64 encoder.  The
    encoder is modelled on bytes as 8-bit integers with the shifts and masks
    of the reference algorithm (RFC 4648, standard alphabet, [=] padding);
    [base64_decode] is the decoder a client runs.  The theorems say that the
    output is well formed (alphabet, length, padding), that it needs no JSON
    escaping, and that decoding gives the bytes back. *)

From Stdlib Require Import String Ascii ZArith Lia List.
From Stdlib Require Import Strings.Byte.
From stdpp Require Import base option list strings.
From S2P Require Import Prelude Json.
Local Open Scope Z_scope.

(** ** Bytes as integers *)

Definition b2z (b : byte) : Z := Z.of_N (Byte.to_N b).

(** The byte of an integer, modulo 256. *)
Definition z2b (z : Z) : byte :=
  match Byte.of_N (Z.to_N (z mod 256)) with
  | Some b => b
  | None => x00
  end.

(** Every 8-bit integer, in order. *)
Definition range (n : nat) : list Z := map Z.of_nat (seq 0 n).

(** ** Encoding *)

Definition alphabet : string :=
  "ABCDEFGHIJKLMNOPQRSTUVWXYZabcdefghijklmnopqrstuvwxyz0123456789+/".

Definition pad : ascii := "="%char.

(** The character of a 6-bit value.  A value of more than 6 bits has no
    character: the null character, which is no character of base64 text,
    stands for none. *)
Definition encode_sextet (s : Z) : ascii :=
  match String.get (Z.to_nat s) alphabet with
  | Some c => c
  | None => Ascii.zero
  end.

(** The four 6-bit values of a group of three bytes. *)
Definition sextet0 (a : Z) : Z := Z.shiftr a 2.
Definition sextet1 (a b : Z) : Z := Z.lor (Z.shiftl (Z.land a 3) 4) (Z.shiftr b 4).
Definition sextet2 (b c : Z) : Z := Z.lor (Z.shiftl (Z.land b 15) 2) (Z.shiftr c 6).
Definition sextet3 (c : Z) : Z := Z.land c 63.

(** A full group: three bytes, four characters. *)
Definition encode3 (a b c : byte) : string :=
  String (encode_sextet (sextet0 (b2z a)))
    (String (encode_sextet (sextet1 (b2z a) (b2z b)))
      (String (encode_sextet (sextet2 (b2z b) (b2z c)))
        (String (encode_sextet (sextet3 (b2z c))) ""))).

(** The last group when two bytes remain: three characters and one pad. *)
Definition encode2 (a b : byte) : string :=
  String (encode_sextet (sextet0 (b2z a)))
    (String (encode_sextet (sextet1 (b2z a) (b2z b)))
      (String (encode_sextet (Z.shiftl (Z.land (b2z b) 15) 2))
        (String pad ""))).

(** The last group when one byte remains: two characters and two pads. *)
Definition encode1 (a : byte) : string :=
  String (encode_sextet (sextet0 (b2z a)))
    (String (encode_sextet (Z.shiftl (Z.land (b2z a) 3) 4))
      (String pad (String pad ""))).

(** [buffer.toString('base64')]. *)
Fixpoint base64_encode (bs : bytes) : string :=
  match bs with
  | [] => ""
  | [a] => encode1 a
  | [a; b] => encode2 a b
  | a :: b :: c :: rest => encode3 a b c +:+ base64_encode rest
  end.

(** ** Decoding *)

(** The 6-bit value of a character of the alphabet. *)
Definition decode_sextet (c : ascii) : option Z :=
  let n := Z.of_N (N_of_ascii c) in
  if (65 <=? n) && (n <=? 90) then Some (n - 65)
  else if (97 <=? n) && (n <=? 122) then Some (n - 71)
  else if (48 <=? n) && (n <=? 57) then Some (n + 4)
  else if n =? 43 then Some 62
  else if n =? 47 then Some 63
  else None.

(** The three bytes of four 6-bit values. *)
Definition byte0 (s0 s1 : Z) : byte := z2b (Z.lor (Z.shiftl s0 2) (Z.shiftr s1 4)).
Definition byte1 (s1 s2 : Z) : byte :=
  z2b (Z.lor (Z.shiftl (Z.land s1 15) 4) (Z.shiftr s2 2)).
Definition byte2 (s2 s3 : Z) : byte := z2b (Z.lor (Z.shiftl (Z.land s2 3) 6) s3).

(** Groups of four characters; padding only in the last group. *)
Fixpoint base64_decode (s : string) : option bytes :=
  match s with
  | EmptyString => Some []
  | String c0 (String c1 (String c2 (String c3 rest))) =>
      match decode_sextet c0, decode_sextet c1 with
      | Some s0, Some s1 =>
          if Ascii.eqb c2 pad then
            if Ascii.eqb c3 pad && String.eqb rest "" then Some [byte0 s0 s1]
            else None
          else
            match decode_sextet c2 with
            | Some s2 =>
                if Ascii.eqb c3 pad then
                  if String.eqb rest "" then Some [byte0 s0 s1; byte1 s1 s2]
                  else None
                else
                  match decode_sextet c3, base64_decode rest with
                  | Some s3, Some tail =>
                      Some (byte0 s0 s1 :: byte1 s1 s2 :: byte2 s2 s3 :: tail)
                  | _, _ => None
                  end
            | None => None
            end
      | _, _ => None
      end
  | _ => None
  end.

(** A character of base64 text: the alphabet or the pad. *)
Definition base64_char (c : ascii) : bool :=
  bool_decide (is_Some (decode_sextet c)) || Ascii.eqb c pad.

Fixpoint base64_text (s : string) : bool :=
  match s with
  | EmptyString => true
  | String c rest => base64_char c && base64_text rest
  end.

(** A character of the alphabet. *)
Definition alphabet_char (c : ascii) : bool :=
  existsb (Ascii.eqb c) (list_ascii_of_string alphabet).

Fixpoint alphabet_text (s : string) : bool :=
  match s with
  | EmptyString => true
  | String c rest => alphabet_char c && alphabet_text rest
  end.

(** The pads that fill the last group of the text of [n] bytes. *)
Definition padding (n : nat) : string :=
  match (n mod 3)%nat with
  | O => ""
  | 1%nat => "=="
  | _ => "="
  end.

(** The form of the base64 text of [n] bytes: one character of the
    alphabet for every 6 bits, the last of them filled up, and then the
    pads; four characters for every three bytes in all. *)
Definition canonical_base64 (n : nat) (s : string) : Prop :=
  exists body,
    s = body +:+ padding n
    /\ alphabet_text body = true
    /\ String.length body = ((8 * n + 5) / 6)%nat.

(** ** The arithmetic facts of a group, as boolean checks *)

(** What decoding needs of two neighbouring bytes [x] and [y]. *)
Definition pair_facts (x y : Z) : bool :=
  (Z.lor (Z.shiftl (sextet0 x) 2) (Z.shiftr (sextet1 x y) 4) =? x)
  && (Z.land (sextet1 x y) 15 =? Z.shiftr y 4)
  && (Z.shiftr (sextet2 x y) 2 =? Z.land x 15)
  && (Z.land (sextet2 x y) 3 =? Z.shiftr y 6)
  && (Z.lor (Z.shiftl (Z.shiftr x 4) 4) (Z.land x 15) =? x)
  && (Z.lor (Z.shiftl (Z.shiftr x 6) 6) (sextet3 x) =? x)
  && (Z.shiftl (Z.land x 15) 2 =? sextet2 x 0)
  && (Z.shiftl (Z.land x 3) 4 =? sextet1 x 0)
  && (0 <=? sextet0 x) && (sextet0 x <? 64)
  && (0 <=? sextet1 x y) && (sextet1 x y <? 64)
  && (0 <=? sextet2 x y) && (sextet2 x y <? 64)
  && (0 <=? sextet3 x) && (sextet3 x <? 64).

(** What decoding needs of a 6-bit value. *)
Definition sextet_facts (s : Z) : bool :=
  bool_decide (decode_sextet (encode_sextet s) = Some s)
  && negb (Ascii.eqb (encode_sextet s) pad)
  && Json.plain_char (encode_sextet s)
  && alphabet_char (encode_sextet s).

(** ** Exhaustive checks on 6-bit and 8-bit values *)

Lemma In_range (n : nat) (z : Z) : In z (range n) <-> 0 <= z < Z.of_nat n.
Proof.
  unfold range. rewrite in_map_iff. split.
  - intros (k & <- & Hk%in_seq). lia.
  - intros H. exists (Z.to_nat z). rewrite in_seq. lia.
Qed.

(** A boolean property checked on every value below [n] holds of each. *)
Lemma range_check (n : nat) (P : Z -> bool) :
  forallb P (range n) = true -> forall z, 0 <= z < Z.of_nat n -> P z = true.
Proof.
  intros H z Hz. rewrite forallb_forall in H. by apply H, In_range.
Qed.

Lemma range_check2 (n m : nat) (P : Z -> Z -> bool) :
  forallb (fun a => forallb (P a) (range m)) (range n) = true ->
  forall a b, 0 <= a < Z.of_nat n -> 0 <= b < Z.of_nat m -> P a b = true.
Proof.
  intros H a b Ha Hb.
  apply (range_check m (P a)); [|done].
  by apply (range_check n (fun a => forallb (P a) (range m))).
Qed.

Lemma b2z_range (b : byte) : 0 <= b2z b < 256.
Proof.
  unfold b2z. pose proof (Byte.to_N_bounded b). lia.
Qed.

Lemma z2b_b2z (b : byte) : z2b (b2z b) = b.
Proof.
  unfold z2b. rewrite Z.mod_small by apply b2z_range.
  unfold b2z. by rewrite N2Z.id, Byte.of_to_N.
Qed.

Lemma b2z_z2b (z : Z) : 0 <= z < 256 -> b2z (z2b z) = z.
Proof.
  intros Hz. unfold z2b, b2z. rewrite Z.mod_small by done.
  destruct (Byte.of_N (Z.to_N z)) as [b|] eqn:Hb.
  - apply Byte.to_of_N in Hb. rewrite Hb. lia.
  - apply Byte.of_N_None_iff in Hb. lia.
Qed.

Lemma pair_facts_all :
  forallb (fun x => forallb (pair_facts x) (range 256)) (range 256) = true.
Proof. vm_compute. reflexivity. Qed.

Lemma sextet_facts_all : forallb sextet_facts (range 64) = true.
Proof. vm_compute. reflexivity. Qed.

Lemma pair_facts_holds (x y : Z) :
  0 <= x < 256 -> 0 <= y < 256 -> pair_facts x y = true.
Proof. apply (range_check2 256 256 pair_facts pair_facts_all). Qed.

Lemma sextet_facts_holds (s : Z) : 0 <= s < 64 -> sextet_facts s = true.
Proof. apply (range_check 64 sextet_facts sextet_facts_all). Qed.

(** Splits a checked conjunction into its equations and bounds. *)
Ltac split_facts H :=
  unfold pair_facts, sextet_facts in H;
  repeat (apply andb_prop in H as [H ?]);
  repeat match goal with
         | H : (_ =? _) = true |- _ => apply Z.eqb_eq in H
         | H : (_ <=? _) = true |- _ => apply Z.leb_le in H
         | H : (_ <? _) = true |- _ => apply Z.ltb_lt in H
         | H : bool_decide _ = true |- _ => apply bool_decide_eq_true in H
         | H : negb _ = true |- _ => apply negb_true_iff in H
         end.

Lemma sextet_bounds (x y : Z) :
  0 <= x < 256 -> 0 <= y < 256 ->
  0 <= sextet0 x < 64 /\ 0 <= sextet1 x y < 64 /\
  0 <= sextet2 x y < 64 /\ 0 <= sextet3 x < 64.
Proof.
  intros Hx Hy. pose proof (pair_facts_holds x y Hx Hy) as H.
  split_facts H. lia.
Qed.

Lemma sextet0_bound (x : Z) : 0 <= x < 256 -> 0 <= sextet0 x < 64.
Proof. intros Hx. apply (sextet_bounds x 0); [done | lia]. Qed.

Lemma sextet1_bound (x y : Z) :
  0 <= x < 256 -> 0 <= y < 256 -> 0 <= sextet1 x y < 64.
Proof. intros Hx Hy. by apply (sextet_bounds x y). Qed.

Lemma sextet2_bound (x y : Z) :
  0 <= x < 256 -> 0 <= y < 256 -> 0 <= sextet2 x y < 64.
Proof. intros Hx Hy. by apply (sextet_bounds x y). Qed.

Lemma sextet3_bound (x : Z) : 0 <= x < 256 -> 0 <= sextet3 x < 64.
Proof. intros Hx. apply (sextet_bounds x 0); [done | lia]. Qed.

(** Proves that one of the four 6-bit values of a group is below 64. *)
Ltac sextet_bound :=
  first [apply sextet0_bound | apply sextet1_bound
        | apply sextet2_bound | apply sextet3_bound];
  first [apply b2z_range | lia].

Lemma decode_encode_sextet (s : Z) :
  0 <= s < 64 -> decode_sextet (encode_sextet s) = Some s.
Proof. intros Hs. pose proof (sextet_facts_holds s Hs) as H. by split_facts H. Qed.

Lemma encode_sextet_not_pad (s : Z) :
  0 <= s < 64 -> Ascii.eqb (encode_sextet s) pad = false.
Proof. intros Hs. pose proof (sextet_facts_holds s Hs) as H. by split_facts H. Qed.

Lemma encode_sextet_plain (s : Z) :
  0 <= s < 64 -> Json.plain_char (encode_sextet s) = true.
Proof. intros Hs. pose proof (sextet_facts_holds s Hs) as H. by split_facts H. Qed.

Lemma encode_sextet_alphabet (s : Z) :
  0 <= s < 64 -> alphabet_char (encode_sextet s) = true.
Proof. intros Hs. pose proof (sextet_facts_holds s Hs) as H. by split_facts H. Qed.

Lemma byte0_sextets (a : byte) (y : Z) :
  0 <= y < 256 -> byte0 (sextet0 (b2z a)) (sextet1 (b2z a) y) = a.
Proof.
  intros Hy. pose proof (pair_facts_holds _ _ (b2z_range a) Hy) as H.
  split_facts H. unfold byte0.
  transitivity (z2b (b2z a)); [by f_equal | apply z2b_b2z].
Qed.

Lemma byte1_sextets (a b : byte) (z : Z) :
  0 <= z < 256 -> byte1 (sextet1 (b2z a) (b2z b)) (sextet2 (b2z b) z) = b.
Proof.
  intros Hz.
  pose proof (pair_facts_holds _ _ (b2z_range a) (b2z_range b)) as H.
  pose proof (pair_facts_holds _ _ (b2z_range b) Hz) as H'.
  split_facts H. split_facts H'. unfold byte1.
  transitivity (z2b (b2z b)); [f_equal; congruence | apply z2b_b2z].
Qed.

Lemma byte2_sextets (b c : byte) :
  byte2 (sextet2 (b2z b) (b2z c)) (sextet3 (b2z c)) = c.
Proof.
  pose proof (pair_facts_holds _ _ (b2z_range b) (b2z_range c)) as H.
  pose proof (pair_facts_holds _ _ (b2z_range c) (b2z_range c)) as H'.
  split_facts H. split_facts H'. unfold byte2.
  transitivity (z2b (b2z c)); [f_equal; congruence | apply z2b_b2z].
Qed.

Lemma tail_sextets (x : Z) :
  0 <= x < 256 ->
  Z.shiftl (Z.land x 15) 2 = sextet2 x 0 /\ Z.shiftl (Z.land x 3) 4 = sextet1 x 0.
Proof.
  intros Hx. pose proof (pair_facts_holds x 0 Hx ltac:(lia)) as H.
  by split_facts H.
Qed.

(** Rewrites away the decoding of encoded 6-bit values. *)
Ltac decode_sextets :=
  repeat match goal with
         | |- context [decode_sextet (encode_sextet ?s)] =>
             rewrite (decode_encode_sextet s) by sextet_bound
         | |- context [Ascii.eqb (encode_sextet ?s) pad] =>
             rewrite (encode_sextet_not_pad s) by sextet_bound
         end.

Lemma decode_encode3 (a b c : byte) (rest : string) :
  base64_decode (encode3 a b c +:+ rest) =
  match base64_decode rest with
  | Some tail => Some (a :: b :: c :: tail)
  | None => None
  end.
Proof.
  unfold encode3. rewrite !string_app_cons, string_app_nil_l.
  cbn [base64_decode]. decode_sextets.
  rewrite byte0_sextets, byte1_sextets, byte2_sextets by apply b2z_range.
  reflexivity.
Qed.

Lemma decode_encode2 (a b : byte) : base64_decode (encode2 a b) = Some [a; b].
Proof.
  unfold encode2. destruct (tail_sextets (b2z b) (b2z_range b)) as [-> _].
  cbn [base64_decode]. decode_sextets. rewrite Ascii.eqb_refl.
  rewrite byte0_sextets, byte1_sextets by first [apply b2z_range | lia].
  reflexivity.
Qed.

Lemma decode_encode1 (a : byte) : base64_decode (encode1 a) = Some [a].
Proof.
  unfold encode1. destruct (tail_sextets (b2z a) (b2z_range a)) as [_ ->].
  cbn [base64_decode]. decode_sextets. rewrite !Ascii.eqb_refl.
  rewrite byte0_sextets by lia. reflexivity.
Qed.

Lemma base64_encode_cons3 (a b c : byte) (rest : bytes) :
  base64_encode (a :: b :: c :: rest) = encode3 a b c +:+ base64_encode rest.
Proof. reflexivity. Qed.

(** Decoding the encoder's output gives the bytes back. *)
Lemma base64_decode_encode (bs : bytes) :
  base64_decode (base64_encode bs) = Some bs.
Proof.
  induction bs as [|a|a b|a b c rest IH] using list_ind3.
  - reflexivity.
  - apply decode_encode1.
  - apply decode_encode2.
  - by rewrite base64_encode_cons3, decode_encode3, IH.
Qed.

(** Two different buffers have different base64 texts: the encoding
    loses nothing of an artifact. *)
Theorem base64_encode_inj (xs ys : bytes) :
  xs <> ys -> base64_encode xs <> base64_encode ys.
Proof.
  intros Hne Heq. apply Hne. apply (f_equal base64_decode) in Heq.
  rewrite !base64_decode_encode in Heq. congruence.
Qed.

(** The base64 text of [n] bytes has [4 * ceil (n / 3)] characters. *)
Theorem base64_encode_length (bs : bytes) :
  Z.of_nat (String.length (base64_encode bs)) =
  4 * ((Z.of_nat (length bs) + 2) / 3).
Proof.
  induction bs as [|a|a b|a b c rest IH] using list_ind3; [done..|].
  rewrite base64_encode_cons3, string_length_app.
  change (String.length (encode3 a b c)) with 4%nat.
  change (length (a :: b :: c :: rest)) with (3 + length rest)%nat.
  rewrite !Nat2Z.inj_add, IH.
  replace (Z.of_nat 3 + Z.of_nat (length rest) + 2)
    with (Z.of_nat (length rest) + 2 + 1 * 3) by lia.
  rewrite Z.div_add by lia. lia.
Qed.

Lemma base64_encode_length_nat (bs : bytes) :
  String.length (base64_encode bs) = (4 * ((length bs + 2) / 3))%nat.
Proof.
  apply Nat2Z.inj. rewrite base64_encode_length, Nat2Z.inj_mul, Nat2Z.inj_div.
  by rewrite Nat2Z.inj_add.
Qed.

(** ** The shape of the text *)

(** The text of a buffer, group by group: what holds of the empty text,
    of the two last groups with their pads and of a full group before a
    text holds of the text of every buffer. *)
Lemma base64_encode_ind (P : bytes -> string -> Prop) :
  P [] "" ->
  (forall a, P [a]
     (String (encode_sextet (sextet0 (b2z a)))
        (String (encode_sextet (sextet1 (b2z a) 0)) (String pad (String pad ""))))) ->
  (forall a b, P [a; b]
     (String (encode_sextet (sextet0 (b2z a)))
        (String (encode_sextet (sextet1 (b2z a) (b2z b)))
           (String (encode_sextet (sextet2 (b2z b) 0)) (String pad ""))))) ->
  (forall a b c rest s, P rest s ->
     P (a :: b :: c :: rest)
       (String (encode_sextet (sextet0 (b2z a)))
          (String (encode_sextet (sextet1 (b2z a) (b2z b)))
             (String (encode_sextet (sextet2 (b2z b) (b2z c)))
                (String (encode_sextet (sextet3 (b2z c))) s))))) ->
  forall bs, P bs (base64_encode bs).
Proof.
  intros H0 H1 H2 H3 bs.
  induction bs as [|a|a b|a b c rest IH] using list_ind3; [done|..].
  - unfold base64_encode, encode1.
    by destruct (tail_sextets (b2z a) (b2z_range a)) as [_ ->].
  - unfold base64_encode, encode2.
    by destruct (tail_sextets (b2z b) (b2z_range b)) as [-> _].
  - rewrite base64_encode_cons3. unfold encode3.
    rewrite !string_app_cons, string_app_nil_l. by apply H3.
Qed.

(** The encoder's output needs no escaping inside a JSON string. *)
Lemma base64_encode_plain (bs : bytes) : Json.plain (base64_encode bs) = true.
Proof.
  apply (base64_encode_ind (fun _ s => Json.plain s = true));
    [done|intros a|intros a b|intros a b c rest s IH];
    cbn [Json.plain]; by rewrite ?encode_sextet_plain, ?IH by sextet_bound.
Qed.

Lemma encode_sextet_base64_char (s : Z) :
  0 <= s < 64 -> base64_char (encode_sextet s) = true.
Proof.
  intros Hs. unfold base64_char. rewrite decode_encode_sextet by done.
  apply orb_true_iff. left. by apply bool_decide_eq_true.
Qed.

(** The text is made of the characters of the alphabet and the pad. *)
Lemma base64_encode_text (bs : bytes) : base64_text (base64_encode bs) = true.
Proof.
  apply (base64_encode_ind (fun _ s => base64_text s = true));
    [done|intros a|intros a b|intros a b c rest s IH];
    cbn [base64_text]; by rewrite ?encode_sextet_base64_char, ?IH by sextet_bound.
Qed.

Lemma padding_group (n : nat) : padding (S (S (S n))) = padding n.
Proof.
  unfold padding. replace (S (S (S n))) with (n + 1 * 3)%nat by lia.
  by rewrite Nat.Div0.mod_add.
Qed.

(** The text of a buffer has the form of base64: the characters of the
    alphabet that hold its bits, then the pads of the last group. *)
Lemma base64_encode_canonical (bs : bytes) :
  canonical_base64 (length bs) (base64_encode bs).
Proof.
  apply (base64_encode_ind (fun bs s => canonical_base64 (length bs) s));
    unfold canonical_base64;
    [|intros a|intros a b|intros a b c rest s (body & -> & Hbody & Hlen)].
  - by exists "".
  - eexists (String _ (String _ "")). split_and!; [done| |done].
    cbn [alphabet_text]. by rewrite !encode_sextet_alphabet by sextet_bound.
  - eexists (String _ (String _ (String _ ""))). split_and!; [done| |done].
    cbn [alphabet_text]. by rewrite !encode_sextet_alphabet by sextet_bound.
  - eexists (String _ (String _ (String _ (String _ body)))).
    cbn [length]. rewrite padding_group. split_and!.
    + by rewrite !string_app_cons.
    + cbn [alphabet_text]. by rewrite !encode_sextet_alphabet, Hbody by sextet_bound.
    + cbn [String.length]. rewrite Hlen.
      replace (8 * S (S (S (length rest))) + 5)%nat
        with (8 * length rest + 5 + 4 * 6)%nat by lia.
      rewrite Nat.div_add by lia. lia.
Qed.

Lemma base64_encode_inj_witness :
  base64_encode [x48; x69] <> base64_encode [x48; x6a].
Proof. apply (base64_encode_inj [x48; x69] [x48; x6a]). discriminate. Defined.
