(* ===== verification/Utf8.v ===== *)
(** * Utf8: JavaScript strings and the bytes of [Buffer.from]

    A JavaScript string is a sequence of UTF-16 code units; the other
    files model it by the bytes of its UTF-8 encoding.  This file holds
    the encoding.  [Buffer_from16] is [Buffer.from(s)] on code units:
    surrogate pairs are joined into code points ([code_points]), a
    surrogate without its partner is replaced by U+FFFD, and every code
    point is written in one to four bytes with the shifts and masks of
    RFC 3629 ([utf8_code_point]).  [utf8_decode] is the decoder of a
    client.

    The lemmas say when encoding commutes with concatenation (not in
    general: the two halves of a surrogate pair encode differently apart
    and together), turn the shifts and masks into quotients and
    remainders, and give the round trip, the range and the number of
    the bytes, and the prefix test on bytes. *)

From Stdlib Require Import String Ascii ZArith Lia List.
From Stdlib Require Import Strings.Byte.
From stdpp Require Import base option list strings.
From S2P Require Import Prelude Json Base64.
Local Open Scope Z_scope.

(** ** Strings of code units *)

(** A string as JavaScript has it: its UTF-16 code units. *)
Definition JsString : Type := list Z.

(** A code unit of a string: 16 bits. *)
Definition code_unit (u : Z) : Prop := 0 <= u < 0x10000.

Definition is_high (u : Z) : bool := (0xD800 <=? u) && (u <=? 0xDBFF).
Definition is_low (u : Z) : bool := (0xDC00 <=? u) && (u <=? 0xDFFF).

(** The code point of a surrogate pair. *)
Definition pair_code_point (high low : Z) : Z :=
  0x10000 + Z.lor (Z.shiftl (Z.land high 0x3FF) 10) (Z.land low 0x3FF).

(** U+FFFD, which stands for a surrogate without its partner. *)
Definition replacement : Z := 0xFFFD.

(** The code points of a string. *)
Fixpoint code_points (s : JsString) : list Z :=
  match s with
  | [] => []
  | u :: rest =>
      if is_high u then
        match rest with
        | low :: rest' =>
            if is_low low then pair_code_point u low :: code_points rest'
            else replacement :: code_points rest
        | [] => [replacement]
        end
      else if is_low u then replacement :: code_points rest
      else u :: code_points rest
  end.

(** ** The encoder *)

(** A continuation byte: the tag [10] and six bits. *)
Definition continuation_byte (bits : Z) : Z := Z.lor 0x80 (Z.land bits 0x3F).

(** The bytes of one code point. *)
Definition utf8_code_point (c : Z) : list Z :=
  if c <? 0x80 then [c]
  else if c <? 0x800 then
    [Z.lor 0xC0 (Z.shiftr c 6); continuation_byte c]
  else if c <? 0x10000 then
    [Z.lor 0xE0 (Z.shiftr c 12); continuation_byte (Z.shiftr c 6);
     continuation_byte c]
  else
    [Z.lor 0xF0 (Z.shiftr c 18); continuation_byte (Z.shiftr c 12);
     continuation_byte (Z.shiftr c 6); continuation_byte c].

Definition utf8_encode (cs : list Z) : list Z := cs ≫= utf8_code_point.

(** [Buffer.from(s)], with the default encoding. *)
Definition Buffer_from16 (s : JsString) : bytes := z2b <$> utf8_encode (code_points s).

(** The string that stands for [s] in the other files: its bytes. *)
Definition utf8 (s : JsString) : string := string_of_list_byte (Buffer_from16 s).

(** A literal of the source, which is written in ASCII. *)
Definition lit (s : string) : JsString := b2z <$> list_byte_of_string s.

(** [xs.join(sep)]. *)
Fixpoint join16 (sep : JsString) (xs : list JsString) : JsString :=
  match xs with
  | [] => []
  | [x] => x
  | x :: rest => x ++ sep ++ join16 sep rest
  end.

(** [s.startsWith(p)]. *)
Fixpoint startsWith16 (s p : JsString) : bool :=
  match p, s with
  | [], _ => true
  | c :: p', u :: s' => (u =? c) && startsWith16 s' p'
  | _ :: _, [] => false
  end.

(** ** Where strings can be cut *)

(** A string that does not begin with the second half of a pair. *)
Definition starts_clean (s : JsString) : Prop :=
  match s with
  | [] => True
  | u :: _ => is_low u = false
  end.

(** A string without surrogates. *)
Definition plain16 (s : JsString) : Prop :=
  Forall (fun u => is_high u = false /\ is_low u = false) s.

(** A string of ASCII characters. *)
Definition ascii_string (p : string) : bool :=
  forallb (fun b => b2z b <? 0x80) (list_byte_of_string p).

(** ** The decoder of a client *)

Definition is_continuation (b : Z) : bool := (0x80 <=? b) && (b <? 0xC0).

(** Six more bits of a code point. *)
Definition join6 (acc b : Z) : Z := Z.lor (Z.shiftl acc 6) (Z.land b 0x3F).

(** The code points of UTF-8 bytes; [None] when a byte is not where it
    can be. *)
Fixpoint utf8_decode (bs : list Z) : option (list Z) :=
  match bs with
  | [] => Some []
  | b0 :: rest =>
      if b0 <? 0x80 then cons b0 <$> utf8_decode rest
      else if (0xC0 <=? b0) && (b0 <? 0xE0) then
        match rest with
        | b1 :: rest' =>
            if is_continuation b1
            then cons (join6 (Z.land b0 0x1F) b1) <$> utf8_decode rest'
            else None
        | _ => None
        end
      else if (0xE0 <=? b0) && (b0 <? 0xF0) then
        match rest with
        | b1 :: b2 :: rest' =>
            if is_continuation b1 && is_continuation b2
            then cons (join6 (join6 (Z.land b0 0x0F) b1) b2) <$> utf8_decode rest'
            else None
        | _ => None
        end
      else if (0xF0 <=? b0) && (b0 <? 0xF8) then
        match rest with
        | b1 :: b2 :: b3 :: rest' =>
            if is_continuation b1 && is_continuation b2 && is_continuation b3
            then cons (join6 (join6 (join6 (Z.land b0 0x07) b1) b2) b3)
                   <$> utf8_decode rest'
            else None
        | _ => None
        end
      else None
  end.

(** A code point of Unicode. *)
Definition scalar (c : Z) : Prop := 0 <= c < 0x110000.

(** ** Tactics *)

(** Linear arithmetic with quotients and remainders by constants. *)
Ltac div_lia := Z.div_mod_to_equations; lia.

(** Decides a comparison of the goal by arithmetic. *)
Ltac decide_test :=
  match goal with
  | |- context [?a <? ?b] =>
      first [rewrite (proj2 (Z.ltb_lt a b)) by div_lia
            | rewrite (proj2 (Z.ltb_ge a b)) by div_lia]
  | |- context [?a <=? ?b] =>
      first [rewrite (proj2 (Z.leb_le a b)) by div_lia
            | rewrite (proj2 (Z.leb_gt a b)) by div_lia]
  end.

Ltac decide_tests := repeat (decide_test; cbn [andb]).

(** ** Concatenation *)

Lemma list_ind2 {A : Type} (P : list A -> Prop) :
  P [] -> (forall x, P [x]) ->
  (forall x y l, P l -> P (y :: l) -> P (x :: y :: l)) ->
  forall l, P l.
Proof.
  intros Hnil Hone Hstep l. cut (P l /\ forall x, P (x :: l)); [by intros []|].
  induction l as [|y l [IH1 IH2]]; split; auto.
Qed.

Lemma code_points_cons_plain (u : Z) (s : JsString) :
  is_high u = false -> is_low u = false ->
  code_points (u :: s) = u :: code_points s.
Proof. intros Hh Hl. simpl. by rewrite Hh, Hl. Qed.

(** Code points after a string without surrogates. *)
Lemma code_points_app_plain (a b : JsString) :
  plain16 a -> code_points (a ++ b) = a ++ code_points b.
Proof.
  induction 1 as [|u a [Hh Hl] _ IH]; [done|].
  by rewrite <- app_comm_cons, code_points_cons_plain, IH.
Qed.

Lemma code_points_plain (a : JsString) : plain16 a -> code_points a = a.
Proof.
  intros Ha. rewrite <- (app_nil_r a) at 1.
  by rewrite code_points_app_plain, app_nil_r.
Qed.

(** Code points before a string that begins cleanly. *)
Lemma code_points_app (a b : JsString) :
  starts_clean b -> code_points (a ++ b) = code_points a ++ code_points b.
Proof.
  intros Hb. induction a as [|u|u v a IH IH'] using list_ind2; [done|..].
  - simpl. destruct (is_high u); [|by destruct (is_low u)].
    destruct b as [|low b]; [done|]. simpl in Hb. by rewrite Hb.
  - cbn [app code_points] in *.
    destruct (is_high u); [|destruct (is_low u); by rewrite IH'].
    destruct (is_low v); [by rewrite IH | by rewrite IH'].
Qed.

Lemma utf8_encode_app (cs ds : list Z) :
  utf8_encode (cs ++ ds) = utf8_encode cs ++ utf8_encode ds.
Proof. apply bind_app. Qed.

Lemma string_of_list_byte_app (xs ys : bytes) :
  string_of_list_byte (xs ++ ys) = string_of_list_byte xs +:+ string_of_list_byte ys.
Proof.
  unfold string_of_list_byte. induction xs as [|x xs IH]; [done|].
  simpl. by rewrite string_app_cons, <- IH.
Qed.

Lemma utf8_of_code_points (a b : JsString) :
  code_points (a ++ b) = code_points a ++ code_points b ->
  utf8 (a ++ b) = utf8 a +:+ utf8 b.
Proof.
  intros Hcp. unfold utf8, Buffer_from16.
  by rewrite Hcp, utf8_encode_app, fmap_app, string_of_list_byte_app.
Qed.

(** The bytes of two strings one after the other, when the second begins
    cleanly. *)
Lemma utf8_app (a b : JsString) :
  starts_clean b -> utf8 (a ++ b) = utf8 a +:+ utf8 b.
Proof. intros Hb. by apply utf8_of_code_points, code_points_app. Qed.

(** The bytes of a string after one without surrogates. *)
Lemma utf8_app_plain (a b : JsString) :
  plain16 a -> utf8 (a ++ b) = utf8 a +:+ utf8 b.
Proof.
  intros Ha. apply utf8_of_code_points.
  by rewrite code_points_app_plain, (code_points_plain a).
Qed.

(** A string that is not empty has a byte. *)
Lemma utf8_cons (u : Z) (s : JsString) : exists a t, utf8 (u :: s) = String a t.
Proof.
  assert (exists c cs, code_points (u :: s) = c :: cs) as (c & cs & Hc).
  { simpl. destruct (is_high u); [destruct s as [|v s]; [|destruct (is_low v)]
                                 |destruct (is_low u)]; eauto. }
  assert (exists z zs, utf8_code_point c = z :: zs) as (z & zs & Hz).
  { unfold utf8_code_point.
    destruct (c <? 0x80), (c <? 0x800), (c <? 0x10000); eauto. }
  unfold utf8, Buffer_from16, utf8_encode.
  rewrite Hc, bind_cons, Hz. simpl. eauto.
Qed.

(** ** Literals *)

Lemma plain16_lit (p : string) : ascii_string p = true -> plain16 (lit p).
Proof.
  unfold ascii_string, lit, plain16. rewrite forallb_forall, Forall_fmap.
  intros Hp. apply Forall_forall. intros b Hb%list_elem_of_In%Hp.
  pose proof (b2z_range b). unfold is_high, is_low. simpl. lia.
Qed.

Lemma utf8_encode_lit (p : string) :
  ascii_string p = true -> utf8_encode (lit p) = lit p.
Proof.
  unfold ascii_string, lit, utf8_encode.
  induction (list_byte_of_string p) as [|b bs IH]; [done|].
  cbn [forallb]. intros [Hb Hbs]%andb_prop.
  rewrite fmap_cons, bind_cons, (IH Hbs). unfold utf8_code_point. by rewrite Hb.
Qed.

(** A literal stands for itself. *)
Lemma utf8_lit (p : string) : ascii_string p = true -> utf8 (lit p) = p.
Proof.
  intros Hp. unfold utf8, Buffer_from16.
  rewrite code_points_plain, utf8_encode_lit by (by try apply plain16_lit).
  unfold lit. rewrite <- list_fmap_compose.
  rewrite (list_fmap_ext _ id (list_byte_of_string p))
    by (intros; apply z2b_b2z).
  rewrite list_fmap_id. apply string_of_list_byte_of_string.
Qed.

Lemma starts_clean_plain (a b : JsString) :
  plain16 a -> a <> [] -> starts_clean (a ++ b).
Proof. by intros [|u a' [_ Hl] _] Hne. Qed.

(** The bytes of a literal followed by a string. *)
Lemma utf8_lit_app (p : string) (s : JsString) :
  ascii_string p = true -> utf8 (lit p ++ s) = p +:+ utf8 s.
Proof.
  intros Hp. by rewrite utf8_app_plain, utf8_lit by (by try apply plain16_lit).
Qed.

(** The bytes of a string followed by a literal and more. *)
Lemma utf8_app_lit (a : JsString) (p : string) (s : JsString) :
  ascii_string p = true -> p <> "" ->
  utf8 (a ++ lit p ++ s) = utf8 a +:+ p +:+ utf8 s.
Proof.
  intros Hp Hne. rewrite utf8_app, utf8_lit_app; [done..|].
  apply starts_clean_plain; [by apply plain16_lit|]. by destruct p.
Qed.

Lemma utf8_join16 (sep : string) (xs : list JsString) :
  ascii_string sep = true -> sep <> "" ->
  utf8 (join16 (lit sep) xs) = join sep (utf8 <$> xs).
Proof.
  intros Hsep Hne. induction xs as [|x [|y xs] IH]; [done..|].
  rewrite !fmap_cons in *. rewrite join_cons_cons, <- IH.
  change (join16 (lit sep) (x :: y :: xs))
    with (x ++ lit sep ++ join16 (lit sep) (y :: xs)).
  by rewrite utf8_app_lit.
Qed.

(** ** Shifts and masks as arithmetic *)

(** Bits put below a shifted value are added to it. *)
Lemma lor_join (a b k : Z) :
  0 <= k -> 0 <= b < 2 ^ k -> Z.lor (Z.shiftl a k) b = a * 2 ^ k + b.
Proof.
  intros Hk Hb.
  assert (Z.land (Z.shiftl a k) b = 0) as Hland.
  { rewrite <- (Z.mod_small b (2 ^ k)) by lia.
    rewrite <- Z.land_ones, (Z.land_comm b), Z.land_assoc, Z.land_ones by lia.
    by rewrite Z.shiftl_mul_pow2, Z.mod_mul, Z.land_0_l by lia. }
  pose proof (Z.add_lor_land (Z.shiftl a k) b) as Hadd.
  rewrite Hland, Z.shiftl_mul_pow2 in Hadd by lia.
  rewrite Z.shiftl_mul_pow2 by lia. lia.
Qed.

Lemma land_low (x k : Z) : 0 <= k -> Z.land x (Z.ones k) = x mod 2 ^ k.
Proof. apply Z.land_ones. Qed.

(** A tag of [8 - k] bits above [k] bits of a code point. *)
Lemma lor_tag (tag k x : Z) :
  0 <= k -> 0 <= x < 2 ^ k -> Z.lor (tag * 2 ^ k) x = tag * 2 ^ k + x.
Proof.
  intros Hk Hx. rewrite <- (Z.shiftl_mul_pow2 tag k) at 1 by done.
  by apply lor_join.
Qed.

Lemma continuation_byte_eq (x : Z) : continuation_byte x = 0x80 + x mod 64.
Proof.
  unfold continuation_byte. change 0x3F with (Z.ones 6). rewrite land_low by lia.
  apply (lor_tag 2 6); [lia|]. apply Z.mod_pos_bound. lia.
Qed.

Lemma lead2_eq (x : Z) : 0 <= x < 32 -> Z.lor 0xC0 x = 0xC0 + x.
Proof. intros Hx. by apply (lor_tag 6 5). Qed.

Lemma lead3_eq (x : Z) : 0 <= x < 16 -> Z.lor 0xE0 x = 0xE0 + x.
Proof. intros Hx. by apply (lor_tag 14 4). Qed.

Lemma lead4_eq (x : Z) : 0 <= x < 8 -> Z.lor 0xF0 x = 0xF0 + x.
Proof. intros Hx. by apply (lor_tag 30 3). Qed.

Lemma shiftr_6 (c : Z) : Z.shiftr c 6 = c / 64.
Proof. by rewrite Z.shiftr_div_pow2. Qed.

Lemma shiftr_12 (c : Z) : Z.shiftr c 12 = c / 4096.
Proof. by rewrite Z.shiftr_div_pow2. Qed.

Lemma shiftr_18 (c : Z) : Z.shiftr c 18 = c / 262144.
Proof. by rewrite Z.shiftr_div_pow2. Qed.

(** The bytes of a code point, by its size. *)
Lemma utf8_code_point_eq (c : Z) :
  0 <= c < 0x110000 ->
  utf8_code_point c =
  if c <? 0x80 then [c]
  else if c <? 0x800 then [0xC0 + c / 64; 0x80 + c mod 64]
  else if c <? 0x10000 then
    [0xE0 + c / 4096; 0x80 + (c / 64) mod 64; 0x80 + c mod 64]
  else
    [0xF0 + c / 262144; 0x80 + (c / 4096) mod 64; 0x80 + (c / 64) mod 64;
     0x80 + c mod 64].
Proof.
  intros Hc. unfold utf8_code_point.
  rewrite !continuation_byte_eq, shiftr_6, shiftr_12, shiftr_18.
  destruct (Z.ltb_spec c 0x80); [done|].
  destruct (Z.ltb_spec c 0x800); [by rewrite lead2_eq by div_lia|].
  destruct (Z.ltb_spec c 0x10000); [by rewrite lead3_eq by div_lia|].
  by rewrite lead4_eq by div_lia.
Qed.

(** ** Reading back *)

Lemma join6_eq (acc b : Z) : join6 acc b = acc * 64 + b mod 64.
Proof.
  unfold join6. change 0x3F with (Z.ones 6). rewrite land_low by lia.
  apply (lor_join acc _ 6); [lia|]. apply Z.mod_pos_bound. lia.
Qed.

Lemma is_continuation_eq (x : Z) : is_continuation (0x80 + x mod 64) = true.
Proof.
  unfold is_continuation. pose proof (Z.mod_pos_bound x 64).
  apply andb_true_intro. split; [apply Z.leb_le | apply Z.ltb_lt]; lia.
Qed.

Lemma land_1F (x : Z) : Z.land x 0x1F = x mod 32.
Proof. apply (land_low x 5). lia. Qed.

Lemma land_0F (x : Z) : Z.land x 0x0F = x mod 16.
Proof. apply (land_low x 4). lia. Qed.

Lemma land_07 (x : Z) : Z.land x 0x07 = x mod 8.
Proof. apply (land_low x 3). lia. Qed.

(** The decoder on a code point of one, two, three and four bytes. *)
Lemma utf8_decode_1 (b0 : Z) (bs : list Z) :
  b0 < 0x80 -> utf8_decode (b0 :: bs) = cons b0 <$> utf8_decode bs.
Proof. intros H0. cbn [utf8_decode]. by decide_tests. Qed.

Lemma utf8_decode_2 (b0 b1 : Z) (bs : list Z) :
  0xC0 <= b0 < 0xE0 -> is_continuation b1 = true ->
  utf8_decode (b0 :: b1 :: bs)
  = cons (b0 mod 32 * 64 + b1 mod 64) <$> utf8_decode bs.
Proof.
  intros H0 H1. cbn [utf8_decode]. decide_tests.
  by rewrite H1, join6_eq, land_1F.
Qed.

Lemma utf8_decode_3 (b0 b1 b2 : Z) (bs : list Z) :
  0xE0 <= b0 < 0xF0 -> is_continuation b1 = true -> is_continuation b2 = true ->
  utf8_decode (b0 :: b1 :: b2 :: bs)
  = cons ((b0 mod 16 * 64 + b1 mod 64) * 64 + b2 mod 64) <$> utf8_decode bs.
Proof.
  intros H0 H1 H2. cbn [utf8_decode]. decide_tests.
  by rewrite H1, H2, !join6_eq, land_0F.
Qed.

Lemma utf8_decode_4 (b0 b1 b2 b3 : Z) (bs : list Z) :
  0xF0 <= b0 < 0xF8 -> is_continuation b1 = true -> is_continuation b2 = true ->
  is_continuation b3 = true ->
  utf8_decode (b0 :: b1 :: b2 :: b3 :: bs)
  = cons (((b0 mod 8 * 64 + b1 mod 64) * 64 + b2 mod 64) * 64 + b3 mod 64)
      <$> utf8_decode bs.
Proof.
  intros H0 H1 H2 H3. cbn [utf8_decode]. decide_tests.
  by rewrite H1, H2, H3, !join6_eq, land_07.
Qed.

(** Reading the bytes of a code point gives it back. *)
Lemma utf8_decode_code_point (c : Z) (bs : list Z) :
  scalar c -> utf8_decode (utf8_code_point c ++ bs) = cons c <$> utf8_decode bs.
Proof.
  intros Hc. unfold scalar in Hc. rewrite utf8_code_point_eq by done.
  destruct (Z.ltb_spec c 0x80) as [H1|H1];
    [|destruct (Z.ltb_spec c 0x800) as [H2|H2];
      [|destruct (Z.ltb_spec c 0x10000) as [H3|H3]]];
    cbn [app].
  - by apply utf8_decode_1.
  - rewrite utf8_decode_2 by (apply is_continuation_eq || div_lia).
    do 2 f_equal. div_lia.
  - rewrite utf8_decode_3 by (apply is_continuation_eq || div_lia).
    do 2 f_equal. div_lia.
  - rewrite utf8_decode_4 by (apply is_continuation_eq || div_lia).
    do 2 f_equal. div_lia.
Qed.

Lemma utf8_decode_encode (cs : list Z) :
  Forall scalar cs -> utf8_decode (utf8_encode cs) = Some cs.
Proof.
  induction 1 as [|c cs Hc _ IH]; [done|].
  unfold utf8_encode in *. by rewrite bind_cons, utf8_decode_code_point, IH.
Qed.

(** ** Ranges *)

Lemma pair_code_point_eq (high low : Z) :
  pair_code_point high low = 0x10000 + (high mod 1024) * 1024 + low mod 1024.
Proof.
  unfold pair_code_point. change 0x3FF with (Z.ones 10).
  rewrite !land_low by lia.
  rewrite (lor_join _ _ 10) by (try apply Z.mod_pos_bound; lia).
  change (2 ^ 10) with 1024. lia.
Qed.

(** The code points of a string of 16-bit units are code points of
    Unicode. *)
Lemma code_points_scalar (s : JsString) :
  Forall code_unit s -> Forall scalar (code_points s).
Proof.
  unfold code_unit, scalar.
  induction s as [|u|u v s IH IH'] using list_ind2; intros Hs.
  - constructor.
  - rewrite Forall_singleton in Hs. simpl.
    destruct (is_high u), (is_low u); repeat constructor; unfold replacement; lia.
  - apply Forall_cons in Hs as [Hu Hs]. pose proof Hs as [Hv Hs']%Forall_cons.
    cbn [code_points] in *.
    destruct (is_high u); [destruct (is_low v)|destruct (is_low u)];
      constructor; auto; unfold replacement; rewrite ?pair_code_point_eq;
      div_lia.
Qed.

(** Every value the encoder writes is a byte. *)
Lemma utf8_code_point_bytes (c : Z) :
  scalar c -> Forall (fun z => 0 <= z < 256) (utf8_code_point c).
Proof.
  intros Hc. pose proof Hc as Hc'. unfold scalar in Hc'.
  rewrite utf8_code_point_eq by done.
  destruct (Z.ltb_spec c 0x80); [|destruct (Z.ltb_spec c 0x800);
    [|destruct (Z.ltb_spec c 0x10000)]]; repeat constructor; div_lia.
Qed.

Lemma utf8_encode_bytes (cs : list Z) :
  Forall scalar cs -> Forall (fun z => 0 <= z < 256) (utf8_encode cs).
Proof.
  unfold utf8_encode. induction 1 as [|c cs Hc _ IH]; [constructor|].
  rewrite bind_cons. apply Forall_app. split; [by apply utf8_code_point_bytes|done].
Qed.

(** The bytes of [Buffer.from], as integers, are what the encoder
    wrote: nothing is cut to 8 bits. *)
Lemma b2z_Buffer_from16 (s : JsString) :
  Forall code_unit s -> b2z <$> Buffer_from16 s = utf8_encode (code_points s).
Proof.
  intros Hs. unfold Buffer_from16. rewrite <- list_fmap_compose.
  rewrite <- (list_fmap_id (utf8_encode _)) at 2.
  apply Forall_fmap_ext_1. eapply Forall_impl; [by apply utf8_encode_bytes, code_points_scalar|].
  intros z Hz. by apply b2z_z2b.
Qed.

(** ** Strings made of code units *)

Lemma code_unit_lit (p : string) : Forall code_unit (lit p).
Proof.
  unfold lit. apply Forall_fmap, Forall_forall. intros b _.
  pose proof (b2z_range b). unfold code_unit. simpl. lia.
Qed.

Lemma code_unit_join16 (sep : JsString) (xs : list JsString) :
  Forall code_unit sep -> Forall (Forall code_unit) xs ->
  Forall code_unit (join16 sep xs).
Proof.
  intros Hsep. induction 1 as [|x [|y xs] Hx Hxs IH]; [constructor|done|].
  change (join16 sep (x :: y :: xs)) with (x ++ sep ++ join16 sep (y :: xs)).
  by rewrite !Forall_app.
Qed.

(** ** Sizes *)

Lemma length_utf8_code_point (c : Z) :
  (1 <= length (utf8_code_point c) <= 4)%nat
  /\ (c < 0x10000 -> (length (utf8_code_point c) <= 3)%nat)
  /\ (0x10000 <= c -> length (utf8_code_point c) = 4%nat).
Proof.
  unfold utf8_code_point.
  destruct (Z.ltb_spec c 0x80); [|destruct (Z.ltb_spec c 0x800);
    [|destruct (Z.ltb_spec c 0x10000)]]; simpl; lia.
Qed.

(** One to three bytes for every code unit. *)
Lemma length_Buffer_from16 (s : JsString) :
  Forall code_unit s ->
  (length s <= length (Buffer_from16 s) <= 3 * length s)%nat.
Proof.
  unfold Buffer_from16, utf8_encode, code_unit. rewrite length_fmap.
  induction s as [|u|u v s IH IH'] using list_ind2; intros Hs; [simpl; lia|..].
  - rewrite Forall_singleton in Hs. simpl.
    destruct (is_high u), (is_low u); simpl; try lia.
    rewrite app_nil_r. pose proof (length_utf8_code_point u). simpl. lia.
  - apply Forall_cons in Hs as [Hu Hs]. pose proof Hs as [Hv Hs']%Forall_cons.
    specialize (IH Hs'). specialize (IH' Hs). cbn [code_points] in *.
    destruct (is_high u); [destruct (is_low v)|destruct (is_low u)];
      rewrite bind_cons, length_app; cbn [length] in *.
    + pose proof (length_utf8_code_point (pair_code_point u v)) as (_ & _ & H4).
      rewrite H4 by (rewrite pair_code_point_eq; div_lia). lia.
    + change (length (utf8_code_point replacement)) with 3%nat. lia.
    + change (length (utf8_code_point replacement)) with 3%nat. lia.
    + pose proof (length_utf8_code_point u). lia.
Qed.

(** ** The prefix test *)

(** The prefix test on strings is the one on their bytes. *)
Lemma startsWith_lit (t p : string) :
  startsWith t p = startsWith16 (lit t) (lit p).
Proof.
  unfold startsWith, lit. revert t. induction p as [|c p IH]; intros t;
    [by destruct t|].
  destruct t as [|a t]; [done|].
  change (list_byte_of_string (String a t))
    with (byte_of_ascii a :: list_byte_of_string t).
  change (list_byte_of_string (String c p))
    with (byte_of_ascii c :: list_byte_of_string p).
  rewrite !fmap_cons. cbn [String.prefix startsWith16].
  rewrite <- IH. destruct (ascii_dec c a) as [->|Hne].
  - by rewrite Z.eqb_refl.
  - destruct (Z.eqb_spec (b2z (byte_of_ascii a)) (b2z (byte_of_ascii c)))
      as [Heq|]; [|done].
    destruct Hne. apply (f_equal z2b) in Heq. rewrite !z2b_b2z in Heq.
    apply (f_equal ascii_of_byte) in Heq. by rewrite !ascii_of_byte_of_ascii in Heq.
Qed.

(** The integer bytes of the string that stands for [s]. *)
Lemma lit_utf8 (s : JsString) :
  Forall code_unit s -> lit (utf8 s) = utf8_encode (code_points s).
Proof.
  intros Hs. unfold lit, utf8.
  by rewrite list_byte_of_string_of_list_byte, b2z_Buffer_from16.
Qed.

(** A string that begins outside ASCII has a first byte outside ASCII. *)
Lemma utf8_encode_head (u : Z) (s : JsString) :
  code_unit u -> Forall code_unit s -> 0x80 <= u ->
  exists z rest, utf8_encode (code_points (u :: s)) = z :: rest /\ 0xC0 <= z.
Proof.
  intros Hu Hs Hge.
  assert (exists c cs, code_points (u :: s) = c :: cs /\ scalar c /\ 0x80 <= c)
    as (c & cs & -> & Hc & Hc').
  { pose proof (code_points_scalar (u :: s) (Forall_cons_2 _ _ _ Hu Hs)) as Hall.
    unfold code_unit in Hu. cbn [code_points] in *.
    destruct (is_high u); [destruct s as [|v s]; [|destruct (is_low v)]
                          |destruct (is_low u)];
      apply Forall_cons in Hall as [Hc _]; eexists _, _;
      (split; [done|split; [done|]]); unfold replacement;
      rewrite ?pair_code_point_eq; div_lia. }
  unfold utf8_encode, scalar in *. rewrite bind_cons, utf8_code_point_eq by done.
  destruct (Z.ltb_spec c 0x80); [lia|]. destruct (Z.ltb_spec c 0x800);
    [|destruct (Z.ltb_spec c 0x10000)]; eexists _, _; (split; [done|div_lia]).
Qed.

(** The prefix test on the bytes of a string is the test on its code
    units, for a prefix written in ASCII. *)
Lemma startsWith16_utf8_encode (s q : JsString) :
  Forall code_unit s -> Forall (fun c => 0 <= c < 0x80) q ->
  startsWith16 (utf8_encode (code_points s)) q = startsWith16 s q.
Proof.
  intros Hs Hq. revert s Hs. induction Hq as [|c q Hc _ IH]; intros s Hs.
  - by destruct s, (utf8_encode _).
  - destruct s as [|u s]; [done|]. apply Forall_cons in Hs as [Hu Hs].
    destruct (Z.ltb_spec u 0x80) as [Hlt|Hge].
    + unfold code_unit in Hu.
      rewrite code_points_cons_plain by (unfold is_high, is_low; lia).
      unfold utf8_encode in *. rewrite bind_cons. unfold utf8_code_point at 1.
      rewrite (proj2 (Z.ltb_lt u 0x80)) by done.
      cbn [app startsWith16]. by rewrite IH.
    + destruct (utf8_encode_head u s Hu Hs Hge) as (z & rest & -> & Hz).
      cbn [startsWith16].
      by rewrite (proj2 (Z.eqb_neq z c)), (proj2 (Z.eqb_neq u c)) by lia.
Qed.

Lemma lit_ascii (p : string) :
  ascii_string p = true -> Forall (fun c => 0 <= c < 0x80) (lit p).
Proof.
  unfold ascii_string, lit. rewrite forallb_forall, Forall_fmap.
  intros Hp. apply Forall_forall. intros b Hb%list_elem_of_In%Hp.
  pose proof (b2z_range b). simpl. lia.
Qed.

Lemma startsWith_utf8 (s : JsString) (p : string) :
  Forall code_unit s -> ascii_string p = true ->
  startsWith (utf8 s) p = startsWith16 s (lit p).
Proof.
  intros Hs Hp. rewrite startsWith_lit, lit_utf8 by done.
  by apply startsWith16_utf8_encode, lit_ascii.
Qed.

(** ** Theorems *)

(** A client that decodes the bytes of [Buffer.from(s)] as UTF-8 reads
    the code points of [s]: the surrogate pairs of [s] as one code point
    each, U+FFFD for a surrogate without its partner, every other unit
    as it is.  No byte is cut to 8 bits on the way. *)
Lemma Buffer_from16_decodes (s : JsString) :
  Forall code_unit s ->
  utf8_decode (b2z <$> Buffer_from16 s) = Some (code_points s).
Proof.
  intros Hs. rewrite b2z_Buffer_from16 by done.
  by apply utf8_decode_encode, code_points_scalar.
Qed.

(** [Buffer.from] writes one to three bytes for every code unit of the
    string. *)
Theorem Buffer_from16_size (s : JsString) :
  Forall code_unit s ->
  (length s <= length (Buffer_from16 s) <= 3 * length s)%nat.
Proof. apply length_Buffer_from16. Qed.

(** Encoding does not commute with concatenation: the two halves of a
    surrogate pair are replaced when they are encoded apart and joined
    when they are encoded together. *)
Example surrogate_pair_split :
  Buffer_from16 ([0xD83D] ++ [0xDE00]) = [xf0; x9f; x98; x80]
  /\ Buffer_from16 [0xD83D] ++ Buffer_from16 [0xDE00]
     = [xef; xbf; xbd; xef; xbf; xbd].
Proof. split; vm_compute; reflexivity. Qed.

(** ** Witnesses *)

Lemma Buffer_from16_decodes_witness :
  utf8_decode (b2z <$> Buffer_from16 [0x48; 0xE9; 0x20AC; 0xD83D; 0xDE00; 0xDC00])
  = Some [0x48; 0xE9; 0x20AC; 0x1F600; 0xFFFD].
Proof.
  apply (Buffer_from16_decodes [0x48; 0xE9; 0x20AC; 0xD83D; 0xDE00; 0xDC00]).
  repeat constructor; unfold code_unit; lia.
Defined.

Lemma Buffer_from16_size_witness :
  (3 <= length (Buffer_from16 [0x48; 0xE9; 0x20AC]%Z) <= 9)%nat.
Proof.
  apply (Buffer_from16_size [0x48; 0xE9; 0x20AC]).
  repeat constructor; unfold code_unit; lia.
Defined.
