(* ===== verification/JsonUnits.v ===== *)
(** * JsonUnits: [JSON.stringify] on the strings of JavaScript

    [response.json(obj)] serialises [obj] with [JSON.stringify] and sends
    the text encoded as UTF-8.  [Json] models the serialisation on the
    bytes of the strings; this file has it on UTF-16 code units, as the
    language defines it: quotation marks, backslashes and control
    characters are escaped, a surrogate pair is written as it is, and a
    surrogate without its partner is written as the escape of its code
    unit ([escape16]).  So the text is well formed whatever the strings
    are ([paired_stringify16]), its encoding replaces nothing and a
    caller that decodes the bytes has the text again
    ([stringify16_sent]); and for strings without unpaired surrogates
    the bytes are those [Json.stringify] writes on the encoded strings
    ([utf8_stringify16]), which is why the other files can work on
    bytes. *)

From Stdlib Require Import String Ascii ZArith Lia List.
From Stdlib Require Import Strings.Byte.
From stdpp Require Import base option list strings.
From S2P Require Import Prelude Json Base64 Utf8.
Local Open Scope Z_scope.

(** ** Serialisation on code units *)

(** A flat object: properties in insertion order, [None] for [undefined]. *)
Definition JsObject16 : Type := list (JsString * option JsString).

(** The code unit of the lower-case hexadecimal digit of [n < 16]. *)
Definition hex_unit (n : Z) : Z := if n <? 10 then 0x30 + n else 0x57 + n.

(** The escape of a code unit by its number: a backslash, [u] and four
    hexadecimal digits. *)
Definition unicode_escape (u : Z) : JsString :=
  [0x5C; 0x75; hex_unit (u / 4096 mod 16); hex_unit (u / 256 mod 16);
   hex_unit (u / 16 mod 16); hex_unit (u mod 16)].

(** How [JSON.stringify] writes a code unit that is not a surrogate. *)
Definition escape_unit (u : Z) : JsString :=
  if u =? 0x22 then [0x5C; 0x22]
  else if u =? 0x5C then [0x5C; 0x5C]
  else if u =? 0x08 then [0x5C; 0x62]
  else if u =? 0x0C then [0x5C; 0x66]
  else if u =? 0x0A then [0x5C; 0x6E]
  else if u =? 0x0D then [0x5C; 0x72]
  else if u =? 0x09 then [0x5C; 0x74]
  else if u <? 0x20 then unicode_escape u
  else [u].

(** The inside of a quoted string: a surrogate pair stays, a surrogate
    without its partner is escaped by its number. *)
Fixpoint escape16 (s : JsString) : JsString :=
  match s with
  | [] => []
  | u :: rest =>
      if is_high u then
        match rest with
        | low :: rest' =>
            if is_low low then u :: low :: escape16 rest'
            else unicode_escape u ++ escape16 rest
        | [] => unicode_escape u
        end
      else if is_low u then unicode_escape u ++ escape16 rest
      else escape_unit u ++ escape16 rest
  end.

(** A string as [JSON.stringify] writes it. *)
Definition quote16 (s : JsString) : JsString :=
  lit (String dquote "") ++ escape16 s ++ lit (String dquote "").

(** One property, [None] when its value is [undefined]. *)
Definition stringify_property16 (kv : JsString * option JsString) : option JsString :=
  match kv.2 with
  | Some v => Some (quote16 kv.1 ++ lit ":" ++ quote16 v)
  | None => None
  end.

(** [JSON.stringify(obj)]. *)
Definition stringify16 (obj : JsObject16) : JsString :=
  lit "{" ++ join16 (lit ",") (omap stringify_property16 obj) ++ lit "}".

(** ** Well-formed strings *)

(** A string in which every surrogate has its partner. *)
Fixpoint paired (s : JsString) : bool :=
  match s with
  | [] => true
  | u :: rest =>
      if is_high u then
        match rest with
        | low :: rest' => is_low low && paired rest'
        | [] => false
        end
      else negb (is_low u) && paired rest
  end.

(** A string of 16-bit units without unpaired surrogates. *)
Definition well_formed16 (s : JsString) : Prop :=
  Forall code_unit s /\ paired s = true.

Definition well_formed_object (obj : JsObject16) : Prop :=
  Forall (fun kv : JsString * option JsString =>
            well_formed16 kv.1 /\ from_option well_formed16 True kv.2) obj.

(** An object whose strings are made of 16-bit units. *)
Definition object_units (obj : JsObject16) : Prop :=
  Forall (fun kv : JsString * option JsString =>
            Forall code_unit kv.1 /\ from_option (Forall code_unit) True kv.2) obj.

(** The object of the other files: the strings by their bytes. *)
Definition encoded_object (obj : JsObject16) : JsObject :=
  (fun kv : JsString * option JsString => (utf8 kv.1, utf8 <$> kv.2)) <$> obj.

(** ** The caller's decoder *)

(** The code units of a code point. *)
Definition utf16_code_point (c : Z) : JsString :=
  if c <? 0x10000 then [c]
  else [0xD800 + Z.shiftr (c - 0x10000) 10; 0xDC00 + Z.land (c - 0x10000) 0x3FF].

(** The string of a sequence of code points. *)
Definition code_units (cs : list Z) : JsString := cs ≫= utf16_code_point.

(** The string a caller reads from the bytes of a body: the bytes
    decoded as UTF-8. *)
Definition decode_body (body : bytes) : option JsString :=
  code_units <$> utf8_decode (b2z <$> body).

(** ** Unfolding *)

Lemma low_not_high (u : Z) : is_low u = true -> is_high u = false.
Proof. unfold is_high, is_low. lia. Qed.

Lemma escape16_pair (u low : Z) (s : JsString) :
  is_high u = true -> is_low low = true ->
  escape16 (u :: low :: s) = u :: low :: escape16 s.
Proof. intros Hu Hl. simpl. by rewrite Hu, Hl. Qed.

Lemma escape16_plain (u : Z) (s : JsString) :
  is_high u = false -> is_low u = false ->
  escape16 (u :: s) = escape_unit u ++ escape16 s.
Proof. intros Hu Hl. simpl. by rewrite Hu, Hl. Qed.

Lemma escape16_lone_high (u : Z) (s : JsString) :
  is_high u = true -> starts_clean s ->
  escape16 (u :: s) = unicode_escape u ++ escape16 s.
Proof.
  intros Hu Hs. simpl. rewrite Hu.
  destruct s as [|v s]; [done|]. simpl in Hs. by rewrite Hs.
Qed.

Lemma escape16_lone_low (u : Z) (s : JsString) :
  is_low u = true -> escape16 (u :: s) = unicode_escape u ++ escape16 s.
Proof.
  intros Hl. simpl. rewrite Hl.
  by rewrite low_not_high.
Qed.

Lemma code_points_pair (u low : Z) (s : JsString) :
  is_high u = true -> is_low low = true ->
  code_points (u :: low :: s) = pair_code_point u low :: code_points s.
Proof. intros Hu Hl. simpl. by rewrite Hu, Hl. Qed.

Lemma paired_pair (u low : Z) (s : JsString) :
  is_high u = true -> is_low low = true -> paired (u :: low :: s) = paired s.
Proof. intros Hu Hl. simpl. by rewrite Hu, Hl. Qed.

Lemma paired_cons_plain (u : Z) (s : JsString) :
  is_high u = false -> is_low u = false -> paired (u :: s) = paired s.
Proof. intros Hu Hl. simpl. by rewrite Hu, Hl. Qed.

Lemma paired_lone_high (u : Z) (s : JsString) :
  is_high u = true -> starts_clean s -> paired (u :: s) = false.
Proof.
  intros Hu Hs. simpl. rewrite Hu.
  destruct s as [|v s]; [done|]. simpl in Hs. by rewrite Hs.
Qed.

Lemma paired_lone_low (u : Z) (s : JsString) :
  is_low u = true -> paired (u :: s) = false.
Proof.
  intros Hl. simpl. rewrite Hl.
  by rewrite low_not_high.
Qed.

(** The cases of a string by its first units. *)
Lemma surrogate_cases (P : JsString -> Prop) :
  P [] ->
  (forall u low s, is_high u = true -> is_low low = true ->
     P s -> P (u :: low :: s)) ->
  (forall u s, is_high u = true -> starts_clean s -> P s -> P (u :: s)) ->
  (forall u s, is_low u = true -> P s -> P (u :: s)) ->
  (forall u s, is_high u = false -> is_low u = false -> P s -> P (u :: s)) ->
  forall s, P s.
Proof.
  intros Hnil Hpair Hhigh Hlow Hplain.
  induction s as [|u|u v s IH IH'] using list_ind2; [done|..].
  - destruct (is_high u) eqn:Hu; [by apply Hhigh|].
    destruct (is_low u) eqn:Hl; [by apply Hlow | by apply Hplain].
  - destruct (is_high u) eqn:Hu.
    + destruct (is_low v) eqn:Hv; [by apply Hpair | by apply Hhigh].
    + destruct (is_low u) eqn:Hl; [by apply Hlow | by apply Hplain].
Qed.

(** ** The text is well formed *)

Lemma hex_unit_range (n : Z) : 0 <= n < 16 -> 0x30 <= hex_unit n < 0x67.
Proof. unfold hex_unit. destruct (Z.ltb_spec n 10); lia. Qed.

Lemma plain16_ascii (s : JsString) :
  Forall (fun u => 0 <= u < 0x80) s -> plain16 s.
Proof.
  intros Hs. eapply Forall_impl; [exact Hs|].
  intros u Hu. unfold is_high, is_low. simpl in *. lia.
Qed.

Lemma unicode_escape_ascii (u : Z) :
  Forall (fun u => 0 <= u < 0x80) (unicode_escape u).
Proof.
  unfold unicode_escape.
  pose proof (hex_unit_range (u / 4096 mod 16)).
  pose proof (hex_unit_range (u / 256 mod 16)).
  pose proof (hex_unit_range (u / 16 mod 16)).
  pose proof (hex_unit_range (u mod 16)).
  repeat constructor; try lia; div_lia.
Qed.

Lemma plain16_unicode_escape (u : Z) : plain16 (unicode_escape u).
Proof. apply plain16_ascii, unicode_escape_ascii. Qed.

Lemma plain16_escape_unit (u : Z) :
  is_high u = false -> is_low u = false -> plain16 (escape_unit u).
Proof.
  intros Hu Hl. unfold escape_unit.
  repeat (case_match; [by apply plain16_ascii; repeat constructor|]).
  case_match; [apply plain16_unicode_escape | by repeat constructor].
Qed.

Lemma paired_app_plain (a b : JsString) :
  plain16 a -> paired (a ++ b) = paired b.
Proof.
  induction 1 as [|u a [Hu Hl] _ IH]; [done|].
  rewrite <- app_comm_cons. simpl. by rewrite Hu, Hl, IH.
Qed.

Lemma paired_plain (a : JsString) : plain16 a -> paired a = true.
Proof.
  intros Ha. rewrite <- (app_nil_r a). by rewrite paired_app_plain.
Qed.

(** Where a well-formed string ends, another can begin. *)
Lemma paired_app (a b : JsString) :
  paired a = true -> paired (a ++ b) = paired b.
Proof.
  induction a as [|u|u v a IH IH'] using list_ind2; [done|..].
  - simpl. destruct (is_high u); [done|].
    destruct (is_low u); [done|]. intros _. by destruct b.
  - cbn [app paired] in *. destruct (is_high u).
    + destruct (is_low v); [exact IH | done].
    + destruct (is_low u); [done|exact IH'].
Qed.

Lemma paired_escape16 (s : JsString) : paired (escape16 s) = true.
Proof.
  induction s as [|u low s Hu Hl IH|u s Hu Hs IH|u s Hl IH|u s Hu Hl IH]
    using surrogate_cases; [done|..].
  - rewrite escape16_pair by done. simpl. by rewrite Hu, Hl.
  - by rewrite escape16_lone_high, paired_app_plain
      by auto using plain16_unicode_escape.
  - by rewrite escape16_lone_low, paired_app_plain
      by auto using plain16_unicode_escape.
  - by rewrite escape16_plain, paired_app_plain
      by auto using plain16_escape_unit.
Qed.

Lemma paired_lit (p : string) : ascii_string p = true -> paired (lit p) = true.
Proof. intros Hp. by apply paired_plain, plain16_lit. Qed.

Lemma paired_quote16 (s : JsString) : paired (quote16 s) = true.
Proof.
  unfold quote16. rewrite paired_app_plain by (by apply plain16_lit).
  by rewrite paired_app, paired_lit by (by try apply paired_escape16).
Qed.

Lemma paired_join16 (sep : JsString) (xs : list JsString) :
  paired sep = true -> Forall (fun x => paired x = true) xs ->
  paired (join16 sep xs) = true.
Proof.
  intros Hsep. induction 1 as [|x xs Hx Hxs IH]; [done|].
  destruct xs as [|y xs]; [done|].
  change (join16 sep (x :: y :: xs)) with (x ++ sep ++ join16 sep (y :: xs)).
  by rewrite !paired_app.
Qed.

Lemma paired_stringify_property16 (obj : JsObject16) :
  Forall (fun x => paired x = true) (omap stringify_property16 obj).
Proof.
  induction obj as [|[k [v|]] obj IH]; [constructor| |done].
  constructor; [|done].
  by rewrite !paired_app, ?paired_quote16, ?paired_lit by
    (by rewrite ?paired_quote16, ?paired_lit).
Qed.

(** The text of [JSON.stringify] has no surrogate without its partner,
    whatever the strings of the object are. *)
Lemma paired_stringify16 (obj : JsObject16) : paired (stringify16 obj) = true.
Proof.
  unfold stringify16. rewrite paired_app by (by apply paired_lit).
  rewrite paired_app; [by apply paired_lit|].
  apply paired_join16; [by apply paired_lit|apply paired_stringify_property16].
Qed.

(** ** The text is made of code units *)

Lemma code_unit_ascii (s : JsString) :
  Forall (fun u => 0 <= u < 0x80) s -> Forall code_unit s.
Proof.
  intros Hs. eapply Forall_impl; [exact Hs|].
  intros u Hu. unfold code_unit. simpl in *. lia.
Qed.

Lemma code_unit_escape_unit (u : Z) : code_unit u -> Forall code_unit (escape_unit u).
Proof.
  intros Hu. unfold escape_unit.
  repeat (case_match; [by apply code_unit_ascii; repeat constructor|]).
  case_match; [apply code_unit_ascii, unicode_escape_ascii | by apply Forall_singleton].
Qed.

Lemma code_unit_escape16 (s : JsString) :
  Forall code_unit s -> Forall code_unit (escape16 s).
Proof.
  induction s as [|u low s Hu Hl IH|u s Hu Hs IH|u s Hl IH|u s Hu Hl IH]
    using surrogate_cases; [done|..].
  - rewrite escape16_pair by done.
    intros [? [? ?]%Forall_cons]%Forall_cons. repeat apply Forall_cons_2; auto.
  - rewrite escape16_lone_high by done. intros [? ?]%Forall_cons.
    apply Forall_app; auto using code_unit_ascii, unicode_escape_ascii.
  - rewrite escape16_lone_low by done. intros [? ?]%Forall_cons.
    apply Forall_app; auto using code_unit_ascii, unicode_escape_ascii.
  - rewrite escape16_plain by done. intros [? ?]%Forall_cons.
    apply Forall_app; auto using code_unit_escape_unit.
Qed.

Lemma code_unit_quote16 (s : JsString) :
  Forall code_unit s -> Forall code_unit (quote16 s).
Proof.
  intros Hs. unfold quote16. rewrite !Forall_app.
  auto using code_unit_lit, code_unit_escape16.
Qed.

Lemma code_unit_stringify16 (obj : JsObject16) :
  object_units obj -> Forall code_unit (stringify16 obj).
Proof.
  intros Hobj. unfold stringify16. rewrite !Forall_app.
  split_and!; [apply code_unit_lit| |apply code_unit_lit].
  apply code_unit_join16; [apply code_unit_lit|].
  induction Hobj as [|[k [v|]] obj [Hk Hv] _ IH]; [constructor| |done].
  cbn [omap list_omap stringify_property16 snd fst]. constructor; [|done].
  rewrite !Forall_app. auto using code_unit_lit, code_unit_quote16.
Qed.

(** ** Transport *)

Lemma utf16_pair (u low : Z) :
  is_high u = true -> is_low low = true ->
  utf16_code_point (pair_code_point u low) = [u; low].
Proof.
  intros Hu Hl. unfold utf16_code_point. rewrite pair_code_point_eq.
  change 0x3FF with (Z.ones 10). rewrite land_low, Z.shiftr_div_pow2 by lia.
  change (2 ^ 10) with 1024. unfold is_high, is_low in *.
  decide_test. f_equal; [|f_equal]; div_lia.
Qed.

Lemma code_units_cons (c : Z) (cs : list Z) :
  code_units (c :: cs) = utf16_code_point c ++ code_units cs.
Proof. apply bind_cons. Qed.

(** The code units of the code points of a well-formed string are the
    string. *)
Lemma code_units_code_points (s : JsString) :
  well_formed16 s -> code_units (code_points s) = s.
Proof.
  unfold well_formed16.
  induction s as [|u low s Hu Hl IH|u s Hu Hs IH|u s Hl IH|u s Hu Hl IH]
    using surrogate_cases; [done|..]; intros [Hunits Hp].
  - rewrite paired_pair in Hp by done.
    apply Forall_cons in Hunits as [_ [_ Hunits]%Forall_cons].
    rewrite code_points_pair, code_units_cons, utf16_pair by done.
    cbn [app]. by rewrite IH.
  - by rewrite paired_lone_high in Hp.
  - by rewrite paired_lone_low in Hp.
  - rewrite paired_cons_plain in Hp by done.
    apply Forall_cons in Hunits as [Hc Hunits].
    rewrite code_points_cons_plain, code_units_cons, IH by done.
    unfold utf16_code_point, code_unit in *. by decide_test.
Qed.

(** A caller that decodes the bytes of a well-formed string has the
    string. *)
Lemma decode_body_Buffer_from16 (s : JsString) :
  well_formed16 s -> decode_body (Buffer_from16 s) = Some s.
Proof.
  intros Hs. pose proof Hs as [Hunits _]. unfold decode_body.
  rewrite b2z_Buffer_from16, utf8_decode_encode by (by try apply code_points_scalar).
  simpl. by rewrite code_units_code_points.
Qed.

Lemma well_formed_stringify16 (obj : JsObject16) :
  object_units obj -> well_formed16 (stringify16 obj).
Proof.
  intros Hobj. split; [by apply code_unit_stringify16 | apply paired_stringify16].
Qed.

(** ** The bytes of the text *)

(** A byte outside ASCII is written as it is by [Json.escape]. *)
Lemma high_byte_plain (b : Z) :
  0x80 <= b < 0x100 -> plain_char (ascii_of_byte (z2b b)) = true.
Proof.
  intros Hb.
  pose proof (range_check 256
    (fun b => (b <? 0x80) || plain_char (ascii_of_byte (z2b b)))) as Hall.
  specialize (Hall ltac:(by vm_compute) b ltac:(lia)). simpl in Hall.
  apply orb_prop in Hall as [Hlt|Hplain]; [lia | done].
Qed.

Lemma high_bytes_plain (bs : list Z) :
  Forall (fun b => 0x80 <= b < 0x100) bs ->
  plain (string_of_list_byte (z2b <$> bs)) = true.
Proof.
  induction 1 as [|b bs Hb _ IH]; [done|].
  rewrite fmap_cons. unfold string_of_list_byte in *. cbn [map string_of_list_ascii plain].
  by rewrite high_byte_plain, IH.
Qed.

(** The bytes of a code point outside ASCII are outside ASCII. *)
Lemma utf8_code_point_high (c : Z) :
  0x80 <= c < 0x110000 -> Forall (fun b => 0x80 <= b < 0x100) (utf8_code_point c).
Proof.
  intros Hc. rewrite utf8_code_point_eq by lia.
  destruct (Z.ltb_spec c 0x80); [lia|].
  destruct (Z.ltb_spec c 0x800); [|destruct (Z.ltb_spec c 0x10000)];
    repeat apply Forall_cons_2; try apply Forall_nil_2; div_lia.
Qed.

(** The bytes of a string of one code point. *)
Lemma utf8_code_points_singleton (s : JsString) (c : Z) :
  code_points s = [c] -> utf8 s = string_of_list_byte (z2b <$> utf8_code_point c).
Proof.
  intros Hs. unfold utf8, Buffer_from16, utf8_encode.
  rewrite Hs, bind_cons. change ([] ≫= utf8_code_point) with (@nil Z).
  by rewrite app_nil_r.
Qed.

Lemma plain_utf8_high (s : JsString) (c : Z) :
  code_points s = [c] -> 0x80 <= c < 0x110000 -> plain (utf8 s) = true.
Proof.
  intros Hs Hc. rewrite (utf8_code_points_singleton s c Hs).
  by apply high_bytes_plain, utf8_code_point_high.
Qed.

(** A unit of ASCII is escaped as its byte is. *)
Lemma utf8_escape_ascii (u : Z) :
  0 <= u < 0x80 -> utf8 (escape_unit u) = escape (utf8 [u]).
Proof.
  intros Hu. apply String.eqb_eq.
  by apply (range_check 128
    (fun u => String.eqb (utf8 (escape_unit u)) (escape (utf8 [u])))).
Qed.

(** A unit that is not a surrogate is escaped as its bytes are. *)
Lemma utf8_escape_unit (u : Z) :
  code_unit u -> is_high u = false -> is_low u = false ->
  utf8 (escape_unit u) = escape (utf8 [u]).
Proof.
  intros Hc Hu Hl. destruct (Z.ltb_spec u 0x80); [apply utf8_escape_ascii; unfold code_unit in *; lia|].
  assert (escape_unit u = [u]) as ->.
  { unfold escape_unit.
    repeat match goal with
           | |- context [u =? ?k] => rewrite (proj2 (Z.eqb_neq u k)) by lia
           end.
    by rewrite (proj2 (Z.ltb_ge u 0x20)) by lia. }
  symmetry. apply escape_plain, (plain_utf8_high [u] u).
  - by rewrite code_points_cons_plain.
  - unfold code_unit in *. lia.
Qed.

(** The escapes of a well-formed string are the escapes of its bytes. *)
Lemma utf8_escape16 (s : JsString) :
  well_formed16 s -> utf8 (escape16 s) = escape (utf8 s).
Proof.
  unfold well_formed16.
  induction s as [|u low s Hu Hl IH|u s Hu Hs IH|u s Hl IH|u s Hu Hl IH]
    using surrogate_cases; [done|..]; intros [Hunits Hp].
  - rewrite paired_pair in Hp by done.
    pose proof Hunits as [Hcu [Hcl Hunits']%Forall_cons]%Forall_cons.
    rewrite escape16_pair by done.
    change (u :: low :: ?t) with ([u; low] ++ t).
    rewrite !(utf8_of_code_points [u; low])
      by (cbn [app]; by rewrite !code_points_pair).
    rewrite escape_app, IH by done. f_equal. symmetry.
    apply escape_plain, (plain_utf8_high _ (pair_code_point u low));
      [by rewrite code_points_pair|].
    rewrite pair_code_point_eq. div_lia.
  - by rewrite paired_lone_high in Hp.
  - by rewrite paired_lone_low in Hp.
  - rewrite paired_cons_plain in Hp by done.
    apply Forall_cons in Hunits as [Hc Hunits].
    rewrite escape16_plain, utf8_app_plain by auto using plain16_escape_unit.
    change (u :: s) with ([u] ++ s).
    rewrite (utf8_app_plain [u]) by (by apply Forall_singleton).
    by rewrite escape_app, IH, utf8_escape_unit.
Qed.

(** A well-formed string is quoted as its bytes are. *)
Lemma utf8_quote16 (s : JsString) :
  well_formed16 s -> utf8 (quote16 s) = quote (utf8 s).
Proof.
  intros Hs. unfold quote16, quote.
  rewrite utf8_lit_app, utf8_app, utf8_lit, utf8_escape16 by done.
  by rewrite string_app_cons, string_app_nil_l.
Qed.

Lemma utf8_stringify_properties16 (obj : JsObject16) :
  well_formed_object obj ->
  utf8 <$> omap stringify_property16 obj
  = omap stringify_property (encoded_object obj).
Proof.
  induction 1 as [|[k [v|]] obj [Hk Hv] _ IH]; [done| |done].
  cbn [omap list_omap stringify_property16 stringify_property encoded_object
       fmap list_fmap option_fmap option_map fst snd] in *.
  rewrite IH. do 2 f_equal.
  by rewrite utf8_app, utf8_lit_app, !utf8_quote16.
Qed.

(** The text of a well-formed object is the text [Json.stringify] writes
    on its encoded strings. *)
Lemma utf8_stringify16 (obj : JsObject16) :
  well_formed_object obj ->
  utf8 (stringify16 obj) = stringify (encoded_object obj).
Proof.
  intros Hobj. unfold stringify16, stringify.
  rewrite utf8_lit_app, utf8_app, utf8_lit by done.
  by rewrite utf8_join16, utf8_stringify_properties16.
Qed.

(** ** Literals and base64 text *)

Lemma well_formed_lit (p : string) : ascii_string p = true -> well_formed16 (lit p).
Proof. intros Hp. split; [apply code_unit_lit | by apply paired_lit]. Qed.

Lemma base64_char_ascii (c : ascii) :
  base64_char c = true -> (b2z (byte_of_ascii c) <? 0x80) = true.
Proof.
  intros Hc.
  pose proof (range_check 256
    (fun z => orb (negb (base64_char (ascii_of_byte (z2b z)))) (z <? 0x80))) as Hall.
  specialize (Hall ltac:(by vm_compute) _ (b2z_range (byte_of_ascii c))).
  simpl in Hall. by rewrite z2b_b2z, ascii_of_byte_of_ascii, Hc in Hall.
Qed.

Lemma base64_text_ascii (s : string) :
  base64_text s = true -> ascii_string s = true.
Proof.
  unfold ascii_string. induction s as [|c s IH]; [done|].
  cbn [base64_text]. intros [Hc Hs]%andb_prop.
  change (list_byte_of_string (String c s))
    with (byte_of_ascii c :: list_byte_of_string s).
  cbn [forallb]. by rewrite base64_char_ascii, IH.
Qed.

(** The base64 text of a buffer is a well-formed string of ASCII. *)
Lemma ascii_base64_encode (bs : bytes) : ascii_string (base64_encode bs) = true.
Proof. apply base64_text_ascii, base64_encode_text. Qed.

(** ** Theorems *)

(** The body of [response.json(obj)] on the wire: whatever the strings of
    the object are, the text of [JSON.stringify] has no surrogate
    without its partner, so its UTF-8 encoding replaces nothing and a
    caller that decodes the bytes has the text again; and when the
    strings of the object have no unpaired surrogates, the text is the
    one [Json.stringify] writes on their bytes. *)
Lemma stringify16_sent (obj : JsObject16) :
  object_units obj ->
  decode_body (Buffer_from16 (stringify16 obj)) = Some (stringify16 obj)
  /\ (well_formed_object obj ->
      utf8 (stringify16 obj) = stringify (encoded_object obj)).
Proof.
  intros Hobj. split; [|apply utf8_stringify16].
  by apply decode_body_Buffer_from16, well_formed_stringify16.
Qed.

(** A surrogate without its partner is written by its number, where the
    serialisation on bytes has the bytes of U+FFFD. *)
Example lone_surrogate_escaped :
  utf8 (quote16 [0xD83D])
  = String dquote (String backslash "ud83d" +:+ String dquote "")
  /\ quote (utf8 [0xD83D])
     = String dquote (utf8 [0xFFFD] +:+ String dquote "").
Proof. split; vm_compute; reflexivity. Qed.

(** ** Witnesses *)

Lemma stringify16_sent_witness :
  decode_body (Buffer_from16
    (stringify16 [(lit "details", Some [0x48; 0xE9; 0x22; 0xD83D; 0xDE00; 0xDC00])]))
  = Some (stringify16 [(lit "details", Some [0x48; 0xE9; 0x22; 0xD83D; 0xDE00; 0xDC00])]).
Proof.
  apply (stringify16_sent [(lit "details", Some [0x48; 0xE9; 0x22; 0xD83D; 0xDE00; 0xDC00])]).
  apply Forall_singleton. split; [apply code_unit_lit|].
  repeat apply Forall_cons_2; try apply Forall_nil_2; unfold code_unit; lia.
Defined.
