(* ===== verification/Http.v ===== *)
(** * Http: the request and response objects the handler is called with

    The platform calls the handler with an Express request (read only) and
    an Express response (mutated by [set], [status], [send] and [json]).
    The response is a record passed from call to call; the bodies written
    are kept in order in [sent], so that "the handler answers exactly once"
    is a statement about its length. *)

From Stdlib Require Import String List Lia.
From stdpp Require Import base option list strings gmap.
From S2P Require Import Prelude Json.

(** ** The request *)

(** What the handler reads of the request: [request.method],
    [request.headers] (Node stores the names in lower case) and
    [request.body] (the raw bytes, for a multipart upload). *)
Record Request : Type := {
  method : string;
  headers : gmap string string;
  body : bytes;
}.

(** ** The response *)

Record Response : Type := {
  res_headers : gmap string string;
  statusCode : nat;
  sent : list string;
}.

(** The response as the platform hands it over: no header of the
    handler's, status 200, nothing sent. *)
Definition fresh_response : Response :=
  {| res_headers := ∅; statusCode := 200; sent := [] |}.

(** [response.set(field, value)]. *)
Definition res_set (field value : string) (r : Response) : Response :=
  {| res_headers := <[field := value]> (res_headers r);
     statusCode := statusCode r;
     sent := sent r |}.

(** [response.status(code)]. *)
Definition res_status (code : nat) (r : Response) : Response :=
  {| res_headers := res_headers r; statusCode := code; sent := sent r |}.

(** [response.send(body)]. *)
Definition res_send (payload : string) (r : Response) : Response :=
  {| res_headers := res_headers r;
     statusCode := statusCode r;
     sent := sent r ++ [payload] |}.

(** [response.json(obj)]: the content type defaults to JSON, the body is
    the serialised object. *)
Definition res_json (obj : JsObject) (r : Response) : Response :=
  let r' :=
    match res_headers r !! "Content-Type" with
    | Some _ => r
    | None => res_set "Content-Type" "application/json" r
    end in
  res_send (stringify obj) r'.

(** [response.get(field)]. *)
Definition res_get (field : string) (r : Response) : option string :=
  res_headers r !! field.

(** ** The calls on the response, as data *)

(** A call the handler makes on the response. *)
Inductive ResCall : Type :=
| CallSet (field value : string)
| CallStatus (code : nat)
| CallSend (payload : string)
| CallJson (obj : JsObject).

(** What a call does to the response. *)
Definition respond (c : ResCall) (r : Response) : Response :=
  match c with
  | CallSet field value => res_set field value r
  | CallStatus code => res_status code r
  | CallSend payload => res_send payload r
  | CallJson obj => res_json obj r
  end.

(** A sequence of calls, in order. *)
Definition respond_all (cs : list ResCall) (r : Response) : Response :=
  foldl (fun r c => respond c r) r cs.

(** The calls that send the body. *)
Definition is_answer (c : ResCall) : bool :=
  match c with
  | CallSend _ | CallJson _ => true
  | _ => false
  end.

(** [response.headersSent]: the body has been sent. *)
Definition headersSent (r : Response) : bool :=
  match sent r with [] => false | _ :: _ => true end.

(** The error Node throws when a header is written after the body. *)
Definition ERR_HTTP_HEADERS_SENT : Thrown :=
  ErrorObj "Error" "Cannot set headers after they are sent to the client".

(** A call on the response as Node checks it: once the body is sent,
    writing a header or a body throws; [status] only stores the code. *)
Definition respond_checked (c : ResCall) (r : Response) : Exn Response :=
  match c with
  | CallStatus code => Return (res_status code r)
  | _ => if headersSent r then Throw ERR_HTTP_HEADERS_SENT
         else Return (respond c r)
  end.

Fixpoint respond_all_checked (cs : list ResCall) (r : Response) : Exn Response :=
  match cs with
  | [] => Return r
  | c :: rest => bindE (respond_checked c r) (respond_all_checked rest)
  end.

(** The answer, if any, is the last of the calls. *)
Fixpoint answer_last (cs : list ResCall) : bool :=
  match cs with
  | [] => true
  | c :: rest =>
      if is_answer c then match rest with [] => true | _ :: _ => false end
      else answer_last rest
  end.

(** The response has been answered exactly once. *)
Definition answered_once (r : Response) : Prop := length (sent r) = 1.

#[export] Instance answered_once_dec (r : Response) : Decision (answered_once r).
Proof. unfold answered_once. apply _. Defined.

(** ** Lemmas *)

Lemma res_get_set_eq (f v : string) (r : Response) :
  res_get f (res_set f v r) = Some v.
Proof. unfold res_get, res_set. simpl. apply lookup_insert_eq. Qed.

Lemma res_get_set_ne (f g v : string) (r : Response) :
  f <> g -> res_get g (res_set f v r) = res_get g r.
Proof. intros Hne. unfold res_get, res_set. simpl. by apply lookup_insert_ne. Qed.

Lemma res_get_status (f : string) (code : nat) (r : Response) :
  res_get f (res_status code r) = res_get f r.
Proof. reflexivity. Qed.

Lemma res_get_send (f payload : string) (r : Response) :
  res_get f (res_send payload r) = res_get f r.
Proof. reflexivity. Qed.

(** [json] leaves every header but the content type as it was. *)
Lemma res_get_json_ne (f : string) (obj : JsObject) (r : Response) :
  f <> "Content-Type" -> res_get f (res_json obj r) = res_get f r.
Proof.
  intros Hne. unfold res_json.
  destruct (res_headers r !! "Content-Type"); [done|].
  rewrite res_get_send. by apply res_get_set_ne.
Qed.

(** After [json] the content type is set: to what it was, or to JSON. *)
Lemma res_get_json_content_type (obj : JsObject) (r : Response) :
  res_get "Content-Type" (res_json obj r) =
  Some (default "application/json" (res_get "Content-Type" r)).
Proof.
  unfold res_json, res_get.
  destruct (res_headers r !! "Content-Type") eqn:E; simpl; [done|].
  apply lookup_insert_eq.
Qed.

Lemma statusCode_set (f v : string) (r : Response) :
  statusCode (res_set f v r) = statusCode r.
Proof. reflexivity. Qed.

Lemma statusCode_json (obj : JsObject) (r : Response) :
  statusCode (res_json obj r) = statusCode r.
Proof. unfold res_json. by destruct (res_headers r !! "Content-Type"). Qed.

Lemma sent_set (f v : string) (r : Response) : sent (res_set f v r) = sent r.
Proof. reflexivity. Qed.

Lemma sent_status (code : nat) (r : Response) : sent (res_status code r) = sent r.
Proof. reflexivity. Qed.

Lemma sent_json (obj : JsObject) (r : Response) :
  sent (res_json obj r) = sent r ++ [stringify obj].
Proof. unfold res_json. by destruct (res_headers r !! "Content-Type"). Qed.

(** ** Sequences of calls *)

Lemma respond_all_app (cs1 cs2 : list ResCall) (r : Response) :
  respond_all (cs1 ++ cs2) r = respond_all cs2 (respond_all cs1 r).
Proof. apply foldl_app. Qed.

Lemma headersSent_respond (c : ResCall) (r : Response) :
  headersSent (respond c r) = is_answer c || headersSent r.
Proof.
  unfold headersSent. destruct c; cbn [respond is_answer orb]; [done..| |].
  - simpl. by destruct (sent r).
  - rewrite sent_json. by destruct (sent r).
Qed.

(** Calls of which the answer is the last never write to a response whose
    body is sent: the checks of Node let all of them through. *)
Lemma respond_all_checked_answer_last (cs : list ResCall) (r : Response) :
  answer_last cs = true -> headersSent r = false ->
  respond_all_checked cs r = Return (respond_all cs r).
Proof.
  revert r. induction cs as [|c cs IH]; intros r Hl Hs; [done|]. simpl in *.
  assert (respond_checked c r = Return (respond c r)) as ->
    by (destruct c; simpl; by rewrite ?Hs).
  simpl. destruct (is_answer c) eqn:Hc.
  - by destruct cs.
  - apply IH; [done|]. by rewrite headersSent_respond, Hc.
Qed.

(** With the checks of Node a response never carries two bodies. *)
Lemma respond_checked_one_body (c : ResCall) (r r' : Response) :
  respond_checked c r = Return r' ->
  (length (sent r) <= 1)%nat -> (length (sent r') <= 1)%nat.
Proof.
  unfold respond_checked, headersSent.
  destruct c; [| by intros [= <-] | |]; destruct (sent r) eqn:Hs; intros [= <-];
    cbn [respond]; rewrite ?sent_set, ?sent_json; simpl; rewrite ?Hs; simpl; lia.
Qed.

Lemma respond_all_checked_one_body (cs : list ResCall) (r r' : Response) :
  respond_all_checked cs r = Return r' ->
  (length (sent r) <= 1)%nat -> (length (sent r') <= 1)%nat.
Proof.
  revert r. induction cs as [|c cs IH]; intros r; simpl; [by intros [= <-]|].
  destruct (respond_checked c r) as [r1|e] eqn:Hc; [|done]. simpl.
  intros Hr' Hr. apply (IH r1 Hr'). by eapply respond_checked_one_body.
Qed.

(** Without a call that answers nothing is sent; with the answer last,
    one body is. *)
Lemma sent_respond_all (cs : list ResCall) (r : Response) :
  answer_last cs = true ->
  length (sent (respond_all cs r))
  = length (sent r) + length (filter (fun c => is_answer c = true) cs).
Proof.
  revert r. induction cs as [|c cs IH]; intros r Hl; [simpl; lia|].
  simpl in Hl. change (respond_all (c :: cs) r) with (respond_all cs (respond c r)).
  rewrite filter_cons. destruct (is_answer c) eqn:Hc.
  - destruct cs; [|done]. rewrite decide_True by done.
    destruct c; try done; cbn [respond respond_all foldl];
      rewrite ?sent_json; simpl; rewrite length_app; simpl; lia.
  - rewrite decide_False by done. rewrite IH by done.
    by destruct c.
Qed.

#[export] Hint Rewrite res_get_set_eq res_get_status res_get_send
  statusCode_set statusCode_json sent_set sent_status sent_json : js.
