(* ===== verification/Multipart.v ===== *)
(** * Multipart: the parts of an upload and the parser's interface

    The handler calls two functions of the multipart parser: [getBoundary]
    on the content-type header and [parse] on the body.  The parser is not
    part of the repository: it is an interface here ([MultipartLib]), and
    the handler's theorems hold for every implementation of it.  What the
    handler reads of a parsed part is the record [Part]; a part is a plain
    object, so each property the handler reads may be missing. *)

From Stdlib Require Import String List.
From stdpp Require Import base option list strings.
From S2P Require Import Prelude.

(** ** Parts *)

(** A parsed part, as the handler reads it: [part.filename], [part.type]
    (the declared content type) and [part.data]. *)
Record Part : Type := {
  filename : option string;
  type : option string;
  data : bytes;
}.

(** ** The parser *)

(** [multipart.getBoundary(header)] returns a string (empty when it finds
    no boundary) for every string, and the handler hands it a string
    always ([|| ""]); [multipart.parse(body, boundary)] returns the array
    of parts, or a falsy value ([None]), or throws. *)
Class MultipartLib : Type := {
  getBoundary : string -> string;
  parse : bytes -> string -> Exn (option (list Part));
}.

(** ** What the handler does with the parts *)

(** The callback of the filter, [part.type.startsWith("image/")]: reading
    [startsWith] of a missing [type] throws a [TypeError]. *)
Definition is_image (part : Part) : Exn bool :=
  match type part with
  | Some t => Return (startsWith t "image/")
  | None => Throw (TypeError_undefined "startsWith")
  end.

(** The same test on a part that declares a type, as a boolean. *)
Definition image_type (part : Part) : bool :=
  match type part with
  | Some t => startsWith t "image/"
  | None => false
  end.

(** Every part declares a content type. *)
Definition typed (parts : list Part) : Prop :=
  Forall (fun p => is_Some (type p)) parts.

#[export] Instance typed_dec (parts : list Part) : Decision (typed parts).
Proof. unfold typed. apply _. Defined.

(** ** Lemmas *)

Lemma is_image_typed (part : Part) :
  is_Some (type part) -> is_image part = Return (image_type part).
Proof. intros [t Ht]. unfold is_image, image_type. by rewrite Ht. Qed.

Lemma is_image_untyped (part : Part) :
  type part = None -> is_image part = Throw (TypeError_undefined "startsWith").
Proof. intros Ht. unfold is_image. by rewrite Ht. Qed.

Lemma is_image_Return_inv (part : Part) (b : bool) :
  is_image part = Return b -> is_Some (type part) /\ b = image_type part.
Proof.
  unfold is_image, image_type. destruct (type part); [|done].
  intros [= <-]. eauto.
Qed.

(** On parts that all declare a type the filter is the pure filter. *)
Lemma filterE_is_image_typed (parts : list Part) :
  typed parts -> filterE is_image parts = Return (List.filter image_type parts).
Proof.
  intros H. apply filterE_Return.
  eapply Forall_impl; [exact H|]. intros p Hp. by apply is_image_typed.
Qed.

(** The filter throws as soon as one part declares no type. *)
Lemma filterE_is_image_untyped (parts : list Part) :
  ~ typed parts ->
  filterE is_image parts = Throw (TypeError_undefined "startsWith").
Proof.
  unfold typed. induction parts as [|p parts IH]; intros H.
  - destruct H. constructor.
  - simpl. destruct (type p) as [t|] eqn:Ht.
    + rewrite is_image_typed by (rewrite Ht; eauto). simpl.
      rewrite IH; [done|]. intros Hall. apply H. constructor; [|done].
      rewrite Ht. eauto.
    + by rewrite is_image_untyped.
Qed.

Lemma image_type_spec (part : Part) :
  image_type part = true <->
  exists rest, type part = Some ("image/" +:+ rest).
Proof.
  unfold image_type. destruct (type part) as [t|]; split.
  - intros [rest ->]%startsWith_inv. eauto.
  - intros [rest [= ->]]. apply startsWith_app.
  - done.
  - by intros [rest ?].
Qed.
