(* ===== verification/FanOut.v ===== *)
(** * FanOut: [Promise.all] over calls that run concurrently

    The handler starts one OCR call per image and waits for all of them with
    [Promise.all].  The calls make progress in an order the event loop
    chooses: each call prints its progress lines one by one and then settles
    (fulfils with a value or rejects).  [Promise.all] fulfils with the
    values in index order once every call has fulfilled, and rejects with
    the reason of the first call that rejects.

    A [Pool] is the state of the calls, of the console and of the promise
    [Promise.all] returned; one [step] is one event of one call.
    [pool_step] is the step relation, a schedule is the list of the indices
    the event loop picks, and [run] executes a schedule.  The theorems: the invariant that ties a reachable
    pool to the calls it was started with, the value of the promise whatever
    the schedule (index order on success, the reason of a failed call on
    failure, never both), progress, and the order of the console lines
    of each call.

    A call is a finite list of lines and an outcome, so a call that
    reports progress without end cannot be written down; a call that has
    not settled yet is a call the schedule has not picked often enough,
    and what the handler does then is to wait. *)

From Stdlib Require Import String List Lia.
From stdpp Require Import base option list strings relations.
From S2P Require Import Prelude.

Section FanOut.
Context {A : Type}.

(** ** State *)

(** A call in flight: the lines its callback has yet to print, and how its
    promise settles after the last of them. *)
Record Task : Type := {
  pending : list string;
  settles : Exn A;
}.

Inductive Slot : Type :=
| Running (t : Task)
| Settled (r : Exn A).

(** The promise [Promise.all] returns. *)
Inductive Join : Type :=
| Pending
| Fulfilled (values : list A)
| Rejected (e : Thrown).

(** The console holds the lines printed so far, each with the index of the
    call that printed it. *)
Record Pool : Type := {
  slots : list Slot;
  console : list (nat * string);
  promise : Join;
}.

(** ** Operations *)

Definition value_of (s : Slot) : option A :=
  match s with
  | Settled (Return v) => Some v
  | _ => None
  end.

(** The values of the calls in index order, once all have fulfilled. *)
Definition all_values (ss : list Slot) : option (list A) := mapM value_of ss.

(** [Promise.all(tasks)]: on an empty array the promise is fulfilled at
    once. *)
Definition start (ts : list Task) : Pool :=
  {| slots := Running <$> ts;
     console := [];
     promise := match ts with [] => Fulfilled [] | _ => Pending end |}.

(** What the settling of one call does to the promise: a pending promise rejects
    with the reason of a call that rejects, and fulfils when the last call
    has fulfilled; a settled promise stays as it is. *)
Definition on_settle (r : Exn A) (ss : list Slot) (j : Join) : Join :=
  match j with
  | Pending =>
      match r with
      | Throw e => Rejected e
      | Return _ =>
          match all_values ss with
          | Some vs => Fulfilled vs
          | None => Pending
          end
      end
  | _ => j
  end.

(** One event of call [i]: it prints its next line, or settles when it has
    none left.  A call that has settled has no event. *)
Definition step (i : nat) (p : Pool) : option Pool :=
  match slots p !! i with
  | Some (Running t) =>
      match pending t with
      | line :: rest =>
          Some {| slots := <[i := Running {| pending := rest; settles := settles t |}]> (slots p);
                  console := console p ++ [(i, line)];
                  promise := promise p |}
      | [] =>
          let ss := <[i := Settled (settles t)]> (slots p) in
          Some {| slots := ss;
                  console := console p;
                  promise := on_settle (settles t) ss (promise p) |}
      end
  | _ => None
  end.

Inductive pool_step : relation Pool :=
| pool_step_at (i : nat) (p p' : Pool) : step i p = Some p' -> pool_step p p'.

(** Runs a schedule; a pick that names no call with an event is skipped. *)
Fixpoint run (sched : list nat) (p : Pool) : Pool :=
  match sched with
  | [] => p
  | i :: rest => run rest (default p (step i p))
  end.

(** Runs a schedule up to the event that settles the promise: the pool at that
    point and the picks not yet run. *)
Fixpoint run_until_settled (sched : list nat) (p : Pool) : Pool * list nat :=
  match promise p, sched with
  | Pending, i :: rest => run_until_settled rest (default p (step i p))
  | _, _ => (p, sched)
  end.

(** [await] of the promise: nothing while it is pending. *)
Definition await (p : Pool) : option (Exn (list A)) :=
  match promise p with
  | Pending => None
  | Fulfilled vs => Some (Return vs)
  | Rejected e => Some (Throw e)
  end.

(** The events a slot still has. *)
Definition slot_work (s : Slot) : nat :=
  match s with
  | Running t => S (length (pending t))
  | Settled _ => 0
  end.

(** The events a pool still has. *)
Definition work (p : Pool) : nat := sum_list (slot_work <$> slots p).

(** The schedule that runs the calls one after the other, in index order. *)
Fixpoint sequential_from (i : nat) (ts : list Task) : list nat :=
  match ts with
  | [] => []
  | t :: rest => replicate (S (length (pending t))) i ++ sequential_from (S i) rest
  end.

Definition sequential_schedule (ts : list Task) : list nat := sequential_from 0 ts.

(** The lines of call [i] on the console, in the order printed. *)
Definition printed_by (i : nat) (out : list (nat * string)) : list string :=
  omap (fun e => if decide (e.1 = i) then Some e.2 else None) out.

(** ** Invariant *)

(** Slot [i] agrees with the call it was started from and with the
    console: a running call settles the same way and has printed, in order,
    the lines it no longer has to print; a settled call holds the call's
    result and has printed all its lines. *)
Definition slot_of (out : list (nat * string)) (i : nat) (t : Task) (s : Slot) : Prop :=
  match s with
  | Running t' =>
      settles t' = settles t /\ printed_by i out ++ pending t' = pending t
  | Settled r => r = settles t /\ printed_by i out = pending t
  end.

(** The promise agrees with the slots. *)
Definition join_ok (ss : list Slot) (j : Join) : Prop :=
  match j with
  | Pending => all_values ss = None /\ forall e, Settled (Throw e) ∉ ss
  | Fulfilled vs => all_values ss = Some vs
  | Rejected e => Settled (Throw e) ∈ ss
  end.

(** The invariant of a pool started from the calls [ts]. *)
Definition pool_inv (ts : list Task) (p : Pool) : Prop :=
  length (slots p) = length ts
  /\ (forall i t s, ts !! i = Some t -> slots p !! i = Some s ->
        slot_of (console p) i t s)
  /\ join_ok (slots p) (promise p).

(** A pool that a run from [start ts] can be in. *)
Definition reachable (ts : list Task) (p : Pool) : Prop :=
  rtc pool_step (start ts) p.

(** What [Promise.all] promises of the calls [ts]: fulfilment with the
    values in index order when every call fulfils, rejection with the
    reason of one of the calls that reject. *)
Definition all_spec (ts : list Task) (r : Exn (list A)) : Prop :=
  match r with
  | Return vs => Forall2 (fun t v => settles t = Return v) ts vs
  | Throw e => exists t, t ∈ ts /\ settles t = Throw e
  end.

End FanOut.

Arguments Task A : clear implicits.
Arguments Slot A : clear implicits.
Arguments Join A : clear implicits.
Arguments Pool A : clear implicits.

Section FanOutFacts.
Context {A : Type}.
Implicit Types (t : Task A) (s : Slot A) (p : Pool A) (ts : list (Task A)).
Implicit Types (ss : list (Slot A)) (out : list (nat * string)).

(** ** The console *)

Lemma printed_by_app i out1 out2 :
  printed_by i (out1 ++ out2) = printed_by i out1 ++ printed_by i out2.
Proof. apply omap_app. Qed.

Lemma printed_by_snoc_eq i out line :
  printed_by i (out ++ [(i, line)]) = printed_by i out ++ [line].
Proof.
  rewrite printed_by_app. f_equal. unfold printed_by. simpl.
  by rewrite decide_True.
Qed.

Lemma printed_by_snoc_ne i j out line :
  i <> j -> printed_by j (out ++ [(i, line)]) = printed_by j out.
Proof.
  intros Hne. rewrite printed_by_app. unfold printed_by at 2. simpl.
  rewrite decide_False by done. apply app_nil_r.
Qed.

(** ** The values of the slots *)

Lemma all_values_running ss i t :
  ss !! i = Some (Running t) -> all_values ss = None.
Proof.
  intros Hi. apply mapM_None_2, Exists_exists.
  exists (Running t). split; [|done]. eapply list_elem_of_lookup_2, Hi.
Qed.

Lemma all_values_lookup ss vs i s :
  all_values ss = Some vs -> ss !! i = Some s ->
  exists v, s = Settled (Return v) /\ vs !! i = Some v.
Proof.
  intros Hall%mapM_Some_1 Hi.
  destruct (Forall2_lookup_l _ _ _ _ _ Hall Hi) as (v & Hv & Hs).
  exists v. split; [|done]. by destruct s as [|[]]; simplify_eq/=.
Qed.

(** Slots with no value for all and no rejected call have a running call. *)
Lemma all_values_None_running ss :
  all_values ss = None -> (forall e, Settled (Throw e) ∉ ss) ->
  exists i t, ss !! i = Some (Running t).
Proof.
  intros (s & Hs & Hv)%mapM_None_1%Exists_exists Hno.
  apply list_elem_of_lookup_1 in Hs as [i Hi].
  destruct s as [t|[v|e]]; [by eauto|done|].
  destruct (Hno e). eapply list_elem_of_lookup_2, Hi.
Qed.

(** ** One step *)

(** The two kinds of step. *)
Lemma step_inv i p p' :
  step i p = Some p' ->
  exists t, slots p !! i = Some (Running t) /\
    ((exists line rest, pending t = line :: rest /\
        p' = {| slots := <[i := Running {| pending := rest; settles := settles t |}]> (slots p);
                console := console p ++ [(i, line)];
                promise := promise p |})
     \/ (pending t = [] /\
         p' = {| slots := <[i := Settled (settles t)]> (slots p);
                 console := console p;
                 promise := on_settle (settles t) (<[i := Settled (settles t)]> (slots p)) (promise p) |})).
Proof.
  unfold step. destruct (slots p !! i) as [[t|]|] eqn:Hi; [|done..].
  destruct (pending t) as [|line rest] eqn:Hp; intros [= <-]; exists t;
    (split; [done|]); [right | left]; eauto.
Qed.

Lemma step_length i p p' :
  step i p = Some p' -> length (slots p') = length (slots p).
Proof.
  intros (t & _ & [(l & r & _ & ->) | [_ ->]])%step_inv; simpl;
    apply length_insert.
Qed.

(** A step is enabled exactly at the index of a running call. *)
Lemma step_is_Some i p :
  is_Some (step i p) <-> exists t, slots p !! i = Some (Running t).
Proof.
  split.
  - intros [p' (t & Hi & _)%step_inv]. eauto.
  - intros [t Hi]. unfold step. rewrite Hi. destruct (pending t); eauto.
Qed.

(** A settled promise is not changed by a step. *)
Lemma step_join_settled i p p' :
  step i p = Some p' -> promise p <> Pending -> promise p' = promise p.
Proof.
  intros (t & _ & [(l & r & _ & ->) | [_ ->]])%step_inv Hj; simpl; [done|].
  by destruct (promise p).
Qed.

Lemma sum_list_insert (l : list nat) i x y :
  l !! i = Some x -> sum_list (<[i := y]> l) + x = sum_list l + y.
Proof.
  revert i. induction l as [|z l IH]; intros [|i] Hi; simplify_eq/=; [lia|].
  specialize (IH _ Hi). lia.
Qed.

(** Every step consumes one event. *)
Lemma step_work i p p' : step i p = Some p' -> S (work p') = work p.
Proof.
  intros (t & Hi & Hcase)%step_inv. unfold work.
  assert ((slot_work <$> slots p) !! i = Some (slot_work (Running t))) as Hw
    by (by rewrite list_lookup_fmap, Hi).
  destruct Hcase as [(l & r & Hp & ->) | [Hp ->]]; simpl;
    rewrite list_fmap_insert;
    match goal with
    | |- context [<[i := ?y]> _] => pose proof (sum_list_insert _ i _ y Hw) as E
    end; simpl in E; rewrite Hp in E; simpl in *; lia.
Qed.

End FanOutFacts.

Section FanOutInvariant.
Context {A : Type}.
Implicit Types (t : Task A) (s : Slot A) (p : Pool A) (ts : list (Task A)).
Implicit Types (ss : list (Slot A)) (out : list (nat * string)) (j : Join A).

(** ** Replacing a running slot *)

Lemma elem_of_insert_running ss i t s' (r : Exn A) :
  ss !! i = Some (Running t) -> Settled r ∈ ss -> Settled r ∈ <[i := s']> ss.
Proof.
  intros Hi [k Hk]%list_elem_of_lookup_1. apply list_elem_of_lookup_2 with k.
  rewrite list_lookup_insert_ne; [done|]. intros ->. congruence.
Qed.

Lemma elem_of_insert_inv ss i s' s :
  s ∈ <[i := s']> ss -> s = s' \/ s ∈ ss.
Proof.
  intros [k Hk]%list_elem_of_lookup_1.
  apply list_lookup_insert_Some in Hk as [(_ & -> & _) | (_ & Hk)]; [by left|].
  right. eapply list_elem_of_lookup_2, Hk.
Qed.

(** ** The invariant holds at the start and is kept by every step *)

Lemma pool_inv_start ts : pool_inv ts (start ts).
Proof.
  split_and!; simpl.
  - apply length_fmap.
  - intros i t s Ht Hs. rewrite list_lookup_fmap, Ht in Hs. by simplify_eq/=.
  - destruct ts as [|t ts]; [done|]. split.
    + by apply (all_values_running _ 0 t).
    + by intros e (t' & ? & _)%list_elem_of_fmap.
Qed.

Lemma slot_of_print ts ss out i t0 line rest :
  (forall k t s, ts !! k = Some t -> ss !! k = Some s -> slot_of out k t s) ->
  ss !! i = Some (Running t0) -> pending t0 = line :: rest ->
  forall k t s, ts !! k = Some t ->
    <[i := Running {| pending := rest; settles := settles t0 |}]> ss !! k = Some s ->
    slot_of (out ++ [(i, line)]) k t s.
Proof.
  intros H Hi Hp k t s Ht Hs.
  apply list_lookup_insert_Some in Hs as [(-> & <- & _) | (Hne & Hs)].
  - destruct (H _ _ _ Ht Hi) as [Hset Hpr]. simpl. split; [done|].
    by rewrite printed_by_snoc_eq, <- app_assoc, <- Hpr, Hp.
  - specialize (H _ _ _ Ht Hs).
    destruct s; simpl in *; by rewrite printed_by_snoc_ne.
Qed.

Lemma slot_of_settle ts ss out i t0 :
  (forall k t s, ts !! k = Some t -> ss !! k = Some s -> slot_of out k t s) ->
  ss !! i = Some (Running t0) -> pending t0 = [] ->
  forall k t s, ts !! k = Some t ->
    <[i := Settled (settles t0)]> ss !! k = Some s -> slot_of out k t s.
Proof.
  intros H Hi Hp k t s Ht Hs.
  apply list_lookup_insert_Some in Hs as [(-> & <- & _) | (Hne & Hs)]; [|eauto].
  destruct (H _ _ _ Ht Hi) as [Hset Hpr]. simpl.
  by rewrite <- Hpr, Hp, app_nil_r.
Qed.

Lemma join_ok_print ss i t0 t' j :
  join_ok ss j -> ss !! i = Some (Running t0) ->
  join_ok (<[i := Running t']> ss) j.
Proof.
  intros Hj Hi. pose proof (lookup_lt_Some _ _ _ Hi) as Hlt.
  destruct j as [|vs|e]; simpl in *.
  - destruct Hj as [_ Hno]. split.
    + apply (all_values_running _ i t'). by apply list_lookup_insert_eq.
    + intros e [?|?]%elem_of_insert_inv; [done|]. by eapply Hno.
  - by rewrite (all_values_running _ _ _ Hi) in Hj.
  - by eapply elem_of_insert_running.
Qed.

Lemma join_ok_settle ss i t0 (r : Exn A) j :
  join_ok ss j -> ss !! i = Some (Running t0) ->
  join_ok (<[i := Settled r]> ss) (on_settle r (<[i := Settled r]> ss) j).
Proof.
  intros Hj Hi. pose proof (lookup_lt_Some _ _ _ Hi) as Hlt.
  destruct j as [|vs|e]; simpl in *.
  - destruct Hj as [_ Hno]. destruct r as [v|e]; simpl.
    + destruct (all_values (<[i:=Settled (Return v)]> ss)) eqn:E; simpl; [done|].
      split; [done|].
      intros e [?|?]%elem_of_insert_inv; [done|]. by eapply Hno.
    + by apply list_elem_of_insert.
  - by rewrite (all_values_running _ _ _ Hi) in Hj.
  - by eapply elem_of_insert_running.
Qed.

Lemma pool_inv_step ts i p p' :
  pool_inv ts p -> step i p = Some p' -> pool_inv ts p'.
Proof.
  intros (Hlen & Hslots & Hjoin) Hstep.
  destruct (step_inv _ _ _ Hstep) as (t0 & Hi & Hcase).
  split_and!; [by rewrite (step_length _ _ _ Hstep)|..];
    destruct Hcase as [(line & rest & Hp & ->) | [Hp ->]]; simpl.
  - by eapply slot_of_print.
  - by eapply slot_of_settle.
  - by eapply join_ok_print.
  - by eapply join_ok_settle.
Qed.

(** Every reachable pool satisfies the invariant. *)
Lemma pool_inv_reachable ts p : reachable ts p -> pool_inv ts p.
Proof.
  unfold reachable. intros H.
  apply (rtc_ind_r (R := pool_step) (pool_inv ts) (start ts));
    [apply pool_inv_start | | exact H].
  intros p1 p2 _ [i ? ? Hstep] IH. by eapply pool_inv_step.
Qed.

Lemma reachable_start ts : reachable ts (start ts).
Proof. apply rtc_refl. Qed.

Lemma reachable_step ts i p p' :
  reachable ts p -> step i p = Some p' -> reachable ts p'.
Proof. intros Hp Hstep. eapply rtc_r; [exact Hp | by econstructor]. Qed.

(** Running a schedule only takes steps. *)
Lemma run_rtc sched p : rtc pool_step p (run sched p).
Proof.
  revert p. induction sched as [|i sched IH]; intros p; simpl; [done|].
  destruct (step i p) as [p'|] eqn:E; simpl; [|done].
  eapply rtc_l; [by econstructor | apply IH].
Qed.

Lemma reachable_run ts sched p : reachable ts p -> reachable ts (run sched p).
Proof. intros Hp. eapply rtc_trans; [exact Hp | apply run_rtc]. Qed.

Lemma run_app sched1 sched2 p :
  run (sched1 ++ sched2) p = run sched2 (run sched1 p).
Proof. revert p. induction sched1 as [|i s IH]; intros p; simpl; [done | apply IH]. Qed.

End FanOutInvariant.

Section FanOutTheorems.
Context {A : Type}.
Implicit Types (t : Task A) (s : Slot A) (p : Pool A) (ts : list (Task A)).
Implicit Types (ss : list (Slot A)) (out : list (nat * string)) (j : Join A).

(** ** The value of the promise *)

(** When [Promise.all] fulfils, whatever the order in which the calls
    made progress, its values are the results of the calls in the order of
    the calls, and every call has fulfilled. *)
Lemma fulfilled_in_index_order ts p vs :
  reachable ts p -> promise p = Fulfilled vs ->
  Forall2 (fun t v => settles t = Return v) ts vs.
Proof.
  intros (Hlen & Hslots & Hjoin)%pool_inv_reachable Hj.
  rewrite Hj in Hjoin. simpl in Hjoin.
  apply Forall2_same_length_lookup_2.
  - rewrite <- Hlen. exact (length_mapM _ _ _ Hjoin).
  - intros i t v Ht Hv.
    destruct (lookup_lt_is_Some_2 (slots p) i) as [s Hs];
      [rewrite Hlen; by eapply lookup_lt_Some|].
    destruct (all_values_lookup _ _ _ _ Hjoin Hs) as (v' & -> & Hv').
    destruct (Hslots _ _ _ Ht Hs) as [<- _]. congruence.
Qed.

(** When [Promise.all] rejects, its reason is the reason of a call
    that has rejected. *)
Lemma rejected_by_a_call ts p e :
  reachable ts p -> promise p = Rejected e ->
  exists i t, ts !! i = Some t /\ settles t = Throw e
              /\ slots p !! i = Some (Settled (Throw e)).
Proof.
  intros (Hlen & Hslots & Hjoin)%pool_inv_reachable Hj.
  rewrite Hj in Hjoin. apply list_elem_of_lookup_1 in Hjoin as [i Hi].
  destruct (lookup_lt_is_Some_2 ts i) as [t Ht];
    [rewrite <- Hlen; by eapply lookup_lt_Some|].
  destruct (Hslots _ _ _ Ht Hi) as [Hr _]. eauto.
Qed.

(** All or nothing: if one call rejects, [Promise.all] never
    fulfils, whatever the schedule and however many calls have fulfilled. *)
Lemma all_or_nothing ts p t e vs :
  t ∈ ts -> settles t = Throw e -> reachable ts p -> promise p <> Fulfilled vs.
Proof.
  intros [i Hi]%list_elem_of_lookup_1 Ht Hp Hj.
  pose proof (fulfilled_in_index_order _ _ _ Hp Hj) as Hall.
  destruct (Forall2_lookup_l _ _ _ _ _ Hall Hi) as (v & _ & Hv). congruence.
Qed.

(** What the handler gets from [await Promise.all(...)] is allowed by
    the specification [all_spec], on every schedule. *)
Lemma await_refines_all_spec ts p r :
  reachable ts p -> await p = Some r -> all_spec ts r.
Proof.
  intros Hp Hr. unfold await in Hr.
  destruct (promise p) as [|vs|e] eqn:Hj; simplify_eq/=.
  - by eapply fulfilled_in_index_order.
  - destruct (rejected_by_a_call _ _ _ Hp Hj) as (i & t & Hi & Ht & _).
    exists t. split; [by eapply list_elem_of_lookup_2 | done].
Qed.

(** A fulfilled [Promise.all] has the value of running the calls one
    after the other in index order. *)
Lemma fulfilled_is_sequential ts p vs :
  reachable ts p -> await p = Some (Return vs) ->
  sequenceE (settles <$> ts) = Return vs.
Proof.
  intros Hp Hr. apply sequenceE_Forall2.
  exact (await_refines_all_spec _ _ _ Hp Hr).
Qed.

(** A rejected [Promise.all] means that running the calls one after
    the other fails too (with the reason of the first failing call in index
    order, which may be another one). *)
Lemma rejected_is_sequential_failure ts p e :
  reachable ts p -> await p = Some (Throw e) ->
  exists e', sequenceE (settles <$> ts) = Throw e'.
Proof.
  intros Hp Hr. destruct (await_refines_all_spec _ _ _ Hp Hr) as (t & Hin & Ht).
  by eapply sequenceE_elem_Throw.
Qed.

(** When no call rejects, the value awaited does not depend on the
    schedule. *)
Lemma success_schedule_independent ts sched1 sched2 r1 r2 :
  Forall (fun t => exists v, settles t = Return v) ts ->
  await (run sched1 (start ts)) = Some r1 ->
  await (run sched2 (start ts)) = Some r2 ->
  r1 = r2.
Proof.
  intros Hok H1 H2.
  assert (forall sched r, await (run sched (start ts)) = Some r ->
            r = sequenceE (settles <$> ts)) as Hseq.
  { intros sched r Hr.
    pose proof (reachable_run ts sched _ (reachable_start ts)) as Hreach.
    destruct r as [vs|e]; [symmetry; by eapply fulfilled_is_sequential|].
    destruct (await_refines_all_spec _ _ _ Hreach Hr) as (t & Hin & Ht).
    rewrite Forall_forall in Hok. destruct (Hok t Hin) as [v Hv]. congruence. }
  by rewrite (Hseq _ _ H1), (Hseq _ _ H2).
Qed.

(** ** Progress *)

(** While [Promise.all] is pending, some call has an event left: the
    handler never waits on calls that have all settled. *)
Lemma pending_can_step ts p :
  reachable ts p -> promise p = Pending -> red pool_step p.
Proof.
  intros (_ & _ & Hjoin)%pool_inv_reachable Hj. rewrite Hj in Hjoin.
  destruct Hjoin as [Hnone Hno].
  destruct (all_values_None_running _ Hnone Hno) as (i & t & Hi).
  destruct (proj2 (step_is_Some i p)) as [p' Hp']; [eauto|].
  exists p'. by econstructor.
Qed.

(** When no call has an event left, [Promise.all] has settled. *)
Lemma quiescent_join_settled ts p :
  reachable ts p -> nf pool_step p -> promise p <> Pending.
Proof. intros Hp Hnf Hj. by apply Hnf, (pending_can_step ts). Qed.

(** Every run takes as many steps as it consumes events, so no run
    from [p] is longer than [work p]. *)
Lemma steps_bounded n p p' :
  nsteps pool_step n p p' -> n + work p' = work p.
Proof.
  induction 1 as [|n p1 p2 p3 [i ? ? Hstep] _ IH]; [done|].
  apply step_work in Hstep. by rewrite <- Hstep, <- IH.
Qed.

(** Once [Promise.all] has settled, later events of the calls do not
    change it. *)
Lemma join_settled_stable p p' :
  rtc pool_step p p' -> promise p <> Pending -> promise p' = promise p.
Proof.
  induction 1 as [|p1 p2 p3 [i ? ? Hstep] _ IH]; intros Hj; [done|].
  pose proof (step_join_settled _ _ _ Hstep Hj) as E.
  rewrite IH; [done | by rewrite E].
Qed.

(** ** The console *)

(** The lines a call has printed are a prefix of its lines, in its
    own order, however the calls interleave. *)
Lemma console_in_call_order ts p i t :
  reachable ts p -> ts !! i = Some t ->
  printed_by i (console p) `prefix_of` pending t.
Proof.
  intros (Hlen & Hslots & _)%pool_inv_reachable Ht.
  destruct (lookup_lt_is_Some_2 (slots p) i) as [s Hs];
    [rewrite Hlen; by eapply lookup_lt_Some|].
  specialize (Hslots _ _ _ Ht Hs).
  destruct s as [t'|r]; simpl in Hslots; destruct Hslots as [_ Hpr].
  - exists (pending t'). by rewrite Hpr.
  - by rewrite Hpr.
Qed.

(** When [Promise.all] fulfils, every call has printed all its
    lines. *)
Lemma fulfilled_console_complete ts p vs i t :
  reachable ts p -> promise p = Fulfilled vs -> ts !! i = Some t ->
  printed_by i (console p) = pending t.
Proof.
  intros Hp Hj Ht. destruct (pool_inv_reachable _ _ Hp) as (Hlen & Hslots & Hjoin).
  rewrite Hj in Hjoin. simpl in Hjoin.
  destruct (lookup_lt_is_Some_2 (slots p) i) as [s Hs];
    [rewrite Hlen; by eapply lookup_lt_Some|].
  destruct (all_values_lookup _ _ _ _ Hjoin Hs) as (v & -> & _).
  by destruct (Hslots _ _ _ Ht Hs).
Qed.

End FanOutTheorems.

Section FanOutAwait.
Context {A : Type}.
Implicit Types (t : Task A) (p : Pool A) (ts : list (Task A)).

(** ** Running up to the event that settles the promise *)

(** The picks run and the picks left make up the schedule. *)
Lemma run_until_settled_split sched p :
  exists ran, sched = ran ++ (run_until_settled sched p).2
              /\ (run_until_settled sched p).1 = run ran p.
Proof.
  revert p. induction sched as [|i sched IH]; intros p.
  - exists []. simpl. by destruct (promise p); split.
  - simpl. destruct (promise p) eqn:Hj; [|by exists []; split..].
    destruct (IH (default p (step i p))) as (ran & Hsched & Hrun).
    exists (i :: ran). simpl. split; [by f_equal | done].
Qed.

Lemma run_until_settled_rtc sched p :
  rtc pool_step p (run_until_settled sched p).1.
Proof.
  destruct (run_until_settled_split sched p) as (ran & _ & ->). apply run_rtc.
Qed.

Lemma reachable_run_until_settled ts sched :
  reachable ts (run_until_settled sched (start ts)).1.
Proof. apply run_until_settled_rtc. Qed.

(** While the promise is pending the whole schedule has been run. *)
Lemma run_until_settled_pending sched p :
  promise (run_until_settled sched p).1 = Pending ->
  (run_until_settled sched p).2 = [] /\ (run_until_settled sched p).1 = run sched p.
Proof.
  revert p. induction sched as [|i sched IH]; intros p; simpl.
  - by destruct (promise p); split.
  - destruct (promise p) eqn:Hj; simpl; [apply IH | congruence..].
Qed.

(** The handler awaits what the whole schedule leads to, if that is
    settled. *)
Lemma run_until_settled_promise sched p :
  promise (run sched p) <> Pending ->
  promise (run_until_settled sched p).1 = promise (run sched p).
Proof.
  intros Hset.
  destruct (run_until_settled_split sched p) as (ran & Hs & Hr).
  assert (run sched p =
          run (run_until_settled sched p).2 (run_until_settled sched p).1) as E
    by (rewrite Hr, <- run_app; by rewrite <- Hs).
  destruct (promise (run_until_settled sched p).1) eqn:Hj.
  - destruct (run_until_settled_pending _ _ Hj) as [_ E']. by rewrite <- E', Hj.
  - rewrite E. symmetry. rewrite <- Hj.
    apply join_settled_stable; [apply run_rtc | congruence].
  - rewrite E. symmetry. rewrite <- Hj.
    apply join_settled_stable; [apply run_rtc | congruence].
Qed.

(** What the whole schedule settles the promise with is what the handler
    awaits. *)
Lemma await_run_until_settled sched p (r : Exn (list A)) :
  await (run sched p) = Some r -> await (run_until_settled sched p).1 = Some r.
Proof.
  unfold await at 1 2. intros Haw.
  rewrite run_until_settled_promise; [done|].
  by destruct (promise (run sched p)).
Qed.

(** The console only grows. *)
Lemma console_run_prefix sched p : console p `prefix_of` console (run sched p).
Proof.
  revert p. induction sched as [|i sched IH]; intros p; simpl; [done|].
  etrans; [|apply IH].
  destruct (step i p) as [p'|] eqn:Hs; simpl; [|done].
  apply step_inv in Hs as (t & _ & [(line & rest & _ & ->)|(_ & ->)]); simpl;
    [by apply prefix_app_r | done].
Qed.

(** Later picks: while the promise is pending they are run, once it is
    settled they are left. *)
Lemma run_until_settled_app sched more p :
  run_until_settled (sched ++ more) p
  = match promise (run_until_settled sched p).1 with
    | Pending => run_until_settled more (run sched p)
    | _ => ((run_until_settled sched p).1, (run_until_settled sched p).2 ++ more)
    end.
Proof.
  revert p. induction sched as [|i sched IH]; intros p; simpl.
  - destruct (promise p) eqn:Hj; simpl; rewrite ?Hj;
      [done|destruct more; simpl; by rewrite Hj..].
  - destruct (promise p) eqn:Hj; simpl; [apply IH | by rewrite Hj..].
Qed.

Lemma await_Some_promise p (r : Exn (list A)) :
  await p = Some r <->
  match r with
  | Return vs => promise p = Fulfilled vs
  | Throw e => promise p = Rejected e
  end.
Proof. unfold await. destruct (promise p), r; split; congruence. Qed.

Lemma await_None_promise p : await p = None <-> promise p = Pending.
Proof. unfold await. by destruct (promise p). Qed.

End FanOutAwait.

Section FanOutSequential.
Context {A : Type}.
Implicit Types (t : Task A) (p : Pool A) (ts : list (Task A)).
Implicit Types (ss : list (Slot A)).

(** ** The sequential schedule *)

(** The slot of a call that has settled. *)
Definition settled_slot t : Slot A := Settled (settles t).

(** Picking a running call once for each of its lines and once more
    prints its lines, settles it and tells the promise; no other slot is
    touched. *)
Lemma run_task_pool n i t p :
  slots p !! i = Some (Running t) -> length (pending t) = n ->
  run (replicate (S n) i) p
  = {| slots := <[i := settled_slot t]> (slots p);
       console := console p ++ ((fun line => (i, line)) <$> pending t);
       promise := on_settle (settles t) (<[i := settled_slot t]> (slots p))
                    (promise p) |}.
Proof.
  revert t p. induction n as [|n IH]; intros [lines r] p Hi Hn; simpl in Hn.
  - destruct lines; [|done]. simpl. unfold step. rewrite Hi. simpl.
    by rewrite app_nil_r.
  - destruct lines as [|line rest]; [done|].
    change (run (replicate (S (S n)) i) p)
      with (run (replicate (S n) i) (default p (step i p))).
    unfold step. rewrite Hi. cbn [pending default settles].
    rewrite (IH {| pending := rest; settles := r |}); simpl.
    + by rewrite list_insert_insert_eq, <- app_assoc.
    + apply list_lookup_insert_eq. by eapply lookup_lt_Some.
    + simpl in Hn. lia.
Qed.

Lemma run_task n i t p :
  slots p !! i = Some (Running t) -> length (pending t) = n ->
  slots (run (replicate (S n) i) p) = <[i := settled_slot t]> (slots p).
Proof. intros Hi Hn. by rewrite (run_task_pool n i t). Qed.

Lemma run_task_promise n i t p :
  slots p !! i = Some (Running t) -> length (pending t) = n ->
  promise (run (replicate (S n) i) p)
  = on_settle (settles t) (<[i := settled_slot t]> (slots p)) (promise p).
Proof. intros Hi Hn. by rewrite (run_task_pool n i t). Qed.

(** Running the calls one after the other from index [length pre] on
    settles each of them and leaves the slots before them alone. *)
Lemma run_sequential_from ts pre p :
  slots p = pre ++ (Running <$> ts) ->
  slots (run (sequential_from (length pre) ts) p) = pre ++ (settled_slot <$> ts).
Proof.
  revert pre p. induction ts as [|t ts IH]; intros pre p Hs; [done|].
  rewrite fmap_cons in Hs. cbn [sequential_from]. rewrite run_app.
  replace (S (length pre)) with (length (pre ++ [settled_slot t]))
    by (rewrite length_app; simpl; lia).
  rewrite IH; [by rewrite <- app_assoc|].
  rewrite (run_task _ _ t), Hs, <- app_assoc; [|by rewrite Hs, list_lookup_middle|done].
  replace (length pre) with (length pre + 0) at 1 by lia.
  by rewrite insert_app_r.
Qed.

Lemma work_settled ts pc j :
  work {| slots := settled_slot <$> ts; console := pc; promise := j |} = 0.
Proof. unfold work. simpl. by induction ts as [|t ts IH]. Qed.

Lemma run_sequential ts :
  slots (run (sequential_schedule ts) (start ts)) = settled_slot <$> ts.
Proof. apply (run_sequential_from ts [] (start ts)). reflexivity. Qed.

Lemma work_run_sequential ts :
  work (run (sequential_schedule ts) (start ts)) = 0.
Proof.
  unfold work. rewrite run_sequential. apply (work_settled ts [] Pending).
Qed.

End FanOutSequential.

(** ** Example calls, for the witnesses *)

Definition calls_ok : list (Task nat) :=
  [ {| pending := ["a1"; "a2"]; settles := Return 1 |};
    {| pending := ["b1"]; settles := Return 2 |} ].

Definition calls_bad : list (Task nat) :=
  [ {| pending := ["a1"]; settles := Return 1 |};
    {| pending := []; settles := Throw (new_Error "second") |};
    {| pending := ["c1"]; settles := Throw (new_Error "third") |} ].

Section FanOutSchedules.
Context {A : Type}.
Implicit Types (t : Task A) (p : Pool A) (ts : list (Task A)) (sched : list nat).

(** A pool with no event left takes no step. *)
Lemma work_0_nf p : work p = 0 -> nf pool_step p.
Proof.
  intros Hw [p' Hstep]. inversion Hstep as [i ? ? Hs]; subst.
  apply step_work in Hs. lia.
Qed.

(** A reachable pool with no event left: the promise has settled, with a
    result the specification allows. *)
Lemma quiescent_await ts p :
  reachable ts p -> work p = 0 -> exists r, await p = Some r /\ all_spec ts r.
Proof.
  intros Hr Hw.
  pose proof (quiescent_join_settled ts _ Hr (work_0_nf _ Hw)) as Hset.
  destruct (await p) as [r|] eqn:Haw.
  - exists r. split; [done|]. by apply (await_refines_all_spec ts _ r Hr).
  - by apply await_None_promise in Haw.
Qed.

(** C10: on every schedule, when [Promise.all] fulfils its values are the
    results of the calls in the order of the calls (not in the order in
    which the calls completed), and every call has fulfilled. *)
Theorem promise_all_index_order sched ts vs :
  promise (run sched (start ts)) = Fulfilled vs ->
  Forall2 (fun t v => settles t = Return v) ts vs.
Proof. apply fulfilled_in_index_order, reachable_run, reachable_start. Qed.

(** On every schedule, when [Promise.all] rejects, its reason is the
    reason of one of the calls, and that call has settled. *)
Theorem promise_all_rejection_reason sched ts e :
  promise (run sched (start ts)) = Rejected e ->
  exists i t, ts !! i = Some t /\ settles t = Throw e
              /\ slots (run sched (start ts)) !! i = Some (Settled (Throw e)).
Proof. apply rejected_by_a_call, reachable_run, reachable_start. Qed.

(** C11: all or nothing: when one call rejects, no schedule makes
    [Promise.all] fulfil, however many of the other calls have fulfilled. *)
Theorem promise_all_all_or_nothing sched ts i t e vs :
  ts !! i = Some t -> settles t = Throw e ->
  promise (run sched (start ts)) <> Fulfilled vs.
Proof.
  intros Hi Ht. eapply all_or_nothing; [by eapply list_elem_of_lookup_2 | done|].
  apply reachable_run, reachable_start.
Qed.

(** What [await Promise.all(...)] gives on any schedule is allowed by
    the specification [all_spec]: the values in index order, or the reason
    of a call that rejects. *)
Theorem promise_all_refines_spec sched ts r :
  await (run sched (start ts)) = Some r -> all_spec ts r.
Proof. apply await_refines_all_spec, reachable_run, reachable_start. Qed.

(** When no call rejects, the awaited value is the same on every
    schedule that settles the promise. *)
Theorem promise_all_schedule_independent ts sched1 sched2 r1 r2 :
  Forall (fun t => exists v, settles t = Return v) ts ->
  await (run sched1 (start ts)) = Some r1 ->
  await (run sched2 (start ts)) = Some r2 ->
  r1 = r2.
Proof. apply success_schedule_independent. Qed.

(** When the calls have no event left, [Promise.all] has settled: the
    handler cannot be left waiting by calls that are all over. *)
Theorem promise_all_settles sched ts :
  work (run sched (start ts)) = 0 -> promise (run sched (start ts)) <> Pending.
Proof.
  intros Hw. eapply quiescent_join_settled; [|by apply work_0_nf].
  apply reachable_run, reachable_start.
Qed.

(** Once [Promise.all] has settled, the events that follow do not
    change its value. *)
Theorem promise_all_settled_for_good sched1 sched2 ts :
  promise (run sched1 (start ts)) <> Pending ->
  promise (run (sched1 ++ sched2) (start ts)) = promise (run sched1 (start ts)).
Proof.
  intros Hset. rewrite run_app. apply join_settled_stable; [apply run_rtc | done].
Qed.

(** The picks of a schedule that take a step. *)
Fixpoint effective (sched : list nat) (p : Pool A) : nat :=
  match sched with
  | [] => 0
  | i :: rest =>
      match step i p with
      | Some p' => S (effective rest p')
      | None => effective rest p
      end
  end.

(** Every pick that takes a step consumes one event of a call, so a
    schedule takes at most as many steps as the calls have events
    (progress lines and settlements) at the start. *)
Theorem run_consumes_work sched p :
  effective sched p + work (run sched p) = work p.
Proof.
  revert p. induction sched as [|i sched IH]; intros p; simpl; [done|].
  destruct (step i p) as [p'|] eqn:Hs; simpl; [|apply IH].
  apply step_work in Hs. specialize (IH p'). lia.
Qed.

(** On every schedule, the console lines of one call appear in the
    order the call printed them, whatever lines of other calls come in
    between. *)
Theorem console_order_per_call sched ts i t :
  ts !! i = Some t ->
  printed_by i (console (run sched (start ts))) `prefix_of` pending t.
Proof. apply console_in_call_order, reachable_run, reachable_start. Qed.

(** When [Promise.all] has fulfilled, every progress line of every
    call is on the console. *)
Theorem console_complete_on_success sched ts vs i t :
  promise (run sched (start ts)) = Fulfilled vs -> ts !! i = Some t ->
  printed_by i (console (run sched (start ts))) = pending t.
Proof.
  apply fulfilled_console_complete, reachable_run, reachable_start.
Qed.

(** The schedule that runs the calls one after the other lets every
    call settle: no event is left, and [Promise.all] has settled with a
    result its specification allows.  The promise can always settle. *)
Theorem sequential_schedule_settles ts :
  let p := run (sequential_schedule ts) (start ts) in
  slots p = settled_slot <$> ts /\ work p = 0
  /\ exists r, await p = Some r /\ all_spec ts r.
Proof.
  intros p. subst p. split_and!.
  - apply run_sequential.
  - apply work_run_sequential.
  - apply quiescent_await; [apply reachable_run, reachable_start|].
    apply work_run_sequential.
Qed.

(** ** Every result the specification allows has a schedule *)

(** The call that is run first, alone, up to its rejection decides the
    promise. *)
Lemma first_rejection ts i t e :
  ts !! i = Some t -> settles t = Throw e ->
  await (run (replicate (S (length (pending t))) i) (start ts)) = Some (Throw e).
Proof.
  intros Hi He. apply await_Some_promise.
  rewrite (run_task_promise _ _ t); [|by simpl; rewrite list_lookup_fmap, Hi|done].
  rewrite He. by destruct ts.
Qed.

(** When every call fulfils, running them one after the other fulfils
    the promise with their values. *)
Lemma sequential_fulfils ts vs :
  Forall2 (fun t v => settles t = Return v) ts vs ->
  await (run (sequential_schedule ts) (start ts)) = Some (Return vs).
Proof.
  intros Hall.
  destruct (quiescent_await ts (run (sequential_schedule ts) (start ts)))
    as ([vs'|e] & -> & Hspec);
    [apply reachable_run, reachable_start | apply work_run_sequential | |].
  - do 2 f_equal. revert vs' Hspec.
    induction Hall as [|t v ts vs Ht _ IH]; intros vs' Hspec;
      inversion Hspec; subst; [done|]. f_equal; [congruence | by apply IH].
  - destruct Hspec as (t & [i Hi]%list_elem_of_lookup_1 & Ht).
    destruct (Forall2_lookup_l _ _ _ _ _ Hall Hi) as (v & _ & Hv). congruence.
Qed.

(** C26: the specification of [Promise.all] is exact: a result is allowed by
    [all_spec] (the values of the calls in index order when all fulfil,
    the reason of any call that rejects) if and only if some schedule of
    the events makes the awaited promise settle with it. *)
Theorem promise_all_exactly_spec ts r :
  all_spec ts r <-> exists sched, await (run sched (start ts)) = Some r.
Proof.
  split.
  - destruct r as [vs|e]; simpl.
    + intros Hall. eexists. by apply sequential_fulfils.
    + intros (t & [i Hi]%list_elem_of_lookup_1 & Ht). eexists.
      by eapply first_rejection.
  - intros [sched Haw].
    by eapply await_refines_all_spec, Haw; apply reachable_run, reachable_start.
Qed.

(** In a pool with no event left every call has settled. *)
Lemma work_0_settled p i (s : Slot A) :
  work p = 0 -> slots p !! i = Some s -> exists r, s = Settled r.
Proof.
  unfold work. generalize (slots p). intros ss. revert i.
  induction ss as [|s' ss IH]; intros i Hw Hi; [done|].
  rewrite fmap_cons in Hw. simpl in Hw.
  destruct i as [|i]; simpl in Hi.
  - simplify_eq. destruct s as [t|r]; [simpl in Hw; lia | by exists r].
  - apply (IH i); [lia | done].
Qed.

(** The slot of call [i] in a reachable pool with no event left. *)
Lemma quiescent_slot ts p i t :
  reachable ts p -> work p = 0 -> ts !! i = Some t ->
  slots p !! i = Some (settled_slot t) /\ printed_by i (console p) = pending t.
Proof.
  intros (Hlen & Hslots & _)%pool_inv_reachable Hw Ht.
  destruct (lookup_lt_is_Some_2 (slots p) i) as [s Hs];
    [rewrite Hlen; by eapply lookup_lt_Some|].
  destruct (work_0_settled p i s Hw Hs) as [r ->].
  destruct (Hslots _ _ _ Ht Hs) as [-> Hpr]. by rewrite Hs.
Qed.

(** Every schedule that leaves no call with an event ends in the same
    state of the calls: each call has settled with its own outcome and has
    printed all its lines in order, and [Promise.all] has settled with a
    result its specification allows.  The interleaving only shows in the
    order of the console lines of different calls and in the reason of a
    rejection. *)
Theorem quiescent_pool_final sched ts :
  let p := run sched (start ts) in
  work p = 0 ->
  slots p = settled_slot <$> ts
  /\ (forall i t, ts !! i = Some t -> printed_by i (console p) = pending t)
  /\ exists r, await p = Some r /\ all_spec ts r.
Proof.
  intros p Hw. subst p.
  pose proof (reachable_run ts sched _ (reachable_start ts)) as Hr.
  split_and!.
  - apply list_eq. intros i. rewrite list_lookup_fmap.
    destruct (ts !! i) as [t|] eqn:Ht; simpl.
    + by destruct (quiescent_slot ts _ i t Hr Hw Ht).
    + apply lookup_ge_None. apply lookup_ge_None in Ht.
      destruct (pool_inv_reachable _ _ Hr) as (Hlen & _). lia.
  - intros i t Ht. by destruct (quiescent_slot ts _ i t Hr Hw Ht).
  - by apply quiescent_await.
Qed.

End FanOutSchedules.

(** Which call's reason [Promise.all] rejects with depends on the
    schedule: with two failing calls, each of the two reasons is the
    outcome of some schedule. *)
Theorem rejection_depends_on_schedule :
  promise (run [1] (start calls_bad)) = Rejected (new_Error "second")
  /\ promise (run [2; 2] (start calls_bad)) = Rejected (new_Error "third").
Proof. split; reflexivity. Qed.

Lemma promise_all_index_order_witness :
  Forall2 (fun t v => settles t = Return v) calls_ok [1; 2].
Proof.
  apply (promise_all_index_order [1; 0; 1; 0; 0] calls_ok [1; 2]).
  vm_compute. reflexivity.
Defined.

Lemma promise_all_rejection_reason_witness :
  exists i t, calls_bad !! i = Some t /\ settles t = Throw (new_Error "third")
    /\ slots (run [2; 0; 2] (start calls_bad)) !! i
       = Some (Settled (Throw (new_Error "third"))).
Proof.
  apply (promise_all_rejection_reason [2; 0; 2] calls_bad).
  vm_compute. reflexivity.
Defined.

Lemma promise_all_all_or_nothing_witness :
  promise (run [0; 0; 2; 2; 1] (start calls_bad)) <> Fulfilled [1].
Proof.
  apply (promise_all_all_or_nothing [0; 0; 2; 2; 1] calls_bad 1
           {| pending := []; settles := Throw (new_Error "second") |}
           (new_Error "second") [1]); reflexivity.
Defined.

Lemma promise_all_refines_spec_witness : all_spec calls_ok (Return [1; 2]).
Proof.
  apply (promise_all_refines_spec [0; 0; 0; 1; 1] calls_ok (Return [1; 2])).
  vm_compute. reflexivity.
Defined.

Lemma promise_all_schedule_independent_witness :
  @Return (list nat) [1; 2] = Return [1; 2].
Proof.
  apply (promise_all_schedule_independent calls_ok
           [0; 0; 0; 1; 1] [1; 1; 0; 0; 0]).
  - repeat (constructor; [eexists; reflexivity|]). constructor.
  - vm_compute. reflexivity.
  - vm_compute. reflexivity.
Defined.

Lemma promise_all_settles_witness :
  promise (run [2; 2; 1; 0; 0] (start calls_bad)) <> Pending.
Proof. apply (promise_all_settles [2; 2; 1; 0; 0] calls_bad). reflexivity. Defined.

Lemma promise_all_settled_for_good_witness :
  promise (run ([1] ++ [2; 2; 0]) (start calls_bad))
  = promise (run [1] (start calls_bad)).
Proof.
  apply (promise_all_settled_for_good [1] [2; 2; 0] calls_bad). discriminate.
Defined.

Lemma console_order_per_call_witness :
  printed_by 0 (console (run [0; 1; 1] (start calls_ok))) `prefix_of` ["a1"; "a2"].
Proof.
  apply (console_order_per_call [0; 1; 1] calls_ok 0
           {| pending := ["a1"; "a2"]; settles := Return 1 |}).
  reflexivity.
Defined.

Lemma console_complete_on_success_witness :
  printed_by 1 (console (run [0; 1; 0; 1; 0] (start calls_ok))) = ["b1"].
Proof.
  apply (console_complete_on_success [0; 1; 0; 1; 0] calls_ok [1; 2] 1
           {| pending := ["b1"]; settles := Return 2 |}); reflexivity.
Defined.

Lemma quiescent_pool_final_witness :
  slots (run [1; 0; 0; 1; 0] (start calls_ok)) = settled_slot <$> calls_ok.
Proof.
  refine (proj1 (quiescent_pool_final [1; 0; 0; 1; 0] calls_ok _)). reflexivity.
Defined.
