(* ===== verification/Schedules.v ===== *)
(** * Schedules: what a schedule does, call by call

    [FanOut] runs a schedule one pick at a time.  This file gives the
    reference view: the state of call [i] after a schedule depends only on
    how often the schedule picks [i] ([advance], [slots_run]), so a
    schedule settles every call exactly when it picks each call once more
    than the call has lines ([fair], [work_0_fair]).  Pools that differ
    only in the order of the console lines of different calls are
    equivalent ([pool_equiv], an [Equivalence] that the operations of
    [FanOut] respect), and when no call rejects the schedules with the same
    picks in another order lead to equivalent pools. *)

From Stdlib Require Import String List Lia.
From stdpp Require Import base option list strings relations.
From S2P Require Import Prelude FanOut.

Section Schedules.
Context {A : Type}.
Implicit Types (t : Task A) (s : Slot A) (p q : Pool A) (ts : list (Task A)).
Implicit Types (sched : list nat) (out : list (nat * string)).

(** ** Reference definitions *)

(** What one event does to a slot: the call prints its next line, or
    settles when it has none left; a settled call stays as it is. *)
Definition advance1 (s : Slot A) : Slot A :=
  match s with
  | Running t =>
      match pending t with
      | _ :: rest => Running {| pending := rest; settles := settles t |}
      | [] => Settled (settles t)
      end
  | Settled r => Settled r
  end.

(** The slot after [n] picks of its call. *)
Fixpoint advance (n : nat) (s : Slot A) : Slot A :=
  match n with
  | O => s
  | S n => advance n (advance1 s)
  end.

(** How often a schedule picks call [i]. *)
Definition picks (i : nat) (sched : list nat) : nat :=
  length (filter (eq i) sched).

(** The call [t] after [n] picks, in closed form. *)
Definition after_picks (n : nat) (t : Task A) : Slot A :=
  if (n <=? length (pending t))%nat
  then Running {| pending := drop n (pending t); settles := settles t |}
  else Settled (settles t).

(** A schedule is fair to the calls [ts] when it picks every call once
    more than the call has lines to print. *)
Definition fair (ts : list (Task A)) (sched : list nat) : Prop :=
  forall i t, ts !! i = Some t -> length (pending t) < picks i sched.

(** The console lines of call [i], with its index. *)
Definition lines_of (i : nat) (lines : list string) : list (nat * string) :=
  (fun line => (i, line)) <$> lines.

(** The console lines of all calls: call by call, each call's lines in the
    order it prints them. *)
Definition all_lines (ts : list (Task A)) : list (nat * string) :=
  concat (imap (fun i t => lines_of i (pending t)) ts).

(** ** Slots depend on the picks only *)

Lemma picks_nil i : picks i [] = 0.
Proof. reflexivity. Qed.

Lemma picks_cons_eq i sched : picks i (i :: sched) = S (picks i sched).
Proof. unfold picks. by rewrite filter_cons_True. Qed.

Lemma picks_cons_ne i j sched : i <> j -> picks i (j :: sched) = picks i sched.
Proof. intros Hne. unfold picks. by rewrite filter_cons_False. Qed.

Lemma picks_app i sched1 sched2 :
  picks i (sched1 ++ sched2) = picks i sched1 + picks i sched2.
Proof. unfold picks. by rewrite filter_app, length_app. Qed.

Lemma picks_replicate_eq i n : picks i (replicate n i) = n.
Proof. induction n as [|n IH]; [done|]. simpl. by rewrite picks_cons_eq, IH. Qed.

Lemma picks_replicate_ne i j n : i <> j -> picks i (replicate n j) = 0.
Proof.
  intros Hne. induction n as [|n IH]; [done|]. simpl. by rewrite picks_cons_ne.
Qed.

#[export] Instance picks_proper i : Proper (Permutation ==> eq) (picks i).
Proof. intros sched1 sched2 Hp. unfold picks. by rewrite Hp. Qed.

(** A pick changes the slot it names by [advance1] and no other slot. *)
Lemma step_slots i p :
  slots (default p (step i p)) = alter advance1 i (slots p).
Proof.
  unfold step. apply list_eq. intros j.
  destruct (slots p !! i) as [[[[|line rest] r]|r]|] eqn:Hi; simpl;
    (destruct (decide (j = i)) as [->|Hne];
     [rewrite list_lookup_alter_eq, Hi | rewrite list_lookup_alter_ne by done]);
    simpl; try done.
  all: try by rewrite list_lookup_insert_eq by (by eapply lookup_lt_Some).
  all: by rewrite list_lookup_insert_ne.
Qed.

(** The slot of call [i] after a schedule: as many events as the schedule
    picks [i]. *)
Lemma slots_run sched p i :
  slots (run sched p) !! i = advance (picks i sched) <$> slots p !! i.
Proof.
  revert p. induction sched as [|j sched IH]; intros p; simpl.
  - by destruct (slots p !! i).
  - rewrite IH, step_slots. destruct (decide (i = j)) as [->|Hne].
    + rewrite picks_cons_eq, list_lookup_alter_eq. by destruct (slots p !! j).
    + by rewrite picks_cons_ne, list_lookup_alter_ne.
Qed.

Lemma advance_settled n (r : Exn A) : advance n (Settled r) = Settled r.
Proof. by induction n. Qed.

(** [advance] on a running call, in closed form. *)
Lemma advance_running n t : advance n (Running t) = after_picks n t.
Proof.
  unfold after_picks. revert t. induction n as [|n IH]; intros [lines r].
  - by rewrite drop_0.
  - simpl. destruct lines as [|line rest]; simpl.
    + by rewrite advance_settled.
    + rewrite IH. simpl. by destruct (n <=? length rest)%nat.
Qed.

Lemma length_run sched p : length (slots (run sched p)) = length (slots p).
Proof.
  revert p. induction sched as [|j sched IH]; intros p; simpl; [done|].
  by rewrite IH, step_slots, length_alter.
Qed.

Lemma slot_work_after_picks n t :
  slot_work (after_picks n t) = S (length (pending t)) - n.
Proof.
  unfold after_picks. destruct (Nat.leb_spec n (length (pending t))); simpl.
  - rewrite length_drop. lia.
  - lia.
Qed.

(** The slot of call [i] of the calls [ts] after a schedule. *)
Lemma slots_run_start sched ts i t :
  ts !! i = Some t ->
  slots (run sched (start ts)) !! i = Some (after_picks (picks i sched) t).
Proof.
  intros Ht. rewrite slots_run. simpl. rewrite list_lookup_fmap, Ht. simpl.
  by rewrite advance_running.
Qed.

(** ** Fair schedules are the schedules that settle every call *)

Lemma work_0_lookup p :
  work p = 0 <-> forall i s, slots p !! i = Some s -> slot_work s = 0.
Proof.
  unfold work. generalize (slots p). intros ss.
  induction ss as [|s' ss IH]; [done|]. rewrite fmap_cons. simpl. split.
  - intros Hw [|i] s Hi; simpl in Hi; [simplify_eq; lia|].
    apply (proj1 IH) with i; [lia | done].
  - intros Hall. rewrite (Hall 0 s' eq_refl), (proj2 IH); [done|].
    intros i s Hi. by apply (Hall (S i)).
Qed.

Lemma work_0_fair sched ts : work (run sched (start ts)) = 0 <-> fair ts sched.
Proof.
  rewrite work_0_lookup. unfold fair. split.
  - intros Hall i t Ht. specialize (Hall i _ (slots_run_start sched ts i t Ht)).
    rewrite slot_work_after_picks in Hall. lia.
  - intros Hfair i s Hs.
    destruct (lookup_lt_is_Some_2 ts i) as [t Ht].
    { apply lookup_lt_Some in Hs. rewrite length_run in Hs. simpl in Hs.
      by rewrite length_fmap in Hs. }
    rewrite (slots_run_start sched ts i t Ht) in Hs. simplify_eq.
    rewrite slot_work_after_picks. specialize (Hfair i t Ht). lia.
Qed.

(** ** The console, call by call *)

(** What call [i] has printed after a schedule: its first lines, one per
    pick. *)
Lemma printed_by_run sched ts i t :
  ts !! i = Some t ->
  printed_by i (console (run sched (start ts))) = take (picks i sched) (pending t).
Proof.
  intros Ht.
  destruct (pool_inv_reachable ts _ (reachable_run ts sched _ (reachable_start ts)))
    as (_ & Hslots & _).
  specialize (Hslots i t _ Ht (slots_run_start sched ts i t Ht)).
  unfold after_picks in Hslots.
  destruct (Nat.leb_spec (picks i sched) (length (pending t))); simpl in Hslots;
    destruct Hslots as [_ Hpr].
  - rewrite <- (take_drop (picks i sched) (pending t)) in Hpr at 2.
    apply app_inj_2 in Hpr as [Hpr _]; [done|done].
  - rewrite Hpr, take_ge; [done | lia].
Qed.

Lemma perm_eq {X : Type} (xs ys : list X) : xs = ys -> xs ≡ₚ ys.
Proof. by intros ->. Qed.

(** Putting one more element at the head of one block of a list of blocks
    gives a permutation of the element followed by the blocks. *)
Lemma concat_block_cons {X : Type} (f : nat -> list X) (x : X) (j : nat) (xs : list nat) :
  NoDup xs -> j ∈ xs ->
  concat ((fun i => if decide (j = i) then x :: f i else f i) <$> xs)
  ≡ₚ x :: concat (f <$> xs).
Proof.
  induction 1 as [|i xs Hi Hnd IH]; intros Hj; [by apply elem_of_nil in Hj|].
  rewrite !fmap_cons. simpl. destruct (decide (j = i)) as [->|Hne].
  - simpl. rewrite (list_fmap_ext _ f xs); [done|]. intros k i' Hk.
    destruct (decide (i = i')) as [->|]; [|done].
    by apply list_elem_of_lookup_2 in Hk.
  - apply elem_of_cons in Hj as [?|Hj]; [done|].
    rewrite IH by done. by rewrite Permutation_middle.
Qed.

Lemma printed_by_cons i j line out :
  printed_by i ((j, line) :: out) =
  if decide (j = i) then line :: printed_by i out else printed_by i out.
Proof. unfold printed_by. simpl. by destruct (decide (j = i)). Qed.

(** A console is a permutation of what its calls printed, call by call. *)
Lemma console_by_call (n : nat) out :
  Forall (fun e => e.1 < n) out ->
  out ≡ₚ concat ((fun i => lines_of i (printed_by i out)) <$> seq 0 n).
Proof.
  induction 1 as [|[j line] out Hj Hout IH].
  - induction (seq 0 n) as [|i xs IHxs]; [done|]. by rewrite fmap_cons.
  - simpl in Hj. rewrite IH at 1.
    rewrite <- (concat_block_cons _ (j, line) j (seq 0 n));
      [|apply NoDup_seq|apply elem_of_seq; lia].
    apply perm_eq. f_equal. apply list_fmap_ext. intros k i _.
    rewrite printed_by_cons. by destruct (decide (j = i)) as [->|].
Qed.

(** Every line on the console was printed by one of the calls. *)
Lemma console_indices_run sched p :
  Forall (fun e => e.1 < length (slots p)) (console p) ->
  Forall (fun e => e.1 < length (slots p)) (console (run sched p)).
Proof.
  revert p. induction sched as [|i sched IH]; intros p Hp; simpl; [done|].
  destruct (step i p) as [p'|] eqn:Hs; simpl; [|by apply IH].
  rewrite <- (step_length i p p' Hs). apply IH.
  rewrite (step_length i p p' Hs).
  apply step_inv in Hs as (t & Hi & [(line & rest & _ & ->)|(_ & ->)]); simpl;
    [|done].
  apply Forall_app. split; [done|]. repeat constructor. simpl.
  by eapply lookup_lt_Some.
Qed.

(** The console after a schedule: a permutation of the first lines of each
    call, one per pick of the call. *)
Lemma console_run sched ts :
  console (run sched (start ts))
  ≡ₚ concat (imap (fun i t => lines_of i (take (picks i sched) (pending t))) ts).
Proof.
  rewrite (console_by_call (length ts)).
  - apply perm_eq. f_equal. apply list_eq. intros i.
    rewrite list_lookup_fmap, list_lookup_imap.
    destruct (ts !! i) as [t|] eqn:Ht; simpl.
    + rewrite lookup_seq_lt by (by eapply lookup_lt_Some). simpl.
      by rewrite (printed_by_run sched ts i t Ht).
    + by rewrite lookup_seq_ge by (by apply lookup_ge_None).
  - pose proof (console_indices_run sched (start ts)) as Hidx. simpl in Hidx.
    rewrite length_fmap in Hidx. by apply Hidx.
Qed.

(** On a fair schedule the console holds every line of every call. *)
Lemma console_fair sched ts :
  fair ts sched -> console (run sched (start ts)) ≡ₚ all_lines ts.
Proof.
  intros Hfair. rewrite console_run. apply perm_eq. unfold all_lines.
  f_equal. apply imap_ext. intros i t Ht. simpl.
  rewrite take_ge; [done|]. specialize (Hfair i t Ht). lia.
Qed.

(** A console interleaves what its calls printed: the lines of each call
    are on it in the order the call printed them. *)
Lemma printed_by_interleaved (n : nat) out :
  Forall (fun e => e.1 < n) out ->
  interleaved ((fun i => printed_by i out) <$> seq 0 n) out.*2.
Proof.
  induction 1 as [|[j line] out Hj Hout IH].
  - apply interleaved_nil, Forall_fmap, Forall_true. done.
  - simpl in Hj. rewrite (fmap_cons snd). cbn [snd].
    apply (interleaved_cons j line (printed_by j out)).
    + rewrite list_lookup_fmap, lookup_seq_lt by done.
      cbn [fmap option_fmap option_map Nat.add].
      by rewrite printed_by_cons, decide_True.
    + replace (<[j := printed_by j out]> _)
        with ((fun i => printed_by i out) <$> seq 0 n); [exact IH|].
      symmetry. apply list_eq. intros i.
      destruct (decide (i = j)) as [->|Hne].
      * rewrite list_lookup_insert_eq by (by rewrite length_fmap, length_seq).
        by rewrite list_lookup_fmap, lookup_seq_lt.
      * rewrite list_lookup_insert_ne, !list_lookup_fmap by done.
        destruct (seq 0 n !! i) as [k|] eqn:Hk; [|done].
        cbn [fmap option_fmap option_map].
        by rewrite printed_by_cons, decide_False by (apply lookup_seq in Hk; lia).
Qed.

(** The console after a schedule interleaves the first lines of each
    call, one per pick of the call. *)
Lemma console_interleaved sched ts :
  interleaved (imap (fun i t => take (picks i sched) (pending t)) ts)
    (console (run sched (start ts))).*2.
Proof.
  replace (imap _ ts)
    with ((fun i => printed_by i (console (run sched (start ts))))
            <$> seq 0 (length ts)).
  - apply printed_by_interleaved.
    pose proof (console_indices_run sched (start ts)) as Hidx. simpl in Hidx.
    rewrite length_fmap in Hidx. by apply Hidx.
  - apply list_eq. intros i. rewrite list_lookup_fmap, list_lookup_imap.
    destruct (ts !! i) as [t|] eqn:Ht; simpl.
    + rewrite lookup_seq_lt by (by eapply lookup_lt_Some). simpl.
      by rewrite (printed_by_run sched ts i t Ht).
    + by rewrite lookup_seq_ge by (by apply lookup_ge_None).
Qed.

(** On a fair schedule the console interleaves all the lines of the
    calls. *)
Lemma console_interleaved_fair sched ts :
  fair ts sched ->
  interleaved (pending <$> ts) (console (run sched (start ts))).*2.
Proof.
  intros Hfair.
  replace (pending <$> ts)
    with (imap (fun i t => take (picks i sched) (pending t)) ts);
    [apply console_interleaved|].
  apply list_eq. intros i. rewrite list_lookup_fmap, list_lookup_imap.
  destruct (ts !! i) as [t|] eqn:Ht; simpl; [|done].
  rewrite take_ge; [done|]. specialize (Hfair i t Ht). lia.
Qed.

(** ** Pools up to the order of the console *)

(** Two pools are equivalent when they agree on the calls and on the
    promise, and their consoles hold the same lines. *)
#[export] Instance pool_equiv : Equiv (Pool A) := fun p q =>
  slots p = slots q /\ console p ≡ₚ console q /\ promise p = promise q.

#[export] Instance pool_equiv_equivalence : Equivalence (≡@{Pool A}).
Proof.
  split.
  - by intros p.
  - by intros p q (? & ? & ?).
  - intros p q r (? & ? & ?) (? & ? & ?). split_and!; by etrans.
Qed.

#[export] Instance slots_proper : Proper ((≡) ==> (=)) (@slots A).
Proof. by intros p q (? & _). Qed.

#[export] Instance promise_proper : Proper ((≡) ==> (=)) (@promise A).
Proof. by intros p q (_ & _ & ?). Qed.

#[export] Instance console_proper : Proper ((≡) ==> (≡ₚ)) (@console A).
Proof. by intros p q (_ & ? & _). Qed.

#[export] Instance await_proper : Proper ((≡) ==> (=)) (@await A).
Proof. intros p q Hpq. unfold await. by rewrite Hpq. Qed.

#[export] Instance work_proper : Proper ((≡) ==> (=)) (@work A).
Proof. intros p q Hpq. unfold work. by rewrite Hpq. Qed.

(** A pick takes equivalent pools to equivalent pools. *)
#[export] Instance step_proper i :
  Proper ((≡) ==> option_Forall2 (≡)) (@step A i).
Proof.
  intros p q (Hs & Hc & Hj). unfold step. rewrite Hs, Hj.
  destruct (slots q !! i) as [[[[|line rest] r]|r]|]; simpl; constructor;
    split_and!; simpl; by rewrite ?Hc.
Qed.

#[export] Instance run_proper sched : Proper ((≡) ==> (≡)) (@run A sched).
Proof.
  induction sched as [|i sched IH]; intros p q Hpq; simpl; [done|].
  apply IH. by destruct (step_proper i p q Hpq).
Qed.

(** When no call rejects, the promise is a function of the slots. *)
Lemma promise_of_slots ts p :
  reachable ts p -> Forall (fun t => exists v, settles t = Return v) ts ->
  promise p = from_option Fulfilled Pending (all_values (slots p)).
Proof.
  intros Hr Hok. destruct (promise p) as [|vs|e] eqn:Hj.
  - destruct (pool_inv_reachable _ _ Hr) as (_ & _ & Hjoin).
    rewrite Hj in Hjoin. destruct Hjoin as [-> _]. done.
  - destruct (pool_inv_reachable _ _ Hr) as (_ & _ & Hjoin).
    rewrite Hj in Hjoin. simpl in Hjoin. by rewrite Hjoin.
  - destruct (rejected_by_a_call _ _ _ Hr Hj) as (i & t & Hi & Ht & _).
    rewrite Forall_forall in Hok.
    destruct (Hok t) as [v Hv]; [by eapply list_elem_of_lookup_2|]. congruence.
Qed.

(** Schedules with the same picks lead to the same slots and to consoles
    with the same lines. *)
Lemma run_permutation_slots sched1 sched2 ts :
  (forall i, picks i sched1 = picks i sched2) ->
  slots (run sched1 (start ts)) = slots (run sched2 (start ts))
  /\ console (run sched1 (start ts)) ≡ₚ console (run sched2 (start ts)).
Proof.
  intros Hp. split.
  - apply list_eq. intros i. by rewrite !slots_run, Hp.
  - rewrite !console_run. apply perm_eq. f_equal. apply imap_ext.
    intros i t _. simpl. by rewrite Hp.
Qed.

(** When no call rejects, the order of the picks does not matter. *)
Lemma run_permutation sched1 sched2 ts :
  Forall (fun t => exists v, settles t = Return v) ts ->
  (forall i, picks i sched1 = picks i sched2) ->
  run sched1 (start ts) ≡ run sched2 (start ts).
Proof.
  intros Hok Hp. destruct (run_permutation_slots sched1 sched2 ts Hp) as [Hs Hc].
  split_and!; [done..|].
  rewrite !(promise_of_slots ts) by (done || apply reachable_run, reachable_start).
  by rewrite Hs.
Qed.

(** ** What the console can hold *)

Lemma concat_imap_submseteq {X Y : Type} (f g : nat -> X -> list Y) (xs : list X) :
  (forall i x, f i x ⊆+ g i x) -> concat (imap f xs) ⊆+ concat (imap g xs).
Proof.
  revert f g. induction xs as [|x xs IH]; intros f g Hfg; [done|].
  rewrite !imap_cons. simpl. apply submseteq_app; [done|].
  apply IH. intros i y. apply Hfg.
Qed.

(** Whatever the schedule, the console holds lines of the calls only, and
    none more often than its call prints it. *)
Lemma console_submseteq sched ts : console (run sched (start ts)) ⊆+ all_lines ts.
Proof.
  rewrite console_run. apply concat_imap_submseteq. intros i t.
  apply fmap_submseteq, submseteq_take.
Qed.

(** A promise that has fulfilled: every call has settled, so the schedule
    was fair. *)
Lemma fulfilled_fair sched ts (vs : list A) :
  promise (run sched (start ts)) = Fulfilled vs -> fair ts sched.
Proof.
  intros Hj. apply work_0_fair, work_0_lookup. intros i s Hs.
  destruct (pool_inv_reachable ts _ (reachable_run ts sched _ (reachable_start ts)))
    as (_ & _ & Hjoin).
  rewrite Hj in Hjoin.
  by destruct (all_values_lookup _ _ _ _ Hjoin Hs) as (v & -> & _).
Qed.

Lemma lines_of_snd i (lines : list string) : (lines_of i lines).*2 = lines.
Proof.
  unfold lines_of. rewrite <- list_fmap_compose. apply list_fmap_id.
Qed.

(** The lines of all calls, without the indices. *)
Lemma all_lines_snd ts : (all_lines ts).*2 = concat (pending <$> ts).
Proof.
  unfold all_lines.
  enough (forall g : nat -> nat,
            (concat (imap (fun i t => lines_of (g i) (pending t)) ts)).*2
            = concat (pending <$> ts)) as Hg by apply (Hg id).
  induction ts as [|t ts IH]; intros g; [done|].
  rewrite imap_cons, fmap_cons. simpl.
  by rewrite fmap_app, lines_of_snd, <- (IH (g ∘ S)).
Qed.

(** ** Theorems *)

Lemma fair_app_r sched1 sched2 ts : fair ts sched2 -> fair ts (sched1 ++ sched2).
Proof.
  intros Hf i t Ht. rewrite picks_app. specialize (Hf i t Ht). lia.
Qed.

Lemma fair_sequential ts : fair ts (sequential_schedule ts).
Proof. apply work_0_fair, work_run_sequential. Qed.

(** The state of a call after a schedule depends only on how often
    the schedule picks the call: after [n] picks the call has printed its
    first [n] lines, in order, and it has settled, with its own outcome,
    when [n] exceeds the number of its lines.  The picks of the other calls
    and the order of the picks do not matter. *)
Theorem slot_by_picks sched ts i t :
  ts !! i = Some t ->
  slots (run sched (start ts)) !! i = Some (after_picks (picks i sched) t)
  /\ printed_by i (console (run sched (start ts)))
     = take (picks i sched) (pending t).
Proof.
  intros Ht. split; [by apply slots_run_start | by apply printed_by_run].
Qed.

(** C31: a schedule leaves no call with an event exactly when it is fair,
    that is when it picks every call once more than the call has lines;
    every schedule becomes fair when the calls are then run one after the
    other; and after a fair schedule the console holds every line of every
    call. *)
Theorem fair_schedule_settles sched ts :
  (fair ts sched <-> work (run sched (start ts)) = 0)
  /\ fair ts (sched ++ sequential_schedule ts)
  /\ (fair ts sched -> console (run sched (start ts)) ≡ₚ all_lines ts).
Proof.
  split_and!.
  - symmetry. apply work_0_fair.
  - apply fair_app_r, fair_sequential.
  - apply console_fair.
Qed.

(** C32: two schedules that pick every call equally often (the same
    picks in another order) lead to the same state of the calls and to
    consoles with the same lines; when no call rejects they lead to
    equivalent pools, so [Promise.all] settles the same way. *)
Theorem schedule_order_irrelevant sched1 sched2 ts :
  (forall i, picks i sched1 = picks i sched2) ->
  slots (run sched1 (start ts)) = slots (run sched2 (start ts))
  /\ console (run sched1 (start ts)) ≡ₚ console (run sched2 (start ts))
  /\ (Forall (fun t => exists v, settles t = Return v) ts ->
      run sched1 (start ts) ≡ run sched2 (start ts)
      /\ await (run sched1 (start ts)) = await (run sched2 (start ts))).
Proof.
  intros Hp. destruct (run_permutation_slots sched1 sched2 ts Hp) as [Hs Hc].
  split_and!; [done..|]. intros Hok.
  pose proof (run_permutation sched1 sched2 ts Hok Hp) as Heq.
  split; [done | by rewrite Heq].
Qed.

End Schedules.

(** ** Witnesses *)

Lemma slot_by_picks_witness :
  slots (run [1; 0; 1] (start calls_ok)) !! 1
  = Some (Settled (Return 2)).
Proof.
  refine (proj1 (slot_by_picks [1; 0; 1] calls_ok 1
                   {| pending := ["b1"]; settles := Return 2 |} _)).
  reflexivity.
Defined.

Lemma schedule_order_irrelevant_witness :
  slots (run [1; 0; 0; 1; 0] (start calls_ok))
  = slots (run [0; 0; 0; 1; 1] (start calls_ok)).
Proof.
  refine (proj1 (schedule_order_irrelevant [1; 0; 0; 1; 0] [0; 0; 0; 1; 1]
                   calls_ok _)).
  intros i. apply picks_proper.
  apply (bool_decide_unpack _). vm_compute. reflexivity.
Defined.

Lemma fair_schedule_settles_witness :
  console (run [1; 0; 0; 1; 0] (start calls_ok))
  ≡ₚ [(0, "a1"); (0, "a2"); (1, "b1")].
Proof.
  destruct (fair_schedule_settles [1; 0; 0; 1; 0] calls_ok) as (Hfair & _ & Hconsole).
  apply Hconsole, Hfair. reflexivity.
Defined.
