(* ===== verification/Ocr.v ===== *)
(** * Ocr: the OCR engine's interface and the call the handler makes per image

    The engine ([tesseract.recognize]) is not part of the repository: it is
    the interface [OcrEngine].  One call reports its progress to the
    [logger] callback any number of times and then fulfils with the
    recognised text or rejects.  [ocr_task] is the body of the [async]
    callback the handler maps over the images: the call with the fixed
    language, the console line of each progress report, and the result
    object built from the text. *)

From Stdlib Require Import String List Lia.
From stdpp Require Import base option list strings.
From S2P Require Import Prelude Multipart FanOut.

(** ** The engine *)

(** What one call of the engine does: the [info.status] of each progress
    report, in order ([None] for a report without a status), and how the
    promise settles ([data.text] or the reason of the rejection).  The
    reports are finitely many and the outcome is definite: a call that
    has not settled yet is a call whose events the schedule has not
    picked, not a call without an outcome. *)
Record OcrRun : Type := {
  statuses : list (option string);
  outcome : Exn string;
}.

(** [tesseract.recognize(image, langs, options)]. *)
Class OcrEngine : Type := recognize : bytes -> string -> OcrRun.

(** ** The handler's call *)

(** One element of [extractedTexts]. *)
Record ExtractionResult : Type := {
  item_filename : string;
  item_text : string;
}.

(** The line the [logger] callback prints for one progress report: a
    file name or a status that is [undefined] is printed as such. *)
Definition logger (file : Part) (status : option string) : string :=
  "Processing " +:+ to_String (filename file) +:+ ": " +:+ to_String status.

(** The object the callback returns: the file name, or ["unknown"] when the
    part has none or an empty one, and the text. *)
Definition extraction (file : Part) (text : string) : ExtractionResult :=
  {| item_filename := js_or (filename file) "unknown"; item_text := text |}.

(** The [async] callback on one image, as a call in flight. *)
Definition ocr_task `{OcrEngine} (file : Part) : Task ExtractionResult :=
  let call := recognize (data file) "eng" in
  {| pending := logger file <$> statuses call;
     settles := mapE (extraction file) (outcome call) |}.

(** [imageFiles.map(async (file) => ...)]: all calls are started, in index
    order, before any of them makes progress. *)
Definition ocr_tasks `{OcrEngine} (imageFiles : list Part) : list (Task ExtractionResult) :=
  ocr_task <$> imageFiles.

(** Every image is recognised: the texts of the images, in order. *)
Definition recognised `{OcrEngine} (files : list Part) (texts : list string) : Prop :=
  Forall2 (fun file text => outcome (recognize (data file) "eng") = Return text)
    files texts.

(** ** Lemmas *)

Section OcrFacts.
Context `{OcrEngine}.

Lemma item_filename_truthy (file : Part) (text : string) :
  truthy (item_filename (extraction file text)) = true.
Proof. by apply js_or_truthy. Qed.

Lemma item_filename_named (file : Part) (text name : string) :
  filename file = Some name -> truthy name = true ->
  item_filename (extraction file text) = name.
Proof. intros Hf Hn. simpl. rewrite Hf. by apply js_or_Some_truthy. Qed.

Lemma item_filename_unnamed (file : Part) (text : string) :
  filename file = None \/ filename file = Some "" ->
  item_filename (extraction file text) = "unknown".
Proof. by intros [Hf|Hf]; simpl; rewrite Hf. Qed.

Lemma ocr_task_Return (file : Part) (item : ExtractionResult) :
  settles (ocr_task file) = Return item <->
  exists text, outcome (recognize (data file) "eng") = Return text
               /\ item = extraction file text.
Proof.
  simpl. destruct (outcome _) as [text|e]; simpl; split.
  - intros [= <-]. eauto.
  - by intros (? & [= <-] & ->).
  - done.
  - by intros (? & ? & _).
Qed.

Lemma ocr_task_Throw (file : Part) (e : Thrown) :
  settles (ocr_task file) = Throw e <->
  outcome (recognize (data file) "eng") = Throw e.
Proof. simpl. destruct (outcome _); simpl; split; congruence. Qed.

Lemma length_ocr_tasks (imageFiles : list Part) :
  length (ocr_tasks imageFiles) = length imageFiles.
Proof. apply length_fmap. Qed.

(** The results of the calls that all fulfil: one per image, in order. *)
Lemma ocr_tasks_all_Return (imageFiles : list Part) (items : list ExtractionResult) :
  Forall2 (fun t v => settles t = Return v) (ocr_tasks imageFiles) items <->
  Forall2 (fun file item =>
             exists text, outcome (recognize (data file) "eng") = Return text
                          /\ item = extraction file text) imageFiles items.
Proof.
  unfold ocr_tasks. rewrite Forall2_fmap_l.
  split; intros Hall; eapply Forall2_impl; [exact Hall| |exact Hall|];
    intros file item; apply ocr_task_Return.
Qed.

Lemma recognised_functional (files : list Part) (texts1 texts2 : list string) :
  recognised files texts1 -> recognised files texts2 -> texts1 = texts2.
Proof.
  intros Hr1. revert texts2.
  induction Hr1 as [|file text files texts Ho _ IH]; intros texts2 Hr2;
    inversion Hr2 as [|? text' ? texts' Ho' Hrest]; subst; [done|].
  f_equal; [congruence | by apply IH].
Qed.

Lemma recognised_no_failure (files : list Part) (texts : list string) (file : Part) (e : Thrown) :
  recognised files texts -> file ∈ files ->
  outcome (recognize (data file) "eng") <> Throw e.
Proof.
  intros Hrec [i Hi]%list_elem_of_lookup_1 Ho.
  destruct (Forall2_lookup_l _ _ _ _ _ Hrec Hi) as (text & _ & Ho'). congruence.
Qed.

(** Results that are extractions of recognised texts, file by file. *)
Lemma recognised_texts (files : list Part) (extracted : list ExtractionResult) :
  Forall2 (fun file item =>
             exists text, outcome (recognize (data file) "eng") = Return text
                          /\ item = extraction file text) files extracted ->
  recognised files (item_text <$> extracted)
  /\ extracted = zip_with extraction files (item_text <$> extracted).
Proof.
  induction 1 as [|file item files extracted (text & Ho & ->) _ [IH1 IH2]].
  - by split; [constructor|].
  - split; [by constructor|]. rewrite fmap_cons. simpl. by rewrite <- IH2.
Qed.

Lemma recognised_length (files : list Part) (texts : list string) :
  recognised files texts -> length texts = length files.
Proof. intros Hrec. symmetry. by eapply Forall2_length. Qed.

(** The result of image [i]. *)
Lemma extracted_lookup (files : list Part) (texts : list string) (i : nat) (file : Part) (text : string) :
  files !! i = Some file -> texts !! i = Some text ->
  zip_with extraction files texts !! i = Some (extraction file text).
Proof. intros Hf Ht. apply lookup_zip_with_Some. eauto. Qed.

Lemma length_extracted (files : list Part) (texts : list string) :
  recognised files texts ->
  length (zip_with extraction files texts) = length files.
Proof.
  intros Hrec%recognised_length. rewrite length_zip_with. lia.
Qed.

End OcrFacts.
