(* ===== verification/TextBundle.v ===== *)
(** * TextBundle: the plain-text file of all extracted texts

    [textContent] is the [map]/[join] expression of the handler: one section
    per result, a header line with the file name, the text, and a separator
    line between two sections.  The theorems give its structure (the
    sections in order, one separator less than sections, its length), and
    [reparse_ambiguous] shows that the sections cannot in general be told
    apart again, because a text may contain what looks like a separator and
    a header. *)

From Stdlib Require Import String List Lia.
From stdpp Require Import base option list strings.
From S2P Require Import Prelude Multipart FanOut Ocr.

(** ** The bundle *)

(** The text of one section: the template literal of the [map] callback. *)
Definition section (item : ExtractionResult) : string :=
  "=== " +:+ item_filename item +:+ " ===" +:+ nl +:+ nl
  +:+ item_text item +:+ nl +:+ nl.

(** The separator the sections are joined with. *)
Definition separator : string := "---" +:+ nl +:+ nl.

(** [extractedTexts.map(item => ...).join('---\n\n')]. *)
Definition textContent (extractedTexts : list ExtractionResult) : string :=
  join separator (section <$> extractedTexts).

(** The header line of a section, without its line break. *)
Definition header (item : ExtractionResult) : string :=
  "=== " +:+ item_filename item +:+ " ===".

(** ** Lemmas *)

Lemma section_header (item : ExtractionResult) :
  section item = header item +:+ nl +:+ nl +:+ item_text item +:+ nl +:+ nl.
Proof. unfold section, header. by rewrite !string_app_assoc. Qed.

Lemma section_startsWith_header (item : ExtractionResult) :
  startsWith (section item) (header item) = true.
Proof. rewrite section_header. apply startsWith_app. Qed.

Lemma section_length (item : ExtractionResult) :
  String.length (section item) =
  String.length (item_filename item) + String.length (item_text item) + 12.
Proof.
  unfold section. rewrite !string_length_app. simpl. lia.
Qed.

Lemma textContent_nil : textContent [] = "".
Proof. reflexivity. Qed.

Lemma textContent_singleton (item : ExtractionResult) :
  textContent [item] = section item.
Proof. reflexivity. Qed.

Lemma textContent_cons (item next : ExtractionResult) (rest : list ExtractionResult) :
  textContent (item :: next :: rest) =
  section item +:+ separator +:+ textContent (next :: rest).
Proof. reflexivity. Qed.

Lemma textContent_app (xs ys : list ExtractionResult) :
  xs <> [] -> ys <> [] ->
  textContent (xs ++ ys) = textContent xs +:+ separator +:+ textContent ys.
Proof.
  intros Hx Hy. unfold textContent. rewrite fmap_app.
  apply join_app; by destruct xs, ys.
Qed.

(** A list is empty when its length is zero: the form the conditions on an
    index take. *)
Lemma nil_eqb {X Y : Type} (xs : list X) (a b : Y) :
  match xs with [] => a | _ :: _ => b end
  = if (length xs =? 0)%nat then a else b.
Proof. by destruct xs. Qed.

(** The bundle around one of its sections. *)
Lemma textContent_middle (xs : list ExtractionResult) (item : ExtractionResult) (ys : list ExtractionResult) :
  textContent (xs ++ item :: ys) =
  match xs with [] => "" | _ :: _ => textContent xs +:+ separator end
  +:+ section item
  +:+ match ys with [] => "" | _ :: _ => separator +:+ textContent ys end.
Proof.
  destruct xs as [|x xs].
  - destruct ys; [by rewrite string_app_nil_r | done].
  - rewrite textContent_app by done.
    destruct ys; [by rewrite string_app_nil_r, textContent_singleton, string_app_assoc|].
    by rewrite textContent_cons, !string_app_assoc.
Qed.

Lemma length_separator : String.length separator = 5.
Proof. reflexivity. Qed.

(** The characters of the sections of a list of results. *)
Definition sections_length (extractedTexts : list ExtractionResult) : nat :=
  list_sum (map (fun item => String.length (item_filename item)
                             + String.length (item_text item) + 12)
              extractedTexts).

Lemma sections_length_sum (items : list ExtractionResult) :
  list_sum (map String.length (section <$> items)) = sections_length items.
Proof.
  unfold sections_length. induction items as [|item items IH]; [done|].
  rewrite fmap_cons.
  change (String.length (section item)
          + list_sum (map String.length (section <$> items))
          = String.length (item_filename item) + String.length (item_text item)
            + 12 + sections_length items).
  by rewrite IH, section_length.
Qed.

(** The bundle around the section of index [i]. *)
Lemma textContent_lookup (extractedTexts : list ExtractionResult) (i : nat) (item : ExtractionResult) :
  extractedTexts !! i = Some item ->
  textContent extractedTexts =
  (if (i =? 0)%nat then ""
   else textContent (take i extractedTexts) +:+ separator)
  +:+ section item
  +:+ (if (S i =? length extractedTexts)%nat then ""
       else separator +:+ textContent (drop (S i) extractedTexts)).
Proof.
  intros Hi. pose proof (lookup_lt_Some _ _ _ Hi) as Hlt.
  rewrite <- (take_drop_middle _ _ _ Hi) at 1. rewrite textContent_middle.
  rewrite (nil_eqb (take i extractedTexts)), (nil_eqb (drop (S i) extractedTexts)).
  rewrite length_take, length_drop, Nat.min_l by lia.
  replace (length extractedTexts - S i =? 0)%nat
    with (S i =? length extractedTexts)%nat; [done|].
  destruct (Nat.eqb_spec (S i) (length extractedTexts)) as [->|?].
  - by rewrite Nat.sub_diag.
  - symmetry. apply Nat.eqb_neq. lia.
Qed.

(** ** Theorems *)

(** The bundle of the results has one section per result and one
    separator between two sections, and nothing else: its length is the
    sum of the lengths of the file names and texts, 12 characters of frame
    per section and 5 per separator. *)
Lemma textContent_length (extractedTexts : list ExtractionResult) :
  String.length (textContent extractedTexts) =
  sections_length extractedTexts + 5 * (length extractedTexts - 1).
Proof.
  unfold textContent. rewrite join_length, sections_length_sum.
  by rewrite length_separator, !length_fmap.
Qed.

(** C9: the section of the result at index [i] stands in the bundle
    between the bundle of the results before it and the bundle of the
    results after it: the sections come in the order of the results. *)
Theorem textContent_section_at (extractedTexts : list ExtractionResult) (i : nat) (item : ExtractionResult) :
  extractedTexts !! i = Some item ->
  textContent extractedTexts =
  (if (i =? 0)%nat then ""
   else textContent (take i extractedTexts) +:+ separator)
  +:+ section item
  +:+ (if (S i =? length extractedTexts)%nat then ""
       else separator +:+ textContent (drop (S i) extractedTexts)).
Proof.
  apply textContent_lookup.
Qed.

(** The bundle starts with the header line of the first result. *)
Theorem textContent_starts_with_header (item : ExtractionResult) (rest : list ExtractionResult) :
  startsWith (textContent (item :: rest)) (header item) = true.
Proof.
  destruct rest as [|next rest].
  - apply section_startsWith_header.
  - rewrite textContent_cons, section_header, !string_app_assoc.
    apply startsWith_app.
Qed.

(** Two lists of results with the same bundle: one image whose text holds a
    separator and a header line, and two images. *)
Definition one_result : list ExtractionResult :=
  [{| item_filename := "a.png";
      item_text := "x" +:+ nl +:+ nl +:+ separator +:+ "=== b.png ===" +:+ nl +:+ nl +:+ "y" |}].

Definition two_results : list ExtractionResult :=
  [{| item_filename := "a.png"; item_text := "x" |};
   {| item_filename := "b.png"; item_text := "y" |}].

(** The bundle does not determine the results: a text that holds a
    separator and a header line reads as two sections. *)
Theorem reparse_ambiguous :
  textContent one_result = textContent two_results
  /\ length one_result <> length two_results.
Proof. split; [reflexivity | discriminate]. Qed.

Lemma textContent_section_at_witness :
  textContent two_results =
  (textContent (take 1 two_results) +:+ separator)
  +:+ section {| item_filename := "b.png"; item_text := "y" |} +:+ "".
Proof. apply (textContent_section_at two_results 1). reflexivity. Defined.
