(* ===== verification/BundleReader.v ===== *)
(** * BundleReader: reading the text bundle back

    The text file of the answer is made to be read by a person; a caller
    that wants the results back reads it line by line: a line
    [=== name ===] starts a section, the lines up to the next such line
    are its text, framed by the empty lines and the separator line the
    handler writes.  [read_bundle] is that reader, modelled from the
    format the specification describes.

    [read_textContent] shows when the bundle can be read back: when the
    file names hold no line break and no line of a text looks like a
    header line.  Under that condition [textContent] is injective.
    [TextBundle.reparse_ambiguous] is the other side: without the
    condition the reader finds sections that were never written. *)

From Stdlib Require Import String Ascii List Lia.
From stdpp Require Import base option list strings.
From S2P Require Import Prelude Multipart FanOut Ocr TextBundle.

(** ** Lines *)

(** The string holds no line break. *)
Fixpoint single_line (s : string) : bool :=
  match s with
  | "" => true
  | String c rest => negb (Ascii.eqb c newline) && single_line rest
  end.

(** [s.split("\n")]: the lines of a string; a string of [n] line breaks
    has [n + 1] lines. *)
Fixpoint split_lines (s : string) : list string :=
  match s with
  | "" => [""]
  | String c rest =>
      if Ascii.eqb c newline then "" :: split_lines rest
      else match split_lines rest with
           | [] => [String c ""]
           | line :: lines => String c line :: lines
           end
  end.

(** ** Header lines *)

(** [s] without the prefix [p], when it starts with it. *)
Fixpoint strip_prefix (p s : string) : option string :=
  match p, s with
  | "", _ => Some s
  | String a p', String b s' =>
      if Ascii.eqb a b then strip_prefix p' s' else None
  | String _ _, "" => None
  end.

(** [s] without the suffix [p], when it ends with it. *)
Fixpoint strip_suffix (p s : string) : option string :=
  if String.eqb s p then Some ""
  else match s with
       | "" => None
       | String c s' => String c <$> strip_suffix p s'
       end.

(** The file name of a header line [=== name ===]; [None] on any other
    line. *)
Definition header_name (line : string) : option string :=
  rest ← strip_prefix "=== " line; strip_suffix " ===" rest.

(** ** Sections *)

(** The lines up to the next header line. *)
Fixpoint lines_to_header (lines : list string) : list string :=
  match lines with
  | [] => []
  | line :: rest =>
      match header_name line with
      | Some _ => []
      | None => line :: lines_to_header rest
      end
  end.

(** The sections of a list of lines: the name on each header line, with
    the lines that follow it up to the next header line. *)
Fixpoint chunks (lines : list string) : list (string * list string) :=
  match lines with
  | [] => []
  | line :: rest =>
      match header_name line with
      | Some name => (name, lines_to_header rest) :: chunks rest
      | None => chunks rest
      end
  end.

(** The text of a section from the lines after its header: the empty
    line after the header and the frame at the end are taken off (two
    empty lines and, when another section follows, the separator line and
    one more empty line, of which the last line break belongs to the next
    line). *)
Definition read_text (body : list string) : option string :=
  match rev body with
  | "" :: "---" :: "" :: r | "" :: "" :: r =>
      match rev r with
      | "" :: text => Some (join nl text)
      | _ => None
      end
  | _ => None
  end.

Definition read_section (chunk : string * list string) : option ExtractionResult :=
  text ← read_text chunk.2;
  Some {| item_filename := chunk.1; item_text := text |}.

(** The results of a bundle. *)
Definition read_bundle (bundle : string) : option (list ExtractionResult) :=
  mapM read_section (chunks (split_lines bundle)).

(** A result the reader can read back: its file name is one line, and no
    line of its text is a header line. *)
Definition readable (item : ExtractionResult) : Prop :=
  single_line (item_filename item) = true
  /\ Forall (fun line => header_name line = None) (split_lines (item_text item)).

#[export] Instance readable_dec (item : ExtractionResult) : Decision (readable item).
Proof. unfold readable. apply _. Defined.

(** The lines a section adds to the bundle, and the lines of a bundle. *)
Definition text_lines (item : ExtractionResult) : list string :=
  "" :: split_lines (item_text item) ++ [""].

Fixpoint bundle_lines (items : list ExtractionResult) : list string :=
  match items with
  | [] => [""]
  | item :: rest =>
      header item :: text_lines item
      ++ match rest with
         | [] => [""]
         | _ :: _ => "---" :: "" :: bundle_lines rest
         end
  end.

(** ** Lemmas on lines *)

Lemma split_lines_nonempty (s : string) : split_lines s <> [].
Proof.
  destruct s as [|c s]; [done|]. simpl.
  destruct (Ascii.eqb c newline); [done|]. by destruct (split_lines s).
Qed.

Lemma split_lines_single (s : string) :
  single_line s = true -> split_lines s = [s].
Proof.
  induction s as [|c s IH]; [done|]. simpl.
  destruct (Ascii.eqb c newline); [done|]. simpl. intros Hs. by rewrite IH.
Qed.

Lemma split_lines_nl (s : string) :
  split_lines (nl +:+ s) = "" :: split_lines s.
Proof. reflexivity. Qed.

(** A line break ends the lines of what is before it. *)
Lemma split_lines_app (a b : string) :
  split_lines (a +:+ nl +:+ b) = split_lines a ++ split_lines b.
Proof.
  induction a as [|c a IH]; [done|].
  rewrite string_app_cons. simpl. rewrite IH.
  destruct (Ascii.eqb c newline); [done|].
  pose proof (split_lines_nonempty a). by destruct (split_lines a).
Qed.

Lemma join_String (sep : string) (c : ascii) (line : string) (lines : list string) :
  join sep (String c line :: lines) = String c (join sep (line :: lines)).
Proof. by destruct lines. Qed.

(** Joining the lines gives the string back. *)
Lemma join_split_lines (s : string) : join nl (split_lines s) = s.
Proof.
  induction s as [|c s IH]; [done|]. simpl.
  pose proof (split_lines_nonempty s) as Hne.
  destruct (Ascii.eqb_spec c newline) as [->|_].
  - destruct (split_lines s) as [|line lines]; [done|].
    by rewrite join_cons_cons, IH.
  - destruct (split_lines s) as [|line lines]; [done|].
    by rewrite join_String, IH.
Qed.

(** ** Lemmas on header lines *)

Lemma strip_prefix_app (p s : string) : strip_prefix p (p +:+ s) = Some s.
Proof.
  induction p as [|c p IH]; [done|].
  rewrite string_app_cons. simpl. by rewrite Ascii.eqb_refl.
Qed.

Lemma strip_suffix_unfold (p s : string) :
  strip_suffix p s =
  if String.eqb s p then Some ""
  else match s with
       | "" => None
       | String c s' => String c <$> strip_suffix p s'
       end.
Proof. by destruct s. Qed.

Lemma strip_suffix_app (p s : string) : strip_suffix p (s +:+ p) = Some s.
Proof.
  induction s as [|c s IH].
  - rewrite strip_suffix_unfold, string_app_nil_l. by rewrite String.eqb_refl.
  - rewrite strip_suffix_unfold, string_app_cons.
    destruct (String.eqb_spec (String c (s +:+ p)) p) as [Heq|_].
    + apply (f_equal String.length) in Heq. simpl in Heq.
      rewrite string_length_app in Heq. lia.
    + by rewrite IH.
Qed.

Lemma header_name_header (item : ExtractionResult) :
  header_name (header item) = Some (item_filename item).
Proof.
  unfold header_name, header. rewrite strip_prefix_app. simpl.
  apply strip_suffix_app.
Qed.

Lemma single_line_header (item : ExtractionResult) :
  single_line (item_filename item) = true -> single_line (header item) = true.
Proof.
  intros Hn. unfold header. simpl.
  induction (item_filename item) as [|c s IH]; [done|].
  rewrite string_app_cons. simpl in *.
  apply andb_prop in Hn as [-> Hs]. by apply IH.
Qed.

(** ** The lines of the bundle *)

Lemma split_lines_section (item : ExtractionResult) (rest : string) :
  single_line (item_filename item) = true ->
  split_lines (section item +:+ rest)
  = header item :: text_lines item ++ split_lines rest.
Proof.
  intros Hn%single_line_header%split_lines_single.
  rewrite section_header, !string_app_assoc.
  rewrite (split_lines_app (header item)), Hn, split_lines_nl.
  rewrite (split_lines_app (item_text item)), split_lines_nl.
  unfold text_lines. cbn [app]. by rewrite <- app_assoc.
Qed.

Lemma split_lines_separator (rest : string) :
  split_lines (separator +:+ rest) = "---" :: "" :: split_lines rest.
Proof.
  unfold separator. rewrite !string_app_assoc.
  by rewrite (split_lines_app "---"), split_lines_nl.
Qed.

Lemma split_lines_textContent (items : list ExtractionResult) :
  Forall (fun item => single_line (item_filename item) = true) items ->
  split_lines (textContent items) = bundle_lines items.
Proof.
  induction 1 as [|item rest Hn _ IH]; [done|].
  destruct rest as [|next rest].
  - rewrite textContent_singleton, <- (string_app_nil_r (section item)).
    by rewrite split_lines_section.
  - rewrite textContent_cons, split_lines_section, split_lines_separator by done.
    by rewrite IH.
Qed.

(** ** Lemmas on sections *)

Section Chunks.
Implicit Types (lines rest : list string) (item : ExtractionResult).

Lemma lines_to_header_app lines rest :
  Forall (fun line => header_name line = None) lines ->
  lines_to_header (lines ++ rest) = lines ++ lines_to_header rest.
Proof.
  induction 1 as [|line lines Hl _ IH]; [done|]. simpl. by rewrite Hl, IH.
Qed.

Lemma chunks_app lines rest :
  Forall (fun line => header_name line = None) lines ->
  chunks (lines ++ rest) = chunks rest.
Proof.
  induction 1 as [|line lines Hl _ IH]; [done|]. simpl. by rewrite Hl.
Qed.

Lemma text_lines_no_header item :
  readable item -> Forall (fun line => header_name line = None) (text_lines item).
Proof.
  intros [_ Ht]. unfold text_lines.
  apply Forall_cons; split; [done|]. apply Forall_app; split; [done|].
  by apply Forall_singleton.
Qed.

(** The lines after the header of a section, up to the next header. *)
Lemma lines_to_header_bundle item (items : list ExtractionResult) :
  readable item ->
  lines_to_header
    (text_lines item ++ match items with
                        | [] => [""]
                        | _ :: _ => "---" :: "" :: bundle_lines items
                        end)
  = text_lines item ++ match items with [] => [""] | _ :: _ => ["---"; ""] end.
Proof.
  intros Hr%text_lines_no_header. rewrite lines_to_header_app by done.
  destruct items as [|next rest]; [done|].
  f_equal. cbn [lines_to_header bundle_lines].
  change (header_name "---") with (@None string).
  change (header_name "") with (@None string).
  by rewrite header_name_header.
Qed.

Lemma chunks_bundle_lines item (items : list ExtractionResult) :
  readable item ->
  chunks (bundle_lines (item :: items))
  = (item_filename item,
     text_lines item ++ match items with [] => [""] | _ :: _ => ["---"; ""] end)
    :: chunks (bundle_lines items).
Proof.
  intros Hr. cbn [bundle_lines chunks].
  rewrite header_name_header, lines_to_header_bundle by done.
  f_equal. rewrite chunks_app by by apply text_lines_no_header.
  by destruct items.
Qed.

(** The text of a section, the last one or one before another. *)
Lemma read_text_lines (text : list string) (more : bool) :
  read_text (("" :: text ++ [""]) ++ (if more then ["---"; ""] else [""]))
  = Some (join nl text).
Proof.
  unfold read_text. rewrite rev_app_distr. cbn [rev]. rewrite rev_app_distr.
  destruct more; cbn [rev app]; by rewrite rev_app_distr, rev_involutive.
Qed.

Lemma read_section_lines item (items : list ExtractionResult) :
  read_section
    (item_filename item,
     text_lines item ++ match items with [] => [""] | _ :: _ => ["---"; ""] end)
  = Some item.
Proof.
  unfold read_section, text_lines. cbn [fst snd].
  replace (match items with [] => [""] | _ :: _ => ["---"; ""] end)
    with (if bool_decide (items <> []) then ["---"; ""] else [""])
    by by destruct items.
  rewrite read_text_lines, join_split_lines. by destruct item.
Qed.

Lemma read_bundle_lines (items : list ExtractionResult) :
  Forall readable items ->
  mapM read_section (chunks (bundle_lines items)) = Some items.
Proof.
  induction 1 as [|item rest Hr _ IH]; [done|].
  rewrite chunks_bundle_lines by done. cbn [mapM].
  by rewrite read_section_lines, IH.
Qed.

End Chunks.

(** The reader on the bundle of readable results. *)
Lemma read_textContent_lines (extractedTexts : list ExtractionResult) :
  Forall readable extractedTexts ->
  read_bundle (textContent extractedTexts) = Some extractedTexts.
Proof.
  intros Hr. unfold read_bundle. rewrite split_lines_textContent.
  - by apply read_bundle_lines.
  - eapply Forall_impl; [exact Hr|]. by intros item [Hn _].
Qed.

(** ** Theorems *)

(** C29: the bundle reads back: when the file names hold no line break and
    no line of a text is a header line, the reader finds in the bundle the
    results it was written from, names and texts, in order; so two lists
    of such results with the same bundle are the same list. *)
Theorem read_textContent (extractedTexts : list ExtractionResult) :
  Forall readable extractedTexts ->
  read_bundle (textContent extractedTexts) = Some extractedTexts
  /\ forall others, Forall readable others ->
       textContent others = textContent extractedTexts ->
       others = extractedTexts.
Proof.
  intros Hr. split; [by apply read_textContent_lines|].
  intros ys Hy%read_textContent_lines Heq.
  apply read_textContent_lines in Hr. rewrite Heq in Hy. congruence.
Qed.

(** The reader on the bundle of [TextBundle.one_result], whose text holds
    a header line: it finds the two sections of [two_results]. *)
Theorem read_bundle_ambiguous :
  read_bundle (textContent one_result) = Some two_results
  /\ ~ Forall readable one_result.
Proof.
  split; [reflexivity|]. intros [Hr _]%Forall_cons.
  destruct Hr as [_ Hlines]. by vm_compute in Hlines; decompose_Forall.
Qed.

Lemma read_textContent_witness :
  read_bundle (textContent two_results) = Some two_results.
Proof. apply (read_textContent two_results). by repeat constructor. Defined.
