(* ===== verification/Pdf.v ===== *)
(** * Pdf: the PDF document the handler builds

    The handler drives a [PDFDocument] (pdfkit) with chained calls and
    collects the bytes the document streams out.  The document is kept as
    the state the calls change: the operations in call order, the number of
    pages started, the current font and size, and every text drawn with the
    page, font and size in effect.  The renderer that turns the operations
    into bytes is the interface [PdfRenderer]: it answers with the events of
    the stream ([data], [end], [error]).  [pdfBuffer] is the promise of the
    handler: it fulfils with the concatenated chunks at the first [end] and
    rejects at the first [error]; it stays pending if neither comes. *)

From Stdlib Require Import String List Lia.
From stdpp Require Import base option list strings.
From S2P Require Import Prelude Multipart FanOut Ocr.

(** ** The document *)

(** The options object of [doc.text]. *)
Record TextOptions : Type := {
  underline : option bool;
  align : option string;
  lineGap : option nat;
}.

Inductive PdfOp : Type :=
| OpAddPage
| OpFontSize (size : nat)
| OpFont (name : string)
| OpText (content : string) (options : TextOptions)
| OpMoveDown
| OpEnd.

(** A text as it is drawn: where and in which style. *)
Record Drawn : Type := {
  on_page : nat;
  in_font : string;
  at_size : nat;
  content : string;
  options : TextOptions;
}.

Record PDFDocument : Type := {
  ops : list PdfOp;
  pages : nat;
  cur_font : string;
  cur_size : nat;
  drawn : list Drawn;
  ended : bool;
}.

(** [new PDFDocument()]: the first page is there from the start. *)
Definition new_PDFDocument : PDFDocument :=
  {| ops := []; pages := 1; cur_font := "Helvetica"; cur_size := 12;
     drawn := []; ended := false |}.

(** [doc.addPage()]. *)
Definition addPage (doc : PDFDocument) : PDFDocument :=
  {| ops := ops doc ++ [OpAddPage]; pages := S (pages doc);
     cur_font := cur_font doc; cur_size := cur_size doc;
     drawn := drawn doc; ended := ended doc |}.

(** [doc.fontSize(size)]. *)
Definition fontSize (size : nat) (doc : PDFDocument) : PDFDocument :=
  {| ops := ops doc ++ [OpFontSize size]; pages := pages doc;
     cur_font := cur_font doc; cur_size := size;
     drawn := drawn doc; ended := ended doc |}.

(** [doc.font(name)]. *)
Definition font (name : string) (doc : PDFDocument) : PDFDocument :=
  {| ops := ops doc ++ [OpFont name]; pages := pages doc;
     cur_font := name; cur_size := cur_size doc;
     drawn := drawn doc; ended := ended doc |}.

(** [doc.text(content, options)]. *)
Definition text (s : string) (o : TextOptions) (doc : PDFDocument) : PDFDocument :=
  {| ops := ops doc ++ [OpText s o]; pages := pages doc;
     cur_font := cur_font doc; cur_size := cur_size doc;
     drawn := drawn doc ++
       [{| on_page := pages doc; in_font := cur_font doc;
           at_size := cur_size doc; content := s; options := o |}];
     ended := ended doc |}.

(** [doc.moveDown()]. *)
Definition moveDown (doc : PDFDocument) : PDFDocument :=
  {| ops := ops doc ++ [OpMoveDown]; pages := pages doc;
     cur_font := cur_font doc; cur_size := cur_size doc;
     drawn := drawn doc; ended := ended doc |}.

(** [doc.end()]. *)
Definition end_ (doc : PDFDocument) : PDFDocument :=
  {| ops := ops doc ++ [OpEnd]; pages := pages doc;
     cur_font := cur_font doc; cur_size := cur_size doc;
     drawn := drawn doc; ended := true |}.

(** The texts drawn on page [page] of a document, in the order drawn. *)
Definition texts_on (page : nat) (doc : PDFDocument) : list Drawn :=
  filter (fun t => on_page t = page) (drawn doc).

(** ** What the handler draws *)

Definition heading_options : TextOptions :=
  {| underline := Some true; align := None; lineGap := None |}.

Definition body_options : TextOptions :=
  {| underline := None; align := Some "left"; lineGap := Some 2 |}.

(** The file name as a header. *)
Definition heading (item : ExtractionResult) (doc : PDFDocument) : PDFDocument :=
  text ("Extracted from: " +:+ item_filename item) heading_options
    (font "Helvetica-Bold" (fontSize 16 doc)).

(** The extracted text. *)
Definition body_text (item : ExtractionResult) (doc : PDFDocument) : PDFDocument :=
  text (item_text item) body_options
    (font "Helvetica" (fontSize 12 (moveDown doc))).

(** The callback of [forEach]: a new page for every item but the first,
    then the heading and the text. *)
Definition add_item (item : ExtractionResult) (index : nat) (doc : PDFDocument) : PDFDocument :=
  let doc := if (0 <? index)%nat then addPage doc else doc in
  body_text item (heading item doc).

(** [xs.forEach((item, index) => ...)] from index [i] on, threading the
    state the callback changes. *)
Fixpoint forEach_from {X St : Type} (f : X -> nat -> St -> St) (i : nat) (xs : list X) (s : St) : St :=
  match xs with
  | [] => s
  | x :: rest => forEach_from f (S i) rest (f x i s)
  end.

Definition forEach {X St : Type} (f : X -> nat -> St -> St) (xs : list X) (s : St) : St :=
  forEach_from f 0 xs s.

(** The document once the executor has run: every item added, then
    [doc.end()]. *)
Definition build_document (extractedTexts : list ExtractionResult) : PDFDocument :=
  end_ (forEach add_item extractedTexts new_PDFDocument).

(** ** The stream *)

Inductive StreamEvent : Type :=
| EvData (chunk : bytes)
| EvEnd
| EvError (e : Thrown).

(** The renderer: the events the document emits for the operations made. *)
Class PdfRenderer : Type := render : list PdfOp -> list StreamEvent.

(** The three listeners of the executor on the events in order: [data]
    pushes the chunk, [end] resolves with the concatenation of the chunks
    pushed so far, [error] rejects.  A promise settles once: the first of
    [end] and [error] decides.  [None]: the promise is still pending when
    the events are over. *)
Fixpoint settle_stream (chunks : list bytes) (events : list StreamEvent) : option (Exn bytes) :=
  match events with
  | [] => None
  | EvData chunk :: rest => settle_stream (chunks ++ [chunk]) rest
  | EvEnd :: _ => Some (Return (Buffer_concat chunks))
  | EvError e :: _ => Some (Throw e)
  end.

(** [await new Promise(...)]: the PDF bytes, a rejection, or no answer. *)
Definition pdfBuffer `{PdfRenderer} (extractedTexts : list ExtractionResult) : option (Exn bytes) :=
  settle_stream [] (render (ops (build_document extractedTexts))).

(** The operations the callback makes for one item. *)
Definition item_ops (item : ExtractionResult) (index : nat) : list PdfOp :=
  (if (0 <? index)%nat then [OpAddPage] else [])
  ++ [OpFontSize 16; OpFont "Helvetica-Bold";
      OpText ("Extracted from: " +:+ item_filename item) heading_options;
      OpMoveDown; OpFontSize 12; OpFont "Helvetica";
      OpText (item_text item) body_options].

(** The texts the callback draws for one item on page [page]. *)
Definition item_drawn (item : ExtractionResult) (page : nat) : list Drawn :=
  [{| on_page := page; in_font := "Helvetica-Bold"; at_size := 16;
      content := "Extracted from: " +:+ item_filename item;
      options := heading_options |};
   {| on_page := page; in_font := "Helvetica"; at_size := 12;
      content := item_text item; options := body_options |}].

(** The operations of the items from index [i] on, in order. *)
Fixpoint items_ops (i : nat) (items : list ExtractionResult) : list PdfOp :=
  match items with
  | [] => []
  | item :: rest => item_ops item i ++ items_ops (S i) rest
  end.

(** The texts of the items in order, the first of them on page [page]
    and each of the others on the page after. *)
Fixpoint items_drawn (page : nat) (items : list ExtractionResult) : list Drawn :=
  match items with
  | [] => []
  | item :: rest => item_drawn item page ++ items_drawn (S page) rest
  end.

(** ** Lemmas *)

Lemma add_item_ops (item : ExtractionResult) (index : nat) (doc : PDFDocument) :
  ops (add_item item index doc) = ops doc ++ item_ops item index.
Proof.
  unfold add_item, item_ops. destruct (0 <? index)%nat; simpl;
    by rewrite <- ?app_assoc.
Qed.

Lemma add_item_pages (item : ExtractionResult) (index : nat) (doc : PDFDocument) :
  pages (add_item item index doc) =
  if (0 <? index)%nat then S (pages doc) else pages doc.
Proof. unfold add_item. by destruct (0 <? index)%nat. Qed.

Lemma add_item_drawn (item : ExtractionResult) (index : nat) (doc : PDFDocument) :
  drawn (add_item item index doc) =
  drawn doc ++ item_drawn item (pages (add_item item index doc)).
Proof.
  unfold add_item, item_drawn. destruct (0 <? index)%nat; simpl;
    by rewrite <- ?app_assoc.
Qed.

Lemma add_item_ended (item : ExtractionResult) (index : nat) (doc : PDFDocument) :
  ended (add_item item index doc) = ended doc.
Proof. unfold add_item. by destruct (0 <? index)%nat. Qed.

Lemma forEach_from_app {X St : Type} (f : X -> nat -> St -> St) (i : nat) (xs ys : list X) (s : St) :
  forEach_from f i (xs ++ ys) s =
  forEach_from f (i + length xs) ys (forEach_from f i xs s).
Proof.
  revert i s. induction xs as [|x xs IH]; intros i s; simpl.
  - by rewrite Nat.add_0_r.
  - rewrite IH. f_equal. lia.
Qed.

Lemma forEach_from_ops (i : nat) (items : list ExtractionResult) (doc : PDFDocument) :
  ops (forEach_from add_item i items doc) = ops doc ++ items_ops i items.
Proof.
  revert i doc. induction items as [|item rest IH]; intros i doc; simpl.
  - by rewrite app_nil_r.
  - by rewrite IH, add_item_ops, <- app_assoc.
Qed.

(** From index 1 on every item starts a page. *)
Lemma forEach_from_pages (i : nat) (items : list ExtractionResult) (doc : PDFDocument) :
  (0 < i)%nat ->
  pages (forEach_from add_item i items doc) = (pages doc + length items)%nat.
Proof.
  revert i doc. induction items as [|item rest IH]; intros i doc Hi; simpl.
  - lia.
  - rewrite IH by lia. rewrite add_item_pages.
    destruct (Nat.ltb_spec 0 i); lia.
Qed.

Lemma forEach_from_ended (i : nat) (items : list ExtractionResult) (doc : PDFDocument) :
  ended (forEach_from add_item i items doc) = ended doc.
Proof.
  revert i doc. induction items as [|item rest IH]; intros i doc; simpl; [done|].
  by rewrite IH, add_item_ended.
Qed.

Lemma settle_stream_data (chunks : list bytes) (data_chunks : list bytes) (rest : list StreamEvent) :
  settle_stream chunks ((EvData <$> data_chunks) ++ rest) =
  settle_stream (chunks ++ data_chunks) rest.
Proof.
  revert chunks. induction data_chunks as [|c cs IH]; intros chunks; simpl.
  - by rewrite app_nil_r.
  - rewrite IH. by rewrite <- app_assoc.
Qed.

Lemma forEach_from_drawn (i : nat) (items : list ExtractionResult) (doc : PDFDocument) :
  (0 < i)%nat ->
  drawn (forEach_from add_item i items doc) =
  drawn doc ++ items_drawn (S (pages doc)) items.
Proof.
  revert i doc. induction items as [|item rest IH]; intros i doc Hi; simpl.
  - by rewrite app_nil_r.
  - rewrite IH, add_item_drawn, add_item_pages by lia.
    destruct (Nat.ltb_spec 0 i); [|lia]. by rewrite <- app_assoc.
Qed.

(** The state of the document when [forEach] is over. *)
Lemma forEach_add_item (items : list ExtractionResult) :
  let doc := forEach add_item items new_PDFDocument in
  ops doc = items_ops 0 items
  /\ pages doc = Nat.max 1 (length items)
  /\ drawn doc = items_drawn 1 items
  /\ ended doc = false.
Proof.
  unfold forEach. split_and!.
  - apply forEach_from_ops.
  - destruct items as [|item rest]; [done|]. simpl.
    rewrite forEach_from_pages by lia. rewrite add_item_pages. simpl. lia.
  - destruct items as [|item rest]; [done|]. simpl.
    by rewrite forEach_from_drawn, add_item_drawn, add_item_pages by lia.
  - apply forEach_from_ended.
Qed.

(** Where the two texts of the item at index [i] are among the texts
    drawn from page [page] on. *)
Lemma items_drawn_lookup (items : list ExtractionResult) (i page : nat) (item : ExtractionResult) :
  items !! i = Some item ->
  items_drawn page items !! (2 * i)%nat = head (item_drawn item (page + i))
  /\ items_drawn page items !! (2 * i + 1)%nat = last (item_drawn item (page + i)).
Proof.
  revert i page. induction items as [|x rest IH]; intros i page Hi; [done|].
  destruct i as [|i]; simpl in Hi.
  - simplify_eq. by rewrite Nat.add_0_r.
  - destruct (IH i (S page) Hi) as [Hh Hl].
    replace (page + S i)%nat with (S page + i)%nat by lia.
    replace (2 * S i)%nat with (S (S (2 * i))) by lia.
    replace (S (S (2 * i)) + 1)%nat with (S (S (2 * i + 1))) by lia.
    done.
Qed.

(** ** The texts of a page *)

Lemma filter_item_drawn (item : ExtractionResult) (page q : nat) :
  filter (fun t => on_page t = page) (item_drawn item q)
  = if decide (q = page) then item_drawn item q else [].
Proof.
  unfold item_drawn. rewrite !filter_cons, filter_nil. simpl.
  by destruct (decide (q = page)).
Qed.

(** Among the texts of the items drawn from page [q] on, those on page
    [page] are the two texts of the item at index [page - q]. *)
Lemma filter_items_drawn (items : list ExtractionResult) (page q : nat) :
  filter (fun t => on_page t = page) (items_drawn q items)
  = if decide (q <= page)
    then from_option (fun item => item_drawn item page) [] (items !! (page - q))
    else [].
Proof.
  revert q. induction items as [|item rest IH]; intros q; cbn [items_drawn].
  - rewrite filter_nil, lookup_nil. by destruct (decide (q <= page)).
  - rewrite filter_app, filter_item_drawn, IH.
    destruct (decide (q = page)) as [->|Hne].
    + rewrite (decide_False (P := S page <= page)),
        (decide_True (P := page <= page)) by lia.
      by rewrite Nat.sub_diag, app_nil_r.
    + destruct (decide (q <= page)) as [Hle|Hgt].
      * rewrite (decide_True (P := S q <= page)) by lia.
        by replace (page - q) with (S (page - S q)) by lia.
      * by rewrite (decide_False (P := S q <= page)) by lia.
Qed.

(** ** Theorems *)

(** C18: every page of the document holds the heading and the text of
    its result and nothing else: on page [i + 1] there are exactly two
    texts, the file name of the result at index [i] as an underlined
    heading in Helvetica-Bold 16 and after it its text in Helvetica 12,
    left aligned with a line gap of 2; no text is on another page, no
    page of a result is empty, and the document is ended.  (The pages
    pdfkit adds by itself when a text does not fit are not counted.) *)
Theorem page_holds_its_result (extractedTexts : list ExtractionResult) (i : nat) :
  texts_on (S i) (build_document extractedTexts)
  = from_option (fun item => item_drawn item (S i)) [] (extractedTexts !! i)
  /\ texts_on 0 (build_document extractedTexts) = []
  /\ ended (build_document extractedTexts) = true.
Proof.
  unfold texts_on. simpl.
  destruct (forEach_add_item extractedTexts) as (_ & _ & -> & _).
  rewrite !filter_items_drawn.
  rewrite (decide_True (P := 1 <= S i)), (decide_False (P := 1 <= 0)) by lia.
  by replace (S i - 1) with i by lia.
Qed.

(** C8: the document has one page per result, the page it starts with
    when there is no result: the first result is written on the page the
    document starts with, every other one on a page of its own. *)
Theorem pages_one_per_item (extractedTexts : list ExtractionResult) :
  pages (build_document extractedTexts) = Nat.max 1 (length extractedTexts).
Proof. apply (forEach_add_item extractedTexts). Qed.

(** The calls made on the document are, for each result in order, the
    page break (but for the first), the heading in Helvetica-Bold 16 and
    the text in Helvetica 12, and then [end], once and last. *)
Theorem operations_in_order (extractedTexts : list ExtractionResult) :
  ops (build_document extractedTexts) = items_ops 0 extractedTexts ++ [OpEnd]
  /\ ended (build_document extractedTexts) = true.
Proof.
  split; [|done]. simpl. f_equal. apply (forEach_add_item extractedTexts).
Qed.

(** The result at index [i] is drawn on page [i + 1]: its file name
    as an underlined heading in Helvetica-Bold at size 16, and right after
    it its text in Helvetica at size 12, aligned left with a line gap of 2. *)
Theorem item_drawn_on_its_page (extractedTexts : list ExtractionResult) (i : nat) (item : ExtractionResult) :
  extractedTexts !! i = Some item ->
  drawn (build_document extractedTexts) !! (2 * i)%nat =
    Some {| on_page := S i; in_font := "Helvetica-Bold"; at_size := 16;
            content := "Extracted from: " +:+ item_filename item;
            options := heading_options |}
  /\ drawn (build_document extractedTexts) !! (2 * i + 1)%nat =
    Some {| on_page := S i; in_font := "Helvetica"; at_size := 12;
            content := item_text item; options := body_options |}.
Proof.
  intros Hi. simpl.
  destruct (forEach_add_item extractedTexts) as (_ & _ & -> & _).
  apply (items_drawn_lookup _ _ 1 _ Hi).
Qed.

(** The promise of the PDF bytes settles on the first [end] or
    [error] of the stream: it fulfils with the chunks received before the
    [end], in order, or rejects with the error; it stays pending when the
    stream gives only data. *)
Theorem settle_stream_first (chunks : list bytes) (e : Thrown) (rest : list StreamEvent) :
  settle_stream [] ((EvData <$> chunks) ++ EvEnd :: rest)
    = Some (Return (Buffer_concat chunks))
  /\ settle_stream [] ((EvData <$> chunks) ++ EvError e :: rest) = Some (Throw e)
  /\ settle_stream [] (EvData <$> chunks) = None.
Proof.
  split_and!; [by rewrite settle_stream_data..|].
  by rewrite <- (app_nil_r (EvData <$> chunks)), settle_stream_data.
Qed.

Lemma item_drawn_on_its_page_witness :
  drawn (build_document
           [{| item_filename := "a.png"; item_text := "x" |};
            {| item_filename := "b.png"; item_text := "y" |}]) !! 3%nat =
  Some {| on_page := 2; in_font := "Helvetica"; at_size := 12;
          content := "y"; options := body_options |}.
Proof.
  refine (proj2 (item_drawn_on_its_page
                   [{| item_filename := "a.png"; item_text := "x" |};
                    {| item_filename := "b.png"; item_text := "y" |}] 1
                   {| item_filename := "b.png"; item_text := "y" |} _)).
  reflexivity.
Defined.
