(* ===== verification/Handler.v ===== *)
(** * Handler: [convertImageToText], the HTTP function

    The definitions follow the handler statement by statement.  The
    synchronous steps of the [try] block are computations in [Exn]
    ([boundary], [parts], [imageFiles]); the two [await]s are
    [extractedTexts] (the promise of [Promise.all] over the OCR calls, which
    depends on the schedule of their events) and [pdfBuffer] (the PDF
    stream); [convertImageToText] threads the response through the calls
    that mutate it and returns it with the console lines and whether the
    handler has answered.

    The handler is parametric in the three libraries it calls
    ([MultipartLib], [OcrEngine], [PdfRenderer]) and in the schedule.  Its
    contract is [allowed]: the outcomes a request may have, stated without
    schedules; [handler_refines_contract] shows that the handler implements
    it, and the other theorems give each path in detail. *)

From Stdlib Require Import String List Lia.
From Stdlib Require Import Strings.Byte.
From stdpp Require Import base option list strings gmap.
From S2P Require Import Prelude Json Base64 Http Multipart FanOut Ocr TextBundle Pdf.
Local Open Scope js_scope.

(** ** Deployment options *)

(** The options object passed to [onRequest]. *)
Record RuntimeOptions : Type := {
  timeoutSeconds : nat;
  memory : string;
}.

Definition runtime_options : RuntimeOptions :=
  {| timeoutSeconds := 180; memory := "1GiB" |}.

(** ** Console *)

(** A line of [console.log], or the arguments of [console.error]. *)
Inductive ConsoleEntry : Type :=
| Log (line : string)
| LogError (label : string) (e : Thrown).

(** ** What the handler answers with *)

(** The object of the successful answer. *)
Record ResponsePayload : Type := {
  payload_pdf : string;
  payload_text : string;
}.

Definition payload_object (payload : ResponsePayload) : JsObject :=
  [("pdf", Some (payload_pdf payload)); ("text", Some (payload_text payload))].

(** The object of the failure answer; [details] is [error.message]. *)
Definition error_object (error : Thrown) : JsObject :=
  [("error", Some "Failed to process images"); ("details", message error)].

(** A string between double quotes, as it stands in a JSON text when none
    of its characters needs an escape. *)
Definition in_quotes (s : string) : string :=
  String dquote (s +:+ String dquote "").

(** What a call of the handler leaves: the response, the console lines, and
    whether the handler has returned ([false]: it is still waiting on a
    promise that did not settle). *)
Record Result : Type := {
  response : Response;
  logged : list ConsoleEntry;
  returned_ : bool;
}.

Section Handler.
Context `{MultipartLib} `{OcrEngine} `{PdfRenderer}.

(** ** The steps *)

(** The three CORS headers, set before anything else. *)
Definition enable_cors (response : Response) : Response :=
  res_set "Access-Control-Allow-Headers" "Content-Type"
    (res_set "Access-Control-Allow-Methods" "POST"
      (res_set "Access-Control-Allow-Origin" "*" response)).

(** [request.method === "OPTIONS"]. *)
Definition is_preflight (request : Request) : bool :=
  String.eqb (method request) "OPTIONS".

(** The answer to a preflight request. *)
Definition preflight (response : Response) : Response :=
  res_send "" (res_status 204 response).

(** [request.headers["content-type"] || ""]. *)
Definition content_type (request : Request) : string :=
  js_or (headers request !! "content-type") "".

(** The boundary of the upload, or the first error of the [try] block. *)
Definition boundary (request : Request) : Exn string :=
  let b := getBoundary (content_type request) in
  if truthy b then Return b
  else throw! "No boundary found in content-type header".

(** The parts of the upload; no array or an empty one is an error. *)
Definition parts (request : Request) (boundary : string) : Exn (list Part) :=
  let! parsed := parse (body request) boundary in
  match parsed with
  | Some (part :: rest) => Return (part :: rest)
  | _ => throw! "No files uploaded"
  end.

(** The image parts; none is an error. *)
Definition imageFiles (parts : list Part) : Exn (list Part) :=
  let! files := filterE is_image parts in
  if (length files =? 0)%nat then throw! "No valid image files found"
  else Return files.

(** The synchronous steps up to the fan-out. *)
Definition upload (request : Request) : Exn (list Part) :=
  let! b := boundary request in
  let! ps := parts request b in
  imageFiles ps.

(** [await Promise.all(imageFiles.map(...))]: the pool at the event that
    settles the join, and the picks of the schedule not yet run. *)
Definition extractedTexts (sched : list nat) (files : list Part)
  : Pool ExtractionResult * list nat :=
  run_until_settled sched (start (ocr_tasks files)).

(** The object passed to [response.json] on success. *)
Definition payload (pdf : bytes) (extracted : list ExtractionResult) : ResponsePayload :=
  {| payload_pdf := base64_encode pdf;
     payload_text := base64_encode (Buffer_from (textContent extracted)) |}.

(** The end of the [try] block. *)
Definition send_success (p : ResponsePayload) (response : Response) : Response :=
  res_json (payload_object p) (res_set "Content-Type" "application/json" response).

(** The [catch] block. *)
Definition send_failure (error : Thrown) (response : Response) : Response :=
  res_json (error_object error) (res_status 500 response).

(** What a [catch] clause may bind: a value of which properties can be
    read, or [undefined] (a promise rejected with no reason). *)
Inductive Caught : Type :=
| Value (error : Thrown)
| Undefined.

(** The [catch] block on any caught value, with what the block itself
    throws.  [response.status(500)] is called first; the argument of
    [.json] is evaluated next, and reading [error.message] of
    [undefined] throws before anything is sent. *)
Definition catch_block (error : Caught) (response : Response) : Response * option Thrown :=
  let response := res_status 500 response in
  match error with
  | Value e => (res_json (error_object e) response, None)
  | Undefined => (response, Some (TypeError_undefined "message"))
  end.

(** The console lines of a pool, in the order printed. *)
Definition pool_lines (p : Pool ExtractionResult) : list ConsoleEntry :=
  (fun e => Log e.2) <$> console p.

(** The lines the calls still running print after the handler has
    answered a failure. *)
Definition late_lines (p : Pool ExtractionResult) (rest : list nat) : list ConsoleEntry :=
  drop (length (console p)) (pool_lines (run rest p)).

(** The [try] block after the upload has been read: the value it ends
    with ([None]: an awaited promise never settles), the console lines
    printed while it ran, and the lines printed after it ended. *)
Definition convert (sched : list nat) (files : list Part)
  : option (Exn ResponsePayload) * list ConsoleEntry * list ConsoleEntry :=
  let '(pool, rest) := extractedTexts sched files in
  match await pool with
  | None => (None, pool_lines pool, [])
  | Some (Throw e) => (Some (Throw e), pool_lines pool, late_lines pool rest)
  | Some (Return extracted) =>
      match pdfBuffer extracted with
      | None => (None, pool_lines pool, [])
      | Some (Throw e) => (Some (Throw e), pool_lines pool, [])
      | Some (Return pdf) =>
          (Some (Return (payload pdf extracted)), pool_lines pool, [])
      end
  end.

(** The whole [try] block. *)
Definition try_block (sched : list nat) (request : Request)
  : option (Exn ResponsePayload) * list ConsoleEntry * list ConsoleEntry :=
  match upload request with
  | Throw e => (Some (Throw e), [], [])
  | Return files => convert sched files
  end.

(** ** The handler *)

Definition convertImageToText (sched : list nat) (request : Request) (response : Response) : Result :=
  let response := enable_cors response in
  if is_preflight request then
    {| response := preflight response; logged := []; returned_ := true |}
  else
    match try_block sched request with
    | (None, lines, _) =>
        {| response := response; logged := lines; returned_ := false |}
    | (Some (Return p), lines, _) =>
        {| response := send_success p response; logged := lines;
           returned_ := true |}
    | (Some (Throw error), lines, late) =>
        {| response := send_failure error response;
           logged := lines ++ [LogError "Error:" error] ++ late;
           returned_ := true |}
    end.

(** ** What a client reads *)

(** The CORS headers are on the response. *)
Definition has_cors (response : Response) : Prop :=
  res_get "Access-Control-Allow-Origin" response = Some "*"
  /\ res_get "Access-Control-Allow-Methods" response = Some "POST"
  /\ res_get "Access-Control-Allow-Headers" response = Some "Content-Type".

(** ** The contract of the handler *)

(** What a call of the handler may come to, whatever the schedule. *)
Inductive Outcome : Type :=
| Preflight
| Failure (e : Thrown)
| Success (pdf : bytes) (extracted : list ExtractionResult)
| Waiting.

(** The response an outcome leaves, from the response with the CORS
    headers. *)
Definition answer_of (o : Outcome) (response : Response) : Response :=
  match o with
  | Preflight => preflight response
  | Failure e => send_failure e response
  | Success pdf extracted => send_success (payload pdf extracted) response
  | Waiting => response
  end.

Definition answered (o : Outcome) : bool :=
  match o with Waiting => false | _ => true end.

(** The outcomes the contract allows for a request, in terms of the
    request and of what the libraries do with it: no schedule, no pool. *)
Inductive allowed (request : Request) : Outcome -> Prop :=
| allowed_preflight :
    method request = "OPTIONS" -> allowed request Preflight
| allowed_upload_failure e :
    method request <> "OPTIONS" -> upload request = Throw e ->
    allowed request (Failure e)
| allowed_ocr_failure files file e :
    method request <> "OPTIONS" -> upload request = Return files ->
    file ∈ files -> outcome (recognize (data file) "eng") = Throw e ->
    allowed request (Failure e)
| allowed_pdf_failure files texts e :
    method request <> "OPTIONS" -> upload request = Return files ->
    recognised files texts ->
    pdfBuffer (zip_with extraction files texts) = Some (Throw e) ->
    allowed request (Failure e)
| allowed_success files texts pdf :
    method request <> "OPTIONS" -> upload request = Return files ->
    recognised files texts ->
    pdfBuffer (zip_with extraction files texts) = Some (Return pdf) ->
    allowed request (Success pdf (zip_with extraction files texts))
| allowed_waiting files :
    method request <> "OPTIONS" -> upload request = Return files ->
    allowed request Waiting.

End Handler.

Section HandlerFacts.
Context `{MultipartLib} `{OcrEngine} `{PdfRenderer}.
Implicit Types (request : Request) (sched : list nat) (e : Thrown).

(** ** The response through the calls that mutate it *)

Lemma has_cors_enable_cors (r : Response) : has_cors (enable_cors r).
Proof.
  unfold has_cors, enable_cors, res_get, res_set. simpl.
  split_and!; by simplify_map_eq.
Qed.

Lemma has_cors_status (code : nat) (r : Response) :
  has_cors r -> has_cors (res_status code r).
Proof. done. Qed.

Lemma has_cors_send (s : string) (r : Response) : has_cors r -> has_cors (res_send s r).
Proof. done. Qed.

Lemma has_cors_json (obj : JsObject) (r : Response) :
  has_cors r -> has_cors (res_json obj r).
Proof. unfold has_cors. by rewrite !res_get_json_ne by done. Qed.

Lemma has_cors_set_content_type (v : string) (r : Response) :
  has_cors r -> has_cors (res_set "Content-Type" v r).
Proof. unfold has_cors. by rewrite !res_get_set_ne by done. Qed.

Lemma has_cors_preflight (r : Response) : has_cors r -> has_cors (preflight r).
Proof. done. Qed.

Lemma has_cors_send_success (p : ResponsePayload) (r : Response) :
  has_cors r -> has_cors (send_success p r).
Proof. intros Hr. by apply has_cors_json, has_cors_set_content_type. Qed.

Lemma has_cors_send_failure e (r : Response) :
  has_cors r -> has_cors (send_failure e r).
Proof. intros Hr. by apply has_cors_json, has_cors_status. Qed.

Lemma sent_enable_cors (r : Response) : sent (enable_cors r) = sent r.
Proof. reflexivity. Qed.

Lemma statusCode_enable_cors (r : Response) :
  statusCode (enable_cors r) = statusCode r.
Proof. reflexivity. Qed.

Lemma sent_send_success (p : ResponsePayload) (r : Response) :
  sent (send_success p r) = sent r ++ [stringify (payload_object p)].
Proof. unfold send_success. by rewrite sent_json. Qed.

Lemma sent_send_failure e (r : Response) :
  sent (send_failure e r) = sent r ++ [stringify (error_object e)].
Proof. unfold send_failure. by rewrite sent_json. Qed.

(** On a value that has properties the [catch] block is [send_failure]
    and throws nothing. *)
Lemma catch_block_value e (r : Response) :
  catch_block (Value e) r = (send_failure e r, None).
Proof. done. Qed.

(** On [undefined] the [catch] block sets the status to 500, sends
    nothing and throws a [TypeError]: the request is never answered. *)
Lemma catch_block_undefined (r : Response) :
  statusCode (catch_block Undefined r).1 = 500
  /\ sent (catch_block Undefined r).1 = sent r
  /\ (catch_block Undefined r).2 = Some (TypeError_undefined "message").
Proof. done. Qed.

Lemma statusCode_send_success (p : ResponsePayload) (r : Response) :
  statusCode (send_success p r) = statusCode r.
Proof. unfold send_success. by rewrite statusCode_json. Qed.

Lemma statusCode_send_failure e (r : Response) :
  statusCode (send_failure e r) = 500.
Proof. unfold send_failure. by rewrite statusCode_json. Qed.

Lemma content_type_send_success (p : ResponsePayload) (r : Response) :
  res_get "Content-Type" (send_success p r) = Some "application/json".
Proof.
  unfold send_success. by rewrite res_get_json_content_type, res_get_set_eq.
Qed.

(** ** The handler by cases *)

(** The handler on a preflight request. *)
Lemma handler_preflight sched request response0 :
  is_preflight request = true ->
  convertImageToText sched request response0 =
  {| response := preflight (enable_cors response0); logged := [];
     returned_ := true |}.
Proof. intros Hp. unfold convertImageToText. by rewrite Hp. Qed.

(** The handler when the [try] block throws. *)
Lemma handler_throw sched request response0 e lines late :
  is_preflight request = false ->
  try_block sched request = (Some (Throw e), lines, late) ->
  convertImageToText sched request response0 =
  {| response := send_failure e (enable_cors response0);
     logged := lines ++ [LogError "Error:" e] ++ late;
     returned_ := true |}.
Proof. intros Hp Ht. unfold convertImageToText. by rewrite Hp, Ht. Qed.

(** The handler when the [try] block runs to its end. *)
Lemma handler_return sched request response0 p lines late :
  is_preflight request = false ->
  try_block sched request = (Some (Return p), lines, late) ->
  convertImageToText sched request response0 =
  {| response := send_success p (enable_cors response0);
     logged := lines; returned_ := true |}.
Proof. intros Hp Ht. unfold convertImageToText. by rewrite Hp, Ht. Qed.

(** The handler when an awaited promise does not settle. *)
Lemma handler_pending sched request response0 lines late :
  is_preflight request = false ->
  try_block sched request = (None, lines, late) ->
  convertImageToText sched request response0 =
  {| response := enable_cors response0; logged := lines; returned_ := false |}.
Proof. intros Hp Ht. unfold convertImageToText. by rewrite Hp, Ht. Qed.

(** The response and the return of the handler from the value of the
    [try] block. *)
Lemma handler_by_try sched request response0 :
  is_preflight request = false ->
  let r := convertImageToText sched request response0 in
  response r
  = match (try_block sched request).1.1 with
    | None => enable_cors response0
    | Some (Return p) => send_success p (enable_cors response0)
    | Some (Throw e) => send_failure e (enable_cors response0)
    end
  /\ returned_ r = bool_decide (is_Some (try_block sched request).1.1).
Proof.
  intros Hp. unfold convertImageToText. rewrite Hp.
  by destruct (try_block sched request) as [[[[p|e]|] lines] late].
Qed.

(** The four ways a call of the handler ends. *)
Lemma handler_cases sched request response0 :
  let r := convertImageToText sched request response0 in
  (is_preflight request = true /\ response r = preflight (enable_cors response0)
     /\ returned_ r = true)
  \/ (exists e, is_preflight request = false
        /\ response r = send_failure e (enable_cors response0)
        /\ returned_ r = true)
  \/ (exists p, is_preflight request = false
        /\ response r = send_success p (enable_cors response0)
        /\ returned_ r = true)
  \/ (is_preflight request = false /\ response r = enable_cors response0
        /\ returned_ r = false).
Proof.
  intros r. subst r. unfold convertImageToText.
  destruct (is_preflight request); [by left|]. right.
  destruct (try_block sched request) as [[[[p|e]|] lines] late]; simpl.
  - right. left. eauto.
  - left. eauto.
  - by right; right.
Qed.

Lemma is_preflight_spec request :
  is_preflight request = true <-> method request = "OPTIONS".
Proof. unfold is_preflight. apply String.eqb_eq. Qed.

(** ** The synchronous steps *)

Lemma boundary_missing request :
  getBoundary (content_type request) = "" ->
  boundary request = Throw (new_Error "No boundary found in content-type header").
Proof. intros Hb. unfold boundary. by rewrite Hb. Qed.

Lemma boundary_found request :
  truthy (getBoundary (content_type request)) = true ->
  boundary request = Return (getBoundary (content_type request)).
Proof. intros Hb. unfold boundary. by rewrite Hb. Qed.

Lemma parts_none request b :
  parse (body request) b = Return None \/ parse (body request) b = Return (Some []) ->
  parts request b = Throw (new_Error "No files uploaded").
Proof. by intros [Hp|Hp]; unfold parts; rewrite Hp. Qed.

Lemma parts_some request b ps :
  parse (body request) b = Return (Some ps) -> ps <> [] ->
  parts request b = Return ps.
Proof. intros Hp Hne. unfold parts. rewrite Hp. by destruct ps. Qed.

Lemma parts_throw request b e :
  parse (body request) b = Throw e -> parts request b = Throw e.
Proof. intros Hp. unfold parts. by rewrite Hp. Qed.

Lemma imageFiles_typed ps :
  typed ps ->
  imageFiles ps =
  if (length (List.filter image_type ps) =? 0)%nat
  then Throw (new_Error "No valid image files found")
  else Return (List.filter image_type ps).
Proof. intros Ht. unfold imageFiles. by rewrite filterE_is_image_typed. Qed.

Lemma imageFiles_untyped ps :
  ~ typed ps -> imageFiles ps = Throw (TypeError_undefined "startsWith").
Proof. intros Ht. unfold imageFiles. by rewrite filterE_is_image_untyped. Qed.

(** What [imageFiles] returns is not empty, holds images only, and keeps
    the order of the parts. *)
Lemma imageFiles_Return ps files :
  imageFiles ps = Return files ->
  files <> [] /\ files = List.filter image_type ps /\ typed ps.
Proof.
  unfold imageFiles. destruct (decide (typed ps)) as [Ht|Ht].
  - rewrite filterE_is_image_typed by done. simpl.
    destruct (Nat.eqb_spec (length (List.filter image_type ps)) 0); [done|].
    intros [= <-]. split_and!; [|done..]. by destruct (List.filter _ _).
  - by rewrite filterE_is_image_untyped.
Qed.

End HandlerFacts.

(** ** Test doubles of the three libraries, for the witnesses *)

Definition png (name : string) (image : bytes) : Part :=
  {| filename := Some name; type := Some "image/png"; data := image |}.

Definition attachment (name : string) : Part :=
  {| filename := Some name; type := Some "application/pdf"; data := [x01] |}.

Definition form_field : Part :=
  {| filename := None; type := None; data := [x01] |}.

(** A parser that finds the boundary [XYZ] in a multipart content type and
    returns the given parts. *)
Definition fake_multipart (ps : option (list Part)) : MultipartLib :=
  {| getBoundary h :=
       if startsWith h "multipart/form-data; boundary=" then "XYZ" else "";
     parse _ _ := Return ps |}.

(** An engine that rejects an empty image and reads ["text"] in any
    other, after two progress reports. *)
Definition fake_ocr : OcrEngine := fun image _ =>
  match image with
  | [] => {| statuses := [Some "loading"];
             outcome := Throw (new_Error "empty image") |}
  | _ => {| statuses := [Some "loading"; Some "recognizing"];
            outcome := Return "text" |}
  end.

(** A renderer that streams one chunk and ends. *)
Definition fake_renderer : PdfRenderer := fun _ =>
  [EvData [x25; x50; x44; x46]; EvEnd].

(** A renderer whose stream never ends. *)
Definition stalled_renderer : PdfRenderer := fun _ => [EvData [x25]].

Definition failing_renderer : PdfRenderer := fun _ =>
  [EvData [x25]; EvError (new_Error "write after end")].

Definition upload_request (m : string) : Request :=
  {| method := m;
     headers := {["content-type" := "multipart/form-data; boundary=XYZ"]};
     body := [x2d; x2d] |}.

Definition bare_request (m : string) : Request :=
  {| method := m; headers := ∅; body := [] |}.

Section HandlerTheorems.
Context `{MultipartLib} `{OcrEngine} `{PdfRenderer}.
Implicit Types (request : Request) (sched : list nat) (e : Thrown).

(** ** Preflight and CORS *)

(** C4: a request whose method is OPTIONS is answered with status 204 and
    an empty body, once, with the CORS headers, whatever else it holds. *)
Theorem preflight_204 sched request response0 :
  method request = "OPTIONS" ->
  let r := convertImageToText sched request response0 in
  statusCode (response r) = 204
  /\ sent (response r) = sent response0 ++ [""]
  /\ returned_ r = true /\ logged r = [] /\ has_cors (response r).
Proof.
  intros Hm%is_preflight_spec r. subst r. rewrite handler_preflight by done.
  simpl. split_and!; try done. apply has_cors_preflight, has_cors_enable_cors.
Qed.

(** C6: every call of the handler leaves the three CORS headers on the
    response, on every path and whether or not it has answered. *)
Theorem cors_on_every_response sched request response0 :
  has_cors (response (convertImageToText sched request response0)).
Proof.
  pose proof (has_cors_enable_cors response0) as Hc.
  destruct (handler_cases sched request response0)
    as [(_ & -> & _) | [(e & _ & -> & _) | [(p & _ & -> & _) | (_ & -> & _)]]].
  - by apply has_cors_preflight.
  - by apply has_cors_send_failure.
  - by apply has_cors_send_success.
  - done.
Qed.

(** The handler answers exactly once when it returns, and not at all
    while it waits. *)
Theorem answers_exactly_once sched request response0 :
  let r := convertImageToText sched request response0 in
  exists payload_sent,
    sent (response r) =
    sent response0 ++ (if returned_ r then [payload_sent] else []).
Proof.
  intros r. subst r.
  destruct (handler_cases sched request response0)
    as [(_ & -> & ->) | [(e & _ & -> & ->) | [(p & _ & -> & ->) | (_ & -> & ->)]]].
  - by exists "".
  - exists (stringify (error_object e)). by rewrite sent_send_failure.
  - exists (stringify (payload_object p)). by rewrite sent_send_success.
  - exists "". by rewrite app_nil_r.
Qed.

(** The status of an answer is 204, 500, or the status the response
    had (200 on a fresh response). *)
Theorem status_204_500_or_unchanged sched request response0 :
  let r := convertImageToText sched request response0 in
  statusCode (response r) = 204 \/ statusCode (response r) = 500
  \/ statusCode (response r) = statusCode response0.
Proof.
  intros r. subst r.
  destruct (handler_cases sched request response0)
    as [(_ & -> & _) | [(e & _ & -> & _) | [(p & _ & -> & _) | (_ & -> & _)]]].
  - by left.
  - right. left. apply statusCode_send_failure.
  - right. right. by rewrite statusCode_send_success.
  - by right; right.
Qed.

(** ** Failures of the upload *)

(** An error thrown before the fan-out is answered with status 500 and
    the JSON object of the error, and logged once. *)
Lemma upload_failure_500 sched request response0 e :
  is_preflight request = false -> upload request = Throw e ->
  convertImageToText sched request response0 =
  {| response := send_failure e (enable_cors response0);
     logged := [LogError "Error:" e]; returned_ := true |}.
Proof.
  intros Hp Hu. rewrite (handler_throw _ _ _ e [] []); [done..|].
  unfold try_block. by rewrite Hu.
Qed.

(** Without a boundary in the content type the upload fails with the
    message "No boundary found in content-type header". *)
Lemma no_boundary_error request :
  getBoundary (content_type request) = "" ->
  upload request = Throw (new_Error "No boundary found in content-type header").
Proof. intros Hb. unfold upload. by rewrite boundary_missing. Qed.

(** When the parser returns no array or an empty one the upload fails
    with the message "No files uploaded". *)
Lemma no_files_error request :
  truthy (getBoundary (content_type request)) = true ->
  parse (body request) (getBoundary (content_type request)) = Return None
  \/ parse (body request) (getBoundary (content_type request)) = Return (Some []) ->
  upload request = Throw (new_Error "No files uploaded").
Proof.
  intros Hb Hp. unfold upload. rewrite boundary_found by done. simpl.
  by rewrite parts_none.
Qed.

(** When every part declares a type and none is an image the upload
    fails with the message "No valid image files found". *)
Lemma no_images_error request ps :
  truthy (getBoundary (content_type request)) = true ->
  parse (body request) (getBoundary (content_type request)) = Return (Some ps) ->
  ps <> [] -> typed ps -> List.filter image_type ps = [] ->
  upload request = Throw (new_Error "No valid image files found").
Proof.
  intros Hb Hp Hne Ht Hf. unfold upload. rewrite boundary_found by done. simpl.
  rewrite (parts_some _ _ ps) by done. simpl.
  by rewrite imageFiles_typed, Hf.
Qed.

(** A part without a declared type makes the filter throw a
    [TypeError], even when other parts are images. *)
Lemma untyped_part_error request ps :
  truthy (getBoundary (content_type request)) = true ->
  parse (body request) (getBoundary (content_type request)) = Return (Some ps) ->
  ~ typed ps ->
  upload request = Throw (TypeError_undefined "startsWith").
Proof.
  intros Hb Hp Ht. unfold upload. rewrite boundary_found by done. simpl.
  assert (ps <> []) by (intros ->; apply Ht; constructor).
  rewrite (parts_some _ _ ps) by done. simpl. by apply imageFiles_untyped.
Qed.

(** The upload step returns exactly the image parts, in the order of
    the request body, and at least one. *)
Theorem upload_images_in_order request files :
  upload request = Return files ->
  exists ps, parse (body request) (getBoundary (content_type request)) = Return (Some ps)
             /\ files = List.filter image_type ps /\ files <> [] /\ typed ps.
Proof.
  unfold upload, boundary.
  destruct (truthy (getBoundary (content_type request))); [|done]. simpl.
  unfold parts.
  destruct (parse _ _) as [[[|p ps]|]|e]; simpl; try done.
  intros (Hne & Hf & Ht)%imageFiles_Return. eauto.
Qed.

(** The handler treats every method but OPTIONS alike: a GET is
    processed as an upload. *)
Theorem method_only_options sched request1 request2 response0 :
  is_preflight request1 = false -> is_preflight request2 = false ->
  headers request1 = headers request2 -> body request1 = body request2 ->
  convertImageToText sched request1 response0 =
  convertImageToText sched request2 response0.
Proof.
  intros Hp1 Hp2 Hh Hb. unfold convertImageToText, try_block, upload, boundary,
    parts, content_type. by rewrite Hp1, Hp2, Hh, Hb.
Qed.

End HandlerTheorems.

Section HandlerConversion.
Context `{MultipartLib} `{OcrEngine} `{PdfRenderer}.
Implicit Types (request : Request) (sched : list nat) (e : Thrown).
Implicit Types (files : list Part) (extracted : list ExtractionResult).

(** ** The asynchronous part by cases *)

Lemma extractedTexts_reachable sched files :
  reachable (ocr_tasks files) (extractedTexts sched files).1.
Proof. apply reachable_run_until_settled. Qed.

(** The value of the asynchronous part: what the two promises settle
    with. *)
Lemma convert_value sched files :
  (convert sched files).1.1
  = match await (extractedTexts sched files).1 with
    | None => None
    | Some (Throw e) => Some (Throw e)
    | Some (Return extracted) =>
        mapE (fun pdf => payload pdf extracted) <$> pdfBuffer extracted
    end.
Proof.
  unfold convert. destruct (extractedTexts sched files) as [pool rest]. simpl.
  destruct (await pool) as [[extracted|e]|]; [|done..].
  by destruct (pdfBuffer extracted) as [[pdf|e]|].
Qed.

Lemma convert_Return sched files p lines late :
  convert sched files = (Some (Return p), lines, late) ->
  exists extracted pdf,
    await (extractedTexts sched files).1 = Some (Return extracted)
    /\ pdfBuffer extracted = Some (Return pdf) /\ p = payload pdf extracted.
Proof.
  unfold convert. destruct (extractedTexts sched files) as [pool rest]. simpl.
  destruct (await pool) as [[extracted|e]|]; [|done..].
  destruct (pdfBuffer extracted) as [[pdf|e]|] eqn:Hpdf; [|done..].
  intros [= <- _ _]. by exists extracted, pdf.
Qed.

Lemma convert_Throw sched files e lines late :
  convert sched files = (Some (Throw e), lines, late) ->
  await (extractedTexts sched files).1 = Some (Throw e)
  \/ exists extracted,
       await (extractedTexts sched files).1 = Some (Return extracted)
       /\ pdfBuffer extracted = Some (Throw e).
Proof.
  unfold convert. destruct (extractedTexts sched files) as [pool rest]. simpl.
  destruct (await pool) as [[extracted|e']|]; [|by intros [= <- _ _]; left|done].
  destruct (pdfBuffer extracted) as [[pdf|e']|] eqn:Hpdf; [done| |done].
  intros [= <- _ _]. right. by exists extracted.
Qed.

Lemma convert_None sched files lines late :
  convert sched files = (None, lines, late) ->
  await (extractedTexts sched files).1 = None
  \/ exists extracted,
       await (extractedTexts sched files).1 = Some (Return extracted)
       /\ pdfBuffer extracted = None.
Proof.
  unfold convert. destruct (extractedTexts sched files) as [pool rest]. simpl.
  destruct (await pool) as [[extracted|e']|]; [|done|by left].
  destruct (pdfBuffer extracted) as [[pdf|e']|] eqn:Hpdf; [done..|].
  intros _. right. by exists extracted.
Qed.

(** The results of calls that all fulfil are the extractions of the texts,
    file by file. *)
Lemma extracted_zip files (texts : list string) extracted :
  recognised files texts ->
  Forall2 (fun t v => settles t = Return v) (ocr_tasks files) extracted ->
  extracted = zip_with extraction files texts.
Proof.
  rewrite ocr_tasks_all_Return. intros Hall. revert extracted.
  induction Hall as [|file text files texts Hf _ IH]; intros extracted Hex.
  - by inversion Hex.
  - inversion Hex as [|? item ? items (text' & Ho & ->) Hrest]; subst. simpl.
    f_equal; [congruence | by apply IH].
Qed.

(** An awaited list of results is the list of extractions. *)
Lemma await_extracted sched files (texts : list string) extracted :
  recognised files texts ->
  await (extractedTexts sched files).1 = Some (Return extracted) ->
  extracted = zip_with extraction files texts.
Proof.
  intros Hall Haw. apply (extracted_zip files); [done|].
  exact (await_refines_all_spec _ _ _ (extractedTexts_reachable sched files) Haw).
Qed.

(** When every call fulfils the join does not reject. *)
Lemma await_not_Throw sched files (texts : list string) e :
  recognised files texts ->
  await (extractedTexts sched files).1 <> Some (Throw e).
Proof.
  intros Hall Haw.
  destruct (await_refines_all_spec _ _ _ (extractedTexts_reachable sched files) Haw)
    as (t & (file & -> & Hin)%list_elem_of_fmap & Ht%ocr_task_Throw).
  apply list_elem_of_lookup_1 in Hin as [i Hi].
  destruct (Forall2_lookup_l _ _ _ _ _ Hall Hi) as (text & _ & Ho). congruence.
Qed.

(** When a call rejects the join does not fulfil. *)
Lemma await_not_Return sched files file e extracted :
  file ∈ files -> outcome (recognize (data file) "eng") = Throw e ->
  await (extractedTexts sched files).1 <> Some (Return extracted).
Proof.
  intros Hin Ho Haw. apply await_Some_promise in Haw.
  eapply (all_or_nothing (ocr_tasks files) _ (ocr_task file));
    [by apply list_elem_of_fmap_2 | by apply ocr_task_Throw
    | apply extractedTexts_reachable | exact Haw].
Qed.

(** When every image is recognised, the [try] block ends the way the PDF
    promise settles, or it is still waiting for the OCR calls. *)
Lemma convert_recognised sched files (texts : list string) :
  recognised files texts ->
  let extracted := zip_with extraction files texts in
  (convert sched files).1.1 = None
  \/ (convert sched files).1.1
     = mapE (fun pdf => payload pdf extracted) <$> pdfBuffer extracted.
Proof.
  intros Hrec extracted. subst extracted.
  destruct (convert sched files) as [[[[p|e]|] lines] late] eqn:Hc; simpl;
    [| |by left]; right.
  - apply convert_Return in Hc as (extracted & pdf & Haw & Hpdf & ->).
    rewrite <- (await_extracted _ _ _ _ Hrec Haw). by rewrite Hpdf.
  - apply convert_Throw in Hc as [Haw | (extracted & Haw & Hpdf)].
    + by destruct (await_not_Throw sched files texts e).
    + rewrite <- (await_extracted _ _ _ _ Hrec Haw). by rewrite Hpdf.
Qed.

End HandlerConversion.

Section HandlerOutcomes.
Context `{MultipartLib} `{OcrEngine} `{PdfRenderer}.
Implicit Types (request : Request) (sched : list nat) (e : Thrown).
Implicit Types (files : list Part) (extracted : list ExtractionResult).

(** ** OCR failures *)

(** C3: all or nothing: if the OCR call of one image rejects, the handler
    never answers with the PDF and the text of the others; when it answers,
    it answers 500 with the error of an OCR call that rejected. *)
Theorem ocr_failure_500 sched request response0 files file e :
  is_preflight request = false -> upload request = Return files ->
  file ∈ files -> outcome (recognize (data file) "eng") = Throw e ->
  let r := convertImageToText sched request response0 in
  returned_ r = true ->
  exists file' e',
    file' ∈ files /\ outcome (recognize (data file') "eng") = Throw e'
    /\ response r = send_failure e' (enable_cors response0).
Proof.
  intros Hp Hu Hin Ho r. subst r. unfold convertImageToText, try_block.
  rewrite Hp, Hu.
  destruct (convert sched files) as [[[[p|e']|] lines] late] eqn:Hc;
    cbn [response returned_ logged].
  - apply convert_Return in Hc as (extracted & pdf & Haw & _).
    by destruct (await_not_Return sched files file e extracted).
  - intros _. apply convert_Throw in Hc as [Haw | (extracted & Haw & _)].
    + destruct (await_refines_all_spec _ _ _
                  (extractedTexts_reachable sched files) Haw)
        as (t & (file' & -> & Hin')%list_elem_of_fmap & Ht%ocr_task_Throw).
      by exists file', e'.
    + by destruct (await_not_Return sched files file e extracted).
  - done.
Qed.

(** ** Success *)

(** The response of a success. *)
Lemma success_response sched request response0 files (texts : list string) pdf :
  is_preflight request = false -> upload request = Return files ->
  recognised files texts ->
  pdfBuffer (zip_with extraction files texts) = Some (Return pdf) ->
  returned_ (convertImageToText sched request response0) = true ->
  response (convertImageToText sched request response0)
  = send_success (payload pdf (zip_with extraction files texts))
      (enable_cors response0).
Proof.
  intros Hp Hu Hall Hpdf. unfold convertImageToText, try_block.
  rewrite Hp, Hu.
  destruct (convert_recognised sched files texts Hall) as [Hc|Hc];
    destruct (convert sched files) as [[v lines] late]; simpl in Hc; subst v;
    [done|]. by rewrite Hpdf.
Qed.

(** C2: when every OCR call fulfils and the PDF stream ends, then on
    every schedule on which the handler returns the answer keeps the
    status of the response, declares JSON, and is the object of the two
    artifacts in base64: the PDF bytes and the text bundle of the
    results in the order of the images. *)
Theorem success_200 sched request response0 files (texts : list string) pdf :
  is_preflight request = false -> upload request = Return files ->
  recognised files texts ->
  pdfBuffer (zip_with extraction files texts) = Some (Return pdf) ->
  let r := convertImageToText sched request response0 in
  returned_ r = true ->
  response r =
    send_success (payload pdf (zip_with extraction files texts))
      (enable_cors response0)
  /\ statusCode (response r) = statusCode response0
  /\ res_get "Content-Type" (response r) = Some "application/json".
Proof.
  intros Hp Hu Hall Hpdf r Hret. subst r.
  rewrite (success_response sched request response0 files texts pdf) by done.
  split_and!;
    [done | by rewrite statusCode_send_success
    | apply content_type_send_success].
Qed.

(** The handler returns as soon as no OCR call has an event left,
    provided the PDF stream ends or fails. *)
Lemma returned_at_quiescence sched request response0 files :
  is_preflight request = false -> upload request = Return files ->
  work (run sched (start (ocr_tasks files))) = 0 ->
  (forall extracted, is_Some (pdfBuffer extracted)) ->
  returned_ (convertImageToText sched request response0) = true.
Proof.
  intros Hp Hu Hnf%work_0_nf Hpdf. unfold convertImageToText, try_block. rewrite Hp, Hu.
  destruct (convert sched files) as [[[[p|e']|] lines] late] eqn:Hc; [done..|].
  exfalso. apply convert_None in Hc as [Haw | (extracted & _ & Hnone)].
  - apply await_None_promise in Haw.
    pose proof (quiescent_join_settled (ocr_tasks files) _
                  (reachable_run _ sched _ (reachable_start _)) Hnf) as Hset.
    unfold extractedTexts in Haw.
    rewrite run_until_settled_promise in Haw; done.
  - destruct (Hpdf extracted) as [? ?]. congruence.
Qed.

(** The handler never waits for ever on the OCR calls: provided the
    PDF stream ends or fails, it returns on the schedule that runs the
    calls one after the other, and on every schedule that leaves no call
    with an event. *)
Theorem returns_when_quiescent request response0 files :
  is_preflight request = false -> upload request = Return files ->
  (forall extracted, is_Some (pdfBuffer extracted)) ->
  returned_ (convertImageToText (sequential_schedule (ocr_tasks files))
               request response0) = true
  /\ forall sched,
       work (run sched (start (ocr_tasks files))) = 0 ->
       returned_ (convertImageToText sched request response0) = true.
Proof.
  intros Hp Hu Hpdf. split; [|intros sched Hw];
    eapply returned_at_quiescence; eauto using work_run_sequential.
Qed.

(** C39: when the PDF stream neither ends nor fails, the handler never
    answers: nothing is sent and the handler does not return. *)
Theorem pdf_stream_stalls sched request response0 files (texts : list string) :
  is_preflight request = false -> upload request = Return files ->
  recognised files texts ->
  pdfBuffer (zip_with extraction files texts) = None ->
  let r := convertImageToText sched request response0 in
  returned_ r = false /\ sent (response r) = sent response0.
Proof.
  intros Hp Hu Hall Hpdf r. subst r. unfold convertImageToText, try_block.
  rewrite Hp, Hu.
  destruct (convert_recognised sched files texts Hall) as [Hc|Hc];
    destruct (convert sched files) as [[v lines] late]; simpl in Hc; subst v;
    [done|]. by rewrite Hpdf.
Qed.

(** C38: when every OCR call fulfils and the PDF stream fails, then on
    every schedule on which the handler returns it has answered 500 with
    the error of the stream. *)
Theorem pdf_failure_500 sched request response0 files (texts : list string) e :
  is_preflight request = false -> upload request = Return files ->
  recognised files texts ->
  pdfBuffer (zip_with extraction files texts) = Some (Throw e) ->
  let r := convertImageToText sched request response0 in
  returned_ r = true ->
  response r = send_failure e (enable_cors response0)
  /\ statusCode (response r) = 500.
Proof.
  intros Hp Hu Hall Hpdf r. subst r. unfold convertImageToText, try_block.
  rewrite Hp, Hu.
  destruct (convert_recognised sched files texts Hall) as [Hc|Hc];
    destruct (convert sched files) as [[v lines] late]; simpl in Hc; subst v;
    [done|]. rewrite Hpdf. cbn [fmap option_fmap option_map mapE response returned_].
  intros _. split; [done | apply statusCode_send_failure].
Qed.

(** C7: a client that decodes the two properties of the answer from
    base64 gets the bytes of the PDF and the bytes of the text bundle. *)
Theorem payload_decodes (pdf : bytes) extracted :
  base64_decode (payload_pdf (payload pdf extracted)) = Some pdf
  /\ base64_decode (payload_text (payload pdf extracted))
     = Some (Buffer_from (textContent extracted)).
Proof. split; apply base64_decode_encode. Qed.

(** C37: both properties of the answer are base64 texts of the standard
    form, whatever the bytes of the PDF and the results are: one
    character of the alphabet for every 6 bits of the artifact, then the
    pads that fill the last group ([==] after one byte over a multiple of
    three, [=] after two, none after none), so that there are four
    characters for every three bytes; no other character occurs. *)
Theorem payload_well_formed (pdf : bytes) extracted :
  canonical_base64 (length pdf) (payload_pdf (payload pdf extracted))
  /\ canonical_base64 (length (Buffer_from (textContent extracted)))
       (payload_text (payload pdf extracted)).
Proof. split; apply base64_encode_canonical. Qed.

(** The JSON text of the object of a success: the properties [pdf] and
    [text], in this order, whose values are the base64 texts as they are:
    no character of them is escaped. *)
Lemma stringify_payload (pdf : bytes) extracted :
  stringify (payload_object (payload pdf extracted))
  = "{" +:+ in_quotes "pdf" +:+ ":" +:+ in_quotes (base64_encode pdf)
    +:+ "," +:+ in_quotes "text" +:+ ":"
    +:+ in_quotes (base64_encode (Buffer_from (textContent extracted)))
    +:+ "}".
Proof.
  rewrite stringify_defined. f_equal.
  unfold payload_object, payload, in_quotes. cbn [payload_pdf payload_text].
  rewrite !defined_properties_cons_Some, !fmap_cons, join_cons_cons.
  unfold property_text. cbn [fst snd fmap list_fmap join].
  rewrite !(quote_plain (base64_encode _)) by apply base64_encode_plain.
  rewrite !string_app_assoc. reflexivity.
Qed.

(** The body of the successful answer is that text. *)
Theorem success_body (pdf : bytes) extracted (r : Response) :
  sent (send_success (payload pdf extracted) r) =
  sent r ++
  ["{" +:+ in_quotes "pdf" +:+ ":" +:+ in_quotes (base64_encode pdf)
   +:+ "," +:+ in_quotes "text" +:+ ":"
   +:+ in_quotes (base64_encode (Buffer_from (textContent extracted)))
   +:+ "}"].
Proof. by rewrite sent_send_success, stringify_payload. Qed.

Lemma in_quotes_length (s : string) :
  String.length (in_quotes s) = String.length s + 2.
Proof.
  unfold in_quotes. cbn [String.length]. rewrite string_length_app. simpl. lia.
Qed.

(** The size of the body of a success, from the sizes of the artifacts. *)
Lemma success_body_size (pdf : bytes) extracted :
  String.length (stringify (payload_object (payload pdf extracted)))
  = 20 + 4 * ((length pdf + 2) / 3)
    + 4 * ((String.length (textContent extracted) + 2) / 3).
Proof.
  rewrite stringify_payload.
  rewrite !string_length_app, !in_quotes_length, !base64_encode_length_nat.
  rewrite length_Buffer_from. simpl. lia.
Qed.

(** C25: the size of the answer is linear in the sizes of the artifacts:
    the body of a success has 20 characters of frame, four characters for
    every three bytes of the PDF, rounded up, and four for every three
    bytes of the text bundle, whose length is the sum of the lengths of
    the file names and texts with 12 characters of frame per image and 5
    per separator. *)
Theorem success_body_length sched request response0 files (texts : list string) pdf :
  is_preflight request = false -> upload request = Return files ->
  recognised files texts ->
  pdfBuffer (zip_with extraction files texts) = Some (Return pdf) ->
  let r := convertImageToText sched request response0 in
  returned_ r = true ->
  exists body,
    sent (response r) = sent response0 ++ [body]
    /\ String.length body
       = 20 + 4 * ((length pdf + 2) / 3)
         + 4 * ((sections_length (zip_with extraction files texts)
                 + 5 * (length files - 1) + 2) / 3).
Proof.
  intros Hp Hu Hall Hpdf r Hret. subst r.
  rewrite (success_response sched request response0 files texts pdf) by done.
  eexists. rewrite sent_send_success, sent_enable_cors. split; [done|].
  rewrite success_body_size, textContent_length, length_zip_with_l_eq; [done|].
  by eapply Forall2_length.
Qed.

(** The deployment asks for a timeout of 180 seconds, which is three
    minutes and not the nine minutes of the comment beside it. *)
Theorem timeout_is_three_minutes :
  timeoutSeconds runtime_options = 3 * 60
  /\ timeoutSeconds runtime_options <> 9 * 60.
Proof. split; [reflexivity | discriminate]. Qed.

End HandlerOutcomes.

Section HandlerErrors.
Context `{MultipartLib} `{OcrEngine} `{PdfRenderer}.
Implicit Types (request : Request) (sched : list nat) (e : Thrown).

(** What a failed upload leaves on the response. *)
Lemma upload_failure_response sched request response0 e :
  is_preflight request = false -> upload request = Throw e ->
  let r := convertImageToText sched request response0 in
  statusCode (response r) = 500
  /\ sent (response r) = sent response0 ++ [stringify (error_object e)]
  /\ returned_ r = true /\ logged r = [LogError "Error:" e].
Proof.
  intros Hp Hu r. subst r. rewrite (upload_failure_500 _ _ _ e) by done.
  cbn [response returned_ logged].
  by rewrite statusCode_send_failure, sent_send_failure.
Qed.

(** C33: a request that is not a preflight and has no multipart boundary
    in its content type is answered with status 500 and the details "No
    boundary found in content-type header". *)
Theorem no_boundary_500 sched request response0 :
  is_preflight request = false ->
  getBoundary (content_type request) = "" ->
  let r := convertImageToText sched request response0 in
  statusCode (response r) = 500
  /\ sent (response r) = sent response0 ++
       [stringify [("error", Some "Failed to process images");
                   ("details", Some "No boundary found in content-type header")]]
  /\ returned_ r = true.
Proof.
  intros Hp Hb r.
  destruct (upload_failure_response sched request response0 _ Hp
              (no_boundary_error request Hb)) as (? & ? & ? & _).
  done.
Qed.

(** An upload in which the parser finds no part is answered with
    status 500 and the details "No files uploaded". *)
Theorem no_files_500 sched request response0 :
  is_preflight request = false ->
  truthy (getBoundary (content_type request)) = true ->
  parse (body request) (getBoundary (content_type request)) = Return None
  \/ parse (body request) (getBoundary (content_type request)) = Return (Some []) ->
  let r := convertImageToText sched request response0 in
  statusCode (response r) = 500
  /\ sent (response r) = sent response0 ++
       [stringify [("error", Some "Failed to process images");
                   ("details", Some "No files uploaded")]]
  /\ returned_ r = true.
Proof.
  intros Hp Hb Hparse r.
  destruct (upload_failure_response sched request response0 _ Hp
              (no_files_error request Hb Hparse)) as (? & ? & ? & _).
  done.
Qed.

(** C5: an upload (a request that is not a preflight) whose parts all
    declare a type that is not an image type is answered with status 500
    and the details "No valid image files found". *)
Theorem no_images_500 sched request response0 ps :
  is_preflight request = false ->
  truthy (getBoundary (content_type request)) = true ->
  parse (body request) (getBoundary (content_type request)) = Return (Some ps) ->
  ps <> [] -> typed ps -> List.filter image_type ps = [] ->
  let r := convertImageToText sched request response0 in
  statusCode (response r) = 500
  /\ sent (response r) = sent response0 ++
       [stringify [("error", Some "Failed to process images");
                   ("details", Some "No valid image files found")]]
  /\ returned_ r = true.
Proof.
  intros Hp Hb Hparse Hne Ht Hf r.
  destruct (upload_failure_response sched request response0 _ Hp
              (no_images_error request ps Hb Hparse Hne Ht Hf)) as (? & ? & ? & _).
  done.
Qed.

(** C40: an upload (a request that is not a preflight) with a part that
    declares no content type (a plain form field) is answered with status
    500 and the message of a [TypeError], even when the other parts are
    images. *)
Theorem untyped_part_500 sched request response0 ps :
  is_preflight request = false ->
  truthy (getBoundary (content_type request)) = true ->
  parse (body request) (getBoundary (content_type request)) = Return (Some ps) ->
  ~ typed ps ->
  let r := convertImageToText sched request response0 in
  statusCode (response r) = 500
  /\ sent (response r) = sent response0 ++
       [stringify [("error", Some "Failed to process images");
                   ("details",
                    Some "Cannot read properties of undefined (reading 'startsWith')")]]
  /\ returned_ r = true.
Proof.
  intros Hp Hb Hparse Ht r.
  destruct (upload_failure_response sched request response0 _ Hp
              (untyped_part_error request ps Hb Hparse Ht)) as (? & ? & ? & _).
  done.
Qed.

(** An exception of the parser is caught like any other: status 500
    with the object of the error. *)
Theorem parser_exception_500 sched request response0 e :
  is_preflight request = false ->
  truthy (getBoundary (content_type request)) = true ->
  parse (body request) (getBoundary (content_type request)) = Throw e ->
  let r := convertImageToText sched request response0 in
  statusCode (response r) = 500
  /\ sent (response r) = sent response0 ++ [stringify (error_object e)]
  /\ returned_ r = true.
Proof.
  intros Hp Hb Hparse r.
  assert (upload request = Throw e) as Hu.
  { unfold upload. rewrite boundary_found by done. simpl.
    by rewrite (parts_throw _ _ e). }
  destruct (upload_failure_response sched request response0 _ Hp Hu)
    as (? & ? & ? & _).
  done.
Qed.

End HandlerErrors.

(** When what was thrown is not an [Error] object, [error.message] is
    [undefined] and the failure answer has no [details] property. *)
Theorem details_absent_for_non_error (v : string) :
  stringify (error_object (NonError v)) =
  stringify [("error", Some "Failed to process images")].
Proof. reflexivity. Qed.

Section HandlerContract.
Context `{MultipartLib} `{OcrEngine} `{PdfRenderer}.
Implicit Types (request : Request) (sched : list nat) (e : Thrown).
Implicit Types (files : list Part) (extracted : list ExtractionResult).

(** ** The handler implements its contract *)

Lemma is_preflight_false request :
  is_preflight request = false <-> method request <> "OPTIONS".
Proof.
  rewrite <- is_preflight_spec. by destruct (is_preflight request).
Qed.

(** A fulfilled fan-out: every image was recognised. *)
Lemma await_Return_recognised sched files extracted :
  await (extractedTexts sched files).1 = Some (Return extracted) ->
  exists texts, recognised files texts
                /\ extracted = zip_with extraction files texts.
Proof.
  intros Haw. exists (item_text <$> extracted). apply recognised_texts.
  apply ocr_tasks_all_Return.
  exact (await_refines_all_spec _ _ _ (extractedTexts_reachable sched files) Haw).
Qed.

(** A rejected fan-out: the reason is the error of the call on one of the
    images. *)
Lemma await_Throw_file sched files e :
  await (extractedTexts sched files).1 = Some (Throw e) ->
  exists file, file ∈ files /\ outcome (recognize (data file) "eng") = Throw e.
Proof.
  intros Haw.
  destruct (await_refines_all_spec _ _ _ (extractedTexts_reachable sched files) Haw)
    as (t & (file & -> & Hin)%list_elem_of_fmap & Ht%ocr_task_Throw).
  by exists file.
Qed.

(** The asynchronous part implements the contract. *)
Lemma convert_allowed sched request files :
  method request <> "OPTIONS" -> upload request = Return files ->
  exists o, allowed request o
    /\ (convert sched files).1.1 =
       match o with
       | Failure e => Some (Throw e)
       | Success pdf extracted => Some (Return (payload pdf extracted))
       | _ => None
       end
    /\ o <> Preflight.
Proof.
  intros Hm Hu.
  destruct (convert sched files) as [[[[p|e]|] lines] late] eqn:Hc; simpl.
  - apply convert_Return in Hc as (extracted & pdf & Haw & Hpdf & ->).
    apply await_Return_recognised in Haw as (texts & Hrec & ->).
    exists (Success pdf (zip_with extraction files texts)).
    split_and!; [by eapply allowed_success|done..].
  - exists (Failure e). split_and!; [|done..].
    apply convert_Throw in Hc as [Haw | (extracted & Haw & Hpdf)].
    + apply await_Throw_file in Haw as (file & Hin & Ho).
      by eapply allowed_ocr_failure.
    + apply await_Return_recognised in Haw as (texts & Hrec & ->).
      by eapply allowed_pdf_failure.
  - exists Waiting. split_and!; [by eapply allowed_waiting|done..].
Qed.

(** What the handler leaves is the answer of an allowed outcome. *)
Lemma handler_allowed sched request response0 :
  let r := convertImageToText sched request response0 in
  exists o, allowed request o
    /\ response r = answer_of o (enable_cors response0)
    /\ returned_ r = answered o
    /\ forall e, o = Failure e -> LogError "Error:" e ∈ logged r.
Proof.
  intros r. subst r. unfold convertImageToText.
  destruct (is_preflight request) eqn:Hp.
  - exists Preflight. split_and!; [|done..]. by apply allowed_preflight, is_preflight_spec.
  - apply is_preflight_false in Hp. unfold try_block.
    destruct (upload request) as [files|e] eqn:Hu.
    + destruct (convert_allowed sched request files Hp Hu) as (o & Ho & Hc & Hn).
      exists o. destruct (convert sched files) as [[v lines] late].
      simpl in Hc. subst v. destruct o; try done; split_and!; try done.
      intros ? [= <-]. set_solver.
    + exists (Failure e). split_and!; [by apply allowed_upload_failure|done..|].
      intros ? [= <-]. set_solver.
Qed.

(** C1: the handler implements its contract on every schedule: what it
    leaves is the answer of an outcome the contract allows for the request
    (preflight, the failure of the upload, of an OCR call or of the PDF
    stream, success with the results in the order of the images, or still
    waiting), it has returned unless it waits, and a failure is logged. *)
Theorem handler_refines_contract sched request response0 :
  let r := convertImageToText sched request response0 in
  exists o, allowed request o
    /\ response r = answer_of o (enable_cors response0)
    /\ returned_ r = answered o
    /\ forall e, o = Failure e -> LogError "Error:" e ∈ logged r.
Proof. apply handler_allowed. Qed.

(** ** The contract is deterministic up to the error reported *)

Lemma allowed_success_inv request pdf extracted :
  allowed request (Success pdf extracted) ->
  exists files texts,
    upload request = Return files /\ recognised files texts
    /\ pdfBuffer (zip_with extraction files texts) = Some (Return pdf)
    /\ extracted = zip_with extraction files texts.
Proof. inversion 1; subst. eauto 10. Qed.

(** A request that may succeed may not fail. *)
Lemma allowed_success_no_failure request pdf extracted e :
  allowed request (Success pdf extracted) -> ~ allowed request (Failure e).
Proof.
  intros (files & texts & Hu & Hrec & Hpdf & ->)%allowed_success_inv Hf.
  inversion Hf as [|? ? Hu'|files' file ? ? Hu' Hin Ho|files' texts' ? ? Hu' Hrec' Hpdf'| |];
    subst; rewrite Hu in Hu'; simplify_eq.
  - by eapply recognised_no_failure.
  - rewrite (recognised_functional _ _ _ Hrec Hrec') in Hpdf. congruence.
Qed.

(** A request succeeds in one way only. *)
Lemma allowed_success_unique request pdf1 pdf2 extracted1 extracted2 :
  allowed request (Success pdf1 extracted1) ->
  allowed request (Success pdf2 extracted2) ->
  pdf1 = pdf2 /\ extracted1 = extracted2.
Proof.
  intros (files & texts & Hu & Hrec & Hpdf & ->)%allowed_success_inv
         (files' & texts' & Hu' & Hrec' & Hpdf' & ->)%allowed_success_inv.
  rewrite Hu in Hu'. simplify_eq.
  rewrite (recognised_functional _ _ _ Hrec Hrec') in *. split; congruence.
Qed.

(** C30: the answer does not depend on the schedule, but for the error
    reported when something fails: two calls of the handler on the same
    request that both return leave the same response, or both answer with
    the failure object. *)
Theorem answer_schedule_independent sched1 sched2 request response0 :
  let r1 := convertImageToText sched1 request response0 in
  let r2 := convertImageToText sched2 request response0 in
  returned_ r1 = true -> returned_ r2 = true ->
  response r1 = response r2
  \/ exists e1 e2,
       response r1 = send_failure e1 (enable_cors response0)
       /\ response r2 = send_failure e2 (enable_cors response0).
Proof.
  intros r1 r2. subst r1 r2. unfold convertImageToText.
  destruct (is_preflight request) eqn:Hp; [by left|].
  apply is_preflight_false in Hp. unfold try_block.
  destruct (upload request) as [files|e] eqn:Hu; [|by left].
  destruct (convert_allowed sched1 request files Hp Hu) as (o1 & Ha1 & Hc1 & _).
  destruct (convert_allowed sched2 request files Hp Hu) as (o2 & Ha2 & Hc2 & _).
  destruct (convert sched1 files) as [[v1 ?] ?], (convert sched2 files) as [[v2 ?] ?].
  simpl in Hc1, Hc2. subst v1 v2.
  destruct o1 as [|e1|pdf1 ex1|], o2 as [|e2|pdf2 ex2|]; try done; intros _ _.
  - right. by exists e1, e2.
  - by destruct (allowed_success_no_failure request pdf2 ex2 e1).
  - by destruct (allowed_success_no_failure request pdf1 ex1 e2).
  - destruct (allowed_success_unique _ _ _ _ _ Ha1 Ha2) as [-> ->]. by left.
Qed.

(** The content type of the response is not one of the CORS headers. *)
Lemma content_type_enable_cors (r : Response) :
  res_get "Content-Type" (enable_cors r) = res_get "Content-Type" r.
Proof. unfold enable_cors. by rewrite !res_get_set_ne. Qed.

Lemma content_type_send_failure e (r : Response) :
  res_get "Content-Type" (send_failure e r) =
  Some (default "application/json" (res_get "Content-Type" r)).
Proof. unfold send_failure. by rewrite res_get_json_content_type, res_get_status. Qed.

(** An answer to an upload declares JSON, failure or success, when
    the platform has not set a content type before the handler runs. *)
Theorem answer_declares_json sched request response0 :
  is_preflight request = false -> res_get "Content-Type" response0 = None ->
  let r := convertImageToText sched request response0 in
  returned_ r = true ->
  res_get "Content-Type" (response r) = Some "application/json".
Proof.
  intros Hp Hct r. subst r.
  destruct (handler_cases sched request response0)
    as [(Hp' & _) | [(e & _ & -> & _) | [(p & _ & -> & _) | (_ & _ & ->)]]];
    [congruence| | |done]; intros _.
  - by rewrite content_type_send_failure, content_type_enable_cors, Hct.
  - apply content_type_send_success.
Qed.

End HandlerContract.

Section HandlerExtension.
Context `{MultipartLib} `{OcrEngine} `{PdfRenderer}.
Implicit Types (request : Request) (sched more : list nat).
Implicit Types (files : list Part) (pool : Pool ExtractionResult).

(** ** Events after the schedule *)

Lemma pool_lines_run_prefix sched pool :
  pool_lines pool `prefix_of` pool_lines (run sched pool).
Proof.
  unfold pool_lines. destruct (console_run_prefix sched pool) as [k ->].
  rewrite fmap_app. by apply prefix_app_r.
Qed.

Lemma late_lines_prefix pool sched more :
  late_lines pool sched `prefix_of` late_lines pool (sched ++ more).
Proof.
  unfold late_lines. rewrite run_app.
  destruct (pool_lines_run_prefix more (run sched pool)) as [k ->].
  destruct (pool_lines_run_prefix sched pool) as [k' ->].
  rewrite <- app_assoc, !drop_app_length' by (unfold pool_lines; by rewrite length_fmap).
  by apply prefix_app_r.
Qed.

(** The lines of the [try] block are the lines of the pool it resumes
    from. *)
Lemma convert_lines sched files :
  (convert sched files).1.2 = pool_lines (extractedTexts sched files).1.
Proof.
  unfold convert. destruct (extractedTexts sched files) as [pool rest]. simpl.
  destruct (await pool) as [[extracted|e]|]; [|done..].
  by destruct (pdfBuffer extracted) as [[pdf|e]|].
Qed.

(** More events after a schedule: a [try] block that has ended keeps its
    value and its lines, and the calls still running print more; a [try]
    block that waits has printed a prefix of what it prints later. *)
Lemma convert_extend sched more files :
  match (convert sched files).1.1 with
  | None =>
      (convert sched files).1.2 `prefix_of` (convert (sched ++ more) files).1.2
  | Some v =>
      (convert (sched ++ more) files).1.1 = Some v
      /\ (convert (sched ++ more) files).1.2 = (convert sched files).1.2
      /\ (convert sched files).2 `prefix_of` (convert (sched ++ more) files).2
  end.
Proof.
  pose proof (run_until_settled_app sched more (start (ocr_tasks files))) as Happ.
  destruct (promise (run_until_settled sched (start (ocr_tasks files))).1)
    as [|vs|e0] eqn:Hj.
  - rewrite (convert_value sched), !convert_lines. unfold extractedTexts, await.
    rewrite Hj, Happ. destruct (run_until_settled_pending _ _ Hj) as [_ ->].
    destruct (run_until_settled_split more (run sched (start (ocr_tasks files))))
      as (ran & _ & ->).
    apply pool_lines_run_prefix.
  - unfold convert, extractedTexts, await. rewrite Happ.
    destruct (run_until_settled sched _) as [pool rest]. simpl in *. rewrite Hj.
    destruct (pdfBuffer vs) as [[pdf|e]|]; simpl; split_and?; reflexivity.
  - unfold convert, extractedTexts, await. rewrite Happ.
    destruct (run_until_settled sched _) as [pool rest]. simpl in *. rewrite Hj.
    split_and!; [done..|]. apply late_lines_prefix.
Qed.

(** What more events change of a call. *)
Lemma answer_final sched more request response0 :
  logged (convertImageToText sched request response0)
    `prefix_of` logged (convertImageToText (sched ++ more) request response0)
  /\ (returned_ (convertImageToText sched request response0) = true ->
      response (convertImageToText (sched ++ more) request response0)
      = response (convertImageToText sched request response0)
      /\ returned_ (convertImageToText (sched ++ more) request response0) = true).
Proof.
  unfold convertImageToText. destruct (is_preflight request); [done|].
  unfold try_block. destruct (upload request) as [files|e]; [|done].
  pose proof (convert_extend sched more files) as Hext.
  destruct (convert sched files) as [[[[p|e]|] lines] late],
    (convert (sched ++ more) files) as [[v' lines'] late']; simpl in *.
  - by destruct Hext as (-> & -> & _).
  - destruct Hext as (-> & -> & Hlate). split; [|done].
    by apply prefix_app, prefix_cons.
  - split; [|done]. destruct v' as [[p|e]|]; simpl; [done| |done].
    by apply prefix_app_r.
Qed.

(** C19: the answer is final and the console only grows: whatever events
    of the OCR calls come after a schedule, the handler has written what
    it had written before and possibly more, and once it has answered
    the response stays as it is: the calls still running cannot change
    the answer, cancel it or answer a second time. *)
Theorem answer_is_final sched more request response0 :
  let r := convertImageToText sched request response0 in
  let r' := convertImageToText (sched ++ more) request response0 in
  logged r `prefix_of` logged r'
  /\ (returned_ r = true -> response r' = response r /\ returned_ r' = true).
Proof. apply answer_final. Qed.

End HandlerExtension.

(** ** Witnesses *)

Definition two_images : option (list Part) :=
  Some [png "a.png" [x01]; attachment "b.pdf"; png "c.png" [x02]].

Definition one_bad_image : option (list Part) :=
  Some [png "a.png" [x01]; png "empty.png" []; png "c.png" [x02]].

Lemma preflight_204_witness :
  statusCode (response
    (convertImageToText (H := fake_multipart None) (H0 := fake_ocr)
       (H1 := fake_renderer) [] (bare_request "OPTIONS") fresh_response)) = 204.
Proof.
  refine (proj1 (@preflight_204 (fake_multipart None) fake_ocr fake_renderer
                   [] (bare_request "OPTIONS") fresh_response _)).
  reflexivity.
Defined.

Lemma upload_images_in_order_witness :
  exists ps,
    parse (MultipartLib := fake_multipart two_images)
      (body (upload_request "POST")) "XYZ" = Return (Some ps)
    /\ [png "a.png" [x01]; png "c.png" [x02]] = List.filter image_type ps
    /\ [png "a.png" [x01]; png "c.png" [x02]] <> [] /\ typed ps.
Proof.
  refine (@upload_images_in_order (fake_multipart two_images)
            (upload_request "POST") _ _).
  vm_compute. reflexivity.
Defined.

Lemma method_only_options_witness :
  convertImageToText (H := fake_multipart two_images) (H0 := fake_ocr)
    (H1 := fake_renderer) [0; 1] (upload_request "GET") fresh_response
  = convertImageToText (H := fake_multipart two_images) (H0 := fake_ocr)
      (H1 := fake_renderer) [0; 1] (upload_request "POST") fresh_response.
Proof.
  apply (@method_only_options (fake_multipart two_images) fake_ocr fake_renderer);
    reflexivity.
Defined.

Lemma ocr_failure_500_witness :
  exists file' e',
    file' ∈ [png "a.png" [x01]; png "empty.png" []; png "c.png" [x02]]
    /\ outcome (fake_ocr (data file') "eng") = Throw e'
    /\ response
         (convertImageToText (H := fake_multipart one_bad_image) (H0 := fake_ocr)
            (H1 := fake_renderer) [0; 1; 1] (upload_request "POST") fresh_response)
       = send_failure e' (enable_cors fresh_response).
Proof.
  refine (@ocr_failure_500 (fake_multipart one_bad_image) fake_ocr fake_renderer
            [0; 1; 1] (upload_request "POST") fresh_response _
            (png "empty.png" []) (new_Error "empty image") _ _ _ _ _).
  - reflexivity.
  - vm_compute. reflexivity.
  - apply list_elem_of_lookup_2 with 1%nat. reflexivity.
  - reflexivity.
  - vm_compute. reflexivity.
Defined.

Lemma success_200_witness :
  statusCode (response
    (convertImageToText (H := fake_multipart two_images) (H0 := fake_ocr)
       (H1 := fake_renderer) [1; 0; 0; 1; 1; 0] (upload_request "POST")
       fresh_response)) = 200.
Proof.
  refine (proj1 (proj2
    (@success_200 (fake_multipart two_images) fake_ocr fake_renderer
       [1; 0; 0; 1; 1; 0] (upload_request "POST") fresh_response
       [png "a.png" [x01]; png "c.png" [x02]] ["text"; "text"]
       [x25; x50; x44; x46] _ _ _ _ _))).
  - reflexivity.
  - vm_compute. reflexivity.
  - repeat constructor.
  - reflexivity.
  - vm_compute. reflexivity.
Defined.

Lemma success_body_length_witness :
  exists body,
    sent (response
      (convertImageToText (H := fake_multipart two_images) (H0 := fake_ocr)
         (H1 := fake_renderer) [1; 0; 0; 1; 1; 0] (upload_request "POST")
         fresh_response)) = [body]
    /\ String.length body = 92.
Proof.
  refine (@success_body_length (fake_multipart two_images) fake_ocr fake_renderer
       [1; 0; 0; 1; 1; 0] (upload_request "POST") fresh_response
       [png "a.png" [x01]; png "c.png" [x02]] ["text"; "text"]
       [x25; x50; x44; x46] _ _ _ _ _).
  - reflexivity.
  - vm_compute. reflexivity.
  - repeat constructor.
  - reflexivity.
  - vm_compute. reflexivity.
Defined.

Lemma returns_when_quiescent_witness :
  returned_
    (convertImageToText (H := fake_multipart two_images) (H0 := fake_ocr)
       (H1 := fake_renderer)
       (sequential_schedule
          (ocr_tasks (H := fake_ocr) [png "a.png" [x01]; png "c.png" [x02]]))
       (upload_request "POST") fresh_response) = true.
Proof.
  refine (proj1 (@returns_when_quiescent (fake_multipart two_images) fake_ocr
                   fake_renderer (upload_request "POST") fresh_response
                   [png "a.png" [x01]; png "c.png" [x02]] _ _ _)).
  - reflexivity.
  - vm_compute. reflexivity.
  - intros extracted. eexists. reflexivity.
Defined.

Lemma pdf_stream_stalls_witness :
  returned_
    (convertImageToText (H := fake_multipart two_images) (H0 := fake_ocr)
       (H1 := stalled_renderer) [1; 0; 0; 1; 1; 0] (upload_request "POST")
       fresh_response) = false.
Proof.
  refine (proj1
    (@pdf_stream_stalls (fake_multipart two_images) fake_ocr stalled_renderer
       [1; 0; 0; 1; 1; 0] (upload_request "POST") fresh_response
       [png "a.png" [x01]; png "c.png" [x02]] ["text"; "text"] _ _ _ _)).
  - reflexivity.
  - vm_compute. reflexivity.
  - repeat constructor.
  - reflexivity.
Defined.

Lemma no_boundary_500_witness :
  statusCode (response
    (convertImageToText (H := fake_multipart two_images) (H0 := fake_ocr)
       (H1 := fake_renderer) [] (bare_request "POST") fresh_response)) = 500.
Proof.
  refine (proj1 (@no_boundary_500 (fake_multipart two_images) fake_ocr
                   fake_renderer [] (bare_request "POST") fresh_response _ _));
    reflexivity.
Defined.

Lemma no_files_500_witness :
  statusCode (response
    (convertImageToText (H := fake_multipart (Some [])) (H0 := fake_ocr)
       (H1 := fake_renderer) [] (upload_request "POST") fresh_response)) = 500.
Proof.
  refine (proj1 (@no_files_500 (fake_multipart (Some [])) fake_ocr
                   fake_renderer [] (upload_request "POST") fresh_response _ _ _)).
  - reflexivity.
  - vm_compute. reflexivity.
  - right. vm_compute. reflexivity.
Defined.

Lemma no_images_500_witness :
  statusCode (response
    (convertImageToText (H := fake_multipart (Some [attachment "b.pdf"]))
       (H0 := fake_ocr) (H1 := fake_renderer) [] (upload_request "POST")
       fresh_response)) = 500.
Proof.
  refine (proj1 (@no_images_500 (fake_multipart (Some [attachment "b.pdf"]))
                   fake_ocr fake_renderer [] (upload_request "POST")
                   fresh_response [attachment "b.pdf"] _ _ _ _ _ _)).
  - reflexivity.
  - vm_compute. reflexivity.
  - vm_compute. reflexivity.
  - discriminate.
  - repeat constructor. eexists. reflexivity.
  - reflexivity.
Defined.

Lemma untyped_part_500_witness :
  statusCode (response
    (convertImageToText
       (H := fake_multipart (Some [png "a.png" [x01]; form_field]))
       (H0 := fake_ocr) (H1 := fake_renderer) [] (upload_request "POST")
       fresh_response)) = 500.
Proof.
  refine (proj1 (@untyped_part_500
                   (fake_multipart (Some [png "a.png" [x01]; form_field]))
                   fake_ocr fake_renderer [] (upload_request "POST")
                   fresh_response [png "a.png" [x01]; form_field] _ _ _ _)).
  - reflexivity.
  - vm_compute. reflexivity.
  - vm_compute. reflexivity.
  - intros Ht. apply Forall_cons in Ht as [_ Ht].
    apply Forall_cons in Ht as [[t Hsome] _]. discriminate.
Defined.

Lemma parser_exception_500_witness :
  statusCode (response
    (convertImageToText
       (H := {| getBoundary _ := "XYZ";
                parse _ _ := Throw (new_Error "Unexpected token") |})
       (H0 := fake_ocr) (H1 := fake_renderer) [] (upload_request "POST")
       fresh_response)) = 500.
Proof.
  refine (proj1 (@parser_exception_500
                   {| getBoundary _ := "XYZ";
                      parse _ _ := Throw (new_Error "Unexpected token") |}
                   fake_ocr fake_renderer [] (upload_request "POST")
                   fresh_response (new_Error "Unexpected token") _ _ _));
    reflexivity.
Defined.

Lemma pdf_failure_500_witness :
  statusCode (response
    (convertImageToText (H := fake_multipart two_images) (H0 := fake_ocr)
       (H1 := failing_renderer) [1; 0; 0; 1; 1; 0] (upload_request "POST")
       fresh_response)) = 500.
Proof.
  refine (proj2
    (@pdf_failure_500 (fake_multipart two_images) fake_ocr failing_renderer
       [1; 0; 0; 1; 1; 0] (upload_request "POST") fresh_response
       [png "a.png" [x01]; png "c.png" [x02]] ["text"; "text"]
       (new_Error "write after end") _ _ _ _ _)).
  - reflexivity.
  - vm_compute. reflexivity.
  - repeat constructor.
  - reflexivity.
  - vm_compute. reflexivity.
Defined.

Lemma answer_declares_json_witness :
  res_get "Content-Type"
    (response
       (convertImageToText (H := fake_multipart two_images) (H0 := fake_ocr)
          (H1 := fake_renderer) [] (bare_request "POST") fresh_response))
  = Some "application/json".
Proof.
  refine (@answer_declares_json (fake_multipart two_images) fake_ocr
            fake_renderer [] (bare_request "POST") fresh_response _ _ _);
    reflexivity.
Defined.

Lemma answer_schedule_independent_witness :
  response
    (convertImageToText (H := fake_multipart two_images) (H0 := fake_ocr)
       (H1 := fake_renderer) [0; 0; 0; 1; 1; 1] (upload_request "POST")
       fresh_response)
  = response
      (convertImageToText (H := fake_multipart two_images) (H0 := fake_ocr)
         (H1 := fake_renderer) [1; 0; 1; 0; 1; 0] (upload_request "POST")
         fresh_response)
  \/ exists e1 e2,
       response
         (convertImageToText (H := fake_multipart two_images) (H0 := fake_ocr)
            (H1 := fake_renderer) [0; 0; 0; 1; 1; 1] (upload_request "POST")
            fresh_response)
       = send_failure e1 (enable_cors fresh_response)
       /\ response
            (convertImageToText (H := fake_multipart two_images) (H0 := fake_ocr)
               (H1 := fake_renderer) [1; 0; 1; 0; 1; 0] (upload_request "POST")
               fresh_response)
          = send_failure e2 (enable_cors fresh_response).
Proof.
  apply (@answer_schedule_independent (fake_multipart two_images) fake_ocr
           fake_renderer [0; 0; 0; 1; 1; 1] [1; 0; 1; 0; 1; 0]
           (upload_request "POST") fresh_response);
    vm_compute; reflexivity.
Defined.
