(* ===== verification/Contract.v ===== *)
(** * Contract: the contract of the handler is exact

    [Handler.handler_refines_contract] shows that every call of the
    handler ends in an outcome the contract [allowed] names.  This file
    shows the converse: every outcome the contract names is the outcome of
    some schedule of the events of the OCR calls, so the contract allows
    nothing the handler cannot do.

    The contract speaks of the OCR engine only through the way its calls
    settle.  With the two directions this gives what the specification
    asks of the progress reports of the engine: they are printed and have
    no other effect, since an engine that reports differently and settles
    alike leads to the same answers ([progress_reports_do_not_matter]). *)

From Stdlib Require Import String List Lia.
From Stdlib Require Import Strings.Byte.
From stdpp Require Import base option list strings gmap.
From S2P Require Import Prelude Json Base64 Http Multipart FanOut Ocr.
From S2P Require Import TextBundle Pdf Handler.

Section ContractComplete.
Context `{MultipartLib} `{OcrEngine} `{PdfRenderer}.
Implicit Types (request : Request) (sched : list nat) (e : Thrown).
Implicit Types (files : list Part) (extracted : list ExtractionResult).

(** The handler can end a call in the outcome [o]: some schedule of the
    events of the OCR calls leads to the answer of [o]. *)
Definition reaches request (response0 : Response) (o : Outcome) : Prop :=
  exists sched,
    response (convertImageToText sched request response0)
    = answer_of o (enable_cors response0)
    /\ returned_ (convertImageToText sched request response0) = answered o.

(** ** Schedules for the outcomes *)

(** The upload step gives at least one image. *)
Lemma upload_nonempty request files : upload request = Return files -> files <> [].
Proof.
  unfold upload. intros Hu.
  apply bind_Return_inv in Hu as (b & _ & Hu).
  apply bind_Return_inv in Hu as (ps & _ & Hf).
  by apply imageFiles_Return in Hf as (? & _).
Qed.

(** With no event run, the handler waits. *)
Lemma convert_nil files : files <> [] -> (convert [] files).1.1 = None.
Proof. intros Hne. rewrite convert_value. by destruct files. Qed.

(** Running the call on one image alone until it rejects makes the [try]
    block throw its error. *)
Lemma convert_first_rejection files i file e :
  files !! i = Some file -> outcome (recognize (data file) "eng") = Throw e ->
  (convert (replicate (S (length (statuses (recognize (data file) "eng")))) i)
     files).1.1 = Some (Throw e).
Proof.
  intros Hi Ho. rewrite convert_value. unfold extractedTexts.
  rewrite (await_run_until_settled _ _ (Throw e)); [done|].
  replace (length (statuses (recognize (data file) "eng")))
    with (length (pending (ocr_task file))) by apply length_fmap.
  apply first_rejection; [|by apply ocr_task_Throw].
  unfold ocr_tasks. by rewrite list_lookup_fmap, Hi.
Qed.

(** Running the calls one after the other when every image is recognised
    makes the [try] block end the way the PDF promise settles. *)
Lemma convert_sequential files (texts : list string) :
  recognised files texts ->
  let extracted := zip_with extraction files texts in
  (convert (sequential_schedule (ocr_tasks files)) files).1.1
  = mapE (fun pdf => payload pdf extracted) <$> pdfBuffer extracted.
Proof.
  intros Hrec extracted. rewrite convert_value. unfold extractedTexts.
  rewrite (await_run_until_settled _ _ (Return extracted)); [done|].
  apply sequential_fulfils, ocr_tasks_all_Return.
  subst extracted. clear -Hrec.
  induction Hrec as [|file text files texts Ho _ IH]; constructor; eauto.
Qed.

(** The outcome of a schedule on which the [try] block ends with [v]. *)
Lemma outcome_of_try sched request response0 files o :
  method request <> "OPTIONS" -> upload request = Return files ->
  (convert sched files).1.1
  = match o with
    | Failure e => Some (Throw e)
    | Success pdf extracted => Some (Return (payload pdf extracted))
    | _ => None
    end ->
  o <> Preflight ->
  response (convertImageToText sched request response0)
  = answer_of o (enable_cors response0)
  /\ returned_ (convertImageToText sched request response0) = answered o.
Proof.
  intros Hm%is_preflight_false Hu Hc Ho.
  destruct (handler_by_try sched request response0 Hm) as [-> ->].
  unfold try_block. rewrite Hu, Hc. by destruct o.
Qed.

(** ** The contract allows nothing the handler cannot do *)

(** Every allowed outcome has a schedule. *)
Lemma allowed_has_schedule request response0 o :
  allowed request o -> reaches request response0 o.
Proof.
  intros [Hm | e Hm Hu | files file e Hm Hu [i Hi]%list_elem_of_lookup_1 Ho
          | files texts e Hm Hu Hrec Hpdf | files texts pdf Hm Hu Hrec Hpdf
          | files Hm Hu].
  - exists []. apply is_preflight_spec in Hm.
    by rewrite (handler_preflight _ _ _ Hm).
  - exists []. apply is_preflight_false in Hm.
    destruct (handler_by_try [] request response0 Hm) as [-> ->].
    unfold try_block. by rewrite Hu.
  - eexists. eapply outcome_of_try; [done..| |done].
    by apply convert_first_rejection.
  - eexists. eapply outcome_of_try; [done..| |done].
    by rewrite (convert_sequential files texts), Hpdf.
  - eexists. eapply outcome_of_try; [done..| |done].
    by rewrite (convert_sequential files texts), Hpdf.
  - exists []. eapply outcome_of_try; [done..| |done].
    by eapply convert_nil, upload_nonempty.
Qed.

(** C12: the contract of the handler is exact: every outcome it allows for
    a request (preflight, a failure with the error of the upload, of the
    OCR call on any image that cannot be read, or of the PDF stream, a
    success, or waiting) is what the handler does on some schedule of the
    events of the OCR calls. *)
Theorem contract_complete request response0 o :
  allowed request o -> reaches request response0 o.
Proof. apply allowed_has_schedule. Qed.

End ContractComplete.

(** ** Progress reports do not matter *)

Section Progress.
Context (lib : MultipartLib) (renderer : PdfRenderer).
Context (engine1 engine2 : OcrEngine).
Implicit Types (request : Request) (sched : list nat).

(** Two engines whose calls settle alike on every image. *)
Definition same_outcomes : Prop :=
  forall image lang, outcome (engine1 image lang) = outcome (engine2 image lang).

(** The contract does not see the progress reports. *)
Lemma allowed_same_outcomes request o :
  same_outcomes ->
  allowed (H0 := engine1) request o -> allowed (H0 := engine2) request o.
Proof.
  intros Hsame Hall.
  assert (forall files (texts : list string),
             recognised (H := engine1) files texts ->
             recognised (H := engine2) files texts) as Hrec.
  { intros files texts Hr. eapply Forall2_impl; [exact Hr|].
    intros file text Ho. simpl in *. unfold recognize in *.
    by rewrite <- Hsame. }
  destruct Hall; eauto using @allowed.
  eapply allowed_ocr_failure; [done..|]. unfold recognize in *.
  by rewrite <- Hsame.
Qed.

(** C14: the progress reports of the OCR engine are informational only:
    an engine that reports differently but whose calls settle alike leads
    the handler to the same answers.  Whatever the handler does with the
    first engine on one schedule, it does with the second on some
    schedule: the same response, returned or waiting alike. *)
Theorem progress_reports_do_not_matter sched1 request response0 :
  same_outcomes ->
  exists sched2,
    response (convertImageToText (H0 := engine2) sched2 request response0)
    = response (convertImageToText (H0 := engine1) sched1 request response0)
    /\ returned_ (convertImageToText (H0 := engine2) sched2 request response0)
       = returned_ (convertImageToText (H0 := engine1) sched1 request response0).
Proof.
  intros Hsame.
  destruct (handler_allowed (H0 := engine1) sched1 request response0)
    as (o & Ho & -> & -> & _).
  apply (allowed_same_outcomes _ _ Hsame) in Ho.
  destruct (allowed_has_schedule (H0 := engine2) request response0 o Ho)
    as (sched2 & Hr & Hret).
  by exists sched2.
Qed.

End Progress.

(** ** Witnesses *)

(** An engine that reads as [fake_ocr] does and reports nothing. *)
Definition quiet_ocr : OcrEngine := fun image lang =>
  {| statuses := []; outcome := outcome (fake_ocr image lang) |}.

Lemma contract_complete_witness :
  exists sched,
    let r := convertImageToText (H := fake_multipart one_bad_image)
               (H0 := fake_ocr) (H1 := fake_renderer) sched
               (upload_request "POST") fresh_response in
    response r
    = send_failure (new_Error "empty image") (enable_cors fresh_response)
    /\ returned_ r = true.
Proof.
  refine (@contract_complete (fake_multipart one_bad_image) fake_ocr
            fake_renderer (upload_request "POST") fresh_response
            (Failure (new_Error "empty image")) _).
  eapply (allowed_ocr_failure _ _ (png "empty.png" [])); [done|reflexivity| |done].
  apply list_elem_of_lookup_2 with 1. reflexivity.
Defined.

Lemma progress_reports_do_not_matter_witness :
  exists sched2,
    response (convertImageToText (H := fake_multipart two_images)
                (H0 := quiet_ocr) (H1 := fake_renderer) sched2
                (upload_request "POST") fresh_response)
    = response (convertImageToText (H := fake_multipart two_images)
                  (H0 := fake_ocr) (H1 := fake_renderer) [1; 0; 0; 1; 1; 0]
                  (upload_request "POST") fresh_response)
    /\ returned_ (convertImageToText (H := fake_multipart two_images)
                    (H0 := quiet_ocr) (H1 := fake_renderer) sched2
                    (upload_request "POST") fresh_response)
       = returned_ (convertImageToText (H := fake_multipart two_images)
                      (H0 := fake_ocr) (H1 := fake_renderer) [1; 0; 0; 1; 1; 0]
                      (upload_request "POST") fresh_response).
Proof.
  apply (progress_reports_do_not_matter (fake_multipart two_images)
           fake_renderer fake_ocr quiet_ocr).
  intros image lang. reflexivity.
Defined.
