(* ===== verification/Effects.v ===== *)
(** * Effects: the handler as an interaction tree

    [Handler] gives the handler as a function to what a call leaves.  This
    file gives it as a program: [handler_tree] is the body of the handler,
    statement by statement, over the events it performs: the calls on the
    response, [console.error], the calls of the multipart library and the
    two [await]s.  The environment [env] answers the events: it records the
    calls and the console lines in the order they happen (the [World]),
    asks the libraries, and runs the OCR calls on a schedule; an [await]
    on a promise that never settles suspends the program for good
    ([Suspend]).

    [serve_refines] shows that the program in this environment does what
    [Handler.convertImageToText] says: it ends or is suspended alike, with
    the same response and the same console.  The world keeps what the
    record does not, the order of the events: [events_in_order] and
    [never_writes_after_answer] are stated on it, and
    [fair_schedule_returns] says when the program ends. *)

From Stdlib Require Import String List.
From Stdlib Require Import Strings.Byte.
From ITree Require Import ITree ITreeFacts Events.State Events.StateFacts.
From stdpp Require Import base option list strings gmap.
From S2P Require Import Prelude Json Base64 Http Multipart FanOut Schedules Ocr.
From S2P Require Import TextBundle Pdf Handler.

Declare Scope tree_scope.
Notation "'call!' x ':=' t 'in' k" := (ITree.bind t (fun x => k))
  (at level 10, x name, t at level 100, k at level 200,
   format "'[v' 'call!'  x  ':='  t  'in' '/' k ']'") : tree_scope.
Notation "'do!' t 'then' k" := (ITree.bind t (fun _ => k))
  (at level 10, t at level 100, k at level 200,
   format "'[v' 'do!'  t  'then' '/' k ']'") : tree_scope.
Notation "'try!' x ':=' t 'in' k" :=
  (ITree.bind t (fun r => match r with
                          | Return x => k
                          | Throw e => Ret (Throw e)
                          end))
  (at level 10, x name, t at level 100, k at level 200,
   format "'[v' 'try!'  x  ':='  t  'in' '/' k ']'") : tree_scope.
Local Open Scope tree_scope.
Local Open Scope js_scope.

(** ** Events *)

(** What the handler does to its environment; the index is the type of
    the answer. *)
Inductive HandlerE : Type -> Type :=
| Respond (c : ResCall) : HandlerE unit
| ConsoleError (label : string) (e : Thrown) : HandlerE unit
| GetBoundary (header : string) : HandlerE string
| Parse (body : bytes) (boundary : string) : HandlerE (Exn (option (list Part)))
| AwaitOcr (files : list Part) : HandlerE (Exn (list ExtractionResult))
| AwaitPdf (extracted : list ExtractionResult) : HandlerE (Exn bytes).

(** ** The program *)

Definition call_response (c : ResCall) : itree HandlerE unit :=
  ITree.trigger (Respond c).

(** Enable CORS. *)
Definition enable_cors_tree : itree HandlerE unit :=
  do! call_response (CallSet "Access-Control-Allow-Origin" "*") then
  do! call_response (CallSet "Access-Control-Allow-Methods" "POST") then
  call_response (CallSet "Access-Control-Allow-Headers" "Content-Type").

(** The [try] block up to the fan-out: boundary, parts, image files. *)
Definition upload_tree (request : Request) : itree HandlerE (Exn (list Part)) :=
  call! b := ITree.trigger (GetBoundary (content_type request)) in
  if truthy b then
    call! parsed := ITree.trigger (Parse (body request) b) in
    Ret (let! parsed := parsed in
         let! ps := match parsed with
                    | Some (part :: rest) => Return (part :: rest)
                    | _ => throw! "No files uploaded"
                    end in
         imageFiles ps)
  else Ret (throw! "No boundary found in content-type header").

(** The [try] block: it runs to its end or throws. *)
Definition try_tree (request : Request) : itree HandlerE (Exn unit) :=
  try! files := upload_tree request in
  try! extracted := ITree.trigger (AwaitOcr files) in
  try! pdf := ITree.trigger (AwaitPdf extracted) in
  do! call_response (CallSet "Content-Type" "application/json") then
  do! call_response (CallJson (payload_object (payload pdf extracted))) then
  Ret (Return tt).

(** The [catch] block. *)
Definition catch_tree (error : Thrown) : itree HandlerE unit :=
  do! ITree.trigger (ConsoleError "Error:" error) then
  do! call_response (CallStatus 500) then
  call_response (CallJson (error_object error)).

(** The handler. *)
Definition handler_tree (request : Request) : itree HandlerE unit :=
  do! enable_cors_tree then
  if is_preflight request then
    do! call_response (CallStatus 204) then
    call_response (CallSend "")
  else
    call! r := try_tree request in
    match r with
    | Return _ => Ret tt
    | Throw error => catch_tree error
    end.

(** ** The environment *)

(** What can be seen of a run: a call on the response or a console
    entry. *)
Inductive Obs : Type :=
| Called (c : ResCall)
| Printed (entry : ConsoleEntry).

(** The events seen so far, in order, and the lines the OCR calls still in
    flight will print after the handler has returned. *)
Record World : Type := {
  seen : list Obs;
  in_flight : list ConsoleEntry;
}.

Definition new_world : World := {| seen := []; in_flight := [] |}.

Definition see (os : list Obs) (w : World) : World :=
  {| seen := seen w ++ os; in_flight := in_flight w |}.

(** The program waits on a promise that never settles. *)
Inductive SuspendE : Type -> Type :=
| Suspend (w : World) : SuspendE void.

Definition suspend {R : Type} (w : World) : itree SuspendE R :=
  Vis (Suspend w) (fun v : void => match v with end).

(** How a run ends: returned, or suspended for good. *)
Definition finish (returned : bool) (w : World) : itree SuspendE (World * unit) :=
  if returned then Ret (w, tt) else suspend w.

(** The calls on the response and the console entries of a sequence of
    events. *)
Definition calls (os : list Obs) : list ResCall :=
  omap (fun o => match o with Called c => Some c | Printed _ => None end) os.

Definition prints (os : list Obs) : list ConsoleEntry :=
  omap (fun o => match o with Printed entry => Some entry | Called _ => None end) os.

(** The response and the console of a world. *)
Definition response_of (w : World) (response0 : Response) : Response :=
  respond_all (calls (seen w)) response0.

Definition console_of (w : World) : list ConsoleEntry :=
  prints (seen w) ++ in_flight w.

(** The three CORS calls. *)
Definition cors_calls : list Obs :=
  [Called (CallSet "Access-Control-Allow-Origin" "*");
   Called (CallSet "Access-Control-Allow-Methods" "POST");
   Called (CallSet "Access-Control-Allow-Headers" "Content-Type")].

Section Environment.
Context `{MultipartLib} `{OcrEngine} `{PdfRenderer}.
Implicit Types (request : Request) (sched : list nat) (e : Thrown) (w : World).

(** The environment answers the events of the handler: the libraries
    answer their calls, the OCR calls run on the schedule. *)
Definition env (sched : list nat) : HandlerE ~> Monads.stateT World (itree SuspendE) :=
  fun _ event w =>
    match event with
    | Respond c => Ret (see [Called c] w, tt)
    | ConsoleError label e => Ret (see [Printed (LogError label e)] w, tt)
    | GetBoundary header => Ret (w, getBoundary header)
    | Parse body boundary => Ret (w, parse body boundary)
    | AwaitOcr files =>
        let '(pool, rest) := extractedTexts sched files in
        let w := see (Printed <$> pool_lines pool) w in
        match await pool with
        | None => suspend w
        | Some (Return extracted) => Ret (w, Return extracted)
        | Some (Throw e) =>
            Ret ({| seen := seen w; in_flight := late_lines pool rest |}, Throw e)
        end
    | AwaitPdf extracted =>
        match pdfBuffer extracted with
        | None => suspend w
        | Some r => Ret (w, r)
        end
    end.

(** A call of the handler. *)
Definition serve (sched : list nat) (request : Request) : itree SuspendE (World * unit) :=
  interp_state (env sched) (handler_tree request) new_world.

(** The world [Handler.try_block] predicts for the end of the [try]
    block, and the world [Handler.convertImageToText] predicts for the
    end of the call. *)
Definition success_calls (p : ResponsePayload) : list Obs :=
  [Called (CallSet "Content-Type" "application/json");
   Called (CallJson (payload_object p))].

Definition failure_calls (e : Thrown) : list Obs :=
  [Printed (LogError "Error:" e); Called (CallStatus 500);
   Called (CallJson (error_object e))].

Definition world_of (sched : list nat) (request : Request) : World :=
  if is_preflight request then
    see [Called (CallStatus 204); Called (CallSend "")] (see cors_calls new_world)
  else
    match try_block sched request with
    | (None, lines, _) => see (Printed <$> lines) (see cors_calls new_world)
    | (Some (Return p), lines, _) =>
        see (success_calls p) (see (Printed <$> lines) (see cors_calls new_world))
    | (Some (Throw e), lines, late) =>
        see (failure_calls e)
          {| seen := cors_calls ++ (Printed <$> lines); in_flight := late |}
    end.

End Environment.

(** ** Running the program *)

(** One more step of a run: split a sequence, run what is known, drop the
    returns. *)
Ltac run_step :=
  first [ rewrite interp_state_bind
        | rewrite interp_state_ret
        | rewrite interp_state_trigger
        | rewrite bind_ret_l ];
  cbn [fst snd].

Ltac run_steps := repeat run_step.

Section Runs.
Context `{MultipartLib} `{OcrEngine} `{PdfRenderer}.
Implicit Types (request : Request) (sched : list nat) (e : Thrown) (w : World).

(** Nothing follows a suspension. *)
Lemma suspend_bind {R S : Type} w (k : R -> itree SuspendE S) :
  ITree.bind (suspend w) k ≅ suspend w.
Proof. unfold suspend. rewrite bind_vis. apply eqit_Vis. intros []. Qed.

Lemma see_see (os1 os2 : list Obs) w : see os2 (see os1 w) = see (os1 ++ os2) w.
Proof. unfold see. simpl. by rewrite app_assoc. Qed.

Lemma run_call sched (c : ResCall) w :
  interp_state (env sched) (call_response c) w ≈ Ret (see [Called c] w, tt).
Proof. unfold call_response. by rewrite interp_state_trigger. Qed.

Lemma run_enable_cors sched w :
  interp_state (env sched) enable_cors_tree w ≈ Ret (see cors_calls w, tt).
Proof.
  unfold enable_cors_tree. do 2 (run_step; rewrite run_call; run_step).
  by rewrite run_call, !see_see.
Qed.

(** The synchronous steps touch nothing and give what [Handler.upload]
    gives. *)
Lemma run_upload sched request w :
  interp_state (env sched) (upload_tree request) w ≈ Ret (w, upload request).
Proof.
  unfold upload_tree, upload, boundary, parts. run_steps. cbn [env]. run_steps.
  destruct (truthy (getBoundary (content_type request))); run_steps;
    [|reflexivity].
  cbn [env bindE]. run_steps.
  destruct (parse _ _) as [[[|p ps]|]|e]; reflexivity.
Qed.

(** The [try] block ends the way [Handler.try_block] says: suspended, at
    its end after the two calls of the answer, or thrown out of, with the
    console lines of the OCR calls seen on the way. *)
Lemma run_try sched request w :
  in_flight w = [] ->
  interp_state (env sched) (try_tree request) w
  ≈ match try_block sched request with
    | (None, lines, _) => suspend (see (Printed <$> lines) w)
    | (Some (Return p), lines, _) =>
        Ret (see (success_calls p) (see (Printed <$> lines) w), Return tt)
    | (Some (Throw e), lines, late) =>
        Ret ({| seen := seen w ++ (Printed <$> lines); in_flight := late |}, Throw e)
    end.
Proof.
  destruct w as [os late]. simpl. intros ->. unfold try_tree, try_block, convert.
  run_step. rewrite run_upload. run_step.
  destruct (upload request) as [files|e].
  2: { run_steps. simpl. by rewrite app_nil_r. }
  run_steps. cbn [env].
  destruct (extractedTexts sched files) as [pool rest].
  destruct (await pool) as [[extracted|e]|]; [| |by rewrite suspend_bind].
  2: { run_steps. reflexivity. }
  run_steps. cbn [env].
  destruct (pdfBuffer extracted) as [[pdf|e]|]; [| |by rewrite suspend_bind].
  2: { run_steps. reflexivity. }
  run_steps. rewrite run_call. run_steps. rewrite run_call. run_steps.
  by rewrite see_see.
Qed.

(** The [catch] block. *)
Lemma run_catch sched e w :
  interp_state (env sched) (catch_tree e) w ≈ Ret (see (failure_calls e) w, tt).
Proof.
  unfold catch_tree. run_steps. cbn [env]. run_steps.
  rewrite run_call. run_steps. by rewrite run_call, !see_see.
Qed.

(** A call of the handler ends in the world [world_of]. *)
Lemma run_handler sched request response0 :
  serve sched request
  ≈ finish (returned_ (convertImageToText sched request response0))
      (world_of sched request).
Proof.
  unfold serve, handler_tree, world_of, convertImageToText.
  run_step. rewrite run_enable_cors. run_step.
  destruct (is_preflight request).
  - run_step. rewrite run_call. run_step. by rewrite run_call, see_see.
  - run_step. rewrite run_try by done.
    destruct (try_block sched request) as [[[[p|e]|] lines] late]; cbn [returned_ finish].
    + run_steps. reflexivity.
    + run_step. by rewrite run_catch.
    + by rewrite suspend_bind.
Qed.

(** ** What the world shows *)

Lemma calls_app (os1 os2 : list Obs) : calls (os1 ++ os2) = calls os1 ++ calls os2.
Proof. apply omap_app. Qed.

Lemma prints_app (os1 os2 : list Obs) : prints (os1 ++ os2) = prints os1 ++ prints os2.
Proof. apply omap_app. Qed.

Lemma calls_Printed (lines : list ConsoleEntry) : calls (Printed <$> lines) = [].
Proof. by induction lines. Qed.

Lemma prints_Printed (lines : list ConsoleEntry) : prints (Printed <$> lines) = lines.
Proof.
  induction lines as [|line lines IH]; [done|].
  rewrite fmap_cons. unfold prints in *. cbn [omap list_omap]. by rewrite IH.
Qed.

(** The calls on the response in the world of a call of the handler:
    the CORS headers, then what the path of the handler adds. *)
Lemma calls_world_of sched request :
  calls (seen (world_of sched request))
  = calls cors_calls
    ++ if is_preflight request then [CallStatus 204; CallSend ""]
       else match (try_block sched request).1.1 with
            | None => []
            | Some (Return p) => calls (success_calls p)
            | Some (Throw e) => calls (failure_calls e)
            end.
Proof.
  unfold world_of. destruct (is_preflight request); [done|].
  destruct (try_block sched request) as [[[[p|e]|] lines] late];
    cbn [see seen new_world fst snd app];
    rewrite !calls_app, calls_Printed, ?app_nil_r; done.
Qed.

(** The response of the world is the response of the record. *)
Lemma response_of_world_of sched request response0 :
  response_of (world_of sched request) response0
  = response (convertImageToText sched request response0).
Proof.
  unfold response_of. rewrite calls_world_of. unfold convertImageToText.
  destruct (is_preflight request); [done|].
  by destruct (try_block sched request) as [[[[p|e]|] lines] late].
Qed.

(** The console of the world is the console of the record. *)
Lemma console_of_world_of sched request response0 :
  console_of (world_of sched request)
  = logged (convertImageToText sched request response0).
Proof.
  unfold console_of, world_of, convertImageToText.
  destruct (is_preflight request); [done|].
  destruct (try_block sched request) as [[[[p|e]|] lines] late];
    cbn [see seen in_flight new_world logged app];
    rewrite ?prints_app, !prints_Printed, ?app_nil_r; try done.
  by rewrite <- app_assoc.
Qed.

(** ** How a run ends is determined *)

(** The world of a suspension. *)
Definition suspended_world {T : Type} (event : SuspendE T) : World :=
  match event with Suspend w => w end.

Lemma eqeq_suspended_world {T1 T2 : Type} (p : T1 = T2) (e1 : SuspendE T1) (e2 : SuspendE T2) :
  eqeq SuspendE p e1 e2 -> suspended_world e1 = suspended_world e2.
Proof. destruct p. by intros ->. Qed.

(** A run does not end in two ways. *)
Lemma finish_inj (returned1 returned2 : bool) (w1 w2 : World) :
  finish returned1 w1 ≈ finish returned2 w2 -> returned1 = returned2 /\ w1 = w2.
Proof.
  destruct returned1, returned2; cbn [finish]; intros Heq.
  - apply eutt_inv_Ret in Heq. by simplify_eq.
  - by apply eqit_inv in Heq.
  - by apply eqit_inv in Heq.
  - apply eqit_inv_Vis_weak in Heq as (p & Heq%eqeq_suspended_world & _). done.
Qed.

(** The end of a call of the handler. *)
Lemma serve_finish sched request response0 (returned : bool) w :
  serve sched request ≈ finish returned w ->
  returned = returned_ (convertImageToText sched request response0)
  /\ w = world_of sched request.
Proof.
  rewrite (run_handler sched request response0). intros Heq.
  by apply finish_inj in Heq as [<- <-].
Qed.

(** ** Theorems *)

(** C13: the program refines the record: a call of the handler, run as an
    interaction tree in the environment of the libraries and the
    schedule, ends in one way only: it returns exactly when
    [Handler.convertImageToText] says it has returned and is suspended
    on a promise otherwise, and the calls it has made on the response and
    the lines it has printed give the response and the console of
    [Handler.convertImageToText]. *)
Theorem serve_refines sched request response0 :
  let r := convertImageToText sched request response0 in
  (exists w, serve sched request ≈ finish (returned_ r) w)
  /\ forall (returned : bool) w,
       serve sched request ≈ finish returned w ->
       returned = returned_ r
       /\ response_of w response0 = response r
       /\ console_of w = logged r.
Proof.
  split; [eexists; apply run_handler|].
  intros returned w [-> ->]%(serve_finish _ _ response0).
  split_and!;
    [done | apply response_of_world_of | apply console_of_world_of].
Qed.

(** The shapes a sequence of events of the handler has: after the CORS
    calls, the answer of the preflight; or the console lines of the OCR
    calls and then nothing (suspended), the two calls of the success, or
    the error on the console and the two calls of the failure. *)
Inductive in_order : bool -> list Obs -> Prop :=
| order_preflight :
    in_order true (cors_calls ++ [Called (CallStatus 204); Called (CallSend "")])
| order_success (lines : list ConsoleEntry) (p : ResponsePayload) :
    in_order true (cors_calls ++ (Printed <$> lines) ++ success_calls p)
| order_failure (lines : list ConsoleEntry) (e : Thrown) :
    in_order true (cors_calls ++ (Printed <$> lines) ++ failure_calls e)
| order_suspended (lines : list ConsoleEntry) :
    in_order false (cors_calls ++ (Printed <$> lines)).

Lemma in_order_world_of sched request response0 :
  in_order (returned_ (convertImageToText sched request response0))
    (seen (world_of sched request)).
Proof.
  unfold world_of, convertImageToText. destruct (is_preflight request).
  - apply order_preflight.
  - destruct (try_block sched request) as [[[[p|e]|] lines] late];
      cbn [see seen new_world returned_ app]; rewrite <- ?app_assoc;
      by constructor.
Qed.

(** Events in order answer last, and once when the handler returns. *)
Lemma in_order_answer_last (returned : bool) (os : list Obs) :
  in_order returned os ->
  answer_last (calls os) = true
  /\ length (filter (fun c => is_answer c = true) (calls os))
     = (if returned then 1 else 0).
Proof.
  intros [|lines p|lines e|lines];
    rewrite ?calls_app, ?calls_Printed, ?app_nil_r; done.
Qed.

(** C16: the events of a call of the handler happen in the order of the
    statements: first the three CORS headers; then, for a preflight, the
    status 204 and the empty body; otherwise the console lines of the OCR
    calls, followed by the content type and the JSON body of a success,
    or by [console.error], the status 500 and the JSON body of a failure,
    or by nothing when the handler is suspended.  Nothing is seen after
    the answer. *)
Theorem events_in_order sched request (returned : bool) w :
  serve sched request ≈ finish returned w -> in_order returned (seen w).
Proof.
  intros [-> ->]%(serve_finish _ _ fresh_response). apply in_order_world_of.
Qed.

(** C15: the handler never writes to a response it has answered: the
    answer is the last of its calls on the response, it is made once when
    the handler returns and not at all while it is suspended, and with
    the checks Node makes on a response whose body is sent no call
    throws. *)
Theorem never_writes_after_answer sched request response0 (returned : bool) w :
  headersSent response0 = false ->
  serve sched request ≈ finish returned w ->
  answer_last (calls (seen w)) = true
  /\ length (filter (fun c => is_answer c = true) (calls (seen w)))
     = (if returned then 1 else 0)
  /\ respond_all_checked (calls (seen w)) response0
     = Return (response (convertImageToText sched request response0)).
Proof.
  intros Hsent [-> ->]%(serve_finish _ _ response0).
  destruct (in_order_answer_last _ _ (in_order_world_of sched request response0))
    as [Hlast Hone].
  split_and!; [done..|].
  rewrite respond_all_checked_answer_last by done.
  f_equal. apply response_of_world_of.
Qed.

(** Events in order that end a call end with the answer. *)
Lemma in_order_answered (os : list Obs) :
  in_order true os -> exists c, last (calls os) = Some c /\ is_answer c = true.
Proof.
  intros Hord. inversion Hord as [|lines p|lines e|];
    rewrite ?calls_app, ?calls_Printed, ?app_nil_l; by eexists.
Qed.

(** C17: under a fair schedule the handler answers: when the schedule
    picks every OCR call once more than the call has progress reports, and
    the PDF stream ends or fails, the program is not suspended: it returns,
    and the last call it has made on the response is its answer. *)
Theorem fair_schedule_returns sched request files :
  is_preflight request = false -> upload request = Return files ->
  fair (ocr_tasks files) sched ->
  (forall extracted, is_Some (pdfBuffer extracted)) ->
  exists w, serve sched request ≈ Ret (w, tt)
            /\ exists c, last (calls (seen w)) = Some c /\ is_answer c = true.
Proof.
  intros Hp Hu Hfair%work_0_fair Hpdf.
  pose proof (returned_at_quiescence sched request fresh_response files
                Hp Hu Hfair Hpdf) as Hret.
  pose proof (run_handler sched request fresh_response) as Hrun.
  pose proof (in_order_world_of sched request fresh_response) as Hord.
  rewrite Hret in Hrun, Hord. exists (world_of sched request).
  split; [exact Hrun | by apply in_order_answered].
Qed.

End Runs.

(** ** Witnesses *)

Lemma events_in_order_witness :
  in_order true
    (seen (world_of (H := fake_multipart one_bad_image) (H0 := fake_ocr)
             (H1 := fake_renderer) [1; 1] (upload_request "POST"))).
Proof.
  apply (events_in_order (H := fake_multipart one_bad_image) (H0 := fake_ocr)
           (H1 := fake_renderer) [1; 1] (upload_request "POST") true).
  apply (run_handler (H := fake_multipart one_bad_image) (H0 := fake_ocr)
           (H1 := fake_renderer) [1; 1] (upload_request "POST") fresh_response).
Defined.

Lemma never_writes_after_answer_witness :
  respond_all_checked
    (calls (seen (world_of (H := fake_multipart two_images) (H0 := fake_ocr)
                    (H1 := fake_renderer) [1; 0; 0; 1; 1; 0]
                    (upload_request "POST"))))
    fresh_response
  = Return (response
              (convertImageToText (H := fake_multipart two_images)
                 (H0 := fake_ocr) (H1 := fake_renderer) [1; 0; 0; 1; 1; 0]
                 (upload_request "POST") fresh_response)).
Proof.
  refine (proj2 (proj2
    (never_writes_after_answer (H := fake_multipart two_images) (H0 := fake_ocr)
       (H1 := fake_renderer) [1; 0; 0; 1; 1; 0] (upload_request "POST")
       fresh_response true _ _ _))).
  - reflexivity.
  - apply (run_handler (H := fake_multipart two_images) (H0 := fake_ocr)
             (H1 := fake_renderer) [1; 0; 0; 1; 1; 0] (upload_request "POST")
             fresh_response).
Defined.

Lemma fair_schedule_returns_witness :
  exists w,
    serve (H := fake_multipart two_images) (H0 := fake_ocr) (H1 := fake_renderer)
      [1; 0; 0; 1; 1; 0] (upload_request "POST") ≈ Ret (w, tt)
    /\ exists c, last (calls (seen w)) = Some c /\ is_answer c = true.
Proof.
  apply (fair_schedule_returns (H := fake_multipart two_images) (H0 := fake_ocr)
           (H1 := fake_renderer) [1; 0; 0; 1; 1; 0] (upload_request "POST")
           [png "a.png" [x01]; png "c.png" [x02]]).
  - reflexivity.
  - vm_compute. reflexivity.
  - apply work_0_fair. vm_compute. reflexivity.
  - intros extracted. by eexists.
Defined.
