(* ===== verification/Artifacts.v ===== *)
(** * Artifacts: what the two files of the answer hold, image by image

    The handler gives the results of the OCR calls to the PDF document and
    to the text bundle.  This file composes the three components: for the
    image at index [i] of the upload, with the text the engine recognised
    in it, the document has its page [i + 1] with the heading and the text,
    and the bundle has its section between those of the images before and
    after it.  The name shown is the file name of the part, or ["unknown"]
    when the part has none. *)

From Stdlib Require Import String List Lia.
From Stdlib Require Import Strings.Byte.
From stdpp Require Import base option list strings.
From S2P Require Import Prelude Multipart FanOut Ocr TextBundle Pdf Handler.

(** The name under which an image stands in both artifacts:
    [file.filename || "unknown"]. *)
Definition image_name (file : Part) : string := js_or (filename file) "unknown".

Section Artifacts.
Context `{OcrEngine}.

(** The document of the results of a non-empty upload has one page per
    image. *)
Lemma pages_per_image (files : list Part) (texts : list string) :
  recognised files texts -> files <> [] ->
  pages (build_document (zip_with extraction files texts)) = length files.
Proof.
  intros Hrec Hne.
  destruct (forEach_add_item (zip_with extraction files texts)) as (_ & Hp & _).
  simpl. rewrite Hp, length_extracted by done. destruct files; [done | simpl; lia].
Qed.

(** The two texts drawn for the image at index [i]. *)
Lemma drawn_per_image (files : list Part) (texts : list string) (i : nat) (file : Part) (text : string) :
  files !! i = Some file -> texts !! i = Some text ->
  let doc := build_document (zip_with extraction files texts) in
  drawn doc !! (2 * i)%nat = head (item_drawn (extraction file text) (S i))
  /\ drawn doc !! (2 * i + 1)%nat = last (item_drawn (extraction file text) (S i)).
Proof.
  intros Hf Ht. simpl.
  destruct (forEach_add_item (zip_with extraction files texts)) as (_ & _ & -> & _).
  apply (items_drawn_lookup _ i 1 (extraction file text)), extracted_lookup; done.
Qed.

(** C27: for the image at index [i] of the upload and the text recognised in
    it, the PDF document has as many pages as there are images and draws on
    page [i + 1] the heading with the file name of the part (["unknown"]
    when it has none) in Helvetica-Bold 16 and then the text in Helvetica
    12; the text bundle holds the section of the image, with the same name
    and text, after the sections of the images before it and before those
    of the images after it. *)
Theorem artifacts_per_image (files : list Part) (texts : list string) (i : nat) (file : Part) (text : string) :
  recognised files texts ->
  files !! i = Some file -> texts !! i = Some text ->
  let extracted := zip_with extraction files texts in
  let name := image_name file in
  pages (build_document extracted) = length files
  /\ drawn (build_document extracted) !! (2 * i)%nat =
       Some {| on_page := S i; in_font := "Helvetica-Bold"; at_size := 16;
               content := "Extracted from: " +:+ name;
               options := heading_options |}
  /\ drawn (build_document extracted) !! (2 * i + 1)%nat =
       Some {| on_page := S i; in_font := "Helvetica"; at_size := 12;
               content := text; options := body_options |}
  /\ textContent extracted =
       (if (i =? 0)%nat then ""
        else textContent (take i extracted) +:+ separator)
       +:+ ("=== " +:+ name +:+ " ===" +:+ nl +:+ nl +:+ text +:+ nl +:+ nl)
       +:+ (if (S i =? length files)%nat then ""
            else separator +:+ textContent (drop (S i) extracted)).
Proof.
  intros Hrec Hf Ht extracted name.
  destruct (drawn_per_image files texts i file text Hf Ht) as [Hhead Hbody].
  split_and!; [|done..|].
  - apply pages_per_image; [done|]. by intros ->.
  - rewrite <- (length_extracted files texts Hrec).
    apply (textContent_lookup extracted i (extraction file text)), extracted_lookup; done.
Qed.

End Artifacts.

(** ** A concrete upload *)

(** Two images, the second without a file name. *)
Definition named_and_unnamed : list Part :=
  [png "a.png" [x01];
   {| filename := None; type := Some "image/png"; data := [x02] |}].

Lemma artifacts_per_image_witness :
  let extracted := zip_with extraction named_and_unnamed ["text"; "text"] in
  pages (build_document extracted) = 2
  /\ drawn (build_document extracted) !! 2%nat =
       Some {| on_page := 2; in_font := "Helvetica-Bold"; at_size := 16;
               content := "Extracted from: unknown";
               options := heading_options |}
  /\ drawn (build_document extracted) !! 3%nat =
       Some {| on_page := 2; in_font := "Helvetica"; at_size := 12;
               content := "text"; options := body_options |}
  /\ textContent extracted =
       (textContent (take 1 extracted) +:+ separator)
       +:+ ("=== unknown ===" +:+ nl +:+ nl +:+ "text" +:+ nl +:+ nl) +:+ "".
Proof.
  refine (artifacts_per_image (H := fake_ocr) named_and_unnamed ["text"; "text"] 1
            {| filename := None; type := Some "image/png"; data := [x02] |}
            "text" _ _ _);
    [repeat constructor | reflexivity | reflexivity].
Defined.
