(* ===== verification/Logging.v ===== *)
(** * Logging: what the handler writes on the console

    The handler logs through the [logger] callback of each OCR call
    ([console.log], one line per progress report) and through
    [console.error] in the [catch] block.  [logged] of [Handler] keeps the
    entries in the order written.  The theorems say which lines can be
    there, that a success has logged every progress line of every image,
    and that an error is logged once, by the answer that reports it. *)

From Stdlib Require Import String List Lia.
From Stdlib Require Import Strings.Byte.
From stdpp Require Import base option list strings gmap.
From S2P Require Import Prelude Json Base64 Http Multipart FanOut Schedules Ocr.
From S2P Require Import TextBundle Pdf Handler.

(** ** Reading the console *)

(** The lines of [console.log], in order. *)
Definition log_lines (entries : list ConsoleEntry) : list string :=
  omap (fun entry => match entry with Log line => Some line | _ => None end)
    entries.

(** The errors of [console.error], in order. *)
Definition log_errors (entries : list ConsoleEntry) : list Thrown :=
  omap (fun entry => match entry with LogError _ e => Some e | _ => None end)
    entries.

Section Logging.
Context `{MultipartLib} `{OcrEngine} `{PdfRenderer}.
Implicit Types (request : Request) (sched : list nat) (e : Thrown).
Implicit Types (files : list Part) (pool : Pool ExtractionResult).

(** The lines the logger of one image prints, in order. *)
Definition image_lines (file : Part) : list string :=
  logger file <$> statuses (recognize (data file) "eng").

(** The lines of all images, image by image. *)
Definition all_image_lines (files : list Part) : list string :=
  concat (image_lines <$> files).

(** ** Lemmas *)

Lemma log_lines_app (xs ys : list ConsoleEntry) :
  log_lines (xs ++ ys) = log_lines xs ++ log_lines ys.
Proof. apply omap_app. Qed.

Lemma log_errors_app (xs ys : list ConsoleEntry) :
  log_errors (xs ++ ys) = log_errors xs ++ log_errors ys.
Proof. apply omap_app. Qed.

Lemma log_lines_pool_lines pool : log_lines (pool_lines pool) = (console pool).*2.
Proof.
  unfold pool_lines. induction (console pool) as [|[i line] out IH]; [done|].
  rewrite !fmap_cons. simpl. by rewrite <- IH.
Qed.

Lemma log_errors_pool_lines pool : log_errors (pool_lines pool) = [].
Proof.
  unfold pool_lines. induction (console pool) as [|[i line] out IH]; [done|].
  by rewrite fmap_cons.
Qed.

Lemma log_lines_drop n pool :
  log_lines (drop n (pool_lines pool)) = drop n (console pool).*2.
Proof.
  unfold pool_lines. rewrite <- !fmap_drop.
  induction (drop n (console pool)) as [|[i line] out IH]; [done|].
  rewrite !fmap_cons. simpl. by rewrite <- IH.
Qed.

Lemma log_errors_drop n pool : log_errors (drop n (pool_lines pool)) = [].
Proof.
  unfold pool_lines. rewrite <- !fmap_drop.
  induction (drop n (console pool)) as [|[i line] out IH]; [done|].
  by rewrite fmap_cons.
Qed.

(** The lines of the calls of the handler, without their indices, are the
    lines of the images. *)
Lemma all_lines_ocr_tasks files :
  (all_lines (ocr_tasks files)).*2 = all_image_lines files.
Proof.
  rewrite all_lines_snd. unfold all_image_lines, ocr_tasks.
  by rewrite <- list_fmap_compose.
Qed.

(** The pool the handler resumes from is the pool after the picks run so
    far. *)
Lemma extractedTexts_run sched files :
  exists ran,
    sched = ran ++ (extractedTexts sched files).2
    /\ (extractedTexts sched files).1 = run ran (start (ocr_tasks files)).
Proof. apply run_until_settled_split. Qed.

(** The lines on the console of a pool of the handler are lines of the
    images. *)
Lemma console_image_lines sched files :
  (console (run sched (start (ocr_tasks files)))).*2 ⊆+ all_image_lines files.
Proof.
  rewrite <- all_lines_ocr_tasks. apply fmap_submseteq, console_submseteq.
Qed.

(** The lines printed before and after the handler resumes are the lines
    of the whole schedule. *)
Lemma lines_and_late_lines pool (rest : list nat) :
  log_lines (pool_lines pool ++ late_lines pool rest)
  = (console (run rest pool)).*2.
Proof.
  unfold late_lines. rewrite log_lines_app, log_lines_pool_lines, log_lines_drop.
  destruct (console_run_prefix rest pool) as [more ->].
  by rewrite fmap_app, <- (length_fmap snd (console pool)), drop_app_length.
Qed.

(** The [console.log] lines of the [try] block, before and after it ends. *)
Lemma convert_log_lines sched files :
  log_lines ((convert sched files).1.2 ++ (convert sched files).2)
  ⊆+ all_image_lines files.
Proof.
  unfold convert.
  destruct (extractedTexts_run sched files) as (ran & Hs & Hr).
  destruct (extractedTexts sched files) as [pool rest]. simpl in Hs, Hr. subst pool.
  destruct (await _) as [[extracted|e]|]; [destruct (pdfBuffer extracted) as [[pdf|e]|]|..];
    simpl; rewrite ?app_nil_r, ?log_lines_pool_lines;
    try apply console_image_lines.
  rewrite lines_and_late_lines, <- run_app. apply console_image_lines.
Qed.

(** The [try] block itself writes no error. *)
Lemma convert_log_errors sched files :
  log_errors (convert sched files).1.2 = []
  /\ log_errors (convert sched files).2 = [].
Proof.
  unfold convert. destruct (extractedTexts sched files) as [pool rest].
  destruct (await _) as [[extracted|e]|]; [destruct (pdfBuffer extracted) as [[pdf|e]|]|..];
    simpl; rewrite ?log_errors_pool_lines; split; try done.
  apply log_errors_drop.
Qed.

(** The lines the calls of the handler have to print are the lines of the
    images. *)
Lemma pending_ocr_tasks files : pending <$> ocr_tasks files = image_lines <$> files.
Proof. unfold ocr_tasks. by rewrite <- list_fmap_compose. Qed.

(** When the [try] block ends well the console interleaves the lines of
    the images: every line of every image is there, those of one image
    in the order of its progress reports. *)
Lemma convert_Return_interleaved sched files p :
  (convert sched files).1.1 = Some (Return p) ->
  interleaved (image_lines <$> files) (log_lines (convert sched files).1.2).
Proof.
  rewrite convert_value, convert_lines, log_lines_pool_lines.
  destruct (extractedTexts_run sched files) as (ran & _ & ->).
  destruct (await _) as [[extracted|e]|] eqn:Haw; [intros _|done..].
  apply await_Some_promise in Haw. rewrite <- pending_ocr_tasks.
  by eapply console_interleaved_fair, fulfilled_fair.
Qed.

Lemma convert_Return_log_lines sched files p :
  (convert sched files).1.1 = Some (Return p) ->
  log_lines (convert sched files).1.2 ≡ₚ all_image_lines files.
Proof. intros Hc. by eapply interleaved_Permutation, convert_Return_interleaved. Qed.

(** ** Theorems *)

(** Whatever the schedule and the path taken, the lines the handler
    has written with [console.log] are progress lines of the images of the
    upload, none more often than the engine reported it; nothing is
    written for a preflight request or when the upload is refused. *)
Theorem console_lines_bounded sched request response0 :
  log_lines (logged (convertImageToText sched request response0))
  ⊆+ match upload request with
     | Return files => all_image_lines files
     | Throw _ => []
     end.
Proof.
  unfold convertImageToText.
  destruct (is_preflight request); [apply submseteq_nil_l|]. unfold try_block.
  destruct (upload request) as [files|e]; [|done].
  pose proof (convert_log_lines sched files) as Hl.
  destruct (convert sched files) as [[[[p|e]|] lines] late]; simpl in *.
  - etrans; [|exact Hl]. rewrite log_lines_app. apply submseteq_inserts_r. done.
  - by rewrite !log_lines_app in *.
  - etrans; [|exact Hl]. rewrite log_lines_app. apply submseteq_inserts_r. done.
Qed.

(** [console.error] is called exactly when the [try] block throws,
    once, with the value thrown: never for a preflight request, a success
    or while the handler waits. *)
Theorem error_logged_once sched request response0 :
  log_errors (logged (convertImageToText sched request response0))
  = if is_preflight request then []
    else match (try_block sched request).1.1 with
         | Some (Throw e) => [e]
         | _ => []
         end.
Proof.
  unfold convertImageToText. destruct (is_preflight request); [done|].
  unfold try_block. destruct (upload request) as [files|e]; [|done].
  destruct (convert_log_errors sched files) as [Hl Hlate].
  destruct (convert sched files) as [[[[p|e]|] lines] late];
    cbn [logged fst snd] in *; [done| |done].
  by rewrite !log_errors_app, Hl, Hlate.
Qed.

(** C35: when every OCR call fulfils and the PDF stream ends, the console
    interleaves the progress lines of the images when the handler answers,
    whatever the schedule: every line of every image is there once, the
    lines of one image in the order of its progress reports, and no
    error. *)
Theorem success_logs_every_line sched request response0 files (texts : list string) pdf :
  is_preflight request = false -> upload request = Return files ->
  recognised files texts ->
  pdfBuffer (zip_with extraction files texts) = Some (Return pdf) ->
  let r := convertImageToText sched request response0 in
  returned_ r = true ->
  interleaved (image_lines <$> files) (log_lines (logged r))
  /\ log_errors (logged r) = [].
Proof.
  intros Hp Hu Hall Hpdf r. subst r. unfold convertImageToText, try_block.
  rewrite Hp, Hu.
  pose proof (convert_Return_interleaved sched files) as Hlines.
  destruct (convert_log_errors sched files) as [Herr _].
  destruct (convert_recognised sched files texts Hall) as [Hc|Hc];
    destruct (convert sched files) as [[v lines] late]; simpl in *; subst v;
    [done|]. rewrite Hpdf in *. simpl. intros _. eauto.
Qed.

End Logging.

(** ** Witnesses *)

Lemma success_logs_every_line_witness :
  log_errors
    (logged
       (convertImageToText (H := fake_multipart two_images) (H0 := fake_ocr)
          (H1 := fake_renderer) [1; 0; 0; 1; 1; 0] (upload_request "POST")
          fresh_response)) = [].
Proof.
  refine (proj2
    (@success_logs_every_line (fake_multipart two_images) fake_ocr fake_renderer
       [1; 0; 0; 1; 1; 0] (upload_request "POST") fresh_response
       [png "a.png" [x01]; png "c.png" [x02]] ["text"; "text"]
       [x25; x50; x44; x46] _ _ _ _ _)).
  - reflexivity.
  - vm_compute. reflexivity.
  - repeat constructor.
  - reflexivity.
  - vm_compute. reflexivity.
Defined.
