(* ===== verification/Client.v ===== *)
(** * Client: what a caller reads from the answer

    The caller of the function gets a status, headers and a body.  This
    file is the caller's side: it parses the body as JSON, takes the
    properties it expects and decodes them from base64.  The theorems
    compose [Handler], [Json], [Base64] and [TextBundle]: on a success the
    caller reads back the bytes of the PDF and the text bundle of the
    images in upload order; on a failure it reads the error and the
    message of what was thrown; and it can tell the two apart by the body
    alone. *)

From Stdlib Require Import String List Lia.
From Stdlib Require Import Strings.Byte.
From stdpp Require Import base option list strings gmap.
From S2P Require Import Prelude Json Base64 Http Multipart FanOut Ocr.
From S2P Require Import TextBundle BundleReader Pdf Handler.

(** ** Reading *)

(** [obj[key]] on a parsed object: the last property of that name, as
    [JSON.parse] keeps it. *)
Fixpoint property (key : string) (obj : list (string * string)) : option string :=
  match obj with
  | [] => None
  | (k, v) :: rest =>
      match property key rest with
      | Some v' => Some v'
      | None => if String.eqb k key then Some v else None
      end
  end.

(** The two artifacts of a successful answer. *)
Record Artifacts : Type := {
  artifact_pdf : bytes;
  artifact_text : string;
}.

(** What a failure answer says. *)
Record FailureReport : Type := {
  failure_error : string;
  failure_details : option string;
}.

(** The body of the answer: what was sent last. *)
Definition body_of (r : Response) : option string := last (sent r).

(** The caller on the body of a success: parse, take [pdf] and [text],
    decode both. *)
Definition read_success (body : string) : option Artifacts :=
  obj ← parse_object body;
  pdf ← property "pdf" obj;
  text ← property "text" obj;
  pdf_bytes ← base64_decode pdf;
  text_bytes ← base64_decode text;
  Some {| artifact_pdf := pdf_bytes;
          artifact_text := string_of_list_byte text_bytes |}.

(** The caller on the body of a failure: parse, take [error] and, if it
    is there, [details]. *)
Definition read_failure (body : string) : option FailureReport :=
  obj ← parse_object body;
  error ← property "error" obj;
  Some {| failure_error := error; failure_details := property "details" obj |}.

(** ** Lemmas *)

Section Client.
Context `{MultipartLib} `{OcrEngine} `{PdfRenderer}.
Implicit Types (request : Request) (sched : list nat) (e : Thrown).
Implicit Types (files : list Part) (extracted : list ExtractionResult).

Lemma body_of_send_success (p : ResponsePayload) (r : Response) :
  body_of (send_success p r) = Some (stringify (payload_object p)).
Proof. unfold body_of. by rewrite sent_send_success, last_snoc. Qed.

Lemma body_of_send_failure e (r : Response) :
  body_of (send_failure e r) = Some (stringify (error_object e)).
Proof. unfold body_of. by rewrite sent_send_failure, last_snoc. Qed.

(** Reading the body of a success gives the artifacts back. *)
Lemma read_success_payload (pdf : bytes) extracted :
  read_success (stringify (payload_object (payload pdf extracted)))
  = Some {| artifact_pdf := pdf; artifact_text := textContent extracted |}.
Proof.
  unfold read_success. rewrite parse_object_stringify. simpl.
  rewrite !base64_decode_encode. simpl.
  by rewrite string_of_list_byte_of_string.
Qed.

(** Reading the body of a failure gives the error and the message. *)
Lemma read_failure_error e :
  read_failure (stringify (error_object e))
  = Some {| failure_error := "Failed to process images";
            failure_details := message e |}.
Proof.
  unfold read_failure. rewrite parse_object_stringify.
  by destruct e as [name msg|v].
Qed.

(** Neither body reads as the other. *)
Lemma read_failure_payload (p : ResponsePayload) :
  read_failure (stringify (payload_object p)) = None.
Proof. unfold read_failure. by rewrite parse_object_stringify. Qed.

Lemma read_success_error e :
  read_success (stringify (error_object e)) = None.
Proof.
  unfold read_success. rewrite parse_object_stringify.
  by destruct e as [name msg|v].
Qed.

(** ** Theorems *)

(** C36: end to end, on a success the caller gets back what the handler
    computed: parsing the body as JSON and decoding its [pdf] and [text]
    properties from base64 gives the bytes of the PDF and the text bundle
    of the recognised texts in the order of the images; the body does not
    read as a failure. *)
Theorem client_reads_artifacts sched request response0 files (texts : list string) pdf :
  is_preflight request = false -> upload request = Return files ->
  recognised files texts ->
  pdfBuffer (zip_with extraction files texts) = Some (Return pdf) ->
  let r := convertImageToText sched request response0 in
  returned_ r = true ->
  exists body,
    body_of (response r) = Some body
    /\ read_success body
       = Some {| artifact_pdf := pdf;
                 artifact_text := textContent (zip_with extraction files texts) |}
    /\ read_failure body = None.
Proof.
  intros Hp Hu Hall Hpdf r Hret. subst r.
  rewrite (success_response sched request response0 files texts pdf) by done.
  eexists. split_and!;
    [apply body_of_send_success | apply read_success_payload
    | apply read_failure_payload].
Qed.

(** C28: end to end, the caller gets the results back: when the file names
    of the images hold no line break and no line of a recognised text is
    a header line, reading the text artifact of the answer line by line
    gives the file name (["unknown"] for a part without one) and the
    text of every image, in the order of the upload. *)
Theorem client_reads_results sched request response0 files (texts : list string) pdf :
  is_preflight request = false -> upload request = Return files ->
  recognised files texts ->
  pdfBuffer (zip_with extraction files texts) = Some (Return pdf) ->
  Forall readable (zip_with extraction files texts) ->
  let r := convertImageToText sched request response0 in
  returned_ r = true ->
  (body_of (response r) ≫= read_success) ≫= (read_bundle ∘ artifact_text)
  = Some (zip_with extraction files texts).
Proof.
  intros Hp Hu Hall Hpdf Hr r Hret. subst r.
  rewrite (success_response sched request response0 files texts pdf) by done.
  rewrite body_of_send_success. cbn [mbind option_bind].
  rewrite read_success_payload. by apply read_textContent_lines.
Qed.

(** C34: end to end, when the [try] block throws the caller gets status
    500 and a body that parses to the error ["Failed to process images"]
    with the message of what was thrown as its details (no details when
    what was thrown has no message); the body does not read as a
    success. *)
Theorem client_reads_failure sched request response0 e :
  is_preflight request = false ->
  (try_block sched request).1.1 = Some (Throw e) ->
  let r := convertImageToText sched request response0 in
  statusCode (response r) = 500
  /\ exists body,
       body_of (response r) = Some body
       /\ read_failure body
          = Some {| failure_error := "Failed to process images";
                    failure_details := message e |}
       /\ read_success body = None.
Proof.
  intros Hp Ht r. subst r. unfold convertImageToText. rewrite Hp.
  destruct (try_block sched request) as [[v lines] late]. simpl in Ht. subst v.
  cbn [response]. split; [apply statusCode_send_failure|].
  eexists. split_and!;
    [apply body_of_send_failure | apply read_failure_error
    | apply read_success_error].
Qed.

End Client.

(** ** Witnesses *)

Lemma client_reads_artifacts_witness :
  exists body,
    body_of
      (response
         (convertImageToText (H := fake_multipart two_images) (H0 := fake_ocr)
            (H1 := fake_renderer) [1; 0; 0; 1; 1; 0] (upload_request "POST")
            fresh_response)) = Some body
    /\ read_success body
       = Some {| artifact_pdf := [x25; x50; x44; x46];
                 artifact_text :=
                   textContent
                     (zip_with extraction [png "a.png" [x01]; png "c.png" [x02]]
                        ["text"; "text"]) |}
    /\ read_failure body = None.
Proof.
  refine (@client_reads_artifacts (fake_multipart two_images) fake_ocr
            fake_renderer [1; 0; 0; 1; 1; 0] (upload_request "POST")
            fresh_response [png "a.png" [x01]; png "c.png" [x02]]
            ["text"; "text"] [x25; x50; x44; x46] _ _ _ _ _).
  - reflexivity.
  - vm_compute. reflexivity.
  - repeat constructor.
  - reflexivity.
  - vm_compute. reflexivity.
Defined.

Lemma client_reads_failure_witness :
  statusCode
    (response
       (convertImageToText (H := fake_multipart one_bad_image) (H0 := fake_ocr)
          (H1 := fake_renderer) [1; 1] (upload_request "POST") fresh_response))
  = 500.
Proof.
  refine (proj1
    (@client_reads_failure (fake_multipart one_bad_image) fake_ocr fake_renderer
       [1; 1] (upload_request "POST") fresh_response (new_Error "empty image")
       _ _)).
  - reflexivity.
  - vm_compute. reflexivity.
Defined.

Lemma client_reads_results_witness :
  (body_of
     (response
        (convertImageToText (H := fake_multipart two_images) (H0 := fake_ocr)
           (H1 := fake_renderer) [1; 0; 0; 1; 1; 0] (upload_request "POST")
           fresh_response)) ≫= read_success) ≫= (read_bundle ∘ artifact_text)
  = Some [{| item_filename := "a.png"; item_text := "text" |};
          {| item_filename := "c.png"; item_text := "text" |}].
Proof.
  refine (@client_reads_results (fake_multipart two_images) fake_ocr
            fake_renderer [1; 0; 0; 1; 1; 0] (upload_request "POST")
            fresh_response [png "a.png" [x01]; png "c.png" [x02]]
            ["text"; "text"] [x25; x50; x44; x46] _ _ _ _ _ _).
  - reflexivity.
  - vm_compute. reflexivity.
  - repeat constructor.
  - reflexivity.
  - by repeat constructor.
  - vm_compute. reflexivity.
Defined.
