(* ===== verification/CodeUnits.v ===== *)
(** * CodeUnits: the strings of the handler as JavaScript has them

    The other files model a JavaScript string by its UTF-8 bytes.  Here
    the string expressions of the handler are written on UTF-16 code
    units, as the source has them: the prefix test of the image filter,
    the line of the logger, the file name or ["unknown"], the heading of
    a page, the template literal and the [join] of the text bundle,
    [Buffer.from] and the objects of the two answers.  Each is shown to be the expression of the other files
    on the encoded strings, for every string, well formed or not: every
    string the handler interpolates stands between literals of the
    source, so no surrogate pair is made or split.  The last theorem
    composes this with [Handler] and [Client]: a caller who decodes the
    text artifact as UTF-8 reads the code points of the bundle. *)

From Stdlib Require Import String Ascii ZArith Lia List.
From Stdlib Require Import Strings.Byte.
From stdpp Require Import base option list strings gmap.
From S2P Require Import Prelude Json Base64 Utf8 JsonUnits Http Multipart.
From S2P Require Import FanOut Ocr.
From S2P Require Import TextBundle BundleReader Pdf Handler Client.

(** ** Parts and results on code units *)

(** A part of the upload with its strings as JavaScript has them. *)
Record Part16 : Type := {
  filename16 : option JsString;
  type16 : option JsString;
  data16 : bytes;
}.

(** The part of the other files: the strings by their bytes. *)
Definition encoded_part (part : Part16) : Part :=
  {| filename := utf8 <$> filename16 part;
     type := utf8 <$> type16 part;
     data := data16 part |}.

(** The strings of a part are made of 16-bit units. *)
Definition part_units (part : Part16) : Prop :=
  from_option (Forall code_unit) True (filename16 part)
  /\ from_option (Forall code_unit) True (type16 part).

(** The result object of an image, as the other files have it. *)
Definition encoded_item (item : JsString * JsString) : ExtractionResult :=
  {| item_filename := utf8 item.1; item_text := utf8 item.2 |}.

(** ** The handler's expressions *)

(** [part.type.startsWith("image/")]. *)
Definition is_image16 (part : Part16) : Exn bool :=
  match type16 part with
  | Some t => Return (startsWith16 t (lit "image/"))
  | None => Throw (TypeError_undefined "startsWith")
  end.

(** What string concatenation makes of a possibly undefined operand. *)
Definition to_String16 (v : option JsString) : JsString :=
  match v with
  | Some s => s
  | None => lit "undefined"
  end.

(** [v || d]: a string is falsy exactly when it is empty. *)
Definition js_or16 (v : option JsString) (d : JsString) : JsString :=
  match v with
  | Some (u :: s) => u :: s
  | _ => d
  end.

(** ["Processing " + file.filename + ": " + info.status]. *)
Definition logger16 (file : Part16) (status : option JsString) : JsString :=
  lit "Processing " ++ to_String16 (filename16 file) ++ lit ": "
  ++ to_String16 status.

(** [{ filename: file.filename || "unknown", text: text }]. *)
Definition extraction16 (file : Part16) (text : JsString) : JsString * JsString :=
  (js_or16 (filename16 file) (lit "unknown"), text).

(** [`Extracted from: ${item.filename}`]. *)
Definition heading_text16 (item : JsString * JsString) : JsString :=
  lit "Extracted from: " ++ item.1.

(** [`=== ${filename} ===\n\n${text}\n\n`]. *)
Definition section16 (item : JsString * JsString) : JsString :=
  lit "=== " ++ item.1 ++ lit (" ===" +:+ nl +:+ nl) ++ item.2 ++ lit (nl +:+ nl).

(** [extractedTexts.map(item => ...).join('---\n\n')]. *)
Definition textContent16 (items : list (JsString * JsString)) : JsString :=
  join16 (lit separator) (section16 <$> items).

(** The object of the answer:
    [{ pdf: pdfBuffer.toString('base64'),
       text: Buffer.from(textContent).toString('base64') }]. *)
Definition payload_object16 (pdf : bytes) (items : list (JsString * JsString)) : JsObject16 :=
  [(lit "pdf", Some (lit (base64_encode pdf)));
   (lit "text", Some (lit (base64_encode (Buffer_from16 (textContent16 items)))))].

(** The object of the failure answer:
    [{ error: "Failed to process images", details: error.message }]. *)
Definition error_object16 (details : option JsString) : JsObject16 :=
  [(lit "error", Some (lit "Failed to process images")); (lit "details", details)].

(** ** The caller *)

(** The caller decoding the text artifact as UTF-8. *)
Definition text_code_points (text : string) : option (list Z) :=
  utf8_decode (lit text).

(** ** The expressions on encoded strings *)

Lemma utf8_section16 (item : JsString * JsString) :
  utf8 (section16 item) = section (encoded_item item).
Proof.
  unfold section16, section. rewrite utf8_lit_app by done.
  rewrite utf8_app_lit by done.
  rewrite <- (app_nil_r (lit (nl +:+ nl))), utf8_app_lit by done.
  reflexivity.
Qed.

Lemma utf8_textContent16 (items : list (JsString * JsString)) :
  utf8 (textContent16 items) = textContent (encoded_item <$> items).
Proof.
  unfold textContent16, textContent. rewrite utf8_join16 by done.
  rewrite <- !list_fmap_compose. f_equal. apply list_fmap_ext.
  intros i item _. apply utf8_section16.
Qed.

Lemma utf8_to_String16 (v : option JsString) :
  utf8 (to_String16 v) = to_String (utf8 <$> v).
Proof. by destruct v. Qed.

Lemma utf8_logger16 (file : Part16) (status : option JsString) :
  utf8 (logger16 file status) = logger (encoded_part file) (utf8 <$> status).
Proof.
  unfold logger16, logger.
  by rewrite utf8_lit_app, utf8_app_lit, !utf8_to_String16.
Qed.

Lemma utf8_js_or16 (v : option JsString) (d : string) :
  ascii_string d = true -> utf8 (js_or16 v (lit d)) = js_or (utf8 <$> v) d.
Proof.
  intros Hd. destruct v as [[|u s]|]; simpl.
  - by rewrite utf8_lit.
  - by destruct (utf8_cons u s) as (a & t & ->).
  - by rewrite utf8_lit.
Qed.

Lemma encoded_extraction16 (file : Part16) (text : JsString) :
  encoded_item (extraction16 file text)
  = extraction (encoded_part file) (utf8 text).
Proof.
  unfold encoded_item, extraction16, extraction. simpl.
  by rewrite utf8_js_or16.
Qed.

Lemma utf8_heading_text16 (item : JsString * JsString) :
  utf8 (heading_text16 item)
  = "Extracted from: " +:+ item_filename (encoded_item item).
Proof. unfold heading_text16. by rewrite utf8_lit_app. Qed.

Lemma is_image_encoded_part (file : Part16) :
  part_units file -> is_image (encoded_part file) = is_image16 file.
Proof.
  intros [_ Ht]. unfold is_image, is_image16. simpl.
  destruct (type16 file) as [t|]; simpl in *; [|done].
  by rewrite startsWith_utf8.
Qed.

(** The results of the images, encoded. *)
Lemma encoded_extractions (files : list Part16) (texts : list JsString) :
  encoded_item <$> zip_with extraction16 files texts
  = zip_with extraction (encoded_part <$> files) (utf8 <$> texts).
Proof.
  revert texts. induction files as [|file files IH]; intros [|text texts];
    [done..|].
  rewrite !fmap_cons. simpl. by rewrite IH, encoded_extraction16.
Qed.

(** ** Code units *)

Lemma code_unit_textContent16 (items : list (JsString * JsString)) :
  Forall (fun item => Forall code_unit item.1 /\ Forall code_unit item.2) items ->
  Forall code_unit (textContent16 items).
Proof.
  intros Hitems. apply code_unit_join16; [apply code_unit_lit|].
  apply Forall_fmap. eapply Forall_impl; [exact Hitems|].
  intros item [Hn Ht]. unfold compose, section16.
  rewrite !Forall_app. auto using code_unit_lit.
Qed.

Lemma code_unit_extractions (files : list Part16) (texts : list JsString) :
  Forall part_units files -> Forall (Forall code_unit) texts ->
  Forall (fun item => Forall code_unit item.1 /\ Forall code_unit item.2)
    (zip_with extraction16 files texts).
Proof.
  intros Hfiles. revert texts.
  induction Hfiles as [|file files [Hn _] _ IH]; intros texts Htexts; [constructor|].
  destruct Htexts as [|text texts Ht Htexts]; [constructor|].
  simpl. constructor; [|by apply IH]. split; [|done]. simpl.
  destruct (filename16 file) as [[|u s]|]; simpl in *; auto using code_unit_lit.
Qed.

(** ** Reading the text *)

(** Decoding the bytes of a string gives its code points. *)
Lemma text_code_points_utf8 (s : JsString) :
  Forall code_unit s -> text_code_points (utf8 s) = Some (code_points s).
Proof.
  intros Hs. unfold text_code_points.
  by rewrite lit_utf8, utf8_decode_encode by (by try apply code_points_scalar).
Qed.

Lemma Buffer_from_utf8 (s : JsString) : Buffer_from (utf8 s) = Buffer_from16 s.
Proof. apply list_byte_of_string_of_list_byte. Qed.

(** ** The bodies of the answers *)

(** The body of a success is the text of [JSON.stringify] on code
    units: its values are base64 text. *)
Lemma utf8_payload_object16 (pdf : bytes) (items : list (JsString * JsString)) :
  utf8 (stringify16 (payload_object16 pdf items))
  = stringify (payload_object (payload pdf (encoded_item <$> items))).
Proof.
  rewrite utf8_stringify16.
  - unfold payload_object16, payload_object, payload, encoded_object.
    cbn [fmap list_fmap option_fmap option_map fst snd payload_pdf payload_text].
    by rewrite !utf8_lit, <- utf8_textContent16, Buffer_from_utf8
      by (by try apply ascii_base64_encode).
  - repeat apply Forall_cons_2; try apply Forall_nil_2;
      split; apply well_formed_lit; by try apply ascii_base64_encode.
Qed.

(** The body of a failure, when the message has no surrogate without its
    partner. *)
Lemma utf8_error_object16 (e : Thrown) (details : option JsString) :
  message e = utf8 <$> details -> from_option well_formed16 True details ->
  utf8 (stringify16 (error_object16 details)) = stringify (error_object e).
Proof.
  intros He Hd. rewrite utf8_stringify16.
  - unfold error_object16, error_object, encoded_object.
    cbn [fmap list_fmap fst snd]. by rewrite He, !utf8_lit.
  - repeat apply Forall_cons_2; try apply Forall_nil_2;
      split; by try apply well_formed_lit.
Qed.

(** ** Theorems *)

(** C21: the byte strings of the development are exact for the strings
    of JavaScript: on the UTF-8 bytes of any file name, type, status and
    text, the image test, the line of the logger, the result object,
    the heading of the page and the text bundle are the UTF-8 bytes of
    what the handler computes on UTF-16 code units, and the bytes sent
    as the text artifact are those of [Buffer.from] on the bundle.  This
    holds for strings with unpaired surrogates too.  The body of a
    success is the UTF-8 text of [JSON.stringify] on code units, and so
    is the body of a failure when the message of the error has no
    surrogate without its partner. *)
Theorem handler_strings_exact (file : Part16) (status : option JsString)
    (text : JsString)
    (items : list (JsString * JsString)) :
  (part_units file -> is_image (encoded_part file) = is_image16 file)
  /\ logger (encoded_part file) (utf8 <$> status) = utf8 (logger16 file status)
  /\ extraction (encoded_part file) (utf8 text)
     = encoded_item (extraction16 file text)
  /\ (forall item, "Extracted from: " +:+ item_filename (encoded_item item)
                   = utf8 (heading_text16 item))
  /\ textContent (encoded_item <$> items) = utf8 (textContent16 items)
  /\ Buffer_from (textContent (encoded_item <$> items))
     = Buffer_from16 (textContent16 items)
  /\ (forall pdf, stringify (payload_object (payload pdf (encoded_item <$> items)))
                  = utf8 (stringify16 (payload_object16 pdf items)))
  /\ (forall e details,
        message e = utf8 <$> details -> from_option well_formed16 True details ->
        stringify (error_object e) = utf8 (stringify16 (error_object16 details))).
Proof.
  split_and!.
  - apply is_image_encoded_part.
  - by rewrite utf8_logger16.
  - by rewrite encoded_extraction16.
  - intros item. by rewrite utf8_heading_text16.
  - by rewrite utf8_textContent16.
  - by rewrite <- utf8_textContent16, Buffer_from_utf8.
  - intros pdf. by rewrite utf8_payload_object16.
  - intros e details He Hd. by rewrite (utf8_error_object16 e).
Qed.

(** C23: what is read of the text artifact.  A caller that decodes the
    bytes of [Buffer.from(s)] as UTF-8 reads the code points of [s],
    whatever the string: the surrogate pairs as one code point each,
    U+FFFD for a surrogate without its partner, every other unit as it
    is.  So the bytes the handler sends as the text artifact (line 114)
    decode to the code points of the bundle it built on code units from
    the file names and the texts. *)
Theorem text_artifact_decodes (items : list (JsString * JsString)) :
  (forall s, Forall code_unit s ->
     utf8_decode (b2z <$> Buffer_from16 s) = Some (code_points s))
  /\ (Forall (fun item : JsString * JsString =>
                Forall code_unit item.1 /\ Forall code_unit item.2) items ->
      utf8_decode (b2z <$> Buffer_from (textContent (encoded_item <$> items)))
      = Some (code_points (textContent16 items))).
Proof.
  split; [apply Buffer_from16_decodes|]. intros Hitems.
  rewrite <- utf8_textContent16, Buffer_from_utf8.
  by apply Buffer_from16_decodes, code_unit_textContent16.
Qed.

(** C24: what is read of the body of an answer.  The text
    [JSON.stringify] makes of an object has no surrogate without its
    partner, whatever the strings of the object (one is written as the
    escape of its number), so its UTF-8 encoding replaces nothing and a
    caller that decodes the bytes has the text again; for strings
    without unpaired surrogates it is the text the serialisation on
    bytes writes.  So the bodies of both answers of the handler (lines
    112-115 and 118-121) reach the caller as they were written, the
    body of a failure whatever the message of the error is. *)
Theorem answer_bodies_sent (pdf : bytes) (items : list (JsString * JsString))
    (details : option JsString) :
  (forall obj, object_units obj ->
     decode_body (Buffer_from16 (stringify16 obj)) = Some (stringify16 obj)
     /\ (well_formed_object obj ->
         utf8 (stringify16 obj) = stringify (encoded_object obj)))
  /\ decode_body (Buffer_from16 (stringify16 (payload_object16 pdf items)))
     = Some (stringify16 (payload_object16 pdf items))
  /\ (from_option (Forall code_unit) True details ->
      decode_body (Buffer_from16 (stringify16 (error_object16 details)))
      = Some (stringify16 (error_object16 details))).
Proof.
  split_and!; [apply stringify16_sent| |intros Hd];
    apply stringify16_sent; repeat apply Forall_cons_2; try apply Forall_nil_2;
    split; simpl; auto using code_unit_lit.
Qed.

Section EndToEnd.
Context `{MultipartLib} `{OcrEngine} `{PdfRenderer}.

(** C22: end to end on code units: when the upload holds the images
    [files] and the engine reads the texts [texts] in them, a caller who
    parses the body of the answer, decodes the [text] property from
    base64 and the bytes as UTF-8 reads the code points of the bundle
    the handler built from the file names (or ["unknown"]) and the
    texts, in the order of the upload. *)
Theorem client_reads_code_points sched request response0
    (files : list Part16) (texts : list JsString) pdf :
  is_preflight request = false ->
  upload request = Return (encoded_part <$> files) ->
  recognised (encoded_part <$> files) (utf8 <$> texts) ->
  pdfBuffer (zip_with extraction (encoded_part <$> files) (utf8 <$> texts))
  = Some (Return pdf) ->
  Forall part_units files -> Forall (Forall code_unit) texts ->
  let r := convertImageToText sched request response0 in
  returned_ r = true ->
  exists body artifacts,
    body_of (response r) = Some body
    /\ read_success body = Some artifacts
    /\ text_code_points (artifact_text artifacts)
       = Some (code_points (textContent16 (zip_with extraction16 files texts))).
Proof.
  intros Hp Hu Hall Hpdf Hfiles Htexts r Hret. subst r.
  rewrite (success_response sched request response0 _ _ pdf) by done.
  eexists _, _. split_and!;
    [apply body_of_send_success | apply read_success_payload |].
  cbn [artifact_text]. rewrite <- encoded_extractions, <- utf8_textContent16.
  by apply text_code_points_utf8, code_unit_textContent16, code_unit_extractions.
Qed.

End EndToEnd.

(** ** Witnesses *)

(** The images of [two_images] on code units. *)
Definition png16 (name : string) (content : bytes) : Part16 :=
  {| filename16 := Some (lit name); type16 := Some (lit "image/png");
     data16 := content |}.

Lemma client_reads_code_points_witness :
  exists body artifacts,
    body_of (response
      (convertImageToText (H := fake_multipart two_images) (H0 := fake_ocr)
         (H1 := fake_renderer) [1; 0; 0; 1; 1; 0] (upload_request "POST")
         fresh_response)) = Some body
    /\ read_success body = Some artifacts
    /\ text_code_points (artifact_text artifacts)
       = Some (code_points
                 (textContent16
                    (zip_with extraction16
                       [png16 "a.png" [x01]; png16 "c.png" [x02]]
                       [lit "text"; lit "text"]))).
Proof.
  refine (@client_reads_code_points (fake_multipart two_images) fake_ocr
            fake_renderer [1; 0; 0; 1; 1; 0] (upload_request "POST")
            fresh_response [png16 "a.png" [x01]; png16 "c.png" [x02]]
            [lit "text"; lit "text"] [x25; x50; x44; x46] _ _ _ _ _ _ _).
  - reflexivity.
  - vm_compute. reflexivity.
  - repeat constructor.
  - reflexivity.
  - apply Forall_cons_2; [split; apply code_unit_lit|].
    apply Forall_cons_2; [split; apply code_unit_lit|]. apply Forall_nil_2.
  - apply Forall_cons_2; [apply code_unit_lit|].
    apply Forall_cons_2; [apply code_unit_lit|]. apply Forall_nil_2.
  - vm_compute. reflexivity.
Defined.
